(* ===== verification/_CoqProject ===== *)
-Q . S2P
Prelude.v
Attotime.v
Device.v
Scheduler.v
Execute.v
ExecuteFacts.v
TimerLoop.v
Timeslice.v
ExecuteLaws.v
Serial.v
Duart.v
DuartInv.v
DuartFacts.v
DuartMirror.v
Crc16.v
Harddisk.v
SdCard.v
SdCsd.v
SdSpi.v
SdSession.v
SdTransfer.v
M6502.v
Memory.v
Units.v
Board.v
BoardSpi.v
Rosco6502.v
RoscoM68k.v
Rosco32.v
CpuSpace.v
