(* ===== verification/Prelude.v ===== *)
(** * rosco emulator: verification development

    The repository is a MAME tree cut down to the drivers of the rosco boards:
    the rosco_6502 (a 65C02 with banked memory) and four rosco_m68k boards
    (68000, 68010, 68020, 68030).  The development models what those machines
    are made of below the processors' instruction sets, and how the emulator
    drives it: time, timers and timeslices, the serial interface, the DUART,
    the SD card and its disk image, address spaces, and the boards that put
    them together.  Sources are named from src/src/ in each file.

    ** How the parts interact

    The scheduler (src/src/emu/schedule.cpp) keeps a base time, an ordered list of
    timers and a list of executing devices.  [device_scheduler::timeslice]
    runs every processor up to the next timer or the end of a quantum, then
    the timers that are due call back into devices.  A processor reads and
    writes an address space (src/src/emu/emumem*.cpp), which splits the access
    into accesses of its bus width and these into accesses of the handlers.
    On the boards the handlers are RAM and ROM, a bank or a view, and the
    DUART (src/src/devices/machine/mc68681.cpp).  The DUART has two serial
    channels built on src/src/emu/diserial.cpp, an interrupt output, a
    counter/timer, and input and output ports.  Output-port pins are the
    clock, data-in and select of the SD card (spi_sdcard.cpp), whose data-out
    is an input pin; the card reads and writes sectors of a hard disk image
    (harddisk.cpp) and sends them with a CRC-16 (hashing.cpp).

    ** Files

    - [Prelude]: machine integers as [Z] with explicit wrap-around ([u8], [u16],
      [s32], ...), bit tests and bit-set lemmas, record update notation, the
      hint databases [mame] and [bits], lemmas on lists.
    - [Attotime] (emu/attotime.h, .cpp, osd/eminline.h): [attotime] and its
      arithmetic; [val], the exact number of attoseconds, is the specification.
    - [Device] (emu/device.cpp): clock conversions.
    - [Scheduler] (emu/schedule.h, .cpp): [emu_timer] and the two intrusive
      lists, in a store of timers by number; [inv] relates the store to two
      abstract lists.
    - [Execute], [ExecuteFacts], [Timeslice], [ExecuteLaws] (emu/diexec.h, .cpp
      and the rest of schedule.cpp): devices that execute, with suspension,
      triggers, input-line queues, quanta and the timeslice loop.  A processor
      is an instance of the class [ExecuteInterface]; what it may do during a
      run is the step relation [cpu_step], each step with the cycles it costs.
    - [TimerLoop]: [execute_timers] (emu/schedule.cpp) with callbacks that use
      the timers themselves; what they may do is the relation [arms].
    - [Serial] (emu/diserial.h, .cpp): the serial interface, against the class
      [SerialDevice] of the hooks a device overrides, and the buffered one.
    - [Duart], [DuartInv], [DuartFacts], [DuartMirror] (devices/machine/
      mc68681.h, .cpp): the chip family, against the class [DuartEnv] of the
      lines it drives, whose laws are [DuartEnvLaws]; the invariant; the
      behaviour of the FIFOs, interrupts, ports and counter.
    - [Crc16] (lib/util/hashing.*, multibyte.h), [Harddisk] (lib/util/
      harddisk.*, devices/imagedev/harddriv.cpp): the CRC of data blocks; the
      disk image, over the classes [ChdFile] and [RandomReadWrite].
      [BlockImage] with its laws [BlockImageLaws] is what Harddisk promises
      to the card.
    - [SdCard], [SdCsd], [SdSpi], [SdSession], [SdTransfer] (devices/machine/
      spi_sdcard.h, .cpp): the card's pins, commands and registers; then, in
      layers, the CSD, bytes instead of clock edges, queues of bytes, and
      whole block transfers.
    - [M6502] (devices/cpu/m6502/m6502.*, w65c02.cpp): the functions the opcodes
      call and the interrupt inputs.
    - [Memory], [Units] (emu/emumem*.cpp, .h, .ipp, addrmap.cpp): the
      decomposition of accesses over the class [NativeBus], what it means for
      a bus to be memory ([BusMemory]), RAM handlers, banks and views; handlers
      narrower than the bus.
    - [Board], [BoardSpi] (rosco/drivers/rosco_6502.cpp and rosco_m68k.cpp, the
      machine configurations): the wiring of DUART, card, serial lines and
      interrupt, an instance of [DuartEnv] whose laws are proved.
    - [Rosco6502], [RoscoM68k], [Rosco32], [CpuSpace] (the drivers): address
      maps, start and reset, banking, boot vectors, bus errors, interrupt
      vectors and quickload; [Rosco32] has the 32-bit boards.

    A C++ member function is the definition of the same name on the record of
    its class (several objects that call each other share one state, as
    [sched * W] or [duart * W]); a virtual function or a callback is a method
    of a class; a pointer that may be null or a fatal error is an [option]; an
    error code is a sum.

    ** What the theorems show

    - Time is exact: attotime arithmetic is integer arithmetic on attoseconds,
      saturated at [never]; timers run in order, once due, and the queue is
      caught up, although callbacks set, re-arm and stop timers; the quanta
      are a finite map; the changes of an input line arrive in order and once.
    - The timeslice loop reaches the next timer and leaves no processor a cycle
      behind when that timer is less than a second away, suspended processors
      have their cycles eaten and nobody is behind at the start;
      otherwise a processor can be left behind ([slice_can_be_skipped]).  In
      a slice, time is the time at its start and the cycles spent, also when
      the slice is cut short, and the scheduler records just that.
    - The serial line carries bytes: a frame decodes to the byte that was sent,
      a flipped bit is caught by the parity, the FIFO is a bounded queue.
    - The DUART is consistent after any history of accesses, clock edges, pin
      changes and resets; its receive FIFO is a queue of four; its interrupt
      status mirrors the channels, but for one register of the MC68340 that
      [DuartMirror.bypassing_MR1_diverges] shows to bypass it; input changes
      are reported once on a board that does not move the inputs from inside
      the chip's own interrupt or port output.
    - The card stores blocks: from power-up, a write command and a read command
      clocked in bit by bit return the block through the protocol of the
      card, on any image that keeps its blocks apart, which the hard disk
      images do; the CSD announces the size of the image; the table-driven
      CRC is polynomial division.  On the board the same exchanges can be
      made through the DUART's registers, except that the first bit after a
      select is the old level of the line, which the card drives on falling
      clock edges only; and the callbacks between the two recurse at most
      once.
    - Address spaces are memory: an access of any width, alignment and byte
      order reads and changes exactly the bits it addresses; a narrow handler
      on a wide bus sees the accesses of a narrow bus; the banked 65C02 board
      and the 68000 boards read back what was written, with the boot vectors
      over it until the first write; the 32-bit boards agree with the 16-bit
      one access by access; a bus error is signalled once and the guard
      re-opens; every interrupt level has its vector; quickload puts the image
      in place.
    - The 6502's arithmetic and its flags are right in binary mode, and in
      decimal mode on packed decimal operands; an interrupt edge is never
      lost, and levels count at the fetch.

    Some theorems have hypotheses about what is outside: laws of an interface
    class, a processor that runs at least a cycle, timer callbacks that arm
    timers for the same instant only in the order of a rank.  They are in the
    statement and in its comment, and the witnesses instantiate them.  Theorems that state a defect of the code
    ([Attotime.div_one_adds_attosecond], [DuartFacts.receiver_reset_keeps_ffull],
    [Harddisk.raw_sectors_alias], [Timeslice.slice_can_be_skipped],
    [DuartMirror.bypassing_MR1_diverges],
    [SdTransfer.write_without_image_faults]) prove what the code does.

    ** Bounds and fuel

    - Integers have the width of the source; signed overflow, undefined in C++,
      is left as arithmetic on [Z] where noted.
    - [Board.outport] has fuel 2: [recursion_is_bounded] shows that more makes
      no difference.
    - [Scheduler]: the scans take the size of the store as fuel, and no list is
      longer; [TimerLoop.execute_timers_catches_up] shows that there is enough
      fuel for [execute_timers], by the base time left to go and, at one
      instant, the timers of each rank; when the callbacks leave the scheduler
      alone, [work], the number of expiries up to the base time, is enough.
    - [Execute.run_until_timer] and [timeslice] take any fuel and return [None]
      without enough; [cpu_loop_reaches_timer] shows there is enough under its
      conditions.
      [empty_events] has 33, one more than the queue; [divisor_shift] has 64,
      the bits of its operand.
    - [Harddisk.guess_geometry] has fuel 4: [geometry_guess_terminates] shows at
      most three sectors are added.
    - [SdCard.trailing_zeros] has the bits of its operand, 32 or 64; the splits
      of a memory access are bounded by MAX_SPLITS.

    ** Not modelled

    - Instruction execution: the opcode bodies are generated (m6502make.py from
      .lst files, m68kmake.py and m68000gen.py), and make up nearly all the
      C++ of their directories.  The boards see a processor by its bus
      accesses, its lines and its events.
    - The dispatch tables and the parsing of address maps: each board's map is
      written out as a case analysis on the address, with the offset and mask
      of a handler computed as [check_optimize_all] does.  Taps, caches,
      watchpoints, mirrors and the accesses that return flags are left out.
    - The ATA interface, CHD files, host files, and what is plugged into the
      RS-232 ports: interfaces of the model or its outside.
    - Floating-point conversions, string formatting and logging, save-state
      registration, validity checks, debugger and profiler hooks, the vertical
      blank interrupts of screens (there is no screen).
    - The rest of the tree (front end, operating-system layer, rendering, sound,
      user interface, netlist, image formats, tools, third-party code), which
      the rosco boards do not depend on or which is host input and output.
*)

From stdpp Require Import base tactics list numbers option.
From Stdlib Require Import ZArith Lia Bool.

Open Scope Z_scope.

Create HintDb mame.
Create Rewrite HintDb bits.

(** ** Machine integers

    A C++ integer of width [w] is a [Z]; an assignment or a conversion to an
    unsigned width reduces modulo [2^w], one to a signed width picks the
    two's-complement representative. *)

Definition u8 (z : Z) : Z := z mod 256.
Definition u16 (z : Z) : Z := z mod 65536.
Definition u32 (z : Z) : Z := z mod 4294967296.
Definition u64 (z : Z) : Z := z mod 18446744073709551616.
Definition s8 (z : Z) : Z := (z + 128) mod 256 - 128.
Definition s32 (z : Z) : Z := (z + 2147483648) mod 4294967296 - 2147483648.
Definition s64 (z : Z) : Z :=
  (z + 9223372036854775808) mod 18446744073709551616 - 9223372036854775808.

Definition is_u8 (z : Z) : Prop := 0 <= z < 256.
Definition is_u16 (z : Z) : Prop := 0 <= z < 65536.
Definition is_u32 (z : Z) : Prop := 0 <= z < 4294967296.

Lemma u8_range z : is_u8 (u8 z).
Proof. apply Z.mod_pos_bound; lia. Qed.
Lemma u16_range z : is_u16 (u16 z).
Proof. apply Z.mod_pos_bound; lia. Qed.
Lemma u32_range z : is_u32 (u32 z).
Proof. apply Z.mod_pos_bound; lia. Qed.

Lemma u8_id z : 0 <= z < 256 -> u8 z = z.
Proof. apply Z.mod_small. Qed.
Lemma u16_id z : 0 <= z < 65536 -> u16 z = z.
Proof. apply Z.mod_small. Qed.
Lemma u32_id z : 0 <= z < 4294967296 -> u32 z = z.
Proof. apply Z.mod_small. Qed.
Lemma u64_id z : 0 <= z < 18446744073709551616 -> u64 z = z.
Proof. apply Z.mod_small. Qed.
Lemma s32_id z : -2147483648 <= z < 2147483648 -> s32 z = z.
Proof. intros H. unfold s32. rewrite Z.mod_small; lia. Qed.
Lemma s64_id z :
  -9223372036854775808 <= z < 9223372036854775808 -> s64 z = z.
Proof. intros H. unfold s64. rewrite Z.mod_small; lia. Qed.

#[export] Hint Resolve u8_range u16_range u32_range : mame.

(** ** Bit tests

    [test x m] is the truth value of the C++ expression [x & m]; [BIT] and
    [BITw] are the one-bit and the [w]-bit forms of [util::BIT]. *)

Definition test (x m : Z) : bool := negb (Z.land x m =? 0).
Definition BIT (x n : Z) : Z := Z.land (Z.shiftr x n) 1.
Definition BITw (x n w : Z) : Z := Z.land (Z.shiftr x n) (Z.ones w).
Definition bit_set (x n : Z) : bool := BIT x n =? 1.
Definition b2z (b : bool) : Z := if b then 1 else 0.

(** [x &= ~m] and [x |= m] on a byte. *)
Definition clear_bits (m x : Z) : Z := u8 (Z.land x (Z.lnot m)).
Definition set_bits (m x : Z) : Z := u8 (Z.lor x m).

Lemma land_pow2 x n : 0 <= n -> Z.land x (2 ^ n) = if Z.testbit x n then 2 ^ n else 0.
Proof.
  intros Hn. apply Z.bits_inj'. intros i Hi.
  rewrite Z.land_spec, Z.pow2_bits_eqb by lia.
  destruct (Z.eqb_spec n i) as [->|Hne].
  - destruct (Z.testbit x i); [|by rewrite Z.bits_0].
    by rewrite Z.pow2_bits_true.
  - rewrite andb_false_r. destruct (Z.testbit x n); [|by rewrite Z.bits_0].
    rewrite Z.pow2_bits_false; auto.
Qed.

Lemma test_pow2 x n : 0 <= n -> test x (2 ^ n) = Z.testbit x n.
Proof.
  intros Hn. unfold test. rewrite land_pow2 by done.
  destruct (Z.testbit x n); [|done].
  pose proof (Z.pow_pos_nonneg 2 n). destruct (Z.eqb_spec (2 ^ n) 0); [lia|done].
Qed.

(** The eight single-bit masks of a register byte, as rewrite rules. *)
Lemma test_01 x : test x 0x01 = Z.testbit x 0. Proof. rewrite <- test_pow2 by lia. reflexivity. Qed.
Lemma test_02 x : test x 0x02 = Z.testbit x 1. Proof. rewrite <- test_pow2 by lia. reflexivity. Qed.
Lemma test_04 x : test x 0x04 = Z.testbit x 2. Proof. rewrite <- test_pow2 by lia. reflexivity. Qed.
Lemma test_08 x : test x 0x08 = Z.testbit x 3. Proof. rewrite <- test_pow2 by lia. reflexivity. Qed.
Lemma test_10 x : test x 0x10 = Z.testbit x 4. Proof. rewrite <- test_pow2 by lia. reflexivity. Qed.
Lemma test_20 x : test x 0x20 = Z.testbit x 5. Proof. rewrite <- test_pow2 by lia. reflexivity. Qed.
Lemma test_40 x : test x 0x40 = Z.testbit x 6. Proof. rewrite <- test_pow2 by lia. reflexivity. Qed.
Lemma test_80 x : test x 0x80 = Z.testbit x 7. Proof. rewrite <- test_pow2 by lia. reflexivity. Qed.

Lemma BIT_testbit x n : 0 <= n -> BIT x n = b2z (Z.testbit x n).
Proof.
  intros Hn. unfold BIT. change 1 with (2 ^ 0). rewrite land_pow2 by lia.
  rewrite Z.shiftr_spec, Z.add_0_l by lia. by destruct (Z.testbit x n).
Qed.

Lemma bit_set_testbit x n : 0 <= n -> bit_set x n = Z.testbit x n.
Proof. intros Hn. unfold bit_set. rewrite BIT_testbit by done. by destruct (Z.testbit x n). Qed.

Lemma lnot_testbit x n : 0 <= n -> Z.testbit (Z.lnot x) n = negb (Z.testbit x n).
Proof. apply Z.lnot_spec. Qed.

#[export] Hint Rewrite test_01 test_02 test_04 test_08 test_10 test_20 test_40 test_80
  Z.land_spec Z.lor_spec Z.lxor_spec : bits.
#[export] Hint Rewrite lnot_testbit bit_set_testbit using lia : bits.

Lemma testbit_u8 x n : 0 <= n < 8 -> Z.testbit (u8 x) n = Z.testbit x n.
Proof. intros H. unfold u8. change 256 with (2 ^ 8). apply Z.mod_pow2_bits_low; lia. Qed.

Lemma testbit_u16 x n : 0 <= n < 16 -> Z.testbit (u16 x) n = Z.testbit x n.
Proof. intros H. unfold u16. change 65536 with (2 ^ 16). apply Z.mod_pow2_bits_low; lia. Qed.

#[export] Hint Rewrite testbit_u8 testbit_u16 using lia : bits.

(** Evaluates every test of a literal bit of a literal word. *)
Ltac eval_bits :=
  repeat match goal with
  | |- context [Z.testbit ?c ?n] =>
      let b := eval vm_compute in (Z.testbit c n) in
      match b with
      | true => change (Z.testbit c n) with true
      | false => change (Z.testbit c n) with false
      end
  end.

Ltac bits_simp :=
  autorewrite with bits; eval_bits;
  rewrite ?andb_true_r, ?andb_false_r, ?orb_true_r, ?orb_false_r,
    ?andb_true_l, ?andb_false_l, ?orb_true_l, ?orb_false_l,
    ?xorb_true_r, ?xorb_false_r; cbn [negb].

(** ** Bytes are closed under the bit operations *)

Lemma bits_below w z : 0 <= w ->
  0 <= z < 2 ^ w <-> 0 <= z /\ forall n, w <= n -> Z.testbit z n = false.
Proof.
  intros Hw. split.
  - intros [H0 H1]. split; [done|]. intros n Hn. rewrite <- (Z.mod_small z (2 ^ w)) by done.
    by apply Z.mod_pow2_bits_high.
  - intros [H0 Hb]. split; [done|]. destruct (Z.lt_ge_cases z (2 ^ w)) as [|Hge]; [done|exfalso].
    assert (0 < z) by (pose proof (Z.pow_pos_nonneg 2 w); lia).
    assert (w <= Z.log2 z) as Hl by (rewrite <- (Z.log2_pow2 w) by done; by apply Z.log2_le_mono).
    specialize (Hb _ Hl). by rewrite Z.bit_log2 in Hb.
Qed.

Lemma is_u8_bits z : is_u8 z <-> 0 <= z /\ forall n, 8 <= n -> Z.testbit z n = false.
Proof. by apply (bits_below 8). Qed.
Lemma is_u16_bits z : is_u16 z <-> 0 <= z /\ forall n, 16 <= n -> Z.testbit z n = false.
Proof. by apply (bits_below 16). Qed.

Lemma u8_land x y : is_u8 x -> is_u8 (Z.land x y).
Proof.
  rewrite !is_u8_bits. intros [H0 Hb]. split; [apply Z.land_nonneg; auto|].
  intros n Hn. rewrite Z.land_spec, Hb by done. done.
Qed.
Lemma u8_lor x y : is_u8 x -> is_u8 y -> is_u8 (Z.lor x y).
Proof.
  rewrite !is_u8_bits. intros [H0 Hb] [H1 Hc]. split; [by apply Z.lor_nonneg|].
  intros n Hn. by rewrite Z.lor_spec, Hb, Hc.
Qed.
Lemma u8_lxor x y : is_u8 x -> is_u8 y -> is_u8 (Z.lxor x y).
Proof.
  rewrite !is_u8_bits. intros [H0 Hb] [H1 Hc].
  split; [apply Z.lxor_nonneg; tauto|].
  intros n Hn. by rewrite Z.lxor_spec, Hb, Hc.
Qed.
Lemma u16_lor x y : is_u16 x -> is_u16 y -> is_u16 (Z.lor x y).
Proof.
  rewrite !is_u16_bits. intros [H0 Hb] [H1 Hc]. split; [by apply Z.lor_nonneg|].
  intros n Hn. by rewrite Z.lor_spec, Hb, Hc.
Qed.
Lemma u16_land x y : is_u16 x -> is_u16 (Z.land x y).
Proof.
  rewrite !is_u16_bits. intros [H0 Hb]. split; [apply Z.land_nonneg; auto|].
  intros n Hn. by rewrite Z.land_spec, Hb.
Qed.
Lemma u8_u16 x : is_u8 x -> is_u16 x.
Proof. unfold is_u8, is_u16. lia. Qed.
Lemma u16_shiftl x : is_u8 x -> is_u16 (Z.shiftl x 8).
Proof. unfold is_u8, is_u16. rewrite Z.shiftl_mul_pow2 by lia. lia. Qed.
Lemma u8_shiftr x : is_u16 x -> is_u8 (Z.shiftr x 8).
Proof.
  unfold is_u8, is_u16. rewrite Z.shiftr_div_pow2 by lia. change (2 ^ 8) with 256.
  intros [H0 H1]. split; [apply Z.div_pos|apply Z.div_lt_upper_bound]; lia.
Qed.
Lemma u8_land_r x y : is_u8 y -> is_u8 (Z.land x y).
Proof. intros Hy. rewrite Z.land_comm. by apply u8_land. Qed.
#[export] Hint Resolve u8_land u8_lor u8_lxor u16_lor u16_land u8_u16 u16_shiftl u8_shiftr : mame.

Lemma u8_ext x y :
  is_u8 x -> is_u8 y ->
  (forall n, 0 <= n < 8 -> Z.testbit x n = Z.testbit y n) -> x = y.
Proof.
  rewrite !is_u8_bits. intros [H0 Hb] [H1 Hc] H. apply Z.bits_inj'. intros n Hn.
  destruct (Z.lt_ge_cases n 8); [apply H; lia|]. by rewrite Hb, Hc.
Qed.

Lemma testbit_clear_bits m x n :
  0 <= n < 8 -> Z.testbit (clear_bits m x) n = Z.testbit x n && negb (Z.testbit m n).
Proof. intros H. unfold clear_bits. rewrite testbit_u8, Z.land_spec, Z.lnot_spec by lia. done. Qed.
Lemma testbit_set_bits m x n :
  0 <= n < 8 -> Z.testbit (set_bits m x) n = Z.testbit x n || Z.testbit m n.
Proof. intros H. unfold set_bits. rewrite testbit_u8, Z.lor_spec by lia. done. Qed.
Lemma clear_bits_u8 m x : is_u8 (clear_bits m x).
Proof. apply u8_range. Qed.
Lemma set_bits_u8 m x : is_u8 (set_bits m x).
Proof. apply u8_range. Qed.
#[export] Hint Resolve clear_bits_u8 set_bits_u8 : mame.
#[export] Hint Rewrite testbit_clear_bits testbit_set_bits using lia : bits.

(** ** Finite case analysis

    A boolean property of all bytes (or of all pairs of bytes) is decided by
    evaluation. *)

Fixpoint forall_below (n : nat) (p : Z -> bool) : bool :=
  match n with
  | O => true
  | S n => p (Z.of_nat n) && forall_below n p
  end.

Lemma forall_below_spec n p :
  forall_below n p = true -> forall z, 0 <= z < Z.of_nat n -> p z = true.
Proof.
  induction n as [|n IH]; cbn [forall_below]; intros H z Hz; [lia|].
  apply andb_true_iff in H as [Hn H].
  destruct (Z.eq_dec z (Z.of_nat n)) as [->|]; [done|]. apply IH; [done|lia].
Qed.

Lemma forall_u8 p : forall_below 256 p = true -> forall z, is_u8 z -> p z = true.
Proof. intros H z Hz. apply (forall_below_spec _ _ H). unfold is_u8 in Hz. lia. Qed.

(** ** Records

    [Eta R] rebuilds a record from its projections; [upd p f r] replaces field
    [p] of [r] by its image under [f], found by replacing [p] in the eta
    expansion. [r <| p := v |>] is the C++ assignment [r.p = v]. *)

Class Eta (R : Type) := eta : R -> R.
Class Setter {R A : Type} (p : R -> A) := upd : (A -> A) -> R -> R.
Arguments upd {R A} p {_} _ _ : assert.

Ltac derive_setter :=
  match goal with
  | |- @Setter ?R ?A ?p =>
      let inst := constr:(_ : Eta R) in
      let body := eval hnf in inst in
      match eval pattern p in body with
      | ?g _ =>
          let s := eval cbv beta in
            (fun (f : A -> A) => g (fun r => f (p r))) in
          exact s
      end
  end.

#[export] Hint Extern 1 (Setter _) => derive_setter : typeclass_instances.

Declare Scope record_scope.
Delimit Scope record_scope with rec.
Notation "r <| p := v |>" := (upd p (fun _ => v) r)
  (at level 12, left associativity, p constr, v at level 200,
   format "r  <| p  :=  v |>") : record_scope.
Notation "r <| p ::= f |>" := (upd p f r)
  (at level 12, left associativity, p constr, f at level 200) : record_scope.
Open Scope record_scope.

(** ** Splitting the conditionals of the code *)

Ltac split_ifs :=
  repeat match goal with
  | |- context [if ?b then _ else _] =>
      lazymatch b with
      | context [if _ then _ else _] => fail
      | _ => destruct b eqn:?
      end
  end.

Ltac zbool :=
  repeat match goal with
  | H : (_ =? _) = true |- _ => apply Z.eqb_eq in H
  | H : (_ =? _) = false |- _ => apply Z.eqb_neq in H
  | H : (_ <? _) = true |- _ => apply Z.ltb_lt in H
  | H : (_ <? _) = false |- _ => apply Z.ltb_ge in H
  | H : (_ <=? _) = true |- _ => apply Z.leb_le in H
  | H : (_ <=? _) = false |- _ => apply Z.leb_gt in H
  | H : _ && _ = true |- _ => apply andb_true_iff in H as [? ?]
  | H : _ || _ = false |- _ => apply orb_false_iff in H as [? ?]
  | H : negb _ = true |- _ => apply negb_true_iff in H
  | H : negb _ = false |- _ => apply negb_false_iff in H
  end.

(** Names the first value the code binds; [cbv beta delta [f]] opens a
    definition and keeps its bindings. *)
Ltac bind_let x :=
  match goal with
  | |- context G [let s := ?v in @?b s] => set (x := v); let g := context G [b x] in change g; cbv beta
  end.
