(* ===== verification/Attotime.v ===== *)
(** * Attotime: time values (src/src/emu/attotime.h, attotime.cpp)

    A time is a signed 32-bit count of seconds and a 64-bit count of
    attoseconds; [never] is a saturated value.  The arithmetic is translated
    with the 32x32 and 64x32 helpers of src/src/osd/eminline.h, and related to
    exact arithmetic on the total number of attoseconds by [val]. *)

From stdpp Require Import base tactics numbers option.
From Stdlib Require Import ZArith Lia Bool.
From S2P Require Import Prelude.

(** ** eminline.h *)

Definition mul_32x32 (a b : Z) : Z := s64 (s32 a * s32 b).
Definition mulu_32x32 (a b : Z) : Z := u64 (u32 a * u32 b).
Definition divu_64x32 (a b : Z) : Z := u32 (u64 a / u32 b).
Definition divu_64x32_rem (a b : Z) : Z * Z :=
  let res := divu_64x32 a b in
  (res, u32 (u64 (u64 a - u64 (u32 b * res)))).

(** ** Constants and the structure *)

Definition ATTOSECONDS_PER_SECOND_SQRT : Z := 1000000000.
Definition ATTOSECONDS_PER_SECOND : Z := 1000000000000000000.
Definition ATTOSECONDS_PER_NANOSECOND : Z := 1000000000.
Definition ATTOTIME_MAX_SECONDS : Z := 1000000000.

Record attotime := mk_attotime { m_seconds : Z; m_attoseconds : Z }.

Definition zero : attotime := mk_attotime 0 0.
Definition never : attotime := mk_attotime ATTOTIME_MAX_SECONDS 0.

Definition is_zero (t : attotime) : bool := (m_seconds t =? 0) && (m_attoseconds t =? 0).
Definition is_never (t : attotime) : bool := ATTOTIME_MAX_SECONDS <=? m_seconds t.

#[export] Instance attotime_eq_dec : EqDecision attotime.
Proof. solve_decision. Defined.

(** ** Arithmetic *)

Definition add (left right : attotime) : attotime :=
  if (ATTOTIME_MAX_SECONDS <=? m_seconds left) || (ATTOTIME_MAX_SECONDS <=? m_seconds right)
  then never
  else
    let attos := m_attoseconds left + m_attoseconds right in
    let secs := m_seconds left + m_seconds right in
    let '(secs, attos) :=
      if ATTOSECONDS_PER_SECOND <=? attos
      then (secs + 1, attos - ATTOSECONDS_PER_SECOND) else (secs, attos) in
    if ATTOTIME_MAX_SECONDS <=? secs then never else mk_attotime secs attos.

(** [operator+=], written out separately in the source. *)
Definition add_assign (this right : attotime) : attotime :=
  if (ATTOTIME_MAX_SECONDS <=? m_seconds this) || (ATTOTIME_MAX_SECONDS <=? m_seconds right)
  then never
  else
    let this := mk_attotime (m_seconds this + m_seconds right)
                            (m_attoseconds this + m_attoseconds right) in
    let this :=
      if ATTOSECONDS_PER_SECOND <=? m_attoseconds this
      then mk_attotime (m_seconds this + 1) (m_attoseconds this - ATTOSECONDS_PER_SECOND)
      else this in
    if ATTOTIME_MAX_SECONDS <=? m_seconds this then never else this.

Definition sub (left right : attotime) : attotime :=
  if ATTOTIME_MAX_SECONDS <=? m_seconds left then never
  else
    let attos := m_attoseconds left - m_attoseconds right in
    let secs := m_seconds left - m_seconds right in
    if attos <? 0
    then mk_attotime (secs - 1) (attos + ATTOSECONDS_PER_SECOND)
    else mk_attotime secs attos.

Definition mul (t : attotime) (factor : Z) : attotime :=
  if ATTOTIME_MAX_SECONDS <=? m_seconds t then never
  else if factor =? 0 then zero
  else
    let '(attohi, attolo) := divu_64x32_rem (m_attoseconds t) ATTOSECONDS_PER_SECOND_SQRT in
    let temp := mulu_32x32 attolo factor in
    let '(temp, reslo) := divu_64x32_rem temp ATTOSECONDS_PER_SECOND_SQRT in
    let temp := u64 (temp + mulu_32x32 attohi factor) in
    let '(temp, reshi) := divu_64x32_rem temp ATTOSECONDS_PER_SECOND_SQRT in
    let temp := u64 (temp + mulu_32x32 (m_seconds t) factor) in
    if ATTOTIME_MAX_SECONDS <=? temp then never
    else mk_attotime (s32 temp) (reslo + mul_32x32 reshi ATTOSECONDS_PER_SECOND_SQRT).

Definition div (t : attotime) (factor : Z) : attotime :=
  if ATTOTIME_MAX_SECONDS <=? m_seconds t then never
  else if factor =? 0 then t
  else
    let '(attohi, attolo) := divu_64x32_rem (m_attoseconds t) ATTOSECONDS_PER_SECOND_SQRT in
    let '(secs, remainder) := divu_64x32_rem (m_seconds t) factor in
    let secs := s32 secs in
    let temp := u64 (attohi + mulu_32x32 remainder ATTOSECONDS_PER_SECOND_SQRT) in
    let '(reshi, remainder) := divu_64x32_rem temp factor in
    let temp := u64 (attolo + mulu_32x32 remainder ATTOSECONDS_PER_SECOND_SQRT) in
    let '(reslo, remainder) := divu_64x32_rem temp factor in
    let attos := s64 (reslo + mulu_32x32 reshi ATTOSECONDS_PER_SECOND_SQRT) in
    if factor / 2 <=? remainder
    then if ATTOSECONDS_PER_SECOND <=? attos + 1
         then mk_attotime (secs + 1) 0 else mk_attotime secs (attos + 1)
    else mk_attotime secs attos.

(** ** Comparisons *)

Definition eqb (l r : attotime) : bool :=
  (m_seconds l =? m_seconds r) && (m_attoseconds l =? m_attoseconds r).
Definition ltb (l r : attotime) : bool :=
  (m_seconds l <? m_seconds r)
  || ((m_seconds l =? m_seconds r) && (m_attoseconds l <? m_attoseconds r)).
Definition leb (l r : attotime) : bool :=
  (m_seconds l <? m_seconds r)
  || ((m_seconds l =? m_seconds r) && (m_attoseconds l <=? m_attoseconds r)).
Definition gtb (l r : attotime) : bool :=
  (m_seconds r <? m_seconds l)
  || ((m_seconds l =? m_seconds r) && (m_attoseconds r <? m_attoseconds l)).
Definition geb (l r : attotime) : bool :=
  (m_seconds r <? m_seconds l)
  || ((m_seconds l =? m_seconds r) && (m_attoseconds r <=? m_attoseconds l)).

(** ** Conversions *)

Definition as_attoseconds (t : attotime) : Z :=
  if m_seconds t =? 0 then m_attoseconds t
  else if m_seconds t =? -1 then m_attoseconds t - ATTOSECONDS_PER_SECOND
  else if 0 <? m_seconds t then ATTOSECONDS_PER_SECOND
  else - ATTOSECONDS_PER_SECOND.

Definition HZ_TO_ATTOSECONDS (x : Z) : Z := ATTOSECONDS_PER_SECOND / x.

Definition as_ticks (t : attotime) (frequency : Z) : Z :=
  let fracticks := u32 (m_seconds (mul (mk_attotime 0 (m_attoseconds t)) frequency)) in
  u64 (mulu_32x32 (m_seconds t) frequency + fracticks).

Definition from_ticks (ticks frequency : Z) : attotime :=
  if 0 <? frequency then
    let attos_per_tick := HZ_TO_ATTOSECONDS frequency in
    if ticks <? frequency then mk_attotime 0 (s64 (u64 (ticks * attos_per_tick)))
    else
      let '(secs, remainder) := divu_64x32_rem ticks frequency in
      mk_attotime (s32 secs) (s64 (u64 (remainder * attos_per_tick)))
  else never.

Definition from_seconds (seconds : Z) : attotime := mk_attotime seconds 0.
Definition from_msec (msec : Z) : attotime :=
  mk_attotime (s32 (Z.quot msec 1000)) (Z.rem msec 1000 * (ATTOSECONDS_PER_SECOND / 1000)).
Definition from_usec (usec : Z) : attotime :=
  mk_attotime (s32 (Z.quot usec 1000000)) (Z.rem usec 1000000 * (ATTOSECONDS_PER_SECOND / 1000000)).
Definition from_nsec (nsec : Z) : attotime :=
  mk_attotime (s32 (Z.quot nsec 1000000000)) (Z.rem nsec 1000000000 * (ATTOSECONDS_PER_SECOND / 1000000000)).

(** [from_hz(u32)] and [from_hz(int)]. *)
Definition from_hz_u32 (frequency : Z) : attotime :=
  if 1 <? frequency then mk_attotime 0 (HZ_TO_ATTOSECONDS frequency)
  else if frequency =? 1 then mk_attotime 1 0 else never.
Definition from_hz (frequency : Z) : attotime :=
  if 0 <? frequency then from_hz_u32 (u32 frequency) else never.

(** ** Meaning: the total number of attoseconds *)

Definition val (t : attotime) : Z :=
  m_seconds t * ATTOSECONDS_PER_SECOND + m_attoseconds t.

(** A normalised time: the fraction is below a second. *)
Definition wf (t : attotime) : Prop :=
  0 <= m_attoseconds t < ATTOSECONDS_PER_SECOND.

(** The normalised time of an attosecond count, saturated at [never]. *)
Definition of_val (v : Z) : attotime :=
  if ATTOTIME_MAX_SECONDS <=? v / ATTOSECONDS_PER_SECOND then never
  else mk_attotime (v / ATTOSECONDS_PER_SECOND) (v mod ATTOSECONDS_PER_SECOND).

Ltac atto_unfold :=
  unfold wf, val, of_val, is_never, is_zero, ATTOSECONDS_PER_SECOND,
    ATTOSECONDS_PER_SECOND_SQRT, ATTOTIME_MAX_SECONDS in *.

Lemma val_div_mod t : wf t ->
  val t / ATTOSECONDS_PER_SECOND = m_seconds t /\ val t mod ATTOSECONDS_PER_SECOND = m_attoseconds t.
Proof.
  intros H. atto_unfold. split.
  - symmetry. apply Z.div_unique with (m_attoseconds t); lia.
  - symmetry. apply Z.mod_unique with (m_seconds t); lia.
Qed.

Lemma of_val_val t : wf t -> m_seconds t < ATTOTIME_MAX_SECONDS -> of_val (val t) = t.
Proof.
  intros H Hs. destruct (val_div_mod t H) as [Hd Hm].
  unfold of_val. rewrite Hd, Hm.
  destruct (Z.leb_spec ATTOTIME_MAX_SECONDS (m_seconds t)); [lia|]. by destruct t.
Qed.

Lemma of_val_wf v : wf (of_val v).
Proof.
  unfold of_val, wf. destruct (_ <=? _); cbn [m_attoseconds never].
  - atto_unfold; lia.
  - apply Z.mod_pos_bound. by vm_compute.
Qed.

Lemma of_val_secs v : m_seconds (of_val v) <= ATTOTIME_MAX_SECONDS.
Proof. unfold of_val. destruct (Z.leb_spec ATTOTIME_MAX_SECONDS (v / ATTOSECONDS_PER_SECOND)); cbn; lia. Qed.

(** A time built from quotient and remainder is the normalised time. *)
Lemma of_val_intro v q r :
  v = q * ATTOSECONDS_PER_SECOND + r -> 0 <= r < ATTOSECONDS_PER_SECOND ->
  of_val v = if ATTOTIME_MAX_SECONDS <=? q then never else mk_attotime q r.
Proof.
  intros -> Hr. pose proof (val_div_mod (mk_attotime q r) Hr) as [Hd Hm].
  unfold val in Hd, Hm. cbn [m_seconds m_attoseconds] in Hd, Hm.
  unfold of_val. by rewrite Hd, Hm.
Qed.

Lemma val_inj t1 t2 : wf t1 -> wf t2 -> val t1 = val t2 -> t1 = t2.
Proof.
  intros H1 H2 E. destruct (val_div_mod t1 H1) as [D1 M1], (val_div_mod t2 H2) as [D2 M2].
  destruct t1, t2; cbn [m_seconds m_attoseconds] in *. congruence.
Qed.

Lemma never_wf : wf never. Proof. atto_unfold; cbn; lia. Qed.
Lemma zero_wf : wf zero. Proof. atto_unfold; cbn; lia. Qed.
#[export] Hint Resolve of_val_wf never_wf zero_wf : mame.

Lemma of_val_val_lt v :
  v < ATTOTIME_MAX_SECONDS * ATTOSECONDS_PER_SECOND -> val (of_val v) = v.
Proof.
  intros Hv. unfold of_val.
  destruct (Z.leb_spec ATTOTIME_MAX_SECONDS (v / ATTOSECONDS_PER_SECOND)) as [Hl|Hl].
  - exfalso. pose proof (Z.mul_div_le v ATTOSECONDS_PER_SECOND). atto_unfold. lia.
  - unfold val; cbn [m_seconds m_attoseconds].
    pose proof (Z.div_mod v ATTOSECONDS_PER_SECOND). atto_unfold. lia.
Qed.

(** *** Addition and subtraction *)

Lemma add_val l r :
  wf l -> wf r -> is_never l = false -> is_never r = false ->
  add l r = of_val (val l + val r).
Proof.
  unfold add, is_never. intros Hl Hr -> ->. cbn [orb].
  destruct (Z.leb_spec ATTOSECONDS_PER_SECOND (m_attoseconds l + m_attoseconds r)) as [H|H].
  - erewrite <- of_val_intro; [reflexivity| |].
    all: atto_unfold; lia.
  - erewrite <- of_val_intro; [reflexivity| |].
    all: atto_unfold; lia.
Qed.

Lemma add_never_l l r : is_never l = true -> add l r = never.
Proof. unfold add, is_never. by intros ->. Qed.
Lemma add_never_r l r : is_never r = true -> add l r = never.
Proof. unfold add, is_never. intros ->. by rewrite orb_true_r. Qed.

Lemma add_wf l r : wf l -> wf r -> wf (add l r).
Proof.
  intros Hl Hr. destruct (is_never l) eqn:El; [rewrite add_never_l by done; auto with mame|].
  destruct (is_never r) eqn:Er; [rewrite add_never_r by done; auto with mame|].
  rewrite add_val by done. auto with mame.
Qed.
#[export] Hint Resolve add_wf : mame.

Lemma sub_val l r :
  wf l -> wf r -> is_never l = false ->
  wf (sub l r) /\ val (sub l r) = val l - val r.
Proof.
  unfold sub, is_never. intros Hl Hr ->.
  destruct (Z.ltb_spec (m_attoseconds l - m_attoseconds r) 0);
    atto_unfold; cbn [m_seconds m_attoseconds]; lia.
Qed.

(** *** Order *)

Lemma ltb_val l r : wf l -> wf r -> ltb l r = (val l <? val r).
Proof.
  intros Hl Hr. unfold ltb. atto_unfold. apply eq_true_iff_eq.
  rewrite orb_true_iff, andb_true_iff, !Z.ltb_lt, Z.eqb_eq. lia.
Qed.
Lemma leb_val l r : wf l -> wf r -> leb l r = (val l <=? val r).
Proof.
  intros Hl Hr. unfold leb. atto_unfold. apply eq_true_iff_eq.
  rewrite orb_true_iff, andb_true_iff, Z.ltb_lt, !Z.leb_le, Z.eqb_eq. lia.
Qed.
Lemma gtb_val l r : wf l -> wf r -> gtb l r = (val r <? val l).
Proof.
  intros Hl Hr. unfold gtb. atto_unfold. apply eq_true_iff_eq.
  rewrite orb_true_iff, andb_true_iff, !Z.ltb_lt, Z.eqb_eq. lia.
Qed.
Lemma geb_val l r : wf l -> wf r -> geb l r = (val r <=? val l).
Proof.
  intros Hl Hr. unfold geb. atto_unfold. apply eq_true_iff_eq.
  rewrite orb_true_iff, andb_true_iff, Z.ltb_lt, !Z.leb_le, Z.eqb_eq. lia.
Qed.

(** *** The 32-bit long multiplication and division *)

Lemma divu_rem_spec a b :
  0 <= a < 18446744073709551616 -> 0 < b < 4294967296 -> a < b * 4294967296 ->
  divu_64x32_rem a b = (a / b, a mod b).
Proof.
  intros Ha Hb Hq. unfold divu_64x32_rem, divu_64x32.
  assert (0 <= a / b < 4294967296).
  { split; [apply Z.div_pos; lia|]. apply Z.div_lt_upper_bound; lia. }
  pose proof (Z.mul_div_le a b) as Hle. pose proof (Z.mod_pos_bound a b) as Hm.
  pose proof (Z.div_mod a b) as He.
  rewrite (u64_id a), (u32_id b), (u32_id (a / b)) by lia.
  rewrite (u64_id (b * (a / b))) by nia.
  rewrite u64_id, u32_id by nia. f_equal. nia.
Qed.

Lemma mulu_spec a b :
  0 <= a < 4294967296 -> 0 <= b < 4294967296 -> mulu_32x32 a b = a * b.
Proof.
  intros Ha Hb. unfold mulu_32x32. rewrite !u32_id by lia. apply u64_id. nia.
Qed.

Lemma mul_spec a b :
  0 <= a < 2147483648 -> 0 <= b < 2147483648 -> mul_32x32 a b = a * b.
Proof.
  intros Ha Hb. unfold mul_32x32. rewrite !s32_id by lia. apply s64_id. nia.
Qed.

(** The digits of a fraction in base [ATTOSECONDS_PER_SECOND_SQRT]. *)
Lemma split_sqrt a : 0 <= a < ATTOSECONDS_PER_SECOND ->
  exists hi lo, divu_64x32_rem a ATTOSECONDS_PER_SECOND_SQRT = (hi, lo) /\
    a = hi * ATTOSECONDS_PER_SECOND_SQRT + lo /\
    0 <= hi < ATTOSECONDS_PER_SECOND_SQRT /\ 0 <= lo < ATTOSECONDS_PER_SECOND_SQRT.
Proof.
  intros Ha. eexists _, _. split; [apply divu_rem_spec; atto_unfold; lia|].
  pose proof (Z.div_mod a ATTOSECONDS_PER_SECOND_SQRT).
  pose proof (Z.mod_pos_bound a ATTOSECONDS_PER_SECOND_SQRT).
  atto_unfold; lia.
Qed.

(** One step of a long division: quotient, remainder and their equation. *)
Lemma div_step a b :
  0 <= a < 18446744073709551616 -> 0 < b < 4294967296 -> a < b * 4294967296 ->
  exists q r, divu_64x32_rem a b = (q, r) /\ a = b * q + r /\ 0 <= r < b /\ 0 <= q.
Proof.
  intros Ha Hb Hq. eexists _, _. split; [by apply divu_rem_spec|].
  pose proof (Z.div_mod a b). pose proof (Z.mod_pos_bound a b).
  pose proof (Z.div_pos a b). lia.
Qed.

Lemma mul_val t f :
  wf t -> 0 <= m_seconds t < ATTOTIME_MAX_SECONDS -> 0 <= f < 4294967296 ->
  mul t f = of_val (val t * f).
Proof.
  intros Hwf Hs Hf. unfold mul.
  destruct (Z.leb_spec ATTOTIME_MAX_SECONDS (m_seconds t)); [lia|].
  destruct (Z.eqb_spec f 0) as [->|Hf0]; [by rewrite Z.mul_0_r|].
  destruct (split_sqrt (m_attoseconds t) Hwf) as (hi & lo & -> & Ea & Hhi & Hlo).
  rewrite !mulu_spec by (atto_unfold; lia).
  destruct (div_step (lo * f) ATTOSECONDS_PER_SECOND_SQRT) as (q1 & r1 & -> & E1 & Hr1 & Hq1);
    [atto_unfold; nia..|].
  assert (q1 < f) by (atto_unfold; nia).
  rewrite (u64_id (q1 + hi * f)) by (atto_unfold; nia).
  destruct (div_step (q1 + hi * f) ATTOSECONDS_PER_SECOND_SQRT) as (q2 & r2 & -> & E2 & Hr2 & Hq2);
    [atto_unfold; nia..|].
  assert (q2 < 4294967296) by (atto_unfold; nia).
  rewrite (u64_id (q2 + _)) by (atto_unfold; nia).
  rewrite mul_spec by (atto_unfold; lia).
  rewrite (of_val_intro _ (q2 + m_seconds t * f) (r1 + r2 * ATTOSECONDS_PER_SECOND_SQRT)).
  - destruct (Z.leb_spec ATTOTIME_MAX_SECONDS (q2 + m_seconds t * f)); [done|].
    rewrite s32_id by (atto_unfold; nia). done.
  - unfold val. rewrite Ea. atto_unfold. nia.
  - atto_unfold; nia.
Qed.

Lemma div_val t f :
  wf t -> 0 <= m_seconds t < ATTOTIME_MAX_SECONDS -> 0 < f < 4294967296 ->
  wf (div t f) /\
  val (div t f) = val t / f + (if f / 2 <=? val t mod f then 1 else 0).
Proof.
  intros Hwf Hs Hf. unfold div.
  destruct (Z.leb_spec ATTOTIME_MAX_SECONDS (m_seconds t)); [lia|].
  destruct (Z.eqb_spec f 0); [lia|].
  destruct (split_sqrt (m_attoseconds t) Hwf) as (hi & lo & -> & Ea & Hhi & Hlo).
  destruct (div_step (m_seconds t) f) as (q0 & r0 & -> & E0 & Hr0 & Hq0); [atto_unfold; nia..|].
  rewrite mulu_spec by (atto_unfold; lia).
  rewrite (u64_id (hi + _)) by (atto_unfold; nia).
  destruct (div_step (hi + r0 * ATTOSECONDS_PER_SECOND_SQRT) f) as (q1 & r1 & -> & E1 & Hr1 & Hq1);
    [atto_unfold; nia..|].
  assert (q1 < ATTOSECONDS_PER_SECOND_SQRT) by (atto_unfold; nia).
  rewrite (mulu_spec r1) by (atto_unfold; lia).
  rewrite (u64_id (lo + _)) by (atto_unfold; nia).
  destruct (div_step (lo + r1 * ATTOSECONDS_PER_SECOND_SQRT) f) as (q2 & r2 & -> & E2 & Hr2 & Hq2);
    [atto_unfold; nia..|].
  assert (q2 < ATTOSECONDS_PER_SECOND_SQRT) by (atto_unfold; nia).
  rewrite mulu_spec by (atto_unfold; lia).
  rewrite (s64_id (q2 + _)) by (atto_unfold; nia).
  rewrite (s32_id q0) by (atto_unfold; nia).
  assert (val t = f * (q0 * ATTOSECONDS_PER_SECOND + q1 * ATTOSECONDS_PER_SECOND_SQRT + q2) + r2)
    as E by (unfold val; rewrite Ea, E0; atto_unfold; nia).
  rewrite <- (Z.div_unique (val t) f _ r2) with (2 := E) by lia.
  rewrite <- (Z.mod_unique (val t) f _ r2) with (2 := E) by lia.
  clear -Hq2 Hq1 H0 H1 Hwf. destruct (f / 2 <=? r2).
  - destruct (Z.leb_spec ATTOSECONDS_PER_SECOND (q2 + q1 * ATTOSECONDS_PER_SECOND_SQRT + 1));
      atto_unfold; cbn [m_seconds m_attoseconds]; nia.
  - atto_unfold; cbn [m_seconds m_attoseconds]; nia.
Qed.

(** *** Tick counts *)

Lemma as_ticks_val t f :
  wf t -> 0 <= m_seconds t < 2147483648 -> 0 < f <= 1000000000 ->
  as_ticks t f = m_seconds t * f + m_attoseconds t * f / ATTOSECONDS_PER_SECOND.
Proof.
  intros Hwf Hs Hf. unfold as_ticks.
  rewrite mul_val by (atto_unfold; cbn [m_seconds m_attoseconds]; lia).
  unfold val; cbn [m_seconds m_attoseconds]. rewrite Z.mul_0_l, Z.add_0_l.
  set (a := m_attoseconds t) in *.
  assert (0 <= a * f / ATTOSECONDS_PER_SECOND < f) as Hq.
  { split; [apply Z.div_pos; atto_unfold; nia|].
    apply Z.div_lt_upper_bound; atto_unfold; nia. }
  unfold of_val. destruct (Z.leb_spec ATTOTIME_MAX_SECONDS (a * f / ATTOSECONDS_PER_SECOND));
    [atto_unfold; lia|]. cbn [m_seconds].
  rewrite mulu_spec, (u32_id (a * f / _)) by lia. apply u64_id. nia.
Qed.

Lemma from_ticks_parts n f :
  0 <= n -> 0 < f <= 1000000000 -> n / f < 2147483648 ->
  from_ticks n f = mk_attotime (n / f) (n mod f * (ATTOSECONDS_PER_SECOND / f)).
Proof.
  intros Hn Hf Hq. unfold from_ticks, HZ_TO_ATTOSECONDS.
  destruct (Z.ltb_spec 0 f); [|lia].
  pose proof (Z.mod_pos_bound n f) as Hm.
  pose proof (Z.mul_div_le ATTOSECONDS_PER_SECOND f) as Hd.
  assert (0 <= ATTOSECONDS_PER_SECOND / f) by (apply Z.div_pos; atto_unfold; lia).
  assert (0 <= n mod f * (ATTOSECONDS_PER_SECOND / f) < 9223372036854775808)
    by (atto_unfold; nia).
  destruct (Z.ltb_spec n f).
  - rewrite (Z.div_small n), (Z.mod_small n) in * by lia.
    rewrite u64_id, s64_id by lia. done.
  - pose proof (Z.mul_div_le n f). pose proof (Z.div_mod n f).
    rewrite divu_rem_spec by nia.
    rewrite s32_id, u64_id, s64_id by (try (split; [|lia]; transitivity 0; [lia|apply Z.div_pos]; lia); lia).
    done.
Qed.

(** The fraction lost by a tick period rounded down to whole attoseconds. *)
Lemma ticks_fraction r f :
  0 <= r < f -> f <= 1000000000 ->
  r * (ATTOSECONDS_PER_SECOND / f) * f / ATTOSECONDS_PER_SECOND =
    r - (if (ATTOSECONDS_PER_SECOND mod f =? 0) || (r =? 0) then 0 else 1).
Proof.
  intros Hr Hf. pose proof (Z.div_mod ATTOSECONDS_PER_SECOND f) as E.
  pose proof (Z.mod_pos_bound ATTOSECONDS_PER_SECOND f) as Hm.
  set (P := ATTOSECONDS_PER_SECOND) in *.
  set (q := P / f) in *. set (m := P mod f) in *.
  assert (P = 1000000000000000000) as HP by done. clearbody P q m.
  assert (r * q * f = r * P - r * m) as Hrq by nia.
  destruct (Z.eqb_spec m 0) as [->|]; cbn [orb];
    [|destruct (Z.eqb_spec r 0) as [->|]].
  - symmetry. apply Z.div_unique with 0; nia.
  - by rewrite Z.div_0_l by lia.
  - symmetry. apply Z.div_unique with (P - r * m); nia.
Qed.

Lemma ticks_roundtrip n f :
  0 <= n -> 0 < f <= 1000000000 -> n / f < 2147483648 ->
  wf (from_ticks n f) /\
  as_ticks (from_ticks n f) f =
    n - (if (ATTOSECONDS_PER_SECOND mod f =? 0) || (n mod f =? 0) then 0 else 1).
Proof.
  intros Hn Hf Hq. rewrite from_ticks_parts by done.
  pose proof (Z.mod_pos_bound n f) as Hm.
  pose proof (Z.mul_div_le ATTOSECONDS_PER_SECOND f) as Hd.
  assert (0 <= ATTOSECONDS_PER_SECOND / f) by (apply Z.div_pos; atto_unfold; lia).
  assert (0 <= n mod f * (ATTOSECONDS_PER_SECOND / f) < ATTOSECONDS_PER_SECOND).
  { atto_unfold. destruct (Z.eq_dec (n mod f) 0); nia. }
  split; [done|].
  rewrite as_ticks_val; cbn [m_seconds m_attoseconds];
    [|done|split; [by apply Z.div_pos; lia|done]|done].
  rewrite ticks_fraction by lia.
  pose proof (Z.div_mod n f). lia.
Qed.

(** ** Properties *)

(** C25: Addition, as [operator+] and as [operator+=], is exact on attoseconds and
    saturates at [never]. *)
Theorem add_correct l r :
  wf l -> wf r ->
  add_assign l r = add l r /\ wf (add l r) /\ add l r = add r l /\
  add l r = if is_never l || is_never r then never else of_val (val l + val r).
Proof.
  intros Hl Hr.
  assert (add_assign l r = add l r) as ->.
  { unfold add_assign, add; cbn [m_seconds m_attoseconds].
    split_ifs; cbn [m_seconds m_attoseconds] in *; congruence. }
  assert (forall a b, wf a -> wf b ->
    add a b = if is_never a || is_never b then never else of_val (val a + val b)) as H.
  { intros a b Ha Hb. destruct (is_never a) eqn:Ea; [by apply add_never_l|].
    destruct (is_never b) eqn:Eb; [by apply add_never_r|]. by apply add_val. }
  repeat split; [apply add_wf..| |]; try done.
  - rewrite !H by done. by rewrite orb_comm, Z.add_comm.
  - by apply H.
Qed.

(** Subtraction undoes addition unless the sum saturated, and the comparison
    operators order times by their number of attoseconds. *)
Theorem sub_add_order l r :
  wf l -> wf r -> is_never (add l r) = false ->
  sub (add l r) r = l /\
  ltb l r = (val l <? val r) /\ leb l r = (val l <=? val r) /\
  gtb l r = (val r <? val l) /\ geb l r = (val r <=? val l) /\
  eqb l r = (val l =? val r).
Proof.
  intros Hl Hr Hn.
  assert (is_never l = false /\ is_never r = false) as [El Er].
  { split; apply not_true_is_false; intros E;
      [rewrite add_never_l in Hn by done|rewrite add_never_r in Hn by done]; done. }
  rewrite ltb_val, leb_val, gtb_val, geb_val by done. repeat split.
  - destruct (sub_val (add l r) r) as [Hw Hv]; auto with mame.
    apply val_inj; [done..|]. rewrite Hv, add_val in * by done.
    rewrite of_val_val_lt; [lia|].
    unfold is_never, of_val in Hn. destruct (Z.leb_spec ATTOTIME_MAX_SECONDS
      ((val l + val r) / ATTOSECONDS_PER_SECOND)) as [|Hlt]; [done|].
    pose proof (Z.mul_succ_div_gt (val l + val r) ATTOSECONDS_PER_SECOND).
    atto_unfold. lia.
  - unfold eqb. apply eq_true_iff_eq. rewrite andb_true_iff, !Z.eqb_eq.
    atto_unfold. lia.
Qed.

(** C26: Scaling by a 32-bit factor, done with 32x32 multiplications and 64x32
    divisions, is exact and saturates at [never]. *)
Theorem mul_exact t f :
  wf t -> 0 <= m_seconds t < ATTOTIME_MAX_SECONDS -> 0 <= f < 4294967296 ->
  mul t f = of_val (val t * f) /\ wf (mul t f).
Proof. intros Hwf Hs Hf. rewrite mul_val by done. auto with mame. Qed.

(** Division by a 32-bit factor gives the quotient in attoseconds, plus one
    attosecond when the remainder reaches half the factor rounded down; for an
    even factor this is rounding to nearest. *)
Theorem div_rounding t f :
  wf t -> 0 <= m_seconds t < ATTOTIME_MAX_SECONDS -> 0 < f < 4294967296 ->
  wf (div t f) /\
  val (div t f) = val t / f + (if f / 2 <=? val t mod f then 1 else 0) /\
  (f mod 2 = 0 -> 2 * Z.abs (f * val (div t f) - val t) <= f).
Proof.
  intros Hwf Hs Hf. destruct (div_val t f Hwf Hs Hf) as [Hw Hv].
  split; [done|split; [done|]]. intros Hev. rewrite Hv.
  pose proof (Z.div_mod (val t) f). pose proof (Z.mod_pos_bound (val t) f).
  pose proof (Z.div_mod f 2).
  destruct (Z.leb_spec (f / 2) (val t mod f)); lia.
Qed.

(** Dividing a time by one adds an attosecond: the rounding test
    [remainder >= factor / 2] holds with both sides zero. *)
Theorem div_one_adds_attosecond t :
  wf t -> 0 <= m_seconds t < ATTOTIME_MAX_SECONDS -> val (div t 1) = val t + 1.
Proof.
  intros Hwf Hs. destruct (div_val t 1 Hwf Hs ltac:(lia)) as [_ ->].
  by rewrite Z.div_1_r, Z.mod_1_r.
Qed.

(** Converting a tick count to a time and back gives the count when the
    frequency divides a second into whole attoseconds or the count is a whole
    number of seconds, and one tick less otherwise. *)
Theorem ticks_readback n f :
  0 <= n -> 0 < f <= 1000000000 -> n / f < 2147483648 ->
  wf (from_ticks n f) /\
  as_ticks (from_ticks n f) f =
    n - (if (ATTOSECONDS_PER_SECOND mod f =? 0) || (n mod f =? 0) then 0 else 1).
Proof. apply ticks_roundtrip. Qed.

(** ** Witnesses *)

Definition sample_time : attotime := mk_attotime 7 999999999999999999.

Lemma add_correct_witness :
  wf sample_time /\ add sample_time sample_time = mk_attotime 15 999999999999999998.
Proof.
  assert (wf sample_time) as H by (atto_unfold; cbn; lia).
  split; [done|]. destruct (add_correct sample_time sample_time H H) as (_ & _ & _ & E).
  rewrite E. reflexivity.
Defined.

Lemma sub_add_order_witness :
  sub (add sample_time (mk_attotime 1 2)) (mk_attotime 1 2) = sample_time.
Proof.
  apply (sub_add_order sample_time (mk_attotime 1 2)); [atto_unfold; cbn; lia..|reflexivity].
Defined.

Lemma mul_exact_witness :
  mul sample_time 3686400 = mk_attotime 29491199 999999999996313600.
Proof.
  destruct (mul_exact sample_time 3686400) as [E _]; [atto_unfold; cbn; lia..|].
  rewrite E. reflexivity.
Defined.

Lemma div_rounding_witness : val (div sample_time 2) = 4 * ATTOSECONDS_PER_SECOND.
Proof.
  destruct (div_rounding sample_time 2) as (_ & E & _); [atto_unfold; cbn; lia..|].
  rewrite E. reflexivity.
Defined.

Lemma div_one_adds_attosecond_witness : val (div (mk_attotime 0 5) 1) = 6.
Proof. rewrite (div_one_adds_attosecond (mk_attotime 0 5)); [reflexivity|atto_unfold; cbn; lia..]. Defined.

Lemma ticks_readback_witness : as_ticks (from_ticks 10 3686400) 3686400 = 9.
Proof. destruct (ticks_readback 10 3686400) as [_ E]; [lia..|done|]. rewrite E. reflexivity. Defined.
