(* ===== verification/Device.v ===== *)
(** * Device clocks (src/src/emu/device.cpp)

    The conversions between the ticks of a device's clock and time, which the
    execution interface and the board drivers use. *)

From stdpp Require Import base tactics numbers option.
From Stdlib Require Import ZArith Lia Bool.
From S2P Require Import Prelude Attotime.

(** [m_attoseconds_per_clock], as [set_unscaled_clock] leaves it. *)
Definition attoseconds_per_clock (m_clock : Z) : Z := if m_clock =? 0 then 0 else HZ_TO_ATTOSECONDS m_clock.

Definition clocks_to_attotime (m_clock numclocks : Z) : attotime :=
  if m_clock =? 0 then never
  else if numclocks <? m_clock then mk_attotime 0 (s64 (u64 (numclocks * attoseconds_per_clock m_clock)))
  else let '(quotient, remainder) := divu_64x32_rem numclocks m_clock in
       mk_attotime (s32 quotient) (s64 (u64 (remainder * attoseconds_per_clock m_clock))).

Definition attotime_to_clocks (m_clock : Z) (duration : attotime) : Z :=
  if m_clock =? 0 then 0
  else u64 (mulu_32x32 (m_seconds duration) m_clock
            + u64 (m_attoseconds duration) / attoseconds_per_clock m_clock).

(** ** Elapsed ticks

    A second counts [frequency] ticks exactly, whatever the truncation of the
    tick length. *)
Definition ticks_val (frequency ticks : Z) : Z :=
  ticks / frequency * ATTOSECONDS_PER_SECOND + ticks mod frequency * HZ_TO_ATTOSECONDS frequency.

Lemma tick_bounds f r : 0 < f -> 0 <= r < f -> 0 <= r * HZ_TO_ATTOSECONDS f < ATTOSECONDS_PER_SECOND.
Proof.
  intros Hf Hr. unfold HZ_TO_ATTOSECONDS.
  pose proof (Z.mul_div_le ATTOSECONDS_PER_SECOND f Hf).
  assert (0 <= ATTOSECONDS_PER_SECOND / f) by (apply Z.div_pos; [by vm_compute|lia]).
  split; [nia|]. destruct (Z.eq_dec (ATTOSECONDS_PER_SECOND / f) 0) as [->|]; [by rewrite Z.mul_0_r|]. nia.
Qed.

Lemma ticks_val_small f n : 0 <= n < f -> ticks_val f n = n * HZ_TO_ATTOSECONDS f.
Proof. intros H. unfold ticks_val. by rewrite Z.div_small, Z.mod_small by lia. Qed.

Lemma ticks_val_lower f n : 0 < f -> 0 <= n -> n * HZ_TO_ATTOSECONDS f <= ticks_val f n.
Proof.
  intros Hf Hn. unfold ticks_val. pose proof (Z.div_mod n f). pose proof (Z.div_pos n f Hn Hf).
  unfold HZ_TO_ATTOSECONDS. pose proof (Z.mul_div_le ATTOSECONDS_PER_SECOND f Hf).
  set (q := n / f) in *. set (r := n mod f) in *. set (h := ATTOSECONDS_PER_SECOND / f) in *. nia.
Qed.

(** The time of a number of ticks, where the seconds fit their type. *)
Lemma clocks_to_attotime_val f n : 0 < f < 4294967296 -> 0 <= n < f * 2147483648 ->
  wf (clocks_to_attotime f n) /\ val (clocks_to_attotime f n) = ticks_val f n.
Proof.
  intros Hf Hn. unfold clocks_to_attotime, attoseconds_per_clock.
  destruct (Z.eqb_spec f 0); [lia|]. destruct (Z.ltb_spec n f) as [Hl|Hl].
  - pose proof (tick_bounds f n). rewrite u64_id, s64_id by (atto_unfold; lia).
    rewrite ticks_val_small by lia. unfold wf, val. cbn [m_seconds m_attoseconds]. lia.
  - rewrite divu_rem_spec by nia.
    pose proof (Z.mod_pos_bound n f). pose proof (tick_bounds f (n mod f)).
    assert (0 <= n / f < 2147483648) by (split; [apply Z.div_pos; lia|apply Z.div_lt_upper_bound; lia]).
    rewrite s32_id, u64_id, s64_id by (atto_unfold; lia).
    unfold wf, val, ticks_val. cbn [m_seconds m_attoseconds]. lia.
Qed.

Lemma clocks_to_attotime_wf f n : 0 <= f < 4294967296 -> 0 <= n < f * 2147483648 \/ f = 0 ->
  wf (clocks_to_attotime f n).
Proof.
  intros Hf Hn. destruct (Z.eq_dec f 0) as [->|]; [apply never_wf|].
  apply clocks_to_attotime_val; lia.
Qed.
