(* ===== verification/Scheduler.v ===== *)
(** * Scheduler: timers and their lists (src/src/emu/schedule.h, schedule.cpp)

    The timers live in a store ([heap]) addressed by number, as the objects of
    the timer allocator are addressed by pointer; [m_next] and [m_prev] are the
    links of the two intrusive doubly linked lists (active, ordered by expiry;
    inactive).  Every operation that follows or rewrites links does so on the
    store.  The abstraction is [lseg]: the list of timer numbers a head pointer
    represents. *)

From stdpp Require Import base tactics numbers option list gmap sorting.
From Stdlib Require Import ZArith Lia Bool.
From S2P Require Import Prelude Attotime.

(** ** State *)

Record emu_timer := mk_timer {
  m_next : option nat;
  m_prev : option nat;
  m_callback : option nat;
  m_param : Z;
  m_enabled : bool;
  m_temporary : bool;
  m_period : attotime;
  m_start : attotime;
  m_expire : attotime;
  m_index : Z
}.

#[export] Instance emu_timer_eta : Eta emu_timer := fun t =>
  mk_timer (m_next t) (m_prev t) (m_callback t) (m_param t) (m_enabled t)
    (m_temporary t) (m_period t) (m_start t) (m_expire t) (m_index t).

(** [emu_timer::emu_timer]. *)
Definition new_timer : emu_timer :=
  mk_timer None None None 0 false false zero zero never 0.

(** The part of [device_scheduler] that concerns timers.  [m_executing_device]
    is the local time of the device being executed, if any;
    [timeslice_aborted] records a call of that device's [abort_timeslice]. *)
Record sched := mk_sched {
  heap : gmap nat emu_timer;
  m_timer_list : option nat;
  m_inactive_timers : option nat;
  m_callback_timer : option nat;
  m_callback_timer_modified : bool;
  m_callback_timer_expire_time : attotime;
  m_basetime : attotime;
  m_executing_device : option attotime;
  timeslice_aborted : bool
}.

#[export] Instance sched_eta : Eta sched := fun s =>
  mk_sched (heap s) (m_timer_list s) (m_inactive_timers s) (m_callback_timer s)
    (m_callback_timer_modified s) (m_callback_timer_expire_time s) (m_basetime s)
    (m_executing_device s) (timeslice_aborted s).

(** The object a pointer designates. *)
Definition timer_at (h : gmap nat emu_timer) (id : nat) : emu_timer :=
  default new_timer (h !! id).

Definition put (id : nat) (f : emu_timer -> emu_timer) (s : sched) : sched :=
  s <| heap ::= alter f id |>.

(** ** Time *)

Definition time (s : sched) : attotime :=
  match m_callback_timer s with
  | Some _ => m_callback_timer_expire_time s
  | None => match m_executing_device s with
            | Some local_time => local_time
            | None => m_basetime s
            end
  end.

Definition abort_timeslice (s : sched) : sched :=
  match m_executing_device s with
  | Some _ => s <| timeslice_aborted := true |>
  | None => s
  end.

(** ** The timer lists *)

(** [timer] goes before the list entry [cur]. *)
Definition insert_here (check_index : bool) (cur timer : emu_timer) : bool :=
  gtb (m_expire cur) (m_expire timer)
  || (check_index && negb (ltb (m_expire cur) (m_expire timer))
      && (m_index timer <? m_index cur)).

(** The loop of [timer_list_insert]: the entries to link between. *)
Fixpoint insert_scan (fuel : nat) (check_index : bool) (h : gmap nat emu_timer)
    (timer : emu_timer) (prevtimer curtimer : option nat) : option nat * option nat :=
  match fuel, curtimer with
  | S fuel, Some c =>
      if insert_here check_index (timer_at h c) timer then (prevtimer, Some c)
      else insert_scan fuel check_index h timer (Some c) (m_next (timer_at h c))
  | _, _ => (prevtimer, None)
  end.

Definition timer_list_insert (check_index : bool) (id : nat) (s : sched) : sched :=
  let timer := timer_at (heap s) id in
  if negb (is_never (m_expire timer)) && m_enabled timer then
    match insert_scan (S (size (heap s))) check_index (heap s) timer None (m_timer_list s) with
    | (prevtimer, Some c) =>
        let s := put id (fun t => t <| m_prev := prevtimer |>) s in
        let s := put id (fun t => t <| m_next := Some c |>) s in
        let s := match prevtimer with
                 | Some p => put p (fun t => t <| m_next := Some id |>) s
                 | None => s <| m_timer_list := Some id |>
                 end in
        put c (fun t => t <| m_prev := Some id |>) s
    | (prevtimer, None) =>
        let s := match prevtimer with
                 | Some p => put p (fun t => t <| m_next := Some id |>) s
                 | None => s <| m_timer_list := Some id |>
                 end in
        let s := put id (fun t => t <| m_prev := prevtimer |>) s in
        put id (fun t => t <| m_next := None |>) s
    end
  else
    let s := match m_inactive_timers s with
             | Some i => put i (fun t => t <| m_prev := Some id |>) s
             | None => s
             end in
    let s := put id (fun t => t <| m_next := m_inactive_timers s |>) s in
    let s := put id (fun t => t <| m_prev := None |>) s in
    s <| m_inactive_timers := Some id |>.

Definition timer_list_remove (id : nat) (s : sched) : sched :=
  let timer := timer_at (heap s) id in
  let s :=
    match m_prev timer with
    | Some p => put p (fun t => t <| m_next := m_next timer |>) s
    | None =>
        if bool_decide (m_timer_list s = Some id)
        then s <| m_timer_list := m_next timer |>
        else s <| m_inactive_timers := m_next timer |>
    end in
  match m_next timer with
  | Some n => put n (fun t => t <| m_prev := m_prev timer |>) s
  | None => s
  end.

(** ** emu_timer *)

(** [emu_timer::init] on a freshly allocated object. *)
Definition init (callback : option nat) (start_delay : attotime) (param : Z)
    (temporary : bool) (id : nat) (s : sched) : sched :=
  let start := time s in
  let expire := add start start_delay in
  let timer := mk_timer None None callback param (negb (is_never expire)) temporary
                 never start expire 0 in
  let s := s <| heap ::= (<[id := timer]>) |> in
  let s := timer_list_insert false id s in
  if bool_decide (m_timer_list s = Some id) then abort_timeslice s else s.

Definition enable (b : bool) (id : nat) (s : sched) : bool * sched :=
  let old := m_enabled (timer_at (heap s) id) in
  if Bool.eqb old b then (old, s)
  else
    let s := put id (fun t => t <| m_enabled := b |>) s in
    (old, timer_list_insert false id (timer_list_remove id s)).

(** The assignments of [emu_timer::adjust] to the timer itself. *)
Definition adjusted (now start_delay : attotime) (param : Z) (period : attotime)
    (t : emu_timer) : emu_timer :=
  let start_delay := if m_seconds start_delay <? 0 then zero else start_delay in
  t <| m_param := param |> <| m_enabled := true |> <| m_start := now |>
    <| m_expire := add now start_delay |> <| m_period := period |>.

Definition adjust (start_delay : attotime) (param : Z) (period : attotime)
    (id : nat) (s : sched) : sched :=
  let s := if bool_decide (m_callback_timer s = Some id)
           then s <| m_callback_timer_modified := true |> else s in
  let s := put id (adjusted (time s) start_delay param period) s in
  let s := timer_list_insert false id (timer_list_remove id s) in
  if bool_decide (m_timer_list s = Some id) then abort_timeslice s else s.

Definition reset (duration : attotime) (id : nat) (s : sched) : sched :=
  let t := timer_at (heap s) id in adjust duration (m_param t) (m_period t) id s.

Definition elapsed (now : attotime) (t : emu_timer) : attotime := sub now (m_start t).
Definition remaining (now : attotime) (t : emu_timer) : attotime :=
  if geb now (m_expire t) then zero else sub (m_expire t) now.

Definition schedule_next_period (id : nat) (s : sched) : sched :=
  let s := put id (fun t => t <| m_start := m_expire t |>
                               <| m_expire := add_assign (m_expire t) (m_period t) |>) s in
  timer_list_insert false id (timer_list_remove id s).

(** ** device_scheduler *)

Definition timer_alloc (callback : option nat) (id : nat) (s : sched) : sched :=
  init callback never 0 false id s.
Definition timer_set (duration : attotime) (callback : option nat) (param : Z)
    (id : nat) (s : sched) : sched :=
  init callback duration param true id s.
Definition synchronize (callback : option nat) (param : Z) (id : nat) (s : sched) : sched :=
  init callback zero param true id s.

(** The constructor: the never-expiring timer is taken off the inactive list
    and made the sole entry of the active one. *)
Definition device_scheduler (dummy : nat) : sched :=
  let s := mk_sched ∅ None None None false zero zero None false in
  let s := timer_list_remove dummy (init None never 0 true dummy s) in
  s <| m_timer_list := Some dummy |>.

(** [fixed_allocator::reclaim]. *)
Definition reclaim (id : nat) (s : sched) : sched := s <| heap ::= delete id |>.

Fixpoint can_save_scan (fuel : nat) (h : gmap nat emu_timer) (cur : option nat) : bool :=
  match fuel, cur with
  | S fuel, Some c =>
      let t := timer_at h c in
      if m_temporary t && negb (is_never (m_expire t)) then false
      else can_save_scan fuel h (m_next t)
  | _, _ => true
  end.
Definition can_save (s : sched) : bool :=
  can_save_scan (S (size (heap s))) (heap s) (m_timer_list s).

(** ** Running the timers that are due

    [call] runs a timer callback; it may change the scheduler through the
    operations above, and an outside world [W]. *)
Section ExecuteTimers.
Context {W : Type} (call : nat -> Z -> sched * W -> sched * W).

(** One turn of the loop, for the timer [id] at the head of the list. *)
Definition execute_timer (id : nat) (sw : sched * W) : sched * W :=
  let '(s, w) := sw in
  let timer := timer_at (heap s) id in
  let was_enabled := m_enabled timer in
  let s := if is_zero (m_period timer) || is_never (m_period timer)
           then put id (fun t => t <| m_enabled := false |>) s else s in
  let s := s <| m_callback_timer_modified := false |> in
  let s := s <| m_callback_timer := Some id |> in
  let s := s <| m_callback_timer_expire_time := m_expire timer |> in
  let '(s, w) :=
    if was_enabled
    then match m_callback timer with
         | Some cb => call cb (m_param timer) (s, w)
         | None => (s, w)
         end
    else (s, w) in
  if negb (m_callback_timer_modified s) then
    if negb (m_temporary (timer_at (heap s) id))
    then (schedule_next_period id s, w)
    else (reclaim id (timer_list_remove id s), w)
  else (s, w).

Fixpoint execute_timers (fuel : nat) (sw : sched * W) : option (sched * W) :=
  let s := sw.1 in
  match m_timer_list s with
  | None => None
  | Some id =>
      if leb (m_expire (timer_at (heap s) id)) (m_basetime s) then
        match fuel with
        | O => None
        | S fuel => execute_timers fuel (execute_timer id sw)
        end
      else Some (s <| m_callback_timer := None |>, sw.2)
  end.
End ExecuteTimers.

(** ** Save states *)

Fixpoint presave_scan (fuel : nat) (index : Z) (cur : option nat) (s : sched) : sched :=
  match fuel, cur with
  | S fuel, Some c =>
      let s := put c (fun t => t <| m_index := index |>) s in
      presave_scan fuel (u32 (index + 1)) (m_next (timer_at (heap s) c)) s
  | _, _ => s
  end.
Definition presave (s : sched) : sched :=
  presave_scan (S (size (heap s))) 0 (m_timer_list s) s.

(** The three loops of [postload]; the private list is threaded through
    [m_next].  What [postload] does to the executing devices is in
    [Execute.v]. *)
Fixpoint postload_inactive (fuel : nat) (private : option nat) (s : sched)
    : option nat * sched :=
  match fuel, m_inactive_timers s with
  | S fuel, Some id =>
      let s := timer_list_remove id s in
      let s := put id (fun t => t <| m_next := private |>) s in
      postload_inactive fuel (Some id) s
  | _, _ => (private, s)
  end.

Fixpoint postload_active (fuel : nat) (private : option nat) (s : sched)
    : option nat * sched :=
  match fuel, m_timer_list s with
  | S fuel, Some id =>
      match m_next (timer_at (heap s) id) with
      | None => (private, s)
      | Some _ =>
          if m_temporary (timer_at (heap s) id)
          then
            let s := put id (fun t => t <| m_callback := None |>) s in
            postload_active fuel private (reclaim id (timer_list_remove id s))
          else
            let s := timer_list_remove id s in
            let s := put id (fun t => t <| m_next := private |>) s in
            postload_active fuel (Some id) s
      end
  | _, _ => (private, s)
  end.

Fixpoint postload_reinsert (fuel : nat) (private : option nat) (s : sched) : sched :=
  match fuel, private with
  | S fuel, Some id =>
      let private := m_next (timer_at (heap s) id) in
      postload_reinsert fuel private (timer_list_insert true id s)
  | _, _ => s
  end.

Definition postload (s : sched) : sched :=
  let n := S (size (heap s)) in
  let '(private, s) := postload_inactive n None s in
  let '(private, s) := postload_active n private s in
  postload_reinsert n private s.

(** ** Doubly linked segments

    [lseg h p l hd e]: following [m_next] from [hd] visits exactly the timers
    [l] and stops at [e]; the [m_prev] links lead back, the first one to [p]. *)

Fixpoint lseg (h : gmap nat emu_timer) (p : option nat) (l : list nat)
    (hd e : option nat) : Prop :=
  match l with
  | [] => hd = e
  | x :: l => hd = Some x /\
      exists t, h !! x = Some t /\ m_prev t = p /\ lseg h (Some x) l (m_next t) e
  end.

(** Membership in explicit lists, without looking at the context. *)
Ltac mem := clear; rewrite ?elem_of_app, ?elem_of_cons, ?elem_of_nil; tauto.

(** The last entry of [l], or [p] when there is none. *)
Definition last_or (p : option nat) (l : list nat) : option nat :=
  match last l with Some x => Some x | None => p end.

Lemma last_or_cons p x l : last_or p (x :: l) = last_or (Some x) l.
Proof. unfold last_or. rewrite last_cons. by destruct (last l). Qed.

Lemma last_or_snoc p x l : last_or p (l ++ [x]) = Some x.
Proof. unfold last_or. by rewrite last_snoc. Qed.

Lemma lseg_cons h p x l hd e :
  lseg h p (x :: l) hd e <->
  hd = Some x /\ exists t, h !! x = Some t /\ m_prev t = p /\ lseg h (Some x) l (m_next t) e.
Proof. done. Qed.

Lemma lseg_app h p l1 l2 hd e :
  lseg h p (l1 ++ l2) hd e <->
  exists mid, lseg h p l1 hd mid /\ lseg h (last_or p l1) l2 mid e.
Proof.
  revert p hd. induction l1 as [|x l1 IH]; intros p hd; cbn [app lseg].
  - split; [intros H; by exists hd|by intros (mid & -> & H)].
  - split.
    + intros (-> & t & Ht & Hp & H). apply IH in H as (mid & H1 & H2).
      exists mid. rewrite last_or_cons. naive_solver.
    + intros (mid & (-> & t & Ht & Hp & H1) & H2). rewrite last_or_cons in H2.
      split; [done|]. exists t. split_and!; [done..|]. apply IH. eauto.
Qed.

Lemma lseg_lookup h p l hd e x : lseg h p l hd e -> x ∈ l -> is_Some (h !! x).
Proof.
  revert p hd. induction l as [|y l IH]; intros p hd; cbn [lseg]; [set_solver|].
  intros (-> & t & Ht & _ & H) [->|Hx]%elem_of_cons; eauto.
Qed.

Lemma lseg_frame h h' p l hd e :
  (forall x, x ∈ l -> h' !! x = h !! x) -> lseg h p l hd e -> lseg h' p l hd e.
Proof.
  revert p hd. induction l as [|y l IH]; intros p hd Hf; cbn [lseg]; [done|].
  intros (-> & t & Ht & Hp & H). split; [done|]. exists t.
  rewrite Hf by set_solver. split_and!; [done..|]. apply IH; [set_solver|done].
Qed.

Lemma lseg_alter h f y p l hd e :
  y ∉ l -> lseg h p l hd e -> lseg (alter f y h) p l hd e.
Proof.
  intros Hy. apply lseg_frame. intros x Hx. apply lookup_alter_ne. congruence.
Qed.

Lemma lseg_head h p l hd e : lseg h p l hd e -> e = None -> hd = head l.
Proof. destruct l; cbn [lseg]; [by intros -> ->|by intros [-> _] _]. Qed.

Lemma lseg_set_next h p l x hd e e' :
  NoDup (l ++ [x]) -> lseg h p (l ++ [x]) hd e ->
  lseg (alter (fun t => t <| m_next := e' |>) x h) p (l ++ [x]) hd e'.
Proof.
  intros Hnd. rewrite !lseg_app. intros (mid & H1 & H2). exists mid. split.
  - apply lseg_alter; [|done]. apply NoDup_app in Hnd as (_ & Hd & _). set_solver.
  - cbn [lseg] in *. destruct H2 as (-> & t & Ht & Hp & He). split; [done|].
    exists (t <| m_next := e' |>). rewrite lookup_alter_eq, Ht. done.
Qed.

Lemma lseg_set_prev h p p' x l hd e :
  NoDup (x :: l) -> lseg h p (x :: l) hd e ->
  lseg (alter (fun t => t <| m_prev := p' |>) x h) p' (x :: l) hd e.
Proof.
  intros [Hx Hnd]%NoDup_cons. cbn [lseg]. intros (-> & t & Ht & Hp & H).
  split; [done|]. exists (t <| m_prev := p' |>).
  rewrite lookup_alter_eq, Ht. split_and!; [done..|]. by apply lseg_alter.
Qed.

(** The links around a member. *)
Lemma lseg_member h p l1 x l2 hd e :
  lseg h p (l1 ++ x :: l2) hd e ->
  exists t, h !! x = Some t /\ m_prev t = last_or p l1 /\
    lseg h (Some x) l2 (m_next t) e /\ lseg h p l1 hd (Some x).
Proof.
  rewrite lseg_app. intros (mid & H1 & H2). cbn [lseg] in H2.
  destruct H2 as (-> & t & Ht & Hp & H). eauto 10.
Qed.

(** ** What a timer holds besides its links *)

Definition data (t : emu_timer) : emu_timer := t <| m_next := None |> <| m_prev := None |>.
Definition heap_data (h : gmap nat emu_timer) : gmap nat emu_timer := data <$> h.

Lemma heap_data_alter f x h :
  (forall t, data (f t) = data t) -> heap_data (alter f x h) = heap_data h.
Proof.
  intros Hf. unfold heap_data. apply map_eq. intros i. rewrite !lookup_fmap.
  destruct (decide (x = i)) as [->|Hne].
  - rewrite lookup_alter_eq. destruct (h !! i); cbn; by rewrite ?Hf.
  - by rewrite lookup_alter_ne.
Qed.

Lemma heap_data_next x n h :
  heap_data (alter (fun t => t <| m_next := n |>) x h) = heap_data h.
Proof. by apply heap_data_alter. Qed.
Lemma heap_data_prev x n h :
  heap_data (alter (fun t => t <| m_prev := n |>) x h) = heap_data h.
Proof. by apply heap_data_alter. Qed.

Lemma heap_data_lookup h h' x t :
  heap_data h = heap_data h' -> h !! x = Some t ->
  exists t', h' !! x = Some t' /\ data t' = data t.
Proof.
  intros E Ht. assert (heap_data h !! x = Some (data t)) as Hd
    by (unfold heap_data; by rewrite lookup_fmap, Ht).
  rewrite E in Hd. unfold heap_data in Hd. rewrite lookup_fmap in Hd.
  destruct (h' !! x) as [t'|]; cbn in Hd; [|done]. exists t'. split; [done|]. by apply (inj Some).
Qed.

Lemma heap_data_at h h' x :
  heap_data h = heap_data h' -> data (timer_at h x) = data (timer_at h' x).
Proof.
  intros E. unfold timer_at. destruct (h !! x) as [t|] eqn:Ht.
  - destruct (heap_data_lookup h h' x t E Ht) as (t' & -> & Hd). by cbn.
  - destruct (h' !! x) as [t'|] eqn:Ht'; [|done].
    destruct (heap_data_lookup h' h x t' (eq_sym E) Ht') as (t & ? & _). congruence.
Qed.

(** The fields the schedule depends on. *)
Definition expire_at (h : gmap nat emu_timer) (x : nat) : attotime := m_expire (timer_at h x).
Definition enabled_at (h : gmap nat emu_timer) (x : nat) : bool := m_enabled (timer_at h x).

Lemma data_fields t t' : data t = data t' ->
  m_callback t = m_callback t' /\ m_param t = m_param t' /\ m_enabled t = m_enabled t' /\
  m_temporary t = m_temporary t' /\ m_period t = m_period t' /\ m_start t = m_start t' /\
  m_expire t = m_expire t' /\ m_index t = m_index t'.
Proof. intros E. destruct t, t'. cbv in E. injection E; intros; subst. cbn. tauto. Qed.

Lemma expire_at_data h h' x : heap_data h = heap_data h' -> expire_at h x = expire_at h' x.
Proof. intros E%(heap_data_at _ _ x)%data_fields. unfold expire_at. tauto. Qed.
Lemma enabled_at_data h h' x : heap_data h = heap_data h' -> enabled_at h x = enabled_at h' x.
Proof. intros E%(heap_data_at _ _ x)%data_fields. unfold enabled_at. tauto. Qed.

(** ** The two lists *)

(** [lists s A I]: the active list is [A], the inactive one [I]. *)
Record lists (s : sched) (A I : list nat) : Prop := mk_lists {
  lists_active : lseg (heap s) None A (m_timer_list s) None;
  lists_inactive : lseg (heap s) None I (m_inactive_timers s) None;
  lists_nodup : NoDup (A ++ I)
}.

Lemma lists_in_heap s A I x : lists s A I -> x ∈ A ++ I -> is_Some (heap s !! x).
Proof. intros [HA HI _] [H|H]%elem_of_app; eauto using lseg_lookup. Qed.

Lemma lists_size s A I : lists s A I -> (length A <= size (heap s))%nat.
Proof.
  intros HL. destruct HL as [HA HI Hnd] eqn:E. clear E.
  apply NoDup_app in Hnd as (HndA & _ & _).
  rewrite <- (size_list_to_set (C := gset nat) A) by done. rewrite <- size_dom.
  apply subseteq_size. intros x Hx. apply elem_of_list_to_set in Hx.
  apply elem_of_dom. eauto using lseg_lookup.
Qed.

(** *** Finding the place of a timer *)

Lemma insert_scan_spec fuel chk h t p A cur :
  (length A < fuel)%nat -> lseg h p A cur None ->
  exists A1 A2, A = A1 ++ A2 /\
    insert_scan fuel chk h t p cur = (last_or p A1, head A2) /\
    Forall (fun x => insert_here chk (timer_at h x) t = false) A1 /\
    match A2 with [] => True | c :: _ => insert_here chk (timer_at h c) t = true end.
Proof.
  revert fuel p cur. induction A as [|x A IH]; intros [|fuel] p cur Hf; cbn [length lseg insert_scan] in *;
    try lia.
  - intros ->. exists [], []. repeat constructor.
  - intros (-> & tx & Htx & Hp & H).
    assert (timer_at h x = tx) as Hat by (unfold timer_at; by rewrite Htx).
    destruct (insert_here chk (timer_at h x) t) eqn:Eh.
    + exists [], (x :: A). split_and!; try done.
    + rewrite Hat. destruct (IH fuel (Some x) (m_next tx)) as (A1 & A2 & -> & -> & HF & HA2);
        [lia|done|].
      exists (x :: A1), A2. split_and!; [done| |by constructor|done].
      by rewrite last_or_cons.
Qed.

(** *** Linking a timer in

    Whatever the position, the links of the new entry and of its neighbours
    are the ones [lseg] asks for. *)
Lemma lseg_link h A1 A2 id t hd :
  h !! id = Some t -> NoDup (A1 ++ id :: A2) ->
  lseg h None (A1 ++ A2) hd None ->
  m_prev t = last_or None A1 -> m_next t = head A2 ->
  let h' := match last A1 with
            | Some p => alter (fun t => t <| m_next := Some id |>) p h
            | None => h
            end in
  let h'' := match head A2 with
             | Some c => alter (fun t => t <| m_prev := Some id |>) c h'
             | None => h'
             end in
  lseg h'' None (A1 ++ id :: A2) (match last A1 with Some _ => hd | None => Some id end) None.
Proof.
  intros Hid Hnd HA Hp Hn h' h''.
  apply NoDup_app in Hnd as (Hnd1 & Hdis & [Hid2 Hnd2]%NoDup_cons).
  assert (id ∉ A1) as Hid1 by set_solver.
  apply lseg_app in HA as (mid & H1 & H2).
  pose proof (lseg_head _ _ _ _ _ H2 eq_refl) as ->.
  assert (lseg h' None A1 (match last A1 with Some _ => hd | None => Some id end) (Some id)) as H1'.
  { unfold h'. destruct A1 as [|p A1 _] using rev_ind; [done|].
    rewrite last_snoc. eapply lseg_set_next; done. }
  assert (h' !! id = Some t) as Hid'.
  { unfold h'. destruct (last A1) as [p|] eqn:El; [|done].
    rewrite lookup_alter_ne; [done|]. intros ->.
    apply last_Some in El as [? ->]. set_solver. }
  assert (lseg h' (last_or None A1) A2 (head A2) None) as H2'.
  { unfold h'. destruct (last A1) as [p|] eqn:El; [|done].
    apply lseg_alter; [|done]. apply last_Some in El as [? ->]. set_solver. }
  apply lseg_app. exists (Some id). unfold h''. destruct A2 as [|c A2].
  - cbn [head]. split; [done|]. cbn [lseg head] in *. eauto.
  - cbn [head]. split.
    + apply lseg_alter; [set_solver|done].
    + apply lseg_cons. split; [done|]. exists t. rewrite lookup_alter_ne by set_solver.
      split_and!; [done..|]. rewrite Hn.
      eapply (lseg_set_prev h' _ (Some id)); [done|done].
Qed.

(** *** Unlinking a timer *)
Lemma lseg_unlink h A1 A2 id t hd :
  h !! id = Some t -> NoDup (A1 ++ id :: A2) ->
  lseg h None (A1 ++ id :: A2) hd None ->
  let h' := match m_prev t with
            | Some p => alter (fun u => u <| m_next := m_next t |>) p h
            | None => h
            end in
  let h'' := match m_next t with
             | Some n => alter (fun u => u <| m_prev := m_prev t |>) n h'
             | None => h'
             end in
  m_prev t = last A1 /\
  lseg h'' None (A1 ++ A2) (match m_prev t with Some _ => hd | None => m_next t end) None.
Proof.
  intros Hid Hnd HA. destruct (lseg_member _ _ _ _ _ _ _ HA) as (t' & Ht' & Hp & H2 & H1).
  simplify_eq. intros h' h''.
  pose proof (lseg_head _ _ _ _ _ H2 eq_refl) as Hn.
  assert (m_prev t = last A1) as Hp' by (rewrite Hp; unfold last_or; by destruct (last A1)).
  split; [done|].
  apply NoDup_app in Hnd as (Hnd1 & Hdis & [Hid2 Hnd2]%NoDup_cons).
  assert (lseg h' None A1 (match m_prev t with Some _ => hd | None => m_next t end) (m_next t)) as H1'.
  { unfold h'. rewrite Hp'. destruct A1 as [|p A1 _] using rev_ind; [done|].
    rewrite last_snoc. eapply lseg_set_next; done. }
  assert (lseg h' (Some id) A2 (m_next t) None) as H2'.
  { unfold h'. rewrite Hp'. destruct (last A1) as [p|] eqn:El; [|done].
    apply lseg_alter; [|done]. apply last_Some in El as [? ->]. set_solver. }
  apply lseg_app. exists (m_next t). unfold h''. rewrite Hn in *. destruct A2 as [|c A2].
  - by cbn [head lseg].
  - cbn [head]. split; [apply lseg_alter; [set_solver|done]|].
    replace (last_or None A1) with (m_prev t).
    eapply lseg_set_prev; [done|done].
Qed.

(** Everything but the lists and the links. *)
Record frame (s s' : sched) : Prop := mk_frame {
  frame_data : heap_data (heap s') = heap_data (heap s);
  frame_callback_timer : m_callback_timer s' = m_callback_timer s;
  frame_modified : m_callback_timer_modified s' = m_callback_timer_modified s;
  frame_expire_time : m_callback_timer_expire_time s' = m_callback_timer_expire_time s;
  frame_basetime : m_basetime s' = m_basetime s;
  frame_executing : m_executing_device s' = m_executing_device s;
  frame_aborted : timeslice_aborted s' = timeslice_aborted s
}.

#[export] Instance frame_preorder : PreOrder frame.
Proof. split; [by constructor|]. intros x y z H1 H2. destruct H1, H2. constructor; etransitivity; eassumption. Qed.

Lemma frame_time s s' : frame s s' -> time s' = time s.
Proof. intros [_ E1 _ E2 E3 E4 _]. unfold time. by rewrite E1, E2, E3, E4. Qed.

Lemma frame_put id f s : (forall t, data (f t) = data t) -> frame s (put id f s).
Proof. intros Hf. constructor; try done. by apply heap_data_alter. Qed.
Lemma frame_next id n s : frame s (put id (fun t => t <| m_next := n |>) s).
Proof. by apply frame_put. Qed.
Lemma frame_prev id n s : frame s (put id (fun t => t <| m_prev := n |>) s).
Proof. by apply frame_put. Qed.
Lemma frame_head n s : frame s (s <| m_timer_list := n |>).
Proof. by constructor. Qed.
Lemma frame_head_inactive n s : frame s (s <| m_inactive_timers := n |>).
Proof. by constructor. Qed.

Ltac frame_tac :=
  repeat first [ reflexivity
    | etransitivity; [|apply frame_next] | etransitivity; [|apply frame_prev]
    | etransitivity; [|apply frame_head] | etransitivity; [|apply frame_head_inactive] ].

Lemma lseg_other h p l hd x f :
  x ∉ l -> lseg h p l hd None -> lseg (alter f x h) p l hd None.
Proof. apply lseg_alter. Qed.

(** A timer whose links are rewritten keeps the rest. *)
Lemma at_lookup h id t : h !! id = Some t -> timer_at h id = t.
Proof. intros H. unfold timer_at. by rewrite H. Qed.

Lemma alter_links (h : gmap nat emu_timer) id t prv nxt :
  h !! id = Some t ->
  alter (fun t => t <| m_next := nxt |>) id (alter (fun t => t <| m_prev := prv |>) id h) !! id
    = Some (t <| m_prev := prv |> <| m_next := nxt |>).
Proof. intros H. by rewrite !lookup_alter_eq, H. Qed.

Lemma alter_links' (h : gmap nat emu_timer) id t prv nxt :
  h !! id = Some t ->
  alter (fun t => t <| m_prev := prv |>) id (alter (fun t => t <| m_next := nxt |>) id h) !! id
    = Some (t <| m_next := nxt |> <| m_prev := prv |>).
Proof. intros H. by rewrite !lookup_alter_eq, H. Qed.

Lemma last_or_none l : last_or None l = last l.
Proof. unfold last_or. by destruct (last l). Qed.

Lemma NoDup_middle (A1 A2 I : list nat) id :
  NoDup ((A1 ++ A2) ++ I) -> id ∉ (A1 ++ A2) ++ I -> NoDup ((A1 ++ id :: A2) ++ I).
Proof.
  intros Hnd Hid. rewrite <- app_assoc in *. cbn.
  rewrite <- Permutation_middle. by apply NoDup_cons.
Qed.

(** *** The active branch of [timer_list_insert] *)

(** The writes of the active branch, after the place [A1 | A2] is found. *)
Lemma link_lists s A1 A2 I id t :
  lists s (A1 ++ A2) I -> id ∉ (A1 ++ A2) ++ I -> heap s !! id = Some t ->
  forall s0 s1, s0 = put id (fun t => t <| m_next := head A2 |>)
                       (put id (fun t => t <| m_prev := last_or None A1 |>) s) ->
  s1 = match last_or None A1 with
       | Some p => put p (fun t => t <| m_next := Some id |>) s0
       | None => s0 <| m_timer_list := Some id |>
       end ->
  let s2 := match head A2 with
            | Some c => put c (fun t => t <| m_prev := Some id |>) s1
            | None => s1
            end in
  lists s2 (A1 ++ id :: A2) I /\ frame s s2.
Proof.
  intros [HA HI Hnd] Hid Ht s0 s1 E0 E1 s2.
  rewrite last_or_none in *. pose proof (NoDup_middle _ _ _ _ Hnd Hid) as Hnd'.
  pose proof Hnd' as (HndA & Hdis & _)%NoDup_app.
  assert ((id ∉ A1 ++ A2) /\ (id ∉ I)) as [HidA HidI] by set_solver.
  pose proof (alter_links _ _ _ (last A1) (head A2) Ht) as Ht0.
  unshelve epose proof (lseg_link _ A1 A2 id _ (m_timer_list s) Ht0 HndA _ _ _) as HL;
    [by do 2 (apply lseg_alter; [done|])|by rewrite last_or_none|done|].
  subst s0.
  assert (forall x, x ∈ I -> x ∉ A1 ++ id :: A2) as HdI by set_solver.
  subst s1. subst s2. split; [constructor|].
  - destruct (last A1) as [p|], (head A2) as [c|]; exact HL.
  - assert (forall p, last A1 = Some p -> p ∉ I) as HpI.
    { intros p [? ->]%last_Some Hp. apply HdI in Hp. set_solver. }
    assert (forall c, head A2 = Some c -> c ∉ I) as HcI.
    { intros c Hc Hp. apply HdI in Hp. destruct A2; cbn in Hc; simplify_eq. set_solver. }
    destruct (last A1) as [p|], (head A2) as [c|]; cbn [heap put upd m_inactive_timers];
      repeat (apply lseg_alter; [eauto|]); done.
  - done.
  - destruct (last A1) as [p|], (head A2) as [c|]; frame_tac.
Qed.

(** *** The list operations on represented lists *)

Lemma insert_active chk id s A I t :
  lists s A I -> id ∉ A ++ I -> heap s !! id = Some t ->
  is_never (m_expire t) = false -> m_enabled t = true ->
  exists A1 A2, A = A1 ++ A2 /\
    lists (timer_list_insert chk id s) (A1 ++ id :: A2) I /\
    frame s (timer_list_insert chk id s) /\
    Forall (fun x => insert_here chk (timer_at (heap s) x) t = false) A1 /\
    match A2 with [] => True | c :: _ => insert_here chk (timer_at (heap s) c) t = true end.
Proof.
  intros HL Hid Ht Hn He. pose proof (lists_size _ _ _ HL) as Hsz.
  destruct (insert_scan_spec (S (size (heap s))) chk (heap s) t None A (m_timer_list s))
    as (A1 & A2 & -> & Hscan & HF & HA2); [lia|apply HL|].
  exists A1, A2. split; [done|].
  pose proof (link_lists s A1 A2 I id t HL Hid Ht _ _ eq_refl eq_refl) as Hlink.
  unfold timer_list_insert. rewrite (at_lookup _ _ _ Ht), Hn, He, Hscan. cbn [negb andb].
  destruct A2 as [|c A2]; cbn [head] in *.
  - (* at the end: the same writes in another order *)
    destruct (last_or None A1) as [p|] eqn:Ep; [|tauto].
    assert (p ≠ id) as Hne.
    { rewrite last_or_none in Ep. apply last_Some in Ep as [? ->]. set_solver. }
    assert (forall f g, put id g (put id f (put p (fun t => t <| m_next := Some id |>) s)) =
      put p (fun t => t <| m_next := Some id |>) (put id g (put id f s))) as Hcomm.
    { intros f g. unfold put, upd; cbn. f_equal.
      by rewrite !(alter_alter_ne _ _ _ p) by done. }
    rewrite Hcomm. tauto.
  - tauto.
Qed.

Lemma insert_inactive chk id s A I t :
  lists s A I -> id ∉ A ++ I -> heap s !! id = Some t ->
  is_never (m_expire t) = true \/ m_enabled t = false ->
  lists (timer_list_insert chk id s) A (id :: I) /\ frame s (timer_list_insert chk id s).
Proof.
  intros [HA HI Hnd] Hid Ht Hoff. unfold timer_list_insert. rewrite (at_lookup _ _ _ Ht).
  assert (negb (is_never (m_expire t)) && m_enabled t = false) as -> by (destruct Hoff as [-> | ->];
    rewrite ?andb_false_r; done).
  assert ((id ∉ A) /\ (id ∉ I)) as [HidA HidI] by set_solver.
  assert (NoDup (A ++ id :: I)) as Hnd'.
  { rewrite <- Permutation_middle. by apply NoDup_cons. }
  pose proof Hnd as (_ & Hdis & _)%NoDup_app.
  pose proof (lseg_head _ _ _ _ _ HI eq_refl) as Ehd.
  split; [constructor|]; [| |done|].
  - cbn [heap m_timer_list upd put]. destruct (m_inactive_timers s) as [i|] eqn:Ei;
      cbn [heap m_timer_list upd put]; repeat (apply lseg_alter; [try done|]); try done.
    intros Hi. destruct I; cbn in Ehd; simplify_eq. set_solver.
  - cbn [heap m_inactive_timers upd put]. apply lseg_cons. split; [done|].
    eexists. split; [rewrite !lookup_alter_eq; rewrite Ehd; destruct I as [|i I]; cbn [head put heap upd];
      rewrite ?lookup_alter_ne by set_solver; by rewrite Ht|].
    split; [done|]. cbn [m_next upd]. do 2 (apply lseg_alter; [done|]).
    rewrite Ehd in *. destruct I as [|i I]; cbn [head put heap upd]; [done|].
    eapply lseg_set_prev; [|done]. by apply NoDup_app in Hnd as (_ & _ & ?).
  - destruct (m_inactive_timers s) as [i|]; frame_tac.
Qed.

Lemma remove_lists_active id s A1 A2 I :
  lists s (A1 ++ id :: A2) I ->
  lists (timer_list_remove id s) (A1 ++ A2) I /\ frame s (timer_list_remove id s).
Proof.
  intros [HA HI Hnd]. destruct (lseg_member _ _ _ _ _ _ _ HA) as (t & Ht & Hp & H2 & _).
  pose proof Hnd as (HndA & Hdis & _)%NoDup_app.
  destruct (lseg_unlink _ _ _ _ _ _ Ht HndA HA) as [Hlast HL].
  pose proof (lseg_head _ _ _ _ _ H2 eq_refl) as Hn.
  unfold timer_list_remove. rewrite (at_lookup _ _ _ Ht).
  assert (forall p, m_prev t = Some p -> p ∉ I) as HpI.
  { intros p E. rewrite Hlast in E. apply last_Some in E as [? ->]. set_solver. }
  assert (forall n, m_next t = Some n -> n ∉ I) as HnI.
  { intros n E. rewrite Hn in E. destruct A2; cbn in E; simplify_eq. set_solver. }
  assert (m_prev t = None -> m_timer_list s = Some id) as Hhd.
  { rewrite Hlast. intros ->%last_None. by apply lseg_cons in HA as [-> _]. }
  split; [constructor|].
  - destruct (m_prev t) as [p|]; [|rewrite bool_decide_true by auto];
      destruct (m_next t) as [n|]; exact HL.
  - destruct (m_prev t) as [p|]; [|rewrite bool_decide_true by auto];
      destruct (m_next t) as [n|]; cbn [heap put upd m_inactive_timers];
      repeat (apply lseg_alter; [eauto|]); done.
  - rewrite <- app_assoc in *. cbn in Hnd. rewrite <- Permutation_middle in Hnd.
    by apply NoDup_cons in Hnd as [_ ?].
  - destruct (m_prev t) as [p|]; [|rewrite bool_decide_true by auto];
      destruct (m_next t) as [n|]; frame_tac.
Qed.

Lemma remove_lists_inactive id s A I1 I2 :
  lists s A (I1 ++ id :: I2) ->
  lists (timer_list_remove id s) A (I1 ++ I2) /\ frame s (timer_list_remove id s).
Proof.
  intros [HA HI Hnd]. destruct (lseg_member _ _ _ _ _ _ _ HI) as (t & Ht & Hp & H2 & _).
  pose proof Hnd as (_ & Hdis & HndI)%NoDup_app.
  destruct (lseg_unlink _ _ _ _ _ _ Ht HndI HI) as [Hlast HL].
  pose proof (lseg_head _ _ _ _ _ H2 eq_refl) as Hn.
  unfold timer_list_remove. rewrite (at_lookup _ _ _ Ht).
  assert (forall p, m_prev t = Some p -> p ∉ A) as HpA.
  { intros p E HpA. rewrite Hlast in E. apply last_Some in E as [? ->].
    apply Hdis in HpA. set_solver. }
  assert (forall n, m_next t = Some n -> n ∉ A) as HnA.
  { intros n E HnA. rewrite Hn in E. destruct I2; cbn in E; simplify_eq.
    apply Hdis in HnA. set_solver. }
  assert (m_timer_list s ≠ Some id) as Hhd.
  { intros E. pose proof (lseg_head _ _ _ _ _ HA eq_refl) as E'. rewrite E in E'.
    destruct A as [|a A]; cbn in E'; simplify_eq. apply (Hdis a); set_solver. }
  rewrite bool_decide_false by done. split; [constructor|].
  - destruct (m_prev t) as [p|], (m_next t) as [n|]; cbn [heap put upd m_timer_list];
      repeat (apply lseg_alter; [eauto|]); done.
  - destruct (m_prev t) as [p|], (m_next t) as [n|]; exact HL.
  - apply NoDup_app in Hnd as (HndA & _ & _). apply NoDup_app.
    split_and!; [done|set_solver|].
    apply NoDup_app in HndI as (? & ? & [? ?]%NoDup_cons). apply NoDup_app. set_solver.
  - destruct (m_prev t) as [p|], (m_next t) as [n|]; frame_tac.
Qed.

(** ** The invariant

    [d] is the never-expiring timer the constructor puts in the active list;
    [A] are the other active timers, in order of expiry.  The timer [ex] may
    sit in the active list although it is disabled: a one-shot timer during
    its own callback. *)

Definition timer_wf (t : emu_timer) : Prop :=
  wf (m_expire t) /\ (wf (m_period t) /\ 0 <= m_seconds (m_period t)) /\ wf (m_start t).

Definition expires_by (h : gmap nat emu_timer) (x y : nat) : Prop :=
  val (expire_at h x) <= val (expire_at h y).

Record inv (ex : option nat) (s : sched) (A I : list nat) (d : nat) : Prop := mk_inv {
  inv_lists : lists s (A ++ [d]) I;
  inv_wf : forall x, x ∈ (A ++ [d]) ++ I -> timer_wf (timer_at (heap s) x);
  inv_active : forall x, x ∈ A ->
    (enabled_at (heap s) x = true \/ ex = Some x) /\ is_never (expire_at (heap s) x) = false;
  inv_dummy : is_never (expire_at (heap s) d) = true;
  inv_sorted : StronglySorted (expires_by (heap s)) A;
  inv_now : wf (time s)
}.

Definition except (ex : option nat) (id : nat) : option nat :=
  if bool_decide (ex = Some id) then None else ex.

Definition without (id : nat) (l : list nat) : list nat := filter (fun x => x ≠ id) l.

Lemma without_notin id l : id ∉ l -> without id l = l.
Proof.
  unfold without. induction l as [|x l IH]; [done|]. intros [Hx Hl]%not_elem_of_cons.
  rewrite filter_cons_True by done. by rewrite IH.
Qed.

Lemma without_split id l1 l2 : NoDup (l1 ++ id :: l2) -> without id (l1 ++ id :: l2) = l1 ++ l2.
Proof.
  intros (H1 & Hd & [H2 _]%NoDup_cons)%NoDup_app.
  assert (id ∉ l1) by set_solver. unfold without.
  rewrite filter_app, filter_cons_False by auto.
  fold (without id l1) (without id l2). by rewrite !without_notin.
Qed.

Lemma elem_of_without id x l : x ∈ without id l <-> x ≠ id /\ x ∈ l.
Proof. apply (list_elem_of_filter (fun x => x ≠ id)). Qed.

Lemma expire_at_ne h f id x : x ≠ id -> timer_at (alter f id h) x = timer_at h x.
Proof. intros H. unfold timer_at. by rewrite lookup_alter_ne. Qed.

Lemma timer_at_alter h f id : is_Some (h !! id) -> timer_at (alter f id h) id = f (timer_at h id).
Proof. intros [t Ht]. unfold timer_at. by rewrite lookup_alter_eq, Ht. Qed.

Lemma lseg_put h p l hd e f id :
  (forall t, m_next (f t) = m_next t /\ m_prev (f t) = m_prev t) ->
  lseg h p l hd e -> lseg (alter f id h) p l hd e.
Proof.
  intros Hf. revert p hd. induction l as [|x l IH]; intros p hd; cbn [lseg]; [done|].
  intros (-> & t & Ht & Hp & H). split; [done|].
  destruct (decide (x = id)) as [->|Hne].
  - exists (f t). rewrite lookup_alter_eq, Ht. destruct (Hf t) as [-> ->]. auto.
  - exists t. rewrite lookup_alter_ne by done. auto.
Qed.

Lemma lists_put s A I f id :
  (forall t, m_next (f t) = m_next t /\ m_prev (f t) = m_prev t) ->
  lists s A I -> lists (put id f s) A I.
Proof. intros Hf [HA HI Hnd]. constructor; [by apply lseg_put..|done]. Qed.

Lemma sorted_split {X} (R : X -> X -> Prop) l1 x l2 :
  StronglySorted R (l1 ++ l2) ->
  Forall (fun y => R y x) l1 -> Forall (R x) l2 -> StronglySorted R (l1 ++ x :: l2).
Proof.
  induction l1 as [|y l1 IH]; cbn; intros Hs H1 H2.
  - by constructor.
  - inversion Hs as [|? ? Hs' Hy]; subst. inversion H1; subst. constructor; [auto|].
    apply Forall_app in Hy as [? ?]. apply Forall_app; auto.
Qed.

Lemma sorted_ext (R R' : nat -> nat -> Prop) l :
  (forall x y, x ∈ l -> y ∈ l -> R x y -> R' x y) ->
  StronglySorted R l -> StronglySorted R' l.
Proof.
  induction l as [|x l IH]; intros HR Hs; [constructor|].
  inversion Hs as [|? ? Hs' Hx]; subst. constructor.
  - apply IH; [|done]. intros; apply HR; set_solver.
  - rewrite Forall_forall in Hx |- *. intros y Hy. apply HR; [set_solver..|auto].
Qed.

Lemma sorted_without (R : nat -> nat -> Prop) id l :
  StronglySorted R l -> StronglySorted R (without id l).
Proof.
  induction 1 as [|x l Hs IH Hx]; [constructor|]. unfold without in *.
  rewrite filter_cons. case_decide; [|done]. constructor; [done|].
  rewrite Forall_forall in Hx |- *. intros y [_ Hy]%list_elem_of_filter. auto.
Qed.

(** An entry never goes after the never-expiring timer. *)
Lemma insert_before_never h d t :
  is_never (expire_at h d) = true -> is_never (m_expire t) = false ->
  wf (expire_at h d) -> wf (m_expire t) -> insert_here false (timer_at h d) t = true.
Proof.
  intros Hd Ht Hwd Hwt. unfold insert_here. cbn [andb]. rewrite orb_false_r.
  rewrite gtb_val by done. apply Z.ltb_lt. unfold expire_at in *. atto_unfold.
  apply Z.leb_le in Hd. apply Z.leb_gt in Ht. lia.
Qed.

Lemma insert_here_false h x t :
  wf (expire_at h x) -> wf (m_expire t) ->
  insert_here false (timer_at h x) t = (val (m_expire t) <? val (expire_at h x)).
Proof.
  intros. unfold insert_here. cbn [andb]. rewrite orb_false_r. by apply gtb_val.
Qed.

Lemma remove_lists s A I d id :
  lists s (A ++ [d]) I -> id ∈ A ++ I ->
  lists (timer_list_remove id s) (without id A ++ [d]) (without id I) /\
  frame s (timer_list_remove id s).
Proof.
  intros HL Hid. pose proof (lists_nodup _ _ _ HL) as Hnd.
  rewrite <- app_assoc in Hnd. apply NoDup_app in Hnd as (HndA & Hdis & HndI).
  apply NoDup_cons in HndI as [Hd HndI].
  apply elem_of_app in Hid as [Hid|Hid].
  - rewrite (without_notin id I) by (specialize (Hdis _ Hid); set_solver).
    apply list_elem_of_split in Hid as (B1 & B2 & ->).
    rewrite without_split by done. rewrite <- !app_assoc in *. by apply remove_lists_active.
  - rewrite (without_notin id A) by (intros H; specialize (Hdis _ H); set_solver).
    apply list_elem_of_split in Hid as (B1 & B2 & ->).
    rewrite without_split by done. by apply remove_lists_inactive.
Qed.

Lemma without_nodup_notin id A d I :
  NoDup ((A ++ [d]) ++ I) -> id ∈ A ++ I -> id ∉ (without id A ++ [d]) ++ without id I.
Proof.
  intros Hnd Hid. rewrite !elem_of_app, !elem_of_without.
  assert (id ≠ d); [|set_solver]. intros ->.
  rewrite <- app_assoc in Hnd. apply NoDup_app in Hnd as (_ & Hd & [Hd' _]%NoDup_cons).
  apply elem_of_app in Hid as [Hid|Hid]; [|set_solver]. specialize (Hd _ Hid). set_solver.
Qed.

(** Where a timer lands when it is inserted among ordered ones. *)
Lemma insert_sorted s A I d id t :
  lists s (A ++ [d]) I -> id ∉ (A ++ [d]) ++ I -> heap s !! id = Some t ->
  (forall x, x ∈ A ++ [d] -> wf (expire_at (heap s) x)) -> wf (m_expire t) ->
  is_never (expire_at (heap s) d) = true ->
  is_never (m_expire t) = false -> m_enabled t = true ->
  StronglySorted (expires_by (heap s)) A ->
  exists A1 A2, A = A1 ++ A2 /\
    lists (timer_list_insert false id s) ((A1 ++ id :: A2) ++ [d]) I /\
    frame s (timer_list_insert false id s) /\
    Forall (fun x => val (expire_at (heap s) x) <= val (m_expire t)) A1 /\
    Forall (fun x => val (m_expire t) < val (expire_at (heap s) x)) A2.
Proof.
  intros HL Hid Ht Hwf Hwt Hd Hn He Hs.
  destruct (insert_active false id s (A ++ [d]) I t HL Hid Ht Hn He)
    as (B1 & B2 & EB & HL' & Hfr & HF & HB2).
  destruct B2 as [|z B2 _] using rev_ind.
  { exfalso. rewrite app_nil_r in EB. subst B1. rewrite Forall_app, Forall_singleton in HF.
    destruct HF as [_ HF]. rewrite (insert_before_never (heap s) d t) in HF; try done.
    apply Hwf. set_solver. }
  rewrite app_assoc in EB. apply app_inj_tail in EB as [-> <-].
  exists B1, B2. split; [done|]. split; [by rewrite <- app_assoc|]. split; [done|].
  rewrite !Forall_forall in *. split.
  - intros x Hx. specialize (HF x Hx). rewrite insert_here_false in HF; [|apply Hwf; set_solver|done].
    apply Z.ltb_ge in HF. lia.
  - destruct B2 as [|c B2]; [set_solver|]. cbn [app] in HB2.
    rewrite insert_here_false in HB2; [|apply Hwf; set_solver|done]. apply Z.ltb_lt in HB2.
    intros x [->|Hx]%elem_of_cons; [done|].
    apply StronglySorted_app in Hs as (_ & _ & Hs). inversion Hs as [|? ? _ Hc]; subst.
    rewrite Forall_forall in Hc. specialize (Hc x Hx). unfold expires_by in Hc. lia.
Qed.

(** ** Moving a timer

    [enable], [adjust] and [schedule_next_period] change a timer and then
    remove and re-insert it. *)

Definition relocate (f : emu_timer -> emu_timer) (id : nat) (s : sched) : sched :=
  timer_list_insert false id (timer_list_remove id (put id f s)).

(** The active list after moving timer [id], of new value [t], in [A]. *)
Definition placed (h : gmap nat emu_timer) (t : emu_timer) (id : nat) (A I A' I' : list nat) : Prop :=
  if negb (is_never (m_expire t)) && m_enabled t
  then I' = without id I /\ exists A1 A2, without id A = A1 ++ A2 /\ A' = A1 ++ id :: A2 /\
    Forall (fun x => val (expire_at h x) <= val (m_expire t)) A1 /\
    Forall (fun x => val (m_expire t) < val (expire_at h x)) A2
  else A' = without id A /\ I' = id :: without id I.

Lemma placed_elem h t id A I A' I' x :
  placed h t id A I A' I' -> x ∈ A' ++ I' -> x = id \/ x ∈ without id A ++ without id I.
Proof.
  unfold placed. destruct (_ && _).
  - intros (-> & A1 & A2 & -> & -> & _). set_solver.
  - intros [-> ->]. set_solver.
Qed.

Lemma data_timer_wf t t' : data t = data t' -> timer_wf t -> timer_wf t'.
Proof. intros E%data_fields. unfold timer_wf. destruct E as (_ & _ & _ & _ & -> & -> & -> & _). done. Qed.

(** Timer [id] has been changed by [f] and moved; nothing else changed. *)
Lemma moved_data s s' f id :
  frame (put id f s) s' -> is_Some (heap s !! id) ->
  data (timer_at (heap s') id) = data (f (timer_at (heap s) id)) /\
  forall x, x ≠ id -> data (timer_at (heap s') x) = data (timer_at (heap s) x).
Proof.
  intros Hfr Hin. split; [|intros x Hx].
  - rewrite (heap_data_at _ _ id (frame_data _ _ Hfr)). by cbn [put heap upd]; rewrite timer_at_alter.
  - rewrite (heap_data_at _ _ x (frame_data _ _ Hfr)). by cbn [put heap upd]; rewrite expire_at_ne.
Qed.

Lemma data_view h h' x y : data (timer_at h x) = data (timer_at h' y) ->
  expire_at h x = expire_at h' y /\ enabled_at h x = enabled_at h' y.
Proof. intros E%data_fields. unfold expire_at, enabled_at. tauto. Qed.

Lemma moved_view s s' f id x :
  frame (put id f s) s' -> is_Some (heap s !! id) -> x ≠ id ->
  expire_at (heap s') x = expire_at (heap s) x /\ enabled_at (heap s') x = enabled_at (heap s) x.
Proof. intros Hfr Hin Hx. apply data_view. by apply (moved_data s s' f id). Qed.

Lemma moved_expire s s' f id :
  frame (put id f s) s' -> is_Some (heap s !! id) ->
  expire_at (heap s') id = m_expire (f (timer_at (heap s) id)) /\
  enabled_at (heap s') id = m_enabled (f (timer_at (heap s) id)).
Proof.
  intros Hfr Hin. destruct (moved_data s s' f id Hfr Hin) as [E%data_fields _].
  unfold expire_at, enabled_at. tauto.
Qed.

Lemma placed_sorted h h' t id A I A' I' :
  placed h t id A I A' I' -> expire_at h' id = m_expire t ->
  (forall x, x ≠ id -> expire_at h' x = expire_at h x) ->
  StronglySorted (expires_by h) A -> StronglySorted (expires_by h') A'.
Proof.
  intros Hpl Hid Hx Hs.
  assert (StronglySorted (expires_by h') (without id A)) as Hs'.
  { eapply sorted_ext; [|by apply sorted_without]. intros x y [Hxn _]%elem_of_without [Hyn _]%elem_of_without.
    unfold expires_by. by rewrite !Hx. }
  unfold placed in Hpl. destruct (_ && _); [|by destruct Hpl as [-> _]].
  destruct Hpl as (_ & A1 & A2 & EA & -> & HF1 & HF2).
  assert (forall x, x ∈ A1 ++ A2 -> x ≠ id) as HA by (intros x; rewrite <- EA, elem_of_without; tauto).
  rewrite EA in Hs'. rewrite !Forall_forall in *.
  apply sorted_split; [done|rewrite Forall_forall; intros x H; unfold expires_by..].
  - rewrite Hid, Hx by (apply HA; set_solver). auto.
  - rewrite Hid, Hx by (apply HA; set_solver). apply Z.lt_le_incl. auto.
Qed.

Lemma placed_active h t id A I A' I' x :
  placed h t id A I A' I' -> x ∈ A' -> id ∉ without id A ->
  (x = id /\ is_never (m_expire t) = false /\ m_enabled t = true) \/ (x ≠ id /\ x ∈ A).
Proof.
  unfold placed. intros Hpl Hx Hid. destruct (_ && _) eqn:E.
  - destruct Hpl as (_ & A1 & A2 & EA & -> & _). apply andb_true_iff in E as [E%negb_true_iff ?].
    destruct (decide (x = id)) as [->|]; [by left|right].
    apply elem_of_without. rewrite EA. set_solver.
  - destruct Hpl as [-> _]. right. by apply elem_of_without.
Qed.

Lemma except_other ex id x : x ≠ id -> ex = Some x -> except ex id = Some x.
Proof. intros Hx ->. unfold except. rewrite bool_decide_false; congruence. Qed.

Lemma inv_moved ex s s' A I d f id A' I' :
  inv ex s A I d -> is_Some (heap s !! id) -> id ≠ d -> frame (put id f s) s' ->
  timer_wf (f (timer_at (heap s) id)) ->
  placed (heap s) (f (timer_at (heap s) id)) id A I A' I' ->
  lists s' (A' ++ [d]) I' -> inv (except ex id) s' A' I' d.
Proof.
  intros [HL Hwf Hact Hd Hsort Hnow] Hin Hne Hfr Hwft Hpl HL'.
  pose proof (moved_expire _ _ _ _ Hfr Hin) as [Eid Een].
  pose proof (moved_view _ _ _ _ d Hfr Hin (not_eq_sym Hne)) as [Ed _].
  destruct (moved_data _ _ _ _ Hfr Hin) as [Hdid Hdx].
  constructor; [done| | |by rewrite Ed| |].
  - intros x Hx. destruct (decide (x = id)) as [->|Hxn]; [by eapply data_timer_wf|].
    eapply data_timer_wf; [symmetry; by apply Hdx|]. apply Hwf.
    assert (x = d \/ x ∈ A' ++ I') as [->|Hx'] by set_solver; [set_solver|].
    destruct (placed_elem _ _ _ _ _ _ _ _ Hpl Hx') as [|Hx'']; [done|].
    rewrite elem_of_app, !elem_of_without in Hx''. set_solver.
  - intros x Hx. destruct (placed_active _ _ _ _ _ _ _ _ Hpl Hx) as [(-> & ? & ?)|[Hxn Hx']].
    + rewrite elem_of_without. tauto.
    + rewrite Eid, Een. auto.
    + destruct (moved_view _ _ _ _ x Hfr Hin Hxn) as [-> ->].
      destruct (Hact x Hx') as [[?|?] ?]; eauto using except_other.
  - eapply placed_sorted; [exact Hpl|done| |done].
    intros x Hxn. by apply (moved_view _ _ _ _ x Hfr Hin Hxn).
  - by rewrite (frame_time _ _ Hfr).
Qed.

Lemma inv_ne ex s A I d id : inv ex s A I d -> id ∈ A ++ I -> id ≠ d.
Proof.
  intros [HL _ _ _ _ _] Hid ->. pose proof (lists_nodup _ _ _ HL) as Hnd.
  pose proof (without_nodup_notin d A d I Hnd Hid). set_solver.
Qed.

(** The re-insertion of a timer that is in neither list. *)
Lemma insert_placed s A I d id t :
  lists s (A ++ [d]) I -> id ∉ (A ++ [d]) ++ I -> heap s !! id = Some t ->
  (forall x, x ∈ A ++ [d] -> wf (expire_at (heap s) x)) -> wf (m_expire t) ->
  is_never (expire_at (heap s) d) = true -> StronglySorted (expires_by (heap s)) A ->
  exists A' I', lists (timer_list_insert false id s) (A' ++ [d]) I' /\
    frame s (timer_list_insert false id s) /\
    if negb (is_never (m_expire t)) && m_enabled t
    then I' = I /\ exists A1 A2, A = A1 ++ A2 /\ A' = A1 ++ id :: A2 /\
      Forall (fun x => val (expire_at (heap s) x) <= val (m_expire t)) A1 /\
      Forall (fun x => val (m_expire t) < val (expire_at (heap s) x)) A2
    else A' = A /\ I' = id :: I.
Proof.
  intros HL Hid Ht Hwf Hwt Hd Hs. destruct (negb (is_never (m_expire t)) && m_enabled t) eqn:E.
  - apply andb_true_iff in E as [E%negb_true_iff ?].
    destruct (insert_sorted s A I d id t) as (A1 & A2 & -> & HL' & Hfr & HF1 & HF2); try done.
    exists (A1 ++ id :: A2), I. split_and!; try done. exists A1, A2. done.
  - destruct (insert_inactive false id s (A ++ [d]) I t) as [HL' Hfr]; [done..| |eauto 10].
    destruct (is_never (m_expire t)); [by left|right]. by destruct (m_enabled t).
Qed.

Lemma relocate_spec ex s A I d f id :
  inv ex s A I d -> id ∈ A ++ I ->
  (forall t, m_next (f t) = m_next t /\ m_prev (f t) = m_prev t) ->
  timer_wf (f (timer_at (heap s) id)) ->
  exists A' I', inv (except ex id) (relocate f id s) A' I' d /\
    placed (heap s) (f (timer_at (heap s) id)) id A I A' I' /\
    frame (put id f s) (relocate f id s).
Proof.
  intros Hinv Hid Hf Hwft. pose proof (inv_ne _ _ _ _ _ _ Hinv Hid) as Hne.
  destruct Hinv as [HL Hwf Hact Hd Hsort Hnow] eqn:E. clear E.
  pose proof (without_nodup_notin id A d I (lists_nodup _ _ _ HL) Hid) as Hnin.
  assert (is_Some (heap s !! id)) as Hin by (apply (lists_in_heap _ _ _ _ HL); set_solver).
  pose proof (remove_lists _ _ _ _ id (lists_put s _ _ f id Hf HL) Hid) as [HL1 Hfr1].
  unfold relocate. set (s1 := timer_list_remove id (put id f s)) in *.
  pose proof (moved_expire _ _ _ _ Hfr1 Hin) as [Eid Een].
  assert (forall x, x ∈ without id A ++ [d] -> expire_at (heap s1) x = expire_at (heap s) x) as Hexp.
  { intros x Hx. apply (moved_view _ _ _ _ x Hfr1 Hin). intros ->. set_solver. }
  destruct (heap_data_lookup (heap (put id f s)) (heap s1) id (f (timer_at (heap s) id)))
    as (t1 & Ht1 & _); [symmetry; apply Hfr1| |].
  { cbn. destruct Hin as [t Ht]. unfold timer_at. by rewrite lookup_alter_eq, Ht. }
  unfold expire_at, enabled_at in Eid, Een. rewrite (at_lookup _ _ _ Ht1) in Eid, Een.
  destruct (insert_placed s1 (without id A) (without id I) d id t1) as (A' & I' & HL' & Hfr & Hpl);
    [done..| | | | |].
  - intros x Hx. rewrite Hexp by done. apply Hwf. rewrite elem_of_app, elem_of_without in Hx. set_solver.
  - rewrite Eid. apply Hwft.
  - by rewrite Hexp by set_solver.
  - eapply sorted_ext; [|by apply sorted_without]. intros x y Hx Hy. unfold expires_by.
    by rewrite !Hexp by set_solver.
  - exists A', I'.
    assert (placed (heap s) (f (timer_at (heap s) id)) id A I A' I') as Hp.
    { unfold placed. rewrite <- Eid, <- Een. destruct (_ && _); [|done].
      destruct Hpl as (-> & A1 & A2 & EA & -> & HF1 & HF2). split; [done|]. exists A1, A2.
      rewrite !Forall_forall in *. split_and!; try done;
        intros x Hx; rewrite <- Hexp by (rewrite EA; set_solver); auto. }
    split; [|split; [done|by etransitivity]].
    eapply inv_moved; [done..| |done|done|done]. by etransitivity.
Qed.

Lemma inv_mono ex s A I d : inv None s A I d -> inv ex s A I d.
Proof.
  intros [HL Hwf Hact Hd Hs Hn]. constructor; try done.
  intros x Hx. destruct (Hact x Hx) as [[?|?] ?]; [auto|done].
Qed.

(** The invariant is about the store, the list heads and the time. *)
Lemma inv_same ex s s' A I d :
  inv ex s A I d -> heap s' = heap s -> m_timer_list s' = m_timer_list s ->
  m_inactive_timers s' = m_inactive_timers s -> wf (time s') -> inv ex s' A I d.
Proof.
  intros [[HA HI Hnd] Hwf Hact Hd Hs Hn] Eh El Ei Ht.
  constructor; rewrite ?Eh; try done. constructor; by rewrite ?Eh, ?El, ?Ei.
Qed.

Lemma inv_head ex s A I d : inv ex s A I d -> m_timer_list s = head (A ++ [d]).
Proof. intros [[HA _ _] _ _ _ _ _]. by eapply lseg_head. Qed.

Lemma time_modified b s : time (s <| m_callback_timer_modified := b |>) = time s.
Proof. done. Qed.

Lemma adjusted_wf now delay param period t :
  wf now -> wf delay -> wf period -> 0 <= m_seconds period ->
  timer_wf (adjusted now delay param period t).
Proof.
  intros. unfold adjusted, timer_wf. cbn [m_expire m_period m_start upd].
  split_and!; try done. destruct (_ <? _); auto with mame.
Qed.

(** [abort_timeslice] is called exactly when the timer came out first. *)
Definition aborts (id : nat) (s : sched) : bool :=
  bool_decide (m_timer_list s = Some id) && match m_executing_device s with Some _ => true | None => false end.

Lemma abort_if id s :
  let s' := if bool_decide (m_timer_list s = Some id) then abort_timeslice s else s in
  heap s' = heap s /\ m_timer_list s' = m_timer_list s /\
  m_inactive_timers s' = m_inactive_timers s /\ time s' = time s /\
  timeslice_aborted s' = timeslice_aborted s || aborts id s /\
  m_callback_timer_modified s' = m_callback_timer_modified s /\
  m_callback_timer s' = m_callback_timer s /\ m_basetime s' = m_basetime s.
Proof.
  unfold aborts, abort_timeslice. case_bool_decide; cbn [andb];
    [destruct (m_executing_device s) eqn:E|]; rewrite ?orb_false_r, ?orb_true_r;
    split_and!; try done; unfold time; cbn; by rewrite E.
Qed.

Lemma inv_abort ex id s A I d :
  inv ex s A I d ->
  inv ex (if bool_decide (m_timer_list s = Some id) then abort_timeslice s else s) A I d.
Proof.
  intros H. destruct (abort_if id s) as (E1 & E2 & E3 & E4 & _).
  eapply inv_same; [done..|]. rewrite E4. apply H.
Qed.

Lemma adjust_spec ex delay param period id s A I d :
  inv ex s A I d -> id ∈ A ++ I -> wf delay -> wf period -> 0 <= m_seconds period ->
  let t := adjusted (time s) delay param period (timer_at (heap s) id) in
  exists A' I', inv (except ex id) (adjust delay param period id s) A' I' d /\
    placed (heap s) t id A I A' I' /\
    data (timer_at (heap (adjust delay param period id s)) id) = data t /\
    (forall x, x ≠ id -> data (timer_at (heap (adjust delay param period id s)) x)
                         = data (timer_at (heap s) x)) /\
    timeslice_aborted (adjust delay param period id s) =
      timeslice_aborted s || (bool_decide (head (A' ++ [d]) = Some id)
        && match m_executing_device s with Some _ => true | None => false end).
Proof.
  intros Hinv Hid Hdelay Hper Hper0 t.
  set (s0 := if bool_decide (m_callback_timer s = Some id)
             then s <| m_callback_timer_modified := true |> else s).
  assert (heap s0 = heap s /\ m_timer_list s0 = m_timer_list s /\
    m_inactive_timers s0 = m_inactive_timers s /\ time s0 = time s) as (E1 & E2 & E3 & E4)
    by (unfold s0; case_bool_decide; done).
  assert (m_executing_device s0 = m_executing_device s /\
    timeslice_aborted s0 = timeslice_aborted s) as [E6 E7]
    by (unfold s0; case_bool_decide; done).
  assert (inv ex s0 A I d) as Hinv0 by (eapply inv_same; [done..|rewrite E4; apply Hinv]).
  assert (is_Some (heap s0 !! id)) as Hin by (apply (lists_in_heap _ _ _ _ (inv_lists _ _ _ _ _ Hinv0)); set_solver).
  destruct (relocate_spec ex s0 A I d (adjusted (time s0) delay param period) id)
    as (A' & I' & Hinv' & Hpl & Hfr); [done..| |].
  { apply adjusted_wf; try done. rewrite E4. apply Hinv. }
  pose proof (moved_data _ _ _ _ Hfr Hin) as [Hd Hx].
  rewrite E1, E4 in *. exists A', I'. split;
    [unfold adjust; fold s0; rewrite E4; by apply (inv_abort (except ex id) id)|]. split; [done|].
  assert (heap (adjust delay param period id s) =
    heap (relocate (adjusted (time s) delay param period) id s0)) as ->.
  { unfold adjust. fold s0. rewrite E4. apply abort_if. }
  split; [done|]. split; [done|].
  unfold adjust. fold s0. rewrite E4.
  destruct (abort_if id (relocate (adjusted (time s) delay param period) id s0))
    as (_ & _ & _ & _ & E5 & _).
  unfold aborts in E5. rewrite (frame_executing _ _ Hfr), (frame_aborted _ _ Hfr) in E5.
  rewrite <- (inv_head _ _ _ _ _ Hinv'), <- E6, <- E7. exact E5.
Qed.

(** Entering the lists for the first time. *)
Lemma inv_alloc ex s A I d id t :
  inv ex s A I d -> heap s !! id = None ->
  inv ex (s <| heap ::= (<[id := t]>) |>) A I d /\ (id ∉ (A ++ [d]) ++ I) /\
  forall x, x ≠ id -> timer_at (heap (s <| heap ::= (<[id := t]>) |>)) x = timer_at (heap s) x.
Proof.
  intros [HL Hwf Hact Hd Hs Hn] Hfree.
  assert (id ∉ (A ++ [d]) ++ I) as Hnin.
  { intros H. destruct (lists_in_heap _ _ _ _ HL H). congruence. }
  set (s0 := s <| heap ::= (<[id := t]>) |>).
  assert (forall x, x ≠ id -> timer_at (heap s0) x = timer_at (heap s) x) as Hx0.
  { intros x Hx. unfold timer_at. cbn. by rewrite lookup_insert_ne. }
  assert (forall x, x ∈ (A ++ [d]) ++ I -> timer_at (heap s0) x = timer_at (heap s) x) as Hx1.
  { intros x Hx. apply Hx0. by intros ->. }
  split; [|done]. destruct HL as [HA HI Hnd]. constructor; unfold expire_at, enabled_at.
  - constructor; [| |done]; (eapply lseg_frame; [|done]); intros x Hx; cbn;
      apply lookup_insert_ne; intros ->; set_solver.
  - intros x Hx. rewrite Hx1 by done. auto.
  - intros x Hx. rewrite Hx1 by set_solver. by apply Hact.
  - by rewrite Hx1 by set_solver.
  - eapply sorted_ext; [|done]. intros x y Hx Hy. unfold expires_by, expire_at.
    by rewrite !Hx1 by set_solver.
  - exact Hn.
Qed.

Lemma init_spec_except ex cb delay param temp id s A I d :
  inv ex s A I d -> heap s !! id = None -> wf delay ->
  let t := mk_timer None None cb param (negb (is_never (add (time s) delay))) temp
             never (time s) (add (time s) delay) 0 in
  exists A' I', inv (except ex id) (init cb delay param temp id s) A' I' d /\
    placed (heap s) t id A I A' I' /\
    data (timer_at (heap (init cb delay param temp id s)) id) = data t /\
    (forall x, x ≠ id -> data (timer_at (heap (init cb delay param temp id s)) x)
                         = data (timer_at (heap s) x)).
Proof.
  intros Hinv Hfree Hdelay t.
  destruct (inv_alloc _ _ _ _ _ id t Hinv Hfree) as (Hinv0 & Hnin & Hx).
  set (s0 := s <| heap ::= (<[id := t]>) |>) in *.
  assert (timer_at (heap s0) id = t /\ heap s0 !! id = Some t) as [Hat Hlk]
    by (unfold timer_at; cbn; by rewrite lookup_insert_eq).
  assert (timer_wf t) as Ht.
  { pose proof (inv_now _ _ _ _ _ Hinv). unfold timer_wf, t; cbn.
    split_and!; auto with mame; done. }
  destruct (insert_placed s0 A I d id t) as (A' & I' & HL' & Hfr & Hpl); try done; try apply Hinv0.
  { intros x Hx'. apply (inv_wf _ _ _ _ _ Hinv0 x). set_solver. }
  { apply Ht. }
  assert (forall x, x ∈ A -> expire_at (heap s0) x = expire_at (heap s) x) as Hexp.
  { intros x Hxa. unfold expire_at. rewrite Hx; [done|]. intros ->. set_solver. }
  assert (placed (heap s) t id A I A' I' /\ placed (heap s0) t id A I A' I') as [Hp Hp0].
  { unfold placed. rewrite !without_notin by set_solver. destruct (_ && _); [|done].
    destruct Hpl as (-> & A1 & A2 & EA & -> & HF1 & HF2).
    split; (split; [done|]); exists A1, A2; [|done]. rewrite !Forall_forall in *.
    split_and!; try done; intros x Hx'; rewrite <- Hexp by (rewrite EA; set_solver); auto. }
  assert (frame (put id (fun t => t) s0) (timer_list_insert false id s0)) as Hfr'.
  { destruct Hfr. constructor; try done. cbn. by rewrite alter_id by done. }
  destruct (moved_data s0 _ _ id Hfr' (mk_is_Some _ _ Hlk)) as [Hd1 Hd2].
  exists A', I'.
  assert (heap (init cb delay param temp id s) = heap (timer_list_insert false id s0)) as ->
    by (unfold init; apply abort_if).
  split; [|split; [done|split; [by rewrite Hd1, Hat|]]].
  - unfold init. apply (inv_abort _ id). apply (inv_moved ex s0 _ A I d (fun t => t) id); try done.
    + intros ->. set_solver.
    + by rewrite Hat.
    + by rewrite Hat.
  - intros x Hxn. rewrite Hd2, Hx by done. done.
Qed.

Lemma init_spec cb delay param temp id s A I d :
  inv None s A I d -> heap s !! id = None -> wf delay ->
  let t := mk_timer None None cb param (negb (is_never (add (time s) delay))) temp
             never (time s) (add (time s) delay) 0 in
  exists A' I', inv None (init cb delay param temp id s) A' I' d /\
    placed (heap s) t id A I A' I' /\
    data (timer_at (heap (init cb delay param temp id s)) id) = data t /\
    (forall x, x ≠ id -> data (timer_at (heap (init cb delay param temp id s)) x)
                         = data (timer_at (heap s) x)).
Proof. exact (init_spec_except None cb delay param temp id s A I d). Qed.

Lemma enable_spec ex b id s A I d :
  inv ex s A I d -> id ∈ A ++ I -> m_enabled (timer_at (heap s) id) ≠ b ->
  let t := timer_at (heap s) id <| m_enabled := b |> in
  exists A' I', inv (except ex id) (enable b id s).2 A' I' d /\
    placed (heap s) t id A I A' I' /\
    data (timer_at (heap (enable b id s).2) id) = data t /\
    (forall x, x ≠ id -> data (timer_at (heap (enable b id s).2) x) = data (timer_at (heap s) x)).
Proof.
  intros Hinv Hid Hb t.
  assert (is_Some (heap s !! id)) as Hin
    by (apply (lists_in_heap _ _ _ _ (inv_lists _ _ _ _ _ Hinv)); set_solver).
  destruct (relocate_spec ex s A I d (fun t => t <| m_enabled := b |>) id)
    as (A' & I' & Hinv' & Hpl & Hfr); [done..| |].
  { apply (inv_wf _ _ _ _ _ Hinv id). set_solver. }
  assert ((enable b id s).2 = relocate (fun t => t <| m_enabled := b |>) id s) as ->.
  { unfold enable. destruct (Bool.eqb _ b) eqn:E; [|done]. by apply eqb_prop in E. }
  pose proof (moved_data _ _ _ _ Hfr Hin) as [Hd Hx]. exists A', I'. done.
Qed.

Lemma timer_at_insert (h : gmap nat emu_timer) id t : timer_at (<[id := t]> h) id = t.
Proof. unfold timer_at. by rewrite lookup_insert_eq. Qed.

Lemma alter_singleton f d t : alter f d ({[d := t]} : gmap nat emu_timer) = {[d := f t]}.
Proof.
  apply map_eq. intros i. destruct (decide (i = d)) as [->|].
  - by rewrite lookup_alter_eq, !lookup_singleton_eq.
  - by rewrite lookup_alter_ne, !lookup_singleton_ne by done.
Qed.

Lemma device_scheduler_eq d :
  device_scheduler d =
  mk_sched {[d := mk_timer None None None 0 false true never zero never 0]}
    (Some d) None None false zero zero None false.
Proof.
  set (t := mk_timer None None None 0 false true never zero never 0).
  change (<[d := t]> ∅) with ({[d := t]} : gmap nat emu_timer).
  assert (timer_list_insert false d (mk_sched {[d := t]} None None None false zero zero None false)
    = mk_sched {[d := t]} None (Some d) None false zero zero None false) as E.
  { unfold timer_list_insert. cbn [heap]. change {[d := t]} with (<[d := t]> (∅ : gmap nat emu_timer)).
    rewrite timer_at_insert. change (<[d := t]> ∅) with ({[d := t]} : gmap nat emu_timer).
    unfold put, upd; cbn. by rewrite !alter_singleton. }
  change (device_scheduler d) with
    (let s := timer_list_insert false d
                (mk_sched {[d := t]} None None None false zero zero None false) in
     let s := if bool_decide (m_timer_list s = Some d) then abort_timeslice s else s in
     timer_list_remove d s <| m_timer_list := Some d |>).
  rewrite E. cbn [m_timer_list]. rewrite bool_decide_false by done.
  unfold timer_list_remove. cbn [heap]. change {[d := t]} with (<[d := t]> (∅ : gmap nat emu_timer)).
  rewrite timer_at_insert. cbn. by rewrite bool_decide_false.
Qed.

Lemma device_scheduler_inv d : inv None (device_scheduler d) [] [] d.
Proof.
  rewrite device_scheduler_eq. set (t := mk_timer None None None 0 false true never zero never 0).
  assert (timer_at {[d := t]} d = t) as Hat by (unfold timer_at; by rewrite lookup_singleton_eq).
  split; cbn [heap app].
  - split; [|done|apply NoDup_singleton]. cbn. split; [done|]. exists t.
    by rewrite lookup_singleton_eq.
  - intros x ->%list_elem_of_singleton. rewrite Hat. unfold timer_wf; cbn.
    split_and!; auto with mame; done.
  - intros x Hx. by apply elem_of_nil in Hx.
  - unfold expire_at. by rewrite Hat.
  - constructor.
  - cbn. auto with mame.
Qed.

(** ** One turn of [execute_timers] *)

(** The state the callback of the due timer [id] runs in. *)
Definition firing (id : nat) (s : sched) : sched :=
  let timer := timer_at (heap s) id in
  let s := if is_zero (m_period timer) || is_never (m_period timer)
           then put id (fun t => t <| m_enabled := false |>) s else s in
  s <| m_callback_timer_modified := false |> <| m_callback_timer := Some id |>
    <| m_callback_timer_expire_time := m_expire timer |>.

Lemma put_enabled_view id b h x :
  m_next (timer_at (alter (fun t => t <| m_enabled := b |>) id h) x) = m_next (timer_at h x) /\
  expire_at (alter (fun t => t <| m_enabled := b |>) id h) x = expire_at h x /\
  (timer_wf (timer_at h x) -> timer_wf (timer_at (alter (fun t => t <| m_enabled := b |>) id h) x)).
Proof.
  unfold expire_at, timer_at. destruct (decide (x = id)) as [->|].
  - rewrite lookup_alter_eq. by destruct (h !! id).
  - by rewrite lookup_alter_ne.
Qed.

Lemma inv_disable id s A I d :
  inv None s A I d -> id ∈ A ++ I ->
  inv (Some id) (put id (fun t => t <| m_enabled := false |>) s) A I d.
Proof.
  intros [HL Hwf Hact Hd Hs Hn] Hid.
  assert (forall x, expire_at (heap (put id (fun t => t <| m_enabled := false |>) s)) x
    = expire_at (heap s) x) as Hexp by (intros x; apply put_enabled_view).
  constructor; rewrite ?Hexp; try done.
  - by apply lists_put.
  - intros x Hx. apply put_enabled_view. auto.
  - intros x Hx. destruct (Hact x Hx) as [[He|?] ?]; [|done]. rewrite Hexp. split; [|done].
    destruct (decide (x = id)) as [->|]; [by right|left].
    unfold enabled_at. cbn [put heap upd]. by rewrite expire_at_ne.
  - eapply sorted_ext; [|done]. intros x y _ _. unfold expires_by. by rewrite !Hexp.
Qed.

Lemma inv_firing id s A I d :
  inv None s A I d -> id ∈ A ++ I -> inv (Some id) (firing id s) A I d.
Proof.
  intros Hinv Hid. unfold firing.
  assert (wf (m_expire (timer_at (heap s) id))) as Hwf
    by (apply (inv_wf _ _ _ _ _ Hinv id); set_solver).
  destruct (_ || _).
  - eapply (inv_same _ (put id (fun t => t <| m_enabled := false |>) s)); [|done..].
    by apply inv_disable.
  - eapply (inv_same _ s); [|done..]. by apply inv_mono.
Qed.

Lemma inv_reclaim ex id s A I d :
  inv ex s A I d -> id ∈ A ++ I ->
  inv (except ex id) (reclaim id (timer_list_remove id s)) (without id A) (without id I) d /\
  forall x, x ≠ id -> data (timer_at (heap (reclaim id (timer_list_remove id s))) x)
                      = data (timer_at (heap s) x).
Proof.
  intros Hinv Hid. pose proof (inv_ne _ _ _ _ _ _ Hinv Hid) as Hne.
  destruct Hinv as [HL Hwf Hact Hd Hs Hn] eqn:E. clear E.
  pose proof (without_nodup_notin id A d I (lists_nodup _ _ _ HL) Hid) as Hnin.
  destruct (remove_lists _ _ _ _ id HL Hid) as [HL1 Hfr1].
  set (s1 := timer_list_remove id s) in *.
  assert (forall x, x ≠ id -> data (timer_at (heap (reclaim id s1)) x) = data (timer_at (heap s) x)) as Hx.
  { intros x Hx. rewrite <- (heap_data_at _ _ x (frame_data _ _ Hfr1)).
    unfold timer_at. cbn. by rewrite lookup_delete_ne. }
  split; [|done].
  assert (forall x, x ≠ id -> expire_at (heap (reclaim id s1)) x = expire_at (heap s) x /\
    enabled_at (heap (reclaim id s1)) x = enabled_at (heap s) x) as Hv
    by (intros; by apply data_view, Hx).
  constructor.
  - destruct HL1 as [HA HI Hnd]. constructor; [| |done];
      (eapply lseg_frame; [|done]); intros x Hx'; cbn; apply lookup_delete_ne; intros ->; set_solver.
  - intros x Hx'. eapply data_timer_wf; [symmetry; apply Hx; intros ->; set_solver|].
    apply Hwf. rewrite !elem_of_app, !elem_of_without in Hx'. set_solver.
  - intros x [Hxn Hx']%elem_of_without. destruct (Hv x Hxn) as [-> ->].
    destruct (Hact x Hx') as [[?|?] ?]; eauto using except_other.
  - by destruct (Hv d (not_eq_sym Hne)) as [-> _].
  - eapply sorted_ext; [|by apply sorted_without].
    intros x y [Hxn _]%elem_of_without [Hyn _]%elem_of_without. unfold expires_by.
    by rewrite (proj1 (Hv x Hxn)), (proj1 (Hv y Hyn)).
  - change (time (reclaim id s1)) with (time s1). by rewrite (frame_time _ _ Hfr1).
Qed.

(** ** What a turn does when the callback leaves the scheduler alone *)

(** The timer after its turn. *)
Definition next_period (t : emu_timer) : emu_timer :=
  t <| m_start := m_expire t |> <| m_expire := add_assign (m_expire t) (m_period t) |>.

Definition one_shot (t : emu_timer) : bool := is_zero (m_period t) || is_never (m_period t).

Lemma add_assign_eq l r : add_assign l r = add l r.
Proof.
  unfold add_assign, add; cbn [m_seconds m_attoseconds].
  split_ifs; cbn [m_seconds m_attoseconds] in *; congruence.
Qed.

Lemma schedule_next_period_relocate id s : schedule_next_period id s = relocate next_period id s.
Proof. reflexivity. Qed.

Lemma next_period_wf t : timer_wf t -> timer_wf (next_period t).
Proof.
  intros (He & Hp & Hs). unfold timer_wf, next_period; cbn. rewrite add_assign_eq.
  destruct Hp. auto with mame.
Qed.

Lemma firing_at id s x : is_Some (heap s !! id) ->
  timer_at (heap (firing id s)) x =
    if decide (x = id)
    then if one_shot (timer_at (heap s) id)
         then timer_at (heap s) id <| m_enabled := false |> else timer_at (heap s) id
    else timer_at (heap s) x.
Proof.
  intros Hin. unfold firing, one_shot. destruct (_ || _); cbn [heap put upd].
  - destruct (decide (x = id)) as [->|]; [by rewrite timer_at_alter|by rewrite expire_at_ne].
  - by destruct (decide (x = id)) as [->|].
Qed.

(** The state after the turn of the due timer [id], without its callback's
    effects on the world. *)
Definition fired (id : nat) (s : sched) : sched :=
  let s := firing id s in
  if negb (m_temporary (timer_at (heap s) id)) then schedule_next_period id s
  else reclaim id (timer_list_remove id s).

Lemma fired_spec id s A I d :
  inv None s (id :: A) I d ->
  exists A' I', inv None (fired id s) A' I' d /\
    (m_basetime (fired id s) = m_basetime s /\
     m_executing_device (fired id s) = m_executing_device s) /\
    (A' = A \/ exists A1 A2, A = A1 ++ A2 /\ A' = A1 ++ id :: A2 /\
       one_shot (timer_at (heap s) id) = false /\
       data (timer_at (heap (fired id s)) id) = data (next_period (timer_at (heap s) id))) /\
    (forall x, x ≠ id -> data (timer_at (heap (fired id s)) x) = data (timer_at (heap s) x)).
Proof.
  intros Hinv. pose proof (inv_firing id _ _ _ _ Hinv ltac:(mem)) as Hf.
  pose proof (lists_nodup _ _ _ (inv_lists _ _ _ _ _ Hinv)) as Hnd.
  assert (is_Some (heap s !! id)) as Hin
    by (apply (lists_in_heap _ _ _ _ (inv_lists _ _ _ _ _ Hinv)); mem).
  assert (is_Some (heap (firing id s) !! id)) as Hin'
    by (apply (lists_in_heap _ _ _ _ (inv_lists _ _ _ _ _ Hf)); mem).
  cbn in Hnd. apply NoDup_cons in Hnd as [Hnin _].
  assert (without id (id :: A) = A) as EA.
  { unfold without. rewrite filter_cons_False by auto. apply without_notin. set_solver. }
  assert (m_basetime (firing id s) = m_basetime s) as Eb by (unfold firing; by destruct (_ || _)).
  assert (m_executing_device (firing id s) = m_executing_device s) as Ee
    by (unfold firing; by destruct (_ || _)).
  pose proof (firing_at id s id Hin) as Eid. rewrite decide_True in Eid by done.
  assert (except (Some id) id = None) as Eex by (unfold except; by rewrite bool_decide_true).
  assert (forall x, x ≠ id -> timer_at (heap (firing id s)) x = timer_at (heap s) x) as Ex
    by (intros x Hx; by rewrite firing_at, decide_False by done).
  assert (timer_wf (timer_at (heap (firing id s)) id)) as Hwf
    by (apply (inv_wf _ _ _ _ _ Hf id); mem).
  unfold fired. destruct (m_temporary _); cbn [negb].
  - destruct (inv_reclaim (Some id) id _ _ _ _ Hf ltac:(mem)) as [Hinv' Hx].
    rewrite EA, Eex in Hinv'. exists A, (without id I).
    split; [done|]. split; [|split; [by left|]].
    + destruct (remove_lists _ _ _ _ id (inv_lists _ _ _ _ _ Hf) ltac:(mem)) as [_ Hfr].
      rewrite <- Eb, <- Ee, <- (frame_basetime _ _ Hfr), <- (frame_executing _ _ Hfr). done.
    + intros x Hxn. by rewrite Hx, Ex.
  - rewrite schedule_next_period_relocate.
    destruct (relocate_spec (Some id) _ _ _ _ next_period id Hf) as (A' & I' & Hinv' & Hpl & Hfr);
      [mem|done|by apply next_period_wf|].
    rewrite Eex in Hinv'. destruct (moved_data _ _ _ _ Hfr Hin') as [Hd Hx].
    exists A', I'. split; [done|]. split; [by rewrite <- Eb, <- Ee, (frame_basetime _ _ Hfr), (frame_executing _ _ Hfr)|]. split.
    + unfold placed in Hpl. rewrite EA in Hpl. destruct (_ && _) eqn:Eon; [right|left; tauto].
      destruct Hpl as (_ & A1 & A2 & ? & ? & _). exists A1, A2. split_and!; [done..| |].
      all: rewrite Eid in *; unfold one_shot in *; destruct (is_zero _ || is_never _) eqn:Eos; try done.
      all: by rewrite andb_comm in Eon.
    + intros x Hxn. by rewrite Hx, Ex.
Qed.

(** ** The whole loop *)

(** How often a timer is due up to [base]. *)
Definition due (base : attotime) (t : emu_timer) : nat :=
  if val (m_expire t) <=? val base
  then if one_shot t then 1
       else S (Z.to_nat ((val base - val (m_expire t)) / val (m_period t)))
  else 0.

Definition work (base : attotime) (h : gmap nat emu_timer) (A : list nat) : nat :=
  sum_list_with (fun x => due base (timer_at h x)) A.

Lemma work_cons base h x A : work base h (x :: A) = (due base (timer_at h x) + work base h A)%nat.
Proof. done. Qed.
Lemma work_app base h A1 A2 : work base h (A1 ++ A2) = (work base h A1 + work base h A2)%nat.
Proof. apply sum_list_with_app. Qed.

Lemma due_data base t t' : data t = data t' -> due base t = due base t'.
Proof.
  intros E%data_fields. unfold due, one_shot.
  destruct E as (_ & _ & _ & _ & -> & _ & -> & _). done.
Qed.

Lemma work_ext base h h' A :
  (forall x, x ∈ A -> data (timer_at h' x) = data (timer_at h x)) -> work base h' A = work base h A.
Proof.
  intros Hx. induction A as [|x A IH]; [done|]. unfold work in *. cbn.
  rewrite IH by set_solver. f_equal. apply due_data, Hx. set_solver.
Qed.

Lemma period_pos t : timer_wf t -> one_shot t = false -> 0 < val (m_period t).
Proof.
  unfold timer_wf, one_shot. intros (_ & [Hp H0] & _) [Hz _]%orb_false_iff.
  unfold is_zero in Hz. apply andb_false_iff in Hz. rewrite !Z.eqb_neq in Hz.
  unfold val in *. atto_unfold. lia.
Qed.

Lemma next_period_val t : timer_wf t -> is_never (m_expire (next_period t)) = false ->
  val (m_expire (next_period t)) = val (m_expire t) + val (m_period t).
Proof.
  intros (He & [Hp _] & _). cbn. rewrite add_assign_eq. intros Hn.
  destruct (is_never (m_expire t)) eqn:E1; [by rewrite add_never_l in Hn|].
  destruct (is_never (m_period t)) eqn:E2; [by rewrite add_never_r in Hn|].
  rewrite add_val in * by done. apply of_val_val_lt.
  unfold is_never, of_val in Hn.
  destruct (Z.leb_spec ATTOTIME_MAX_SECONDS
    ((val (m_expire t) + val (m_period t)) / ATTOSECONDS_PER_SECOND)); [done|].
  pose proof (Z.mul_succ_div_gt (val (m_expire t) + val (m_period t)) ATTOSECONDS_PER_SECOND).
  atto_unfold. lia.
Qed.

Lemma due_next base t :
  timer_wf t -> one_shot t = false -> is_never (m_expire (next_period t)) = false ->
  val (m_expire t) <= val base -> (due base (next_period t) < due base t)%nat.
Proof.
  intros Hwf Hos Hn Hdue. pose proof (period_pos t Hwf Hos) as Hp.
  unfold due. rewrite next_period_val by done.
  change (one_shot (next_period t)) with (one_shot t). rewrite Hos.
  change (m_period (next_period t)) with (m_period t).
  destruct (Z.leb_spec (val (m_expire t)) (val base)); [|lia].
  destruct (Z.leb_spec (val (m_expire t) + val (m_period t)) (val base)); [|lia].
  replace (val base - val (m_expire t)) with
    (val base - (val (m_expire t) + val (m_period t)) + 1 * val (m_period t)) by lia.
  rewrite Z.div_add by lia.
  pose proof (Z.div_pos (val base - (val (m_expire t) + val (m_period t))) (val (m_period t))). lia.
Qed.

Lemma due_pos base t : val (m_expire t) <= val base -> (0 < due base t)%nat.
Proof.
  intros H. unfold due. destruct (Z.leb_spec (val (m_expire t)) (val base)); [|lia].
  destruct (one_shot _); lia.
Qed.

Lemma fired_work id s A I d :
  inv None s (id :: A) I d -> val (expire_at (heap s) id) <= val (m_basetime s) ->
  exists A' I', inv None (fired id s) A' I' d /\
    (m_basetime (fired id s) = m_basetime s /\
     m_executing_device (fired id s) = m_executing_device s) /\
    (work (m_basetime s) (heap (fired id s)) A' < work (m_basetime s) (heap s) (id :: A))%nat /\
    (forall x, x ∈ A' -> val (expire_at (heap s) id) <= val (expire_at (heap (fired id s)) x)) /\
    (forall x, x ∈ A -> x ∈ A' /\ data (timer_at (heap (fired id s)) x) = data (timer_at (heap s) x)).
Proof.
  intros Hinv Hdue. destruct (fired_spec id s A I d Hinv) as (A' & I' & Hinv' & Hb & HA & Hx).
  assert (id ∉ A) as Hnin.
  { pose proof (lists_nodup _ _ _ (inv_lists _ _ _ _ _ Hinv)) as Hnd.
    cbn in Hnd. apply NoDup_cons in Hnd as [Hn _]. clear -Hn. set_solver. }
  assert (timer_wf (timer_at (heap s) id)) as Hwf by (apply (inv_wf _ _ _ _ _ Hinv); mem).
  pose proof (inv_sorted _ _ _ _ _ Hinv) as Hs. inversion Hs as [|? ? _ Hle]; subst.
  rewrite Forall_forall in Hle.
  assert (forall x, x ∈ A -> expire_at (heap (fired id s)) x = expire_at (heap s) x) as Hexp.
  { intros x Hxa. unfold expire_at. by apply data_fields, Hx; intros ->. }
  assert (work (m_basetime s) (heap (fired id s)) A = work (m_basetime s) (heap s) A) as HwA
    by (apply work_ext; intros x Hxa; apply Hx; by intros ->).
  assert (forall x, x ∈ A -> x ∈ A' /\ data (timer_at (heap (fired id s)) x) = data (timer_at (heap s) x)) as Hstay.
  { intros x Hxa. split; [|apply Hx; by intros ->].
    destruct HA as [->|(A1 & A2 & -> & -> & _)]; [done|]. clear -Hxa. set_solver. }
  exists A', I'. split; [done|]. split; [done|].
  match goal with |- ?P /\ ?Q /\ _ => cut (P /\ Q); [intros [HP HQ]; exact (conj HP (conj HQ Hstay))|] end.
  destruct HA as [->|(A1 & A2 & EA & -> & Hos & Hd)].
  - split.
    + rewrite work_cons, HwA. pose proof (due_pos (m_basetime s) _ Hdue). lia.
    + intros x Hxa. rewrite Hexp by done. by apply Hle.
  - destruct (inv_active _ _ _ _ _ Hinv' id ltac:(mem)) as [_ Hn].
    pose proof (data_fields _ _ Hd) as (_ & _ & _ & _ & _ & _ & Ee & _).
    unfold expire_at in Hn. rewrite Ee in Hn. split.
    + rewrite EA, work_app in HwA. rewrite work_cons, EA, !work_app in *. rewrite work_cons.
      rewrite (due_data _ _ _ Hd). pose proof (due_next (m_basetime s) _ Hwf Hos Hn Hdue). lia.
    + intros x Hxa. destruct (decide (x = id)) as [->|Hne].
      * unfold expire_at. rewrite Ee, next_period_val by done. pose proof (period_pos _ Hwf Hos). lia.
      * assert (x ∈ A) by (rewrite EA; clear -Hxa Hne; set_solver). rewrite Hexp by done. by apply Hle.
Qed.

Lemma execute_timer_firing {W} (call : nat -> Z -> sched * W -> sched * W) id s w :
  execute_timer call id (s, w) =
  let timer := timer_at (heap s) id in
  let '(s, w) :=
    if m_enabled timer
    then match m_callback timer with
         | Some cb => call cb (m_param timer) (firing id s, w)
         | None => (firing id s, w)
         end
    else (firing id s, w) in
  if negb (m_callback_timer_modified s) then
    if negb (m_temporary (timer_at (heap s) id))
    then (schedule_next_period id s, w)
    else (reclaim id (timer_list_remove id s), w)
  else (s, w).
Proof. reflexivity. Qed.

Lemma leb_expire ex s A I d x : inv ex s A I d -> wf (m_basetime s) -> x ∈ A ++ [d] ->
  leb (m_expire (timer_at (heap s) x)) (m_basetime s) = (val (expire_at (heap s) x) <=? val (m_basetime s)).
Proof. intros Hinv Hb Hx. apply leb_val; [|done]. apply (inv_wf _ _ _ _ _ Hinv). set_solver. Qed.

Lemma dummy_not_due ex s A I d : inv ex s A I d -> wf (m_basetime s) ->
  is_never (m_basetime s) = false -> val (m_basetime s) < val (expire_at (heap s) d).
Proof.
  intros Hinv Hb Hn. pose proof (inv_dummy _ _ _ _ _ Hinv) as Hd.
  assert (wf (expire_at (heap s) d)) by (apply (inv_wf _ _ _ _ _ Hinv); set_solver).
  unfold val. atto_unfold. apply Z.leb_le in Hd. apply Z.leb_gt in Hn. lia.
Qed.

(** ** Properties *)

(** C10: Re-arming a timer moves it behind every active timer that expires no later
    and in front of those that expire later (the queue stays first-in,
    first-out among equal times), leaves every other timer alone, and cuts the
    running timeslice short exactly when the timer came out first. *)
Theorem adjust_schedules ex delay param period id s A I d :
  inv ex s A I d -> id ∈ A ++ I -> wf delay -> wf period -> 0 <= m_seconds period ->
  let s' := adjust delay param period id s in
  let t := adjusted (time s) delay param period (timer_at (heap s) id) in
  exists A' I', inv (except ex id) s' A' I' d /\ placed (heap s) t id A I A' I' /\
    data (timer_at (heap s') id) = data t /\
    (forall x, x ≠ id -> data (timer_at (heap s') x) = data (timer_at (heap s) x)) /\
    timeslice_aborted s' = timeslice_aborted s || (bool_decide (head (A' ++ [d]) = Some id)
        && match m_executing_device s with Some _ => true | None => false end).
Proof. intros. by apply adjust_spec. Qed.

(** Enabling or disabling a timer moves it between the ordered active list and
    the inactive one, and reports the previous setting. *)
Theorem enable_moves ex b id s A I d :
  inv ex s A I d -> id ∈ A ++ I ->
  let '(old, s') := enable b id s in
  old = m_enabled (timer_at (heap s) id) /\
  (old = b -> s' = s) /\
  (old ≠ b -> exists A' I', inv (except ex id) s' A' I' d /\
     placed (heap s) (timer_at (heap s) id <| m_enabled := b |>) id A I A' I' /\
     (forall x, x ≠ id -> data (timer_at (heap s') x) = data (timer_at (heap s) x))).
Proof.
  intros Hinv Hid. destruct (enable b id s) as [old s'] eqn:E.
  assert (old = m_enabled (timer_at (heap s) id)) as ->
    by (unfold enable in E; destruct (Bool.eqb _ b); by injection E).
  split; [done|]. split.
  - intros Eb. unfold enable in E. rewrite Eb, eqb_reflx in E. by injection E.
  - intros Hne. destruct (enable_spec ex b id s A I d Hinv Hid Hne) as (A' & I' & H1 & H2 & _ & H3).
    rewrite E in *. cbn [snd] in *. exists A', I'. done.
Qed.

(** The scheduler starts with the never-expiring timer alone, and a new timer
    enters the list its expiry time calls for. *)
Theorem init_enters cb delay param temp id s A I d :
  inv None (device_scheduler d) [] [] d /\
  (inv None s A I d -> heap s !! id = None -> wf delay ->
   let s' := init cb delay param temp id s in
   let t := mk_timer None None cb param (negb (is_never (add (time s) delay))) temp
              never (time s) (add (time s) delay) 0 in
   exists A' I', inv None s' A' I' d /\ placed (heap s) t id A I A' I' /\
     data (timer_at (heap s') id) = data t /\
     (forall x, x ≠ id -> data (timer_at (heap s') x) = data (timer_at (heap s) x))).
Proof. split; [apply device_scheduler_inv|]. intros. by apply init_spec. Qed.

(** ** Witnesses *)

(** Two timers, one of them periodic. *)
Definition usec (n : Z) : attotime := mk_attotime 0 (n * 1000000000000).
Definition sample0 : sched := init (Some 7%nat) never 0 false 1%nat (device_scheduler 0%nat).
Definition sample1 : sched := adjust (usec 5) 42 (usec 10) 1%nat sample0.

Lemma placed_off h t id A' I' :
  placed h t id [] [] A' I' -> is_never (m_expire t) = true -> A' = [] /\ I' = [id].
Proof. intros Hpl Hn. unfold placed in Hpl. by rewrite Hn in Hpl. Qed.

Lemma sample0_inv : inv None sample0 [] [1%nat] 0.
Proof.
  destruct (init_spec (Some 7%nat) never 0 false 1%nat (device_scheduler 0%nat) [] [] 0)
    as (A & I & H & Hpl & _); [apply device_scheduler_inv|vm_compute; reflexivity|auto with mame|].
  apply placed_off in Hpl as [-> ->]; [exact H|vm_compute; reflexivity].
Qed.

Lemma usec_wf n : 0 <= n < 1000000 -> wf (usec n).
Proof. intros H. atto_unfold. cbn. lia. Qed.

Lemma placed_alone h t id A' I' :
  placed h t id [] [id] A' I' -> is_never (m_expire t) = false -> m_enabled t = true ->
  A' = [id] /\ I' = [].
Proof.
  unfold placed. intros Hpl Hn He. rewrite Hn, He in Hpl. cbn [negb andb] in Hpl.
  destruct Hpl as (-> & A1 & A2 & EA & -> & _). cbn in EA.
  symmetry in EA. apply app_eq_nil in EA as [-> ->].
  split; [done|]. unfold without. by rewrite filter_cons_False by auto.
Qed.

Lemma sample1_inv : inv None sample1 [1%nat] [] 0.
Proof.
  destruct (adjust_spec None (usec 5) 42 (usec 10) 1%nat sample0 [] [1%nat] 0)
    as (A & I & H & Hpl & _); [apply sample0_inv|mem|by apply usec_wf..|done|].
  apply placed_alone in Hpl as [-> ->]; [exact H|vm_compute; reflexivity..].
Qed.

Lemma adjust_schedules_witness :
  exists A' I', inv None sample1 A' I' 0 /\ m_timer_list sample1 = Some 1%nat.
Proof.
  destruct (adjust_schedules None (usec 5) 42 (usec 10) 1%nat sample0 [] [1%nat] 0)
    as (A & I & H & _); [apply sample0_inv|mem|by apply usec_wf..|done|].
  exists A, I. split; [exact H|vm_compute; reflexivity].
Defined.

Lemma enable_moves_witness :
  exists A' I', inv None (enable false 1%nat sample1).2 A' I' 0 /\
    m_inactive_timers (enable false 1%nat sample1).2 = Some 1%nat.
Proof.
  pose proof (enable_moves None false 1%nat sample1 [1%nat] [] 0 sample1_inv) as H.
  destruct (enable false 1%nat sample1) as [old s'] eqn:E. destruct H as (Ho & _ & H); [mem|].
  assert (old = true) as Et by (rewrite Ho; vm_compute; reflexivity).
  destruct H as (A & I & H & _); [by rewrite Et|]. exists A, I. split; [exact H|].
  change s' with (old, s').2. rewrite <- E. vm_compute. reflexivity.
Defined.

Lemma init_enters_witness : exists A I, inv None sample0 A I 0.
Proof.
  destruct (init_enters (Some 7%nat) never 0 false 1%nat (device_scheduler 0%nat) [] [] 0) as [H0 H].
  destruct H as (A & I & H & _); [apply H0|vm_compute; reflexivity|auto with mame|]. exists A, I. exact H.
Defined.

Lemma inv_basetime ex s A I d b :
  inv ex s A I d -> wf (time (s <| m_basetime := b |>)) -> inv ex (s <| m_basetime := b |>) A I d.
Proof. intros Hinv Hb. by eapply (inv_same _ s). Qed.

