(* ===== verification/Execute.v ===== *)
(** * Execution interfaces and timeslices (src/src/emu/diexec.h, diexec.cpp, schedule.cpp)

    A device that executes (a processor) is an [execute_device]; the part of
    [device_scheduler] that runs such devices is the record [executor], next
    to the timers of [Scheduler.v].  What the framework leaves to the device
    (its virtual functions) and to the rest of the machine is the class
    [ExecuteInterface]; [m_machine] is the state of everything else.
    The suspension masks, triggers, input-line queues, scheduling quanta and
    the timeslice loop are definitions.

    Arithmetic on [int] is arithmetic on [Z] (its overflow is undefined);
    conversions between widths are written out. *)

From stdpp Require Import base tactics numbers option list gmap countable fin_maps.
From Stdlib Require Import ZArith Lia Bool.
From S2P Require Import Prelude Attotime Device Scheduler.

(** ** Constants *)

Definition SUSPEND_REASON_HALT : Z := 0x0001.
Definition SUSPEND_REASON_RESET : Z := 0x0002.
Definition SUSPEND_REASON_SPIN : Z := 0x0004.
Definition SUSPEND_REASON_TRIGGER : Z := 0x0008.
Definition SUSPEND_REASON_DISABLE : Z := 0x0010.
Definition SUSPEND_REASON_TIMESLICE : Z := 0x0020.
Definition SUSPEND_REASON_CLOCK : Z := 0x0040.
Definition SUSPEND_ANY_REASON : Z := u32 (Z.lnot 0).

Definition CLEAR_LINE : Z := 0.
Definition ASSERT_LINE : Z := 1.
Definition HOLD_LINE : Z := 2.

Definition MAX_INPUT_LINES : nat := 67.
Definition INPUT_LINE_RESET : nat := 65.
Definition INPUT_LINE_HALT : nat := 66.

Definition TRIGGER_INT : Z := -2000.
Definition TRIGGER_SUSPENDTIME : Z := -4000.
Definition USE_STORED_VECTOR : Z := s32 0xff000000.

(** ** State *)

(** The queue of pending events of an input line; [m_queue] has room for 32. *)
Record device_input := mk_input {
  m_stored_vector : Z;
  m_curvector : Z;
  m_curstate : Z;
  m_queue : list Z;
  m_qindex : nat
}.

#[export] Instance device_input_eta : Eta device_input := fun i =>
  mk_input (m_stored_vector i) (m_curvector i) (m_curstate i) (m_queue i) (m_qindex i).

Definition new_input : device_input := mk_input 0 0 CLEAR_LINE (replicate 32 0) 0.

(** [device_execute_interface]; [m_clock] is the clock of its device and
    [icount] what [m_icountptr] points to. *)
Record execute_device := mk_execute {
  m_disabled : bool;
  m_clock : Z;
  m_input : list device_input;
  icount : Z;
  m_cycles_running : Z;
  m_cycles_stolen : Z;
  m_suspend : Z;
  m_nextsuspend : Z;
  m_eatcycles : bool;
  m_nexteatcycles : bool;
  m_trigger : Z;
  m_inttrigger : Z;
  m_totalcycles : Z;
  m_localtime : attotime;
  m_divisor : Z;
  m_divshift : Z;
  m_cycles_per_second : Z;
  m_attoseconds_per_cycle : Z;
  m_timed_interrupt_period : attotime;
  m_timedint_timer : option nat;
  m_spin_end_timer : nat;
  m_pulse_end_timers : list nat
}.

#[export] Instance execute_device_eta : Eta execute_device := fun x =>
  mk_execute (m_disabled x) (m_clock x) (m_input x) (icount x) (m_cycles_running x) (m_cycles_stolen x)
    (m_suspend x) (m_nextsuspend x) (m_eatcycles x) (m_nexteatcycles x) (m_trigger x) (m_inttrigger x)
    (m_totalcycles x) (m_localtime x) (m_divisor x) (m_divshift x) (m_cycles_per_second x)
    (m_attoseconds_per_cycle x) (m_timed_interrupt_period x) (m_timedint_timer x)
    (m_spin_end_timer x) (m_pulse_end_timers x).

(** The constructor, for a device of a given clock. *)
Definition new_device (disabled : bool) (clock : Z) (period : attotime) : execute_device :=
  mk_execute disabled clock (replicate MAX_INPUT_LINES new_input) 0 0 0 0 0 false false 0 0 0 zero 0 0 0 0
    period None 0 [].

Record quantum_slot := mk_quantum { m_actual : Z; m_requested : Z; q_expire : attotime }.

#[export] Instance quantum_slot_eta : Eta quantum_slot := fun q =>
  mk_quantum (m_actual q) (m_requested q) (q_expire q).

(** The part of [device_scheduler] that executes devices.  [devices] are the
    executing devices of the machine, in the order of the enumerator; a
    pointer to one is its number.  [timetrig] is the static variable of
    [spin_until_time]. *)
Record executor (W : Type) := mk_executor {
  devices : list execute_device;
  m_execute_list : list nat;
  m_executing : option nat;
  m_suspend_changes_pending : bool;
  m_quantum_list : list quantum_slot;
  m_quantum_minimum : Z;
  timetrig : Z;
  m_machine : W
}.
Arguments mk_executor {W} _ _ _ _ _ _ _ _.
Arguments devices {W} _.
Arguments m_execute_list {W} _.
Arguments m_executing {W} _.
Arguments m_suspend_changes_pending {W} _.
Arguments m_quantum_list {W} _.
Arguments m_quantum_minimum {W} _.
Arguments timetrig {W} _.
Arguments m_machine {W} _.

#[export] Instance executor_eta W : Eta (executor W) := fun e =>
  mk_executor (devices e) (m_execute_list e) (m_executing e) (m_suspend_changes_pending e)
    (m_quantum_list e) (m_quantum_minimum e) (timetrig e) (m_machine e).

Definition St (W : Type) : Type := sched * executor W.

(** The constructor of [device_scheduler]; the timers' part is
    [Scheduler.device_scheduler]. *)
Definition new_executor {W : Type} (devices : list execute_device) (machine : W) : executor W :=
  mk_executor devices [] None true [] (ATTOSECONDS_PER_NANOSECOND * 1 / 1000) 0 machine.

(** ** The callbacks of timers

    The framework's own ones, and those of the rest of the machine; a timer
    holds a number for its callback. *)
Inductive callback :=
| timed_trigger
| timed_trigger_callback (device : nat)
| irq_pulse_clear (device : nat)
| input_events (device line : nat)
| periodic_interrupt (device : nat)
| other (cb : nat).

#[export] Instance callback_eq_dec : EqDecision callback.
Proof. solve_decision. Defined.
#[export] Instance callback_countable : Countable callback.
Proof.
  refine (inj_countable'
    (fun c => match c with
      | timed_trigger => inl tt
      | timed_trigger_callback i => inr (inl i)
      | irq_pulse_clear i => inr (inr (inl i))
      | input_events i l => inr (inr (inr (inl (i, l))))
      | periodic_interrupt i => inr (inr (inr (inr (inl i))))
      | other n => inr (inr (inr (inr (inr n))))
      end)
    (fun c => match c with
      | inl tt => timed_trigger
      | inr (inl i) => timed_trigger_callback i
      | inr (inr (inl i)) => irq_pulse_clear i
      | inr (inr (inr (inl (i, l)))) => input_events i l
      | inr (inr (inr (inr (inl i)))) => periodic_interrupt i
      | inr (inr (inr (inr (inr n)))) => other n
      end) _).
  by intros [].
Defined.

(** ** What a device and its machine provide

    The virtual functions of the interface and the delegates a machine
    configures; [execute_set_input] and [device_reset] work on the device's
    own state, and [device_reset] includes its other interfaces and its
    subdevices.  [device_index] is its position among all devices. *)
Class ExecuteInterface (W : Type) := {
  execute_run : nat -> St W -> St W;
  execute_set_input : nat -> nat -> Z -> W -> W;
  device_reset : nat -> W -> W;
  execute_clocks_to_cycles : nat -> Z -> Z;
  execute_cycles_to_clocks : nat -> Z -> Z;
  execute_min_cycles : nat -> Z;
  execute_default_irq_vector : nat -> nat -> Z;
  execute_input_edge_triggered : nat -> nat -> bool;
  device_index : nat -> Z;
  m_timed_interrupt : nat -> option (St W -> St W);
  m_driver_irq : nat -> option (nat -> St W -> Z * St W);
  m_maximum_quantums : list attotime;
  m_perfect_quantum_device : option nat;
  timer_callback : nat -> Z -> St W -> St W
}.

Section Execute.
Context {W : Type} `{ExecuteInterface W}.
Implicit Types (s : St W) (i l : nat).

(** ** Access *)

Definition device (s : St W) (i : nat) : execute_device :=
  default (new_device false 0 zero) (devices s.2 !! i).
Definition on_device (i : nat) (f : execute_device -> execute_device) (s : St W) : St W :=
  (s.1, s.2 <| devices ::= alter f i |>).
Definition input (s : St W) (i l : nat) : device_input :=
  default new_input (m_input (device s i) !! l).
Definition on_input (i l : nat) (f : device_input -> device_input) (s : St W) : St W :=
  on_device i (fun x => x <| m_input ::= alter f l |>) s.
Definition on_machine (f : W -> W) (s : St W) : St W := (s.1, s.2 <| m_machine ::= f |>).

Definition executing (s : St W) (i : nat) : bool := bool_decide (m_executing s.2 = Some i).

(** ** Time and cycles *)

Definition cycles_to_attotime (s : St W) (i : nat) (cycles : Z) : attotime :=
  clocks_to_attotime (m_clock (device s i)) (execute_cycles_to_clocks i cycles).
Definition attotime_to_cycles (s : St W) (i : nat) (duration : attotime) : Z :=
  execute_clocks_to_cycles i (attotime_to_clocks (m_clock (device s i)) duration).

Definition local_time (s : St W) (i : nat) : attotime :=
  let x := device s i in
  if executing s i
  then let cycles := m_cycles_running x - icount x in
       add (m_localtime x) (cycles_to_attotime s i (u64 cycles))
  else m_localtime x.

Definition total_cycles (s : St W) (i : nat) : Z :=
  let x := device s i in
  if executing s i then u64 (m_totalcycles x + m_cycles_running x - icount x) else m_totalcycles x.

Definition cycles_remaining (s : St W) (i : nat) : Z :=
  if executing s i then icount (device s i) else 0.
Definition eat_cycles (i : nat) (cycles : Z) (s : St W) : St W :=
  if executing s i
  then on_device i (fun x => x <| icount ::= fun n => if n <? cycles then 0 else n - cycles |>) s
  else s.
Definition adjust_icount (i : nat) (delta : Z) (s : St W) : St W :=
  if executing s i then on_device i (fun x => x <| icount ::= Z.add delta |>) s else s.

Definition swallow (x : execute_device) : execute_device :=
  if 0 <? icount x
  then let n := icount x in
       x <| m_cycles_stolen ::= Z.add n |> <| m_cycles_running ::= fun r => r - n |> <| icount := 0 |>
  else x.
(** [device_execute_interface::abort_timeslice]. *)
Definition abort_timeslice (i : nat) (s : St W) : St W :=
  if negb (executing s i) then s else on_device i swallow s.

(** [device_scheduler::abort_timeslice], [eat_all_cycles]. *)
Definition scheduler_abort (s : St W) : St W :=
  match m_executing s.2 with Some i => abort_timeslice i s | None => s end.
Definition eat_all_cycles (s : St W) : St W :=
  fold_left (fun s i => eat_cycles i 1000000000 s) (m_execute_list s.2) s.

(** An operation on the timers sees the local time of the device that is
    executing, and may cut its timeslice short. *)
Definition timers (s : St W) : sched :=
  s.1 <| m_executing_device := local_time s <$> m_executing s.2 |> <| timeslice_aborted := false |>.
Definition on_timers (f : sched -> sched) (s : St W) : St W :=
  let t := f (timers s) in
  let s := (t <| m_executing_device := None |> <| timeslice_aborted := false |>, s.2) in
  if timeslice_aborted t then scheduler_abort s else s.
Definition time (s : St W) : attotime := Scheduler.time (timers s).

(** [fixed_allocator::alloc] hands out an unused timer. *)
Definition alloc (t : sched) : nat := fresh (dom (heap t)).
Definition timer_alloc (cb : callback) (s : St W) : nat * St W :=
  (alloc s.1, on_timers (Scheduler.timer_alloc (Some (encode_nat cb)) (alloc s.1)) s).
Definition timer_set (duration : attotime) (cb : callback) (param : Z) (s : St W) : St W :=
  on_timers (fun t => Scheduler.timer_set duration (Some (encode_nat cb)) param (alloc t) t) s.
Definition synchronize (cb : callback) (param : Z) (s : St W) : St W :=
  on_timers (fun t => Scheduler.synchronize (Some (encode_nat cb)) param (alloc t) t) s.

(** ** Suspending and resuming *)

Definition suspend_resume_changed (i : nat) (s : St W) : St W :=
  let s := (s.1, s.2 <| m_suspend_changes_pending := true |>) in
  abort_timeslice i s.

Definition suspend (i : nat) (reason : Z) (eatcycles : bool) (s : St W) : St W :=
  let s := on_device i (fun x => x <| m_nextsuspend ::= fun m => Z.lor m reason |>
                                   <| m_nexteatcycles := eatcycles |>) s in
  suspend_resume_changed i s.

Definition resume (i : nat) (reason : Z) (s : St W) : St W :=
  let s := on_device i (fun x => x <| m_nextsuspend ::= fun m => Z.land m (Z.lnot reason) |>) s in
  suspend_resume_changed i s.

Definition suspended (s : St W) (i : nat) (reason : Z) : bool :=
  test (m_nextsuspend (device s i)) reason.

Definition yield (i : nat) : St W -> St W := suspend i SUSPEND_REASON_TIMESLICE false.
Definition spin (i : nat) : St W -> St W := suspend i SUSPEND_REASON_TIMESLICE true.

(** ** Triggers *)

Definition suspend_until_trigger (i : nat) (trigid : Z) (eatcycles : bool) (s : St W) : St W :=
  let s := suspend i SUSPEND_REASON_TRIGGER eatcycles s in
  on_device i (fun x => x <| m_trigger := trigid |>) s.

Definition trigger (i : nat) (trigid : Z) (s : St W) : St W :=
  let s := abort_timeslice i s in
  if test (m_nextsuspend (device s i)) SUSPEND_REASON_TRIGGER && (m_trigger (device s i) =? trigid)
  then on_device i (fun x => x <| m_trigger := 0 |>) (resume i SUSPEND_REASON_TRIGGER s)
  else s.

Definition signal_interrupt_trigger (i : nat) (s : St W) : St W :=
  trigger i (m_inttrigger (device s i)) s.
Definition spin_until_trigger (i : nat) (trigid : Z) : St W -> St W := suspend_until_trigger i trigid true.
Definition spin_until_interrupt (i : nat) (s : St W) : St W :=
  spin_until_trigger i (m_inttrigger (device s i)) s.

Definition spin_until_time (i : nat) (duration : attotime) (s : St W) : St W :=
  let trig := TRIGGER_SUSPENDTIME + timetrig s.2 in
  let s := suspend_until_trigger i trig true s in
  let s := on_timers (adjust duration trig never (m_spin_end_timer (device s i))) s in
  (s.1, s.2 <| timetrig ::= fun n => (n + 1) mod 256 |>).

(** ** The execute list and the quanta *)

(** [std::max] and [std::min]. *)
Definition max_time (a b : attotime) : attotime := if ltb a b then b else a.
Definition min_time (a b : attotime) : attotime := if ltb b a then b else a.

Definition minimum_quantum (s : St W) (i : nat) : Z :=
  let x := device s i in
  if m_clock x =? 0 then ATTOSECONDS_PER_SECOND - 1
  else
    let basetick := m_attoseconds_per_cycle x in
    let basetick := if basetick =? 0
                    then HZ_TO_ATTOSECONDS (execute_clocks_to_cycles i (m_clock x)) else basetick in
    basetick * execute_min_cycles i.

(** The loop of [add_quantum]: the quanta that are left, and how many of them
    go before the new one. *)
Fixpoint expire_quanta (curtime : attotime) (quantum_attos : Z) (l kept : list quantum_slot)
    (insert_after : nat) : list quantum_slot * nat :=
  match l with
  | [] => (kept, insert_after)
  | quant :: l =>
      if geb curtime (q_expire quant) then expire_quanta curtime quantum_attos l kept insert_after
      else if m_requested quant <=? quantum_attos
      then expire_quanta curtime quantum_attos l (kept ++ [quant]) (S (length kept))
      else expire_quanta curtime quantum_attos l (kept ++ [quant]) insert_after
  end.

Definition insert_quantum (minimum quantum_attos : Z) (expire : attotime)
    (kept : list quantum_slot) (insert_after : nat) : list quantum_slot :=
  let fresh_slot := mk_quantum (Z.max quantum_attos minimum) quantum_attos expire in
  match insert_after with
  | S k =>
      match kept !! k with
      | Some quant =>
          if m_requested quant =? quantum_attos
          then alter (fun q => q <| q_expire ::= fun e => max_time e expire |>) k kept
          else take (S k) kept ++ fresh_slot :: drop (S k) kept
      | None => kept
      end
  | O => fresh_slot :: kept
  end.

Definition add_quantum (quantum duration : attotime) (s : St W) : St W :=
  let curtime := time s in
  let expire := add curtime duration in
  let '(kept, insert_after) :=
    expire_quanta curtime (m_attoseconds quantum) (m_quantum_list s.2) [] 0 in
  (s.1, s.2 <| m_quantum_list :=
     insert_quantum (m_quantum_minimum s.2) (m_attoseconds quantum) expire kept insert_after |>).

Definition perfect_quantum (duration : attotime) : St W -> St W := add_quantum zero duration.

Definition maximum_quantum (default_quantum : attotime) : attotime :=
  fold_left min_time m_maximum_quantums default_quantum.

(** The two lists of [rebuild_execute_list], one behind the other. *)
Definition active_first (s : St W) : list nat :=
  let all := seq 0 (length (devices s.2)) in
  List.filter (fun i => m_suspend (device s i) =? 0) all
  ++ List.filter (fun i => negb (m_suspend (device s i) =? 0)) all.

Definition rebuild_execute_list (s : St W) : St W :=
  let s :=
    match m_quantum_list s.2 with
    | [] =>
        let min_quantum := maximum_quantum (from_hz 60) in
        let min_quantum :=
          match m_perfect_quantum_device with
          | Some i => min_time (mk_attotime 0 (minimum_quantum s i)) min_quantum
          | None => min_quantum
          end in
        add_quantum min_quantum never s
    | _ => s
    end in
  (s.1, s.2 <| m_execute_list := active_first s |>).

Definition built (s : St W) : St W :=
  match m_execute_list s.2 with [] => rebuild_execute_list s | _ => s end.

(** The second smallest of the quanta of the devices in the list. *)
Definition interleave_step (quanta : Z * Z) (curquantum : Z) : Z * Z :=
  let '(smallest, perfect) := quanta in
  if curquantum <? smallest then (curquantum, smallest)
  else if curquantum <? perfect then (smallest, curquantum) else (smallest, perfect).

Definition compute_perfect_interleave (s : St W) : St W :=
  let s := built s in
  match m_execute_list s.2 with
  | [] => s
  | first :: rest =>
      let '(_, perfect) :=
        fold_left interleave_step (map (minimum_quantum s) rest)
          (minimum_quantum s first, ATTOSECONDS_PER_SECOND - 1) in
      if negb (m_quantum_minimum s.2 =? perfect)
      then (s.1, s.2 <| m_quantum_minimum := perfect |>
                     <| m_quantum_list ::=
                          map (fun q => q <| m_actual := Z.max (m_requested q) perfect |>) |>)
      else s
  end.

(** [device_scheduler::trigger]. *)
Definition scheduler_trigger (trigid : Z) (after : attotime) (s : St W) : St W :=
  let s := built s in
  if negb (eqb after zero) then timer_set after timed_trigger trigid s
  else fold_left (fun s i => trigger i trigid s) (m_execute_list s.2) s.

Definition apply_change (x : execute_device) : execute_device :=
  x <| m_suspend := m_nextsuspend x |>
    <| m_nextsuspend := Z.land (m_nextsuspend x) (Z.lnot SUSPEND_REASON_TIMESLICE) |>
    <| m_eatcycles := m_nexteatcycles x |>.

Definition apply_step (cs : Z * St W) (i : nat) : Z * St W :=
  let '(suspendchanged, s) := cs in
  let x := device s i in
  (Z.lor suspendchanged (Z.lxor (m_suspend x) (m_nextsuspend x)), on_device i apply_change s).

Definition apply_suspend_changes (s : St W) : St W :=
  let '(suspendchanged, s) := fold_left apply_step (m_execute_list s.2) (0, s) in
  if negb (suspendchanged =? 0) then rebuild_execute_list s
  else (s.1, s.2 <| m_suspend_changes_pending := false |>).

(** ** Input lines *)

(** [interface_pre_reset], [interface_post_reset], and [device_t::reset]
    around the device's own. *)
Definition interface_pre_reset (i : nat) (s : St W) : St W :=
  let s := on_device i (fun x => x <| m_totalcycles := 0 |>) s in
  if m_disabled (device s i) then suspend i SUSPEND_REASON_DISABLE true s
  else if negb (m_clock (device s i) =? 0) then resume i SUSPEND_ANY_REASON s
  else s.

Definition reset_inputs (i : nat) (s : St W) : St W :=
  on_device i (fun x => x <| m_input ::= imap (fun l inp =>
    inp <| m_curvector := execute_default_irq_vector i l |>
        <| m_stored_vector := execute_default_irq_vector i l |>) |>) s.

Definition interface_post_reset (i : nat) (s : St W) : St W :=
  let s := reset_inputs i s in
  let period := m_timed_interrupt_period (device s i) in
  if negb (eqb period zero)
  then match m_timedint_timer (device s i) with
       | Some id => on_timers (adjust period 0 period id) s
       | None => s
       end
  else s.

Definition reset (i : nat) (s : St W) : St W :=
  let s := interface_pre_reset i s in
  let s := on_machine (device_reset i) s in
  interface_post_reset i s.

(** One turn of the loop of [empty_event_queue]. *)
Definition input_event (i l : nat) (event : Z) (s : St W) : St W :=
  let s := on_input i l (fun inp => inp <| m_curstate := Z.land event 0xff |>
                                        <| m_curvector := Z.shiftr event 8 |>) s in
  if (l =? INPUT_LINE_RESET)%nat then
    if m_curstate (input s i l) =? ASSERT_LINE then suspend i SUSPEND_REASON_RESET true s
    else if suspended s i SUSPEND_REASON_RESET then resume i SUSPEND_REASON_RESET (reset i s)
    else s
  else if (l =? INPUT_LINE_HALT)%nat then
    if m_curstate (input s i l) =? ASSERT_LINE then suspend i SUSPEND_REASON_HALT true s
    else if m_curstate (input s i l) =? CLEAR_LINE then resume i SUSPEND_REASON_HALT s
    else s
  else
    let state := m_curstate (input s i l) in
    let s :=
      if (state =? HOLD_LINE) || (state =? ASSERT_LINE) then on_machine (execute_set_input i l ASSERT_LINE) s
      else if state =? CLEAR_LINE then on_machine (execute_set_input i l CLEAR_LINE) s
      else s in
    if negb (m_curstate (input s i l) =? CLEAR_LINE) then signal_interrupt_trigger i s else s.

Fixpoint empty_events (fuel : nat) (i l curevent : nat) (s : St W) : St W :=
  match fuel with
  | O => s
  | S fuel =>
      if (curevent <? m_qindex (input s i l))%nat
      then empty_events fuel i l (S curevent) (input_event i l (nth curevent (m_queue (input s i l)) 0) s)
      else s
  end.

(** The queue holds 32 events, so 33 tests of the loop condition. *)
Definition empty_event_queue (i l : nat) (s : St W) : St W :=
  let s := empty_events 33 i l 0 s in
  on_input i l (fun inp => inp <| m_qindex := 0%nat |>) s.

Definition enqueued (event_index : nat) (state vector : Z) (inp : device_input) : device_input :=
  let vector := if vector =? USE_STORED_VECTOR then m_stored_vector inp else vector in
  inp <| m_queue ::= <[event_index := s32 (Z.lor (Z.land state 0xff) (Z.shiftl vector 8))]> |>.

Definition set_state_synced (i l : nat) (state vector : Z) (s : St W) : St W :=
  let event_index := m_qindex (input s i l) in
  let s := on_input i l (fun inp => inp <| m_qindex ::= S |>) s in
  let '(event_index, s) :=
    if (length (m_queue (input s i l)) <=? event_index)%nat then
      let s := on_input i l (fun inp => inp <| m_qindex ::= pred |>) s in
      let s := empty_event_queue i l s in
      let event_index := m_qindex (input s i l) in
      (event_index, on_input i l (fun inp => inp <| m_qindex ::= S |>) s)
    else (event_index, s) in
  if (event_index <? length (m_queue (input s i l)))%nat then
    let s := on_input i l (enqueued event_index state vector) s in
    if (event_index =? 0)%nat then synchronize (input_events i l) 0 s else s
  else s.

Definition set_input_line (i l : nat) (state : Z) : St W -> St W :=
  set_state_synced i l state USE_STORED_VECTOR.
Definition set_vector (i l : nat) (vector : Z) : St W -> St W :=
  on_input i l (fun inp => inp <| m_stored_vector := vector |>).

Definition default_irq_callback (i l : nat) (s : St W) : Z * St W :=
  let vector := m_curvector (input s i l) in
  if m_curstate (input s i l) =? HOLD_LINE
  then (vector, on_input i l (fun inp => inp <| m_curstate := CLEAR_LINE |>)
                  (on_machine (execute_set_input i l CLEAR_LINE) s))
  else (vector, s).

Definition standard_irq_callback (i irqline : nat) (s : St W) : Z * St W :=
  let '(vector, s) := default_irq_callback i irqline s in
  match m_driver_irq i with
  | Some irq => irq irqline s
  | None => (vector, s)
  end.

(** [None]: the fatal error of a zero-width pulse. *)
Definition pulse_input_line (i irqline : nat) (duration : attotime) (s : St W) : option (St W) :=
  let id := nth irqline (m_pulse_end_timers (device s i)) 0%nat in
  let expiry := m_expire (timer_at (heap s.1) id) in
  if eqb duration zero then
    if negb (irqline =? INPUT_LINE_RESET)%nat && negb (execute_input_edge_triggered i irqline) then None
    else if is_never expiry || leb expiry (time s)
    then Some (set_input_line i irqline CLEAR_LINE (set_input_line i irqline ASSERT_LINE s))
    else Some s
  else
    let target_time := add (local_time s i) duration in
    if is_never expiry || gtb target_time expiry then
      let s := set_input_line i irqline ASSERT_LINE s in
      Some (on_timers (adjust (sub target_time (time s)) (Z.of_nat irqline) never id) s)
    else Some s.

(** ** Starting, clocks and periodic interrupts *)

Definition alloc_timer (i : nat) (cb : callback) (f : nat -> execute_device -> execute_device) (s : St W) : St W :=
  let '(id, s) := timer_alloc cb s in on_device i (f id) s.

Definition interface_pre_start (i : nat) (s : St W) : St W :=
  let s := on_device i (fun x => x <| m_suspend := SUSPEND_REASON_RESET |>
                                   <| m_inttrigger := device_index i + TRIGGER_INT |>) s in
  let s := if negb (eqb (m_timed_interrupt_period (device s i)) zero)
           then alloc_timer i (periodic_interrupt i) (fun id x => x <| m_timedint_timer := Some id |>) s
           else s in
  let s := alloc_timer i (timed_trigger_callback i) (fun id x => x <| m_spin_end_timer := id |>) s in
  Nat.iter MAX_INPUT_LINES
    (alloc_timer i (irq_pulse_clear i) (fun id x => x <| m_pulse_end_timers ::= fun p => p ++ [id] |>)) s.

(** [device_input::start] resets each input. *)
Definition interface_post_start : nat -> St W -> St W := reset_inputs.

Fixpoint divisor_shift (fuel : nat) (divshift attos : Z) : Z * Z :=
  match fuel with
  | O => (divshift, attos)
  | S fuel => if Z.shiftl 1 31 <=? attos then divisor_shift fuel (divshift + 1) (Z.shiftr attos 1)
              else (divshift, attos)
  end.

(** The fuel is the width of the attosecond count. *)
Definition update_clock (i : nat) (sync_on_new_clock_domain : bool) (x : execute_device) : execute_device :=
  let x := x <| m_cycles_per_second := u32 (execute_clocks_to_cycles i (m_clock x)) |> in
  let x := x <| m_attoseconds_per_cycle := HZ_TO_ATTOSECONDS (m_cycles_per_second x) |> in
  let x := if sync_on_new_clock_domain
           then x <| m_localtime := from_ticks (as_ticks (m_localtime x) (m_clock x) + 1) (m_clock x) |> else x in
  let '(divshift, attos) := divisor_shift 64 0 (m_attoseconds_per_cycle x) in
  x <| m_divshift := divshift |> <| m_divisor := s32 attos |>.

Definition interface_clock_changed (i : nat) (sync_on_new_clock_domain : bool) (s : St W) : St W :=
  if m_clock (device s i) =? 0 then suspend i SUSPEND_REASON_CLOCK true s
  else
    let s := if suspended s i SUSPEND_REASON_CLOCK then resume i SUSPEND_REASON_CLOCK s else s in
    let s := on_device i (update_clock i sync_on_new_clock_domain) s in
    compute_perfect_interleave s.

Definition trigger_periodic_interrupt (i : nat) (s : St W) : St W :=
  let reasons := Z.lor (Z.lor SUSPEND_REASON_HALT SUSPEND_REASON_RESET)
                       (Z.lor SUSPEND_REASON_DISABLE SUSPEND_REASON_CLOCK) in
  if negb (suspended s i reasons)
  then match m_timed_interrupt i with Some f => f s | None => s end
  else s.

(** ** Timer callbacks *)

Definition run_callback (c : callback) (param : Z) (s : St W) : St W :=
  match c with
  | timed_trigger => scheduler_trigger param zero s
  | timed_trigger_callback i => trigger i param s
  | irq_pulse_clear i => set_input_line i (Z.to_nat param) CLEAR_LINE s
  | input_events i l => empty_event_queue i l s
  | periodic_interrupt i => trigger_periodic_interrupt i s
  | other n => timer_callback n param s
  end.
Definition call (cb : nat) (param : Z) (s : St W) : St W :=
  match decode_nat cb with Some c => run_callback c param s | None => s end.

(** [device_scheduler::postload]: the timers are re-inserted and the list is
    rebuilt. *)
Definition postload (s : St W) : St W :=
  let s := (Scheduler.postload s.1, s.2 <| m_suspend_changes_pending := true |>) in
  rebuild_execute_list s.

(** ** A timeslice

    [None] stands for a null pointer: an empty list of timers or of quanta. *)

Definition first_expire (s : St W) : option attotime :=
  id ← m_timer_list s.1; Some (m_expire (timer_at (heap s.1) id)).

Fixpoint detach_expired (basetime : attotime) (quanta : list quantum_slot) : option (list quantum_slot) :=
  match quanta with
  | [] => None
  | quant :: rest => if geb basetime (q_expire quant) then detach_expired basetime rest else Some quanta
  end.

(** How far a device is behind the target, as the loop computes it. *)
Definition slice_delta (target localtime : attotime) : Z :=
  let delta := m_attoseconds target - m_attoseconds localtime in
  if (delta <? 0) && (m_seconds localtime <? m_seconds target) then delta + ATTOSECONDS_PER_SECOND else delta.

(** Accounting for the cycles a device ran. *)
Definition account (ran : Z) (x : execute_device) : execute_device :=
  let x := x <| m_totalcycles ::= fun n => u64 (n + ran) |> in
  let deltatime :=
    if u32 ran <? m_cycles_per_second x then mk_attotime 0 (m_attoseconds_per_cycle x * ran)
    else let '(secs, remainder) := divu_64x32_rem ran (m_cycles_per_second x) in
         mk_attotime (s32 secs) (s64 (u64 (remainder * m_attoseconds_per_cycle x))) in
  x <| m_localtime ::= fun t => add_assign t deltatime |>.

(** The device runs, unless it is suspended; the cycles it used. *)
Definition run_cycles (i : nat) (delta : Z) (s : St W) : Z * St W :=
  let x := device s i in
  let ran := s32 (divu_64x32 (Z.shiftr (u64 delta) (m_divshift x)) (m_divisor x)) in
  let s := on_device i (fun x => x <| m_cycles_running := ran |>) s in
  if m_suspend x =? 0 then
    let s := on_device i (fun x => x <| m_cycles_stolen := 0 |>) s in
    let s := (s.1, s.2 <| m_executing := Some i |>) in
    let s := on_device i (fun x => x <| icount := m_cycles_running x |>) s in
    let s := execute_run i s in
    (ran - icount (device s i) - m_cycles_stolen (device s i), s)
  else (ran, s).

(** One device of the loop over the execute list; the target moves up when the
    device stopped short of it. *)
Definition run_device (i : nat) (ts : attotime * St W) : attotime * St W :=
  let '(target, s) := ts in
  let x := device s i in
  if ((m_suspend x =? 0) || m_eatcycles x) && (m_seconds (m_localtime x) <=? m_seconds target) then
    let delta := slice_delta target (m_localtime x) in
    if m_attoseconds_per_cycle x =? 0 then (target, on_device i (fun x => x <| m_localtime := target |>) s)
    else if m_attoseconds_per_cycle x <=? delta then
      let '(ran, s) := run_cycles i delta s in
      let s := on_device i (account ran) s in
      let localtime := m_localtime (device s i) in
      (if ltb localtime target then max_time localtime (m_basetime s.1) else target, s)
    else (target, s)
  else (target, s).

(** The target of the next pass: the end of the quantum, or the next timer. *)
Definition next_target (expire : attotime) (s : St W) : option attotime :=
  quant ← head (m_quantum_list s.2);
  let target := add (m_basetime s.1) (mk_attotime 0 (m_actual quant)) in
  Some (if ltb expire target then expire else target).

Definition settle_changes (s : St W) : St W :=
  if m_suspend_changes_pending s.2 then apply_suspend_changes s else s.

(** One pass over the devices. *)
Definition pass (expire : attotime) (s : St W) : option (St W) :=
  target ← next_target expire s;
  let s := settle_changes s in
  let '(target, s) := fold_left (fun ts i => run_device i ts) (m_execute_list s.2) (target, s) in
  let s := (s.1, s.2 <| m_executing := None |>) in
  Some (s.1 <| m_basetime := target |>, s.2).

(** The loop until the next timer is due. *)
Fixpoint run_until_timer (fuel : nat) (s : St W) : option (St W) :=
  expire ← first_expire s;
  if ltb (m_basetime s.1) expire then
    match fuel with
    | O => None
    | S fuel => s ← pass expire s; run_until_timer fuel s
    end
  else Some s.

Definition timeslice (fuel : nat) (s : St W) : option (St W) :=
  let s := built s in
  quanta ← detach_expired (m_basetime s.1) (m_quantum_list s.2);
  let s := (s.1, s.2 <| m_quantum_list := quanta |>) in
  s ← run_until_timer fuel s;
  execute_timers call fuel s.

End Execute.
