(* ===== verification/ExecuteFacts.v ===== *)
(** * Facts about execution

    What a device may do while it runs, as a step relation whose invariant
    keeps the clocks and the timers in order ([running]); the arithmetic of a
    slice; the passes of a timeslice; quanta, input lines and triggers. *)

From stdpp Require Import base tactics numbers option list gmap countable fin_maps relations sorting.
From Stdlib Require Import ZArith Lia Bool.
From S2P Require Import Prelude Attotime Device Scheduler Execute.

(** ** The timers under the operations of a running device

    [z] is a timer nobody moves; the timers of a list stay timers. *)

(** Operations that keep the deadline and the known timers. *)
Definition keeps_deadline (z d : nat) (t t' : sched) : Prop :=
  m_basetime t' = m_basetime t /\ m_callback_timer t' = m_callback_timer t /\
  forall A I, inv None t A I d -> z ∈ A ->
  exists A' I', inv None t' A' I' d /\ z ∈ A' /\ expire_at (heap t') z = expire_at (heap t) z /\
    (forall x, x ∈ A ++ I -> x ∈ A' ++ I').

Lemma placed_in h t id A I A' I' x :
  placed h t id A I A' I' -> x ∈ A ++ I -> x ∈ A' ++ I'.
Proof.
  unfold placed. intros Hp Hx. destruct (decide (x = id)) as [->|Hne].
  - destruct (_ && _); [destruct Hp as (-> & A1 & A2 & _ & -> & _)|destruct Hp as [-> ->]]; set_solver.
  - assert (x ∈ without id A ++ without id I) as Hw.
    { apply elem_of_app. apply elem_of_app in Hx. rewrite !elem_of_without. tauto. }
    destruct (_ && _); [destruct Hp as (-> & A1 & A2 & E & -> & _); rewrite E in Hw|destruct Hp as [-> ->]]; set_solver.
Qed.

Lemma placed_other h t id A I A' I' x :
  placed h t id A I A' I' -> x ≠ id -> x ∈ A -> x ∈ A'.
Proof.
  unfold placed. intros Hp Hne Hx. assert (x ∈ without id A) as Hw by (by apply elem_of_without).
  destruct (_ && _); [destruct Hp as (_ & A1 & A2 & E & -> & _); rewrite E in Hw; set_solver|].
  by destruct Hp as [-> _].
Qed.

(** The list operations leave the times and the callback alone. *)
Definition same_times (t t' : sched) : Prop :=
  m_basetime t' = m_basetime t /\ m_callback_timer t' = m_callback_timer t.

Lemma insert_times chk id t : same_times t (timer_list_insert chk id t).
Proof.
  unfold timer_list_insert. destruct (_ && _).
  - destruct (insert_scan _ _ _ _ _ _) as [[p|] [c|]]; done.
  - by destruct (m_inactive_timers t).
Qed.
Lemma remove_times id t : same_times t (timer_list_remove id t).
Proof.
  unfold timer_list_remove. destruct (m_prev _), (m_next _); try done; by case_bool_decide.
Qed.
Lemma abort_times id t :
  same_times t (if bool_decide (m_timer_list t = Some id) then Scheduler.abort_timeslice t else t).
Proof. destruct (abort_if id t) as (_ & _ & _ & _ & _ & _ & ? & ?). done. Qed.

Lemma adjust_times delay param period id t : same_times t (adjust delay param period id t).
Proof.
  unfold adjust. cbv zeta. set (t1 := if bool_decide _ then _ else t).
  assert (same_times t t1) as [E1 E2] by (unfold t1; by case_bool_decide).
  set (t2 := put _ _ t1). destruct (remove_times id t2) as [R1 R2].
  destruct (insert_times false id (timer_list_remove id t2)) as [I1 I2].
  destruct (abort_times id (timer_list_insert false id (timer_list_remove id t2))) as [A1 A2].
  unfold same_times. rewrite A1, A2, I1, I2, R1, R2. done.
Qed.

Lemma init_times cb delay param temp id t : same_times t (init cb delay param temp id t).
Proof.
  unfold init. cbv zeta. set (t1 := upd heap _ t).
  destruct (insert_times false id t1) as [I1 I2].
  destruct (abort_times id (timer_list_insert false id t1)) as [A1 A2].
  unfold same_times. rewrite A1, A2, I1, I2. done.
Qed.

Lemma enable_times b id t : same_times t (enable b id t).2.
Proof.
  unfold enable. destruct (Bool.eqb _ b); [done|]. cbn [snd].
  destruct (remove_times id (put id (fun t => t <| m_enabled := b |>) t)) as [R1 R2].
  destruct (insert_times false id (timer_list_remove id (put id (fun t => t <| m_enabled := b |>) t))) as [I1 I2].
  unfold same_times. rewrite I1, I2, R1, R2. done.
Qed.

(** A timer of one of the two lists, whatever the lists are. *)
Definition known (d : nat) (t : sched) (id : nat) : Prop := forall A I, inv None t A I d -> id ∈ A ++ I.

Lemma adjust_keeps z d delay param period id t :
  known d t id -> id ≠ z -> wf delay -> wf period -> 0 <= m_seconds period ->
  keeps_deadline z d t (adjust delay param period id t).
Proof.
  intros Hk Hne Hd Hp Hs. destruct (adjust_times delay param period id t). split; [done|]. split; [done|].
  intros A I Hinv Hz.
  destruct (adjust_spec None delay param period id t A I d) as (A' & I' & Hi & Hpl & _ & Ho & _); [by auto..|].
  exists A', I'. split; [done|]. split; [by eapply placed_other|]. split.
  - apply data_fields, Ho. done.
  - intros x. by eapply placed_in.
Qed.

Lemma init_keeps z d cb delay param temp id t :
  heap t !! id = None -> wf delay -> keeps_deadline z d t (init cb delay param temp id t).
Proof.
  intros Hf Hd. destruct (init_times cb delay param temp id t). split; [done|]. split; [done|].
  intros A I Hinv Hz.
  destruct (init_spec cb delay param temp id t A I d Hinv Hf Hd) as (A' & I' & Hi & Hpl & _ & Ho).
  assert (z ≠ id) as Hne.
  { intros ->. destruct (lists_in_heap t (A ++ [d]) I id) as [? E]; [apply Hinv|set_solver|congruence]. }
  exists A', I'. split; [done|]. split; [by eapply placed_other|]. split.
  - apply data_fields, Ho. done.
  - intros x. by eapply placed_in.
Qed.

Lemma enable_keeps z d b id t :
  known d t id -> id ≠ z -> keeps_deadline z d t (enable b id t).2.
Proof.
  intros Hk Hne. destruct (enable_times b id t). split; [done|]. split; [done|]. intros A I Hinv Hz.
  destruct (decide (m_enabled (timer_at (heap t) id) = b)) as [Eb|Eb].
  - unfold enable. rewrite Eb, eqb_reflx. cbn [snd]. by exists A, I.
  - destruct (enable_spec None b id t A I d Hinv (Hk A I Hinv) Eb) as (A' & I' & Hi & Hpl & _ & Ho).
    exists A', I'. split; [done|]. split; [by eapply placed_other|]. split.
    + apply data_fields, Ho. done.
    + intros x. by eapply placed_in.
Qed.

(** The lists are determined by their heads. *)
Lemma lseg_unique h p l l' hd : lseg h p l hd None -> lseg h p l' hd None -> l = l'.
Proof.
  revert p l' hd. induction l as [|x l IH]; intros p [|y l'] hd; cbn [lseg]; try done.
  - by intros -> [? _].
  - by intros [-> _] ?.
  - intros (-> & t & Ht & _ & Hl) (Ey & t' & Ht' & _ & Hl'). simplify_eq. f_equal. by eapply IH.
Qed.

Lemma inv_unique ex ex' t A I A' I' d : inv ex t A I d -> inv ex' t A' I' d -> A = A' /\ I = I'.
Proof.
  intros [[HA HI _] _ _ _ _ _] [[HA' HI' _] _ _ _ _ _]. split; [|by eapply lseg_unique].
  apply (app_inj_tail A A' d d). by eapply lseg_unique.
Qed.

(** ** A running device *)

Section Running.
Context {W : Type} `{ExecuteInterface W}.
Implicit Types (s : St W) (i j : nat).

(** The device is one of the machine's. *)
Definition present (s : St W) (i : nat) : Prop := (i < length (devices s.2))%nat.

#[export] Instance present_dec s i : Decision (present s i) := lt_dec i (length (devices s.2)).

Lemma length_on_device i f s : length (devices (on_device i f s).2) = length (devices s.2).
Proof. unfold on_device. cbn. by rewrite length_alter. Qed.

Lemma device_on i f s j : present s i ->
  device (on_device i f s) j = if decide (i = j) then f (device s j) else device s j.
Proof.
  intros Hi. unfold device, on_device. cbn. case_decide as E.
  - subst j. rewrite list_lookup_alter_eq. destruct (lookup_lt_is_Some_2 (devices s.2) i) as [x Ex]; [done|].
    by rewrite Ex.
  - by rewrite list_lookup_alter_ne.
Qed.

Lemma device_on_out i f s : ~ present s i -> on_device i f s = s.
Proof.
  intros Hi. unfold present in Hi. unfold on_device. destruct s as [t e]. cbn in *.
  assert (alter f i (devices e) = devices e) as E.
  { apply list_eq. intros k. destruct (decide (i = k)) as [->|].
    - rewrite list_lookup_alter_eq, lookup_ge_None_2 by lia. done.
    - by rewrite list_lookup_alter_ne. }
  unfold upd. cbn. rewrite E. by destruct e.
Qed.

(** What only the scheduler and a change of clock write. *)
Definition clocks (x : execute_device) :=
  (m_clock x, m_localtime x, m_cycles_per_second x, m_attoseconds_per_cycle x, m_divisor x, m_divshift x,
   (m_suspend x, m_eatcycles x), (m_timed_interrupt_period x, m_timedint_timer x, m_spin_end_timer x, m_pulse_end_timers x)).

Definition own_timers (x : execute_device) : list nat :=
  m_spin_end_timer x :: option_list (m_timedint_timer x) ++ m_pulse_end_timers x.

(** Suspended without its cycles being eaten, a device would fall behind. *)
Definition accountable (x : execute_device) : Prop := m_nextsuspend x = 0 \/ m_nexteatcycles x = true.
Definition participates (x : execute_device) : bool := (m_suspend x =? 0) || m_eatcycles x.

Definition quantum_ok (q : quantum_slot) : Prop := 0 < m_actual q < ATTOSECONDS_PER_SECOND.
Definition quanta_ok (e : executor W) : Prop :=
  m_quantum_list e ≠ [] /\ Forall quantum_ok (m_quantum_list e) /\
  0 < m_quantum_minimum e < ATTOSECONDS_PER_SECOND.

(** The cycle counters, [ran] cycles having been granted: what was neither
    used nor stolen is left, and at least one cycle was used. *)
Definition cycles_ok (ran : Z) (x : execute_device) : Prop :=
  1 <= m_cycles_running x /\ m_cycles_running x + m_cycles_stolen x = ran /\
  1 <= m_cycles_running x - icount x < 2147483648.

(** The cycles used of the slice so far. *)
Definition used (x : execute_device) : Z := m_cycles_running x - icount x.

(** The constant data of a device. *)
Definition device_ok (i : nat) (x : execute_device) : Prop :=
  wf (m_localtime x) /\ (wf (m_timed_interrupt_period x) /\ 0 <= m_seconds (m_timed_interrupt_period x)) /\
  0 <= m_clock x < 4294967296 /\
  (forall n, 0 <= n < 2147483648 -> 0 <= execute_cycles_to_clocks i n < m_clock x * 2147483648 \/ m_clock x = 0).

Section Invariant.
(** The device [i] that runs, the cycles [ran] granted, the deadline timer
    [z] with its time, and the never-expiring timer [d]. *)
Context (i : nat) (ran : Z) (z d : nat) (E : attotime).

Definition timers_ok (s : St W) : Prop :=
  m_callback_timer s.1 = None /\ m_executing_device s.1 = None /\ wf (m_basetime s.1) /\
  exists A I, inv None s.1 A I d /\ z ∈ A /\ expire_at (heap s.1) z = E /\
    forall j, present s j -> Forall (fun id => id ∈ A ++ I /\ id ≠ z) (own_timers (device s j)).

Definition devices_ok (s : St W) : Prop :=
  forall j, present s j -> device_ok j (device s j) /\ accountable (device s j).

Record running (s : St W) : Prop := mk_running {
  run_executing : m_executing s.2 = Some i /\ present s i;
  run_list : m_execute_list s.2 ≠ [];
  run_timers : timers_ok s;
  run_quanta : quanta_ok s.2;
  run_devices : devices_ok s;
  run_counts : cycles_ok ran (device s i)
}.

Record same_clocks (s s' : St W) : Prop := mk_same_clocks {
  same_length : length (devices s'.2) = length (devices s.2);
  same_devices : forall j, clocks (device s' j) = clocks (device s j);
  same_base : m_basetime s'.1 = m_basetime s.1;
  same_list : m_execute_list s'.2 = m_execute_list s.2;
  same_pending : m_suspend_changes_pending s.2 = true -> m_suspend_changes_pending s'.2 = true
}.

#[export] Instance same_clocks_preorder : PreOrder same_clocks.
Proof.
  split; [intros s; by constructor|]. intros x y t [L1 D1 B1 E1 P1] [L2 D2 B2 E2 P2].
  constructor; [congruence|intros j; by rewrite D2|congruence|congruence|auto].
Qed.

(** An operation that costs the running device [n] cycles, and one that costs
    it none. *)
Definition spends (n : Z) (s s' : St W) : Prop :=
  running s -> running s' /\ same_clocks s s' /\ used (device s' i) = used (device s i) + n.
Definition keeps : St W -> St W -> Prop := spends 0.

Lemma spends_trans n m s1 s2 s3 : spends n s1 s2 -> spends m s2 s3 -> spends (n + m) s1 s3.
Proof.
  intros H1 H2 Hr. destruct (H1 Hr) as (Hr1 & Hs1 & E1). destruct (H2 Hr1) as (Hr2 & Hs2 & E2).
  split; [done|]. split; [by etransitivity|lia].
Qed.

#[export] Instance keeps_preorder : PreOrder keeps.
Proof.
  split; [|intros x y t; apply (spends_trans 0 0)]. intros s Hr. split; [done|]. split; [done|lia].
Qed.

Lemma keeps_trans s1 s2 s3 : keeps s1 s2 -> keeps s2 s3 -> keeps s1 s3.
Proof. apply (transitivity (R := keeps)). Qed.

(** A change of a device that leaves its clocks alone. *)
Definition tame_by (n : Z) (x : execute_device) (f : execute_device -> execute_device) : Prop :=
  clocks (f x) = clocks x /\ (accountable x -> accountable (f x)) /\ (cycles_ok ran x -> cycles_ok ran (f x)) /\
  used (f x) = used x + n.
Definition tame (f : execute_device -> execute_device) : Prop := forall x, tame_by 0 x f.

Lemma clocks_fields x y : clocks x = clocks y ->
  m_clock x = m_clock y /\ m_localtime x = m_localtime y /\
  m_attoseconds_per_cycle x = m_attoseconds_per_cycle y /\ m_suspend x = m_suspend y /\
  m_eatcycles x = m_eatcycles y /\ m_timed_interrupt_period x = m_timed_interrupt_period y /\
  own_timers x = own_timers y.
Proof. unfold clocks, own_timers. intros Ec. injection Ec. intros. repeat split; congruence. Qed.

Lemma device_ok_clocks j x y : clocks x = clocks y -> device_ok j y -> device_ok j x.
Proof. intros (Ec & Et & _ & _ & _ & Ep & _)%clocks_fields. unfold device_ok. by rewrite Ec, Et, Ep. Qed.

Lemma spends_device n j f s : j = i \/ n = 0 -> tame_by n (device s j) f -> spends n s (on_device j f s).
Proof.
  intros Hn Hf Hr. destruct (decide (present s j)) as [Hj|Hj].
  2:{ rewrite device_on_out by done. split; [done|]. split; [done|].
      destruct Hn as [->| ->]; [by destruct Hj; apply (run_executing s Hr)|lia]. }
  assert (forall k, clocks (device (on_device j f s) k) = clocks (device s k)) as Hc.
  { intros k. rewrite device_on by done. case_decide; [subst k; apply Hf|done]. }
  split; [|split; [constructor; try done; apply length_on_device|]].
  - destruct Hr as [[Hx Hi] Hl (Ht1 & Ht2 & Ht3 & A & I & HT) Hq Hd Hcy]. constructor; try done.
    + split; [done|]. unfold present. by rewrite length_on_device.
    + split; [done|]. split; [done|]. split; [done|]. exists A, I. destruct HT as (? & ? & ? & Ho). split_and!; try done.
      intros k. unfold present. rewrite length_on_device. intros Hk.
      destruct (clocks_fields _ _ (Hc k)) as (_ & _ & _ & _ & _ & _ & ->). by apply Ho.
    + intros k. unfold present. rewrite length_on_device. intros Hk. destruct (Hd k Hk). split.
      * eapply device_ok_clocks; [apply Hc|done].
      * rewrite device_on by done. case_decide; [|done]. subst k. by apply Hf.
    + rewrite device_on by done. case_decide; [subst j; by apply Hf|done].
  - rewrite device_on by done. case_decide as Eji; [subst j; apply Hf|].
    destruct Hn as [->| ->]; [done|lia].
Qed.
Lemma keeps_device j f s : tame f -> keeps s (on_device j f s).
Proof. intros Hf. apply spends_device; [by right|apply Hf]. Qed.

(** A change that concerns none of the above. *)
Lemma keeps_rest (e' : executor W) s :
  devices e' = devices s.2 -> m_execute_list e' = m_execute_list s.2 -> m_executing e' = m_executing s.2 ->
  (m_suspend_changes_pending s.2 = true -> m_suspend_changes_pending e' = true) -> quanta_ok e' ->
  keeps s (s.1, e').
Proof.
  intros Ed El Ex Ep Hq. assert (forall j, device (s.1, e') j = device s j) as Edev.
  { intros j. unfold device. cbn. by rewrite Ed. }
  intros [[Hx Hi] Hl HT Hq0 Hd Hcy]. split; [|split].
  - constructor; cbn [snd].
    + unfold present. cbn. by rewrite Ex, Ed.
    + by rewrite El.
    + destruct HT as (? & ? & ? & A & I & ? & ? & ? & Ho). split_and!; try done. exists A, I. split_and!; try done.
      intros j. unfold present. cbn. rewrite Ed, Edev. apply Ho.
    + done.
    + intros j. unfold present. cbn. rewrite Ed, Edev. apply Hd.
    + by rewrite Edev.
  - constructor; cbn; rewrite ?Ed; try done. intros j. by rewrite Edev.
  - rewrite Edev. lia.
Qed.

Lemma keeps_machine f s : keeps s (on_machine f s).
Proof. intros Hr. apply keeps_rest; [done..|apply Hr|done]. Qed.

(** Cutting the slice short gives back the cycles that are left. *)
Lemma swallow_tame : tame swallow.
Proof.
  intros x. unfold tame_by, swallow. destruct (Z.ltb_spec 0 (icount x)) as [Hi|Hi]; [|split_and!; done || lia].
  split; [done|]. split; [done|]. unfold cycles_ok, used. cbn. lia.
Qed.

Lemma keeps_abort j s : keeps s (abort_timeslice j s).
Proof. unfold abort_timeslice. destruct (negb _); [reflexivity|]. apply keeps_device, swallow_tame. Qed.

Lemma keeps_scheduler_abort s : keeps s (scheduler_abort s).
Proof. unfold scheduler_abort. destruct (m_executing s.2); [apply keeps_abort|reflexivity]. Qed.

(** The local time of the running device is a proper time. *)
Lemma running_time s : running s -> wf (Scheduler.time (timers s)).
Proof.
  intros [[Hx Hi] _ (Hc & _ & Hb & _) _ Hd (_ & _ & Hcy)]. unfold Scheduler.time, timers.
  cbn [m_callback_timer m_executing_device]. unfold upd. cbn. rewrite Hc, Hx. cbn. unfold local_time.
  destruct (Hd i Hi) as [(Hl & _ & Hck & Hn) _].
  destruct (executing s i); [|done]. apply add_wf; [done|]. unfold cycles_to_attotime.
  rewrite u64_id by lia. apply clocks_to_attotime_wf; [done|]. apply Hn. lia.
Qed.

(** An operation on the timers. *)
Lemma keeps_timers f s :
  (running s -> keeps_deadline z d (timers s) (f (timers s))) -> keeps s (on_timers f s).
Proof.
  intros Hf Hr. unfold on_timers. cbv zeta.
  set (s1 := ((f (timers s)) <| m_executing_device := None |> <| timeslice_aborted := false |>, s.2)).
  assert (keeps s s1) as Hk.
  { intros _. destruct (Hf Hr) as (Eb & Ec & Hi). pose proof (running_time s Hr) as Ht.
    destruct Hr as [Hx Hl (Hc & Hn & Hb & A & I & Hinv & Hz & He & Ho) Hq Hd Hcy].
    assert (inv None (timers s) A I d) as Hinv' by (by eapply inv_same).
    destruct (Hi A I Hinv' Hz) as (A' & I' & Hinv2 & Hz' & He' & Hin).
    change (m_basetime (timers s)) with (m_basetime s.1) in Eb.
    change (m_callback_timer (timers s)) with (m_callback_timer s.1) in Ec.
    change (heap (timers s)) with (heap s.1) in He'.
    split; [|split; [by constructor|change (device s1 i) with (device s i); lia]]. constructor; try done.
    assert (m_callback_timer s1.1 = None) as Hc1 by (change (m_callback_timer (f (timers s)) = None); congruence).
    assert (wf (m_basetime s1.1)) as Hb1 by (change (wf (m_basetime (f (timers s)))); congruence).
    split; [done|]. split; [done|]. split; [done|].
    exists A', I'. split; [|split; [done|split]].
    - eapply (inv_same _ (f (timers s))); try done. unfold Scheduler.time. rewrite Hc1. exact Hb1.
    - change (expire_at (heap (f (timers s))) z = E). congruence.
    - intros j Hj. eapply Forall_impl; [by apply (Ho j)|]. intros x [Hx' ?]. split; [by apply Hin|done]. }
  eapply keeps_trans; [exact Hk| |exact Hr]. destruct (timeslice_aborted _); [apply keeps_scheduler_abort|reflexivity].
Qed.

Lemma alloc_fresh t : heap t !! alloc t = None.
Proof. apply not_elem_of_dom. unfold alloc. apply is_fresh. Qed.

Lemma keeps_init cb delay param temp s : wf delay ->
  keeps s (on_timers (fun t => init cb delay param temp (alloc t) t) s).
Proof. intros Hd. apply keeps_timers. intros _. by apply init_keeps; [apply alloc_fresh|]. Qed.

Lemma keeps_adjust delay param period id s : known d s.1 id -> id ≠ z ->
  wf delay -> wf period -> 0 <= m_seconds period -> keeps s (on_timers (adjust delay param period id) s).
Proof.
  intros Hk Hne ? ? ?. apply keeps_timers. intros Hr. apply adjust_keeps; try done.
  intros A I Hi. apply Hk. destruct Hr as [_ _ (Hc & Hn & Hb & _) _ _ _].
  eapply inv_same; [exact Hi|done|done|done|]. unfold Scheduler.time. by rewrite Hc, Hn.
Qed.

(** *** The operations of the interface *)

Lemma suspends_tame reason : tame (fun x => x <| m_nextsuspend ::= fun m => Z.lor m reason |> <| m_nexteatcycles := true |>).
Proof. intros x. split_and!; [done|by right|done|unfold used; cbn; lia]. Qed.
Lemma resumes_tame reason : tame (fun x => x <| m_nextsuspend ::= fun m => Z.land m (Z.lnot reason) |>).
Proof.
  intros x. split_and!; [done| |done|unfold used; cbn; lia]. unfold accountable. cbn. intros [->|]; [by left|by right].
Qed.
Lemma triggers_tame trigid : tame (fun x => x <| m_trigger := trigid |>).
Proof. intros x. split_and!; try done. unfold used. cbn. lia. Qed.

Lemma keeps_changed j s : keeps s (suspend_resume_changed j s).
Proof.
  unfold suspend_resume_changed. cbv zeta. intros Hr.
  apply (keeps_trans _ (s.1, s.2 <| m_suspend_changes_pending := true |>)); [|apply keeps_abort|done].
  apply keeps_rest; try done. apply Hr.
Qed.

Lemma keeps_suspend j reason s : keeps s (suspend j reason true s).
Proof. unfold suspend. cbv zeta. eapply keeps_trans; [apply keeps_device, suspends_tame|apply keeps_changed]. Qed.
Lemma keeps_resume j reason s : keeps s (resume j reason s).
Proof. unfold resume. cbv zeta. eapply keeps_trans; [apply keeps_device, resumes_tame|apply keeps_changed]. Qed.
Lemma keeps_until_trigger j trigid s : keeps s (suspend_until_trigger j trigid true s).
Proof. unfold suspend_until_trigger. cbv zeta. eapply keeps_trans; [apply keeps_suspend|apply keeps_device, triggers_tame]. Qed.

Lemma keeps_trigger j trigid s : keeps s (trigger j trigid s).
Proof.
  unfold trigger. cbv zeta. eapply keeps_trans; [apply keeps_abort|]. destruct (_ && _); [|reflexivity].
  eapply keeps_trans; [apply keeps_resume|apply keeps_device, triggers_tame].
Qed.

(** The timers a device owns are timers of the scheduler, not the deadline. *)
Lemma own_known s j id : running s -> present s j -> id ∈ own_timers (device s j) -> known d s.1 id /\ id ≠ z.
Proof.
  intros [_ _ (_ & _ & _ & A & I & Hinv & _ & _ & Ho) _ _ _] Hj Hid.
  specialize (Ho j Hj). rewrite Forall_forall in Ho. destruct (Ho id Hid) as [Hin Hne]. split; [|done].
  intros A' I' Hinv'. by destruct (inv_unique _ _ _ _ _ _ _ _ Hinv Hinv') as [<- <-].
Qed.

Lemma keeps_timetrig s : keeps s (s.1, s.2 <| timetrig ::= fun n => (n + 1) mod 256 |>).
Proof. intros Hr. apply keeps_rest; [reflexivity..|exact (fun h => h)|exact (run_quanta s Hr)|exact Hr]. Qed.

Lemma keeps_spin_until_time j duration s : present s j -> wf duration -> keeps s (spin_until_time j duration s).
Proof.
  intros Hj Hw Hr. unfold spin_until_time. cbv zeta.
  set (trig := TRIGGER_SUSPENDTIME + timetrig s.2). clearbody trig.
  destruct (keeps_until_trigger j trig s Hr) as (Hr1 & Hs1 & E1).
  set (s1 := suspend_until_trigger j trig true s) in *. clearbody s1.
  assert (present s1 j) as Hj1 by (unfold present; by rewrite (same_length _ _ Hs1)).
  destruct (own_known s1 j (m_spin_end_timer (device s1 j)) Hr1 Hj1) as [Hk Hne]; [by left|].
  destruct (keeps_adjust duration trig never _ s1 Hk Hne Hw never_wf ltac:(by vm_compute) Hr1) as (Hr2 & Hs2 & E2).
  set (s2 := on_timers _ s1) in *. clearbody s2.
  destruct (keeps_timetrig s2 Hr2) as (Hr3 & Hs3 & E3).
  split; [exact Hr3|]. split; [etransitivity; [exact Hs1|]; etransitivity; [exact Hs2|exact Hs3]|lia].
Qed.

Lemma keeps_timer_set delay cb param s : wf delay -> keeps s (timer_set delay cb param s).
Proof. intros Hw. by apply keeps_init. Qed.
Lemma keeps_synchronize cb param s : keeps s (synchronize cb param s).
Proof. apply keeps_init, zero_wf. Qed.
Lemma keeps_timer_alloc cb s : keeps s (timer_alloc cb s).2.
Proof.
  unfold timer_alloc. cbn [snd]. apply keeps_timers. intros _. apply init_keeps; [|apply never_wf].
  apply (alloc_fresh s.1).
Qed.

Lemma keeps_all (f : nat -> St W -> St W) (js : list nat) s : (forall j s, keeps s (f j s)) ->
  keeps s (fold_left (fun s j => f j s) js s).
Proof.
  intros Hf. revert s. induction js as [|j js IH]; intros s; cbn [fold_left]; [reflexivity|].
  eapply keeps_trans; [apply Hf|apply IH].
Qed.

Lemma keeps_scheduler_trigger trigid after s : wf after -> keeps s (scheduler_trigger trigid after s).
Proof.
  intros Hw Hr. unfold scheduler_trigger. cbv zeta.
  assert (built s = s) as -> by (unfold built; pose proof (run_list s Hr); by destruct (m_execute_list s.2)).
  revert Hr. change (keeps s (if negb (eqb after zero) then timer_set after timed_trigger trigid s
    else fold_left (fun s i => trigger i trigid s) (m_execute_list s.2) s)).
  destruct (negb _); [by apply keeps_timer_set|].
  apply (keeps_all (fun j s => trigger j trigid s)). intros. apply keeps_trigger.
Qed.

(** *** Quanta *)

Lemma expire_quanta_ok now attos l kept n : Forall quantum_ok l -> Forall quantum_ok kept -> (n <= length kept)%nat ->
  let r := expire_quanta now attos l kept n in Forall quantum_ok r.1 /\ (r.2 <= length r.1)%nat.
Proof.
  revert kept n. induction l as [|q l IH]; intros kept n Hl Hk Hn; cbn [expire_quanta]; [done|].
  inversion_clear Hl as [|? ? Hq Hl']. destruct (geb _ _); [by apply IH|].
  destruct (_ <=? _); apply IH; try done; try (apply Forall_app; split; [done|by constructor]);
    rewrite length_app; cbn; lia.
Qed.

Lemma insert_quantum_ok minimum attos expire kept n :
  0 < minimum < ATTOSECONDS_PER_SECOND -> attos < ATTOSECONDS_PER_SECOND ->
  Forall quantum_ok kept -> (n <= length kept)%nat ->
  let l := insert_quantum minimum attos expire kept n in l ≠ [] /\ Forall quantum_ok l.
Proof.
  intros Hm Ha Hk Hn. cbv zeta. unfold insert_quantum. set (q := mk_quantum _ _ _).
  assert (quantum_ok q) as Hq by (unfold quantum_ok, q; cbn [m_actual]; lia).
  destruct n as [|k]; [split; [done|by constructor]|].
  destruct (lookup_lt_is_Some_2 kept k Hn) as [x Ex]. rewrite Ex. destruct (_ =? _).
  - split.
    + intros E0. apply (f_equal length) in E0. rewrite length_alter in E0. cbn in E0. lia.
    + apply Forall_alter; [done|]. intros y Hy Hok. rewrite Ex in Hy. injection Hy as <-. exact Hok.
  - split; [by destruct (take (S k) kept)|]. apply Forall_app. split; [by apply Forall_take|].
    constructor; [done|by apply Forall_drop].
Qed.

Lemma keeps_add_quantum quantum duration s : wf quantum -> keeps s (add_quantum quantum duration s).
Proof.
  intros Hw Hr. unfold add_quantum. cbv zeta. destruct (run_quanta s Hr) as (Hne & Hall & Hmin).
  destruct (expire_quanta_ok (time s) (m_attoseconds quantum) (m_quantum_list s.2) [] 0) as [Hk Hn]; try done.
  destruct (expire_quanta _ _ _ _ _) as [kept n]. cbn [fst snd] in *.
  apply keeps_rest; try done. unfold quanta_ok. cbn [m_quantum_list m_quantum_minimum].
  destruct (insert_quantum_ok (m_quantum_minimum s.2) (m_attoseconds quantum) (add (time s) duration) kept n) as [H1 H2];
    [done|apply Hw|done|done|].
  split; [exact H1|]. split; [exact H2|exact Hmin].
Qed.

(** *** Input lines *)

(** A change of nothing that a slice depends on. *)
Lemma counts_tame f :
  (forall x, clocks (f x) = clocks x /\ m_nextsuspend (f x) = m_nextsuspend x /\ m_nexteatcycles (f x) = m_nexteatcycles x /\
     (m_cycles_running (f x), m_cycles_stolen (f x), icount (f x)) = (m_cycles_running x, m_cycles_stolen x, icount x)) -> tame f.
Proof.
  intros Hf x. destruct (Hf x) as (E1 & E2 & E3 & E4). injection E4 as E4 E5 E6.
  unfold tame_by, accountable, cycles_ok, used. rewrite E2, E3, E4, E5, E6. split_and!; try done. lia.
Qed.

Lemma input_tame l f : tame (fun x => x <| m_input ::= alter f l |>).
Proof. intros x. split_and!; try done. unfold used. cbn. lia. Qed.
Lemma keeps_input j l f s : keeps s (on_input j l f s).
Proof. apply keeps_device, input_tame. Qed.

Lemma keeps_pre_reset j s : keeps s (interface_pre_reset j s).
Proof.
  unfold interface_pre_reset. cbv zeta. apply (keeps_trans _ (on_device j (fun x => x <| m_totalcycles := 0 |>) s)); [apply keeps_device, counts_tame; done|].
  destruct (m_disabled _); [apply keeps_suspend|]. destruct (negb _); [apply keeps_resume|reflexivity].
Qed.

Lemma keeps_reset_inputs j s : keeps s (reset_inputs j s).
Proof. apply keeps_device, counts_tame; done. Qed.

Lemma keeps_period_timer j id s : m_timedint_timer (device s j) = Some id -> present s j ->
  keeps s (on_timers (adjust (m_timed_interrupt_period (device s j)) 0 (m_timed_interrupt_period (device s j)) id) s).
Proof.
  intros Et Hj Hr. destruct (run_devices s Hr j Hj) as [(_ & [Hw Hs] & _) _].
  destruct (own_known s j id Hr Hj) as [Hk Hne]; [unfold own_timers; rewrite Et; set_solver|].
  by apply keeps_adjust.
Qed.

Lemma keeps_post_reset j s : keeps s (interface_post_reset j s).
Proof.
  unfold interface_post_reset. cbv zeta. apply (keeps_trans _ (reset_inputs j s)); [apply keeps_reset_inputs|].
  set (s1 := reset_inputs j s). clearbody s1. destruct (negb _); [|reflexivity].
  destruct (m_timedint_timer (device s1 j)) as [id|] eqn:Et; [|reflexivity].
  destruct (decide (present s1 j)) as [Hj|Hj]; [by apply keeps_period_timer|].
  exfalso. unfold device in Et. rewrite lookup_ge_None_2 in Et by (unfold present in Hj; lia). done.
Qed.

Lemma keeps_reset j s : keeps s (reset j s).
Proof.
  unfold reset. cbv zeta. eapply keeps_trans; [apply keeps_pre_reset|].
  eapply keeps_trans; [apply keeps_machine|apply keeps_post_reset].
Qed.

Lemma keeps_input_event j l event s : keeps s (input_event j l event s).
Proof.
  unfold input_event. cbv zeta. set (s1 := on_input j l _ s).
  apply (keeps_trans _ s1); [apply keeps_input|]. clearbody s1.
  destruct (l =? INPUT_LINE_RESET)%nat.
  { destruct (_ =? _); [apply keeps_suspend|]. destruct (suspended _ _ _); [|reflexivity].
    eapply keeps_trans; [apply keeps_reset|apply keeps_resume]. }
  destruct (l =? INPUT_LINE_HALT)%nat.
  { destruct (_ =? _); [apply keeps_suspend|]. destruct (_ =? _); [apply keeps_resume|reflexivity]. }
  set (s2 := if _ || _ then _ else _).
  apply (keeps_trans _ s2).
  - unfold s2. destruct (_ || _); [apply keeps_machine|]. destruct (_ =? _); [apply keeps_machine|reflexivity].
  - clearbody s2. destruct (negb _); [apply keeps_trigger|reflexivity].
Qed.

Lemma keeps_empty_events fuel j l k s : keeps s (empty_events fuel j l k s).
Proof.
  revert k s. induction fuel as [|fuel IH]; intros k s; [reflexivity|]. cbn [empty_events].
  destruct (_ <? _)%nat; [|reflexivity]. eapply keeps_trans; [apply keeps_input_event|apply IH].
Qed.

Lemma keeps_empty_event_queue j l s : keeps s (empty_event_queue j l s).
Proof.
  unfold empty_event_queue. cbv zeta.
  apply (keeps_trans _ (empty_events 33 j l 0 s)); [apply keeps_empty_events|apply keeps_input].
Qed.

Lemma keeps_set_state j l state vector s : keeps s (set_state_synced j l state vector s).
Proof.
  unfold set_state_synced. cbv zeta. generalize (m_qindex (input s j l)) as n. intros n.
  set (s1 := on_input j l _ s). apply (keeps_trans _ s1); [apply keeps_input|]. clearbody s1.
  set (p := if (_ <=? _)%nat then _ else _).
  assert (keeps s1 p.2) as Hp.
  { unfold p. destruct (_ <=? _)%nat; [|reflexivity]. cbn [snd].
    eapply keeps_trans; [apply keeps_input|]. eapply keeps_trans; [apply keeps_empty_event_queue|apply keeps_input]. }
  apply (keeps_trans _ p.2); [exact Hp|]. destruct p as [k s2]. cbn [snd]. clear Hp.
  destruct (_ <? _)%nat; [|reflexivity]. eapply keeps_trans; [apply keeps_input|].
  destruct (_ =? _)%nat; [apply keeps_synchronize|reflexivity].
Qed.

Lemma keeps_irq_callback j l s : keeps s (default_irq_callback j l s).2.
Proof.
  unfold default_irq_callback. cbv zeta. destruct (_ =? _); [|reflexivity]. cbn [snd].
  eapply keeps_trans; [apply keeps_machine|apply keeps_input].
Qed.

(** ** What a device does while it runs

    The device counts cycles down and calls the interface and the timers;
    [known d] timers other than the deadline may be moved.  A step comes with
    the cycles it costs the device: the count goes down by those it takes,
    eating cycles takes what is left at most (and forgives cycles the device
    has overrun), an adjustment of the count gives them back, and everything
    else, cutting the slice short included, costs nothing. *)
Inductive cpu_step : Z -> St W -> St W -> Prop :=
| step_cycles n s : 0 <= n -> used (device s i) + n < 2147483648 ->
    cpu_step n s (on_device i (fun x => x <| icount ::= fun c => c - n |>) s)
| step_eat n s : used (device s i) + n < 2147483648 -> 0 <= n ->
    cpu_step (Z.min n (icount (device s i))) s (eat_cycles i n s)
| step_adjust_icount n s : 1 <= used (device s i) - n < 2147483648 -> cpu_step (- n) s (adjust_icount i n s)
| step_machine f s : cpu_step 0 s (on_machine f s)
| step_abort j s : cpu_step 0 s (abort_timeslice j s)
| step_suspend j reason s : cpu_step 0 s (suspend j reason true s)
| step_resume j reason s : cpu_step 0 s (resume j reason s)
| step_until_trigger j trigid s : cpu_step 0 s (suspend_until_trigger j trigid true s)
| step_until_time j duration s : present s j -> wf duration -> cpu_step 0 s (spin_until_time j duration s)
| step_trigger j trigid s : cpu_step 0 s (trigger j trigid s)
| step_scheduler_trigger trigid after s : wf after -> cpu_step 0 s (scheduler_trigger trigid after s)
| step_quantum quantum duration s : wf quantum -> cpu_step 0 s (add_quantum quantum duration s)
| step_timer_alloc cb s : cpu_step 0 s (timer_alloc cb s).2
| step_timer_set delay cb param s : wf delay -> cpu_step 0 s (timer_set delay cb param s)
| step_adjust delay param period id s : known d s.1 id -> id ≠ z ->
    wf delay -> wf period -> 0 <= m_seconds period -> cpu_step 0 s (on_timers (adjust delay param period id) s)
| step_enable b id s : known d s.1 id -> id ≠ z -> cpu_step 0 s (on_timers (fun t => (enable b id t).2) s)
| step_input_line j l state vector s : cpu_step 0 s (set_state_synced j l state vector s)
| step_reset j s : cpu_step 0 s (reset j s)
| step_acknowledge j l s : cpu_step 0 s (default_irq_callback j l s).2.

(** Sequences of steps, with the cycles they cost together. *)
Inductive cpu_steps : Z -> St W -> St W -> Prop :=
| steps_none s : cpu_steps 0 s s
| steps_more n m s1 s2 s3 : cpu_step n s1 s2 -> cpu_steps m s2 s3 -> cpu_steps (n + m) s1 s3.

Lemma keeps_enable b id s : known d s.1 id -> id ≠ z -> keeps s (on_timers (fun t => (enable b id t).2) s).
Proof.
  intros Hk Hne. apply keeps_timers. intros Hr. apply enable_keeps; [|done].
  intros A I Hi. apply Hk. destruct Hr as [_ _ (Hc & Hn & Hb & _) _ _ _].
  eapply inv_same; [exact Hi|done|done|done|]. unfold Scheduler.time. by rewrite Hc, Hn.
Qed.

Lemma spends_cycles n s : 0 <= n -> used (device s i) + n < 2147483648 ->
  spends n s (on_device i (fun x => x <| icount ::= fun c => c - n |>) s).
Proof.
  intros Hn Hb. apply spends_device; [by left|]. split; [done|]. split; [done|].
  revert Hb. unfold cycles_ok, used. cbn. lia.
Qed.

Lemma running_executes s : running s -> executing s i = true.
Proof. intros Hr. unfold executing. rewrite (proj1 (run_executing s Hr)). by apply bool_decide_true. Qed.

Lemma spends_eat n s : used (device s i) + n < 2147483648 -> 0 <= n ->
  spends (Z.min n (icount (device s i))) s (eat_cycles i n s).
Proof.
  intros Hb Hn Hr. unfold eat_cycles. rewrite running_executes by done. revert Hr.
  apply spends_device; [by left|]. split; [done|]. split; [done|]. revert Hb. unfold cycles_ok, used, upd. cbn.
  destruct (Z.ltb_spec (icount (device s i)) n); lia.
Qed.

Lemma spends_adjust n s : 1 <= used (device s i) - n < 2147483648 -> spends (- n) s (adjust_icount i n s).
Proof.
  intros Hb Hr. unfold adjust_icount. rewrite running_executes by done. revert Hr.
  apply spends_device; [by left|]. split; [done|]. split; [done|]. revert Hb. unfold cycles_ok, used, upd. cbn. lia.
Qed.

Lemma spends_cpu_step n s s' : cpu_step n s s' -> spends n s s'.
Proof.
  intros [ n' t Hn Hb | n' t Hb Hn | n' t Hb | f t | j t | j reason t | j reason t | j trigid t | j duration t Hj Hw
         | j trigid t | trigid after t Hw | quantum duration t Hw | cb t | delay cb param t Hw
         | delay param period id t Hk Hne Hd Hp Hs | b id t Hk Hne | j l state vector t | j t | j l t ].
  - by apply spends_cycles.
  - by apply spends_eat.
  - by apply spends_adjust.
  - apply keeps_machine.
  - apply keeps_abort.
  - apply keeps_suspend.
  - apply keeps_resume.
  - apply keeps_until_trigger.
  - by apply keeps_spin_until_time.
  - apply keeps_trigger.
  - by apply keeps_scheduler_trigger.
  - by apply keeps_add_quantum.
  - apply keeps_timer_alloc.
  - by apply keeps_timer_set.
  - by apply keeps_adjust.
  - by apply keeps_enable.
  - apply keeps_set_state.
  - apply keeps_reset.
  - apply keeps_irq_callback.
Qed.

Lemma spends_cpu_steps n s s' : cpu_steps n s s' -> spends n s s'.
Proof.
  induction 1 as [s|n m s1 s2 s3 Hs _ IH]; [apply (reflexivity (R := keeps))|].
  eapply spends_trans; [by apply spends_cpu_step|exact IH].
Qed.

(** A run of the device: at least one cycle, then whatever it may do; [n] is
    what it costs altogether. *)
Definition runs_for (n : Z) (s s' : St W) : Prop :=
  exists k, 1 <= k < 2147483648 /\ cpu_steps (n - k) (on_device i (fun x => x <| icount ::= fun c => c - k |>) s) s'.
Definition runs (s s' : St W) : Prop := exists n, runs_for n s s'.

(** The state in which [run] is called: [ran] cycles granted, none used. *)
Record granted (s : St W) : Prop := mk_granted {
  granted_executing : m_executing s.2 = Some i /\ present s i;
  granted_list : m_execute_list s.2 ≠ [];
  granted_timers : timers_ok s;
  granted_quanta : quanta_ok s.2;
  granted_devices : devices_ok s;
  granted_cycles : m_cycles_running (device s i) = ran /\ m_cycles_stolen (device s i) = 0 /\
    icount (device s i) = ran /\ 1 <= ran <= 1073741824
}.

Lemma runs_for_running n s s' : granted s -> runs_for n s s' ->
  running s' /\ same_clocks s s' /\ used (device s' i) = n.
Proof.
  intros [[Hx Hi] Hl HT Hq Hd (E1 & E2 & E3 & Hran)] (k & Hk & Hsteps).
  set (s1 := on_device i (fun x => x <| icount ::= fun c => c - k |>) s) in *.
  assert (device s1 i = device s i <| icount ::= fun c => c - k |>) as Ei.
  { unfold s1. rewrite device_on by done. by case_decide. }
  assert (forall j, clocks (device s1 j) = clocks (device s j)) as Hc.
  { intros j. unfold s1. rewrite device_on by done. by case_decide. }
  assert (forall j, present s1 j <-> present s j) as Hp by (intros j; unfold present, s1; by rewrite length_on_device).
  assert (running s1) as Hr.
  { constructor; try done.
    - split; [done|]. by apply Hp.
    - destruct HT as (? & ? & ? & A & I & ? & ? & ? & Ho). split; [done|]. split; [done|]. split; [done|].
      exists A, I. split; [done|]. split; [done|]. split; [done|]. intros j Hj%Hp.
      destruct (clocks_fields _ _ (Hc j)) as (_ & _ & _ & _ & _ & _ & ->). by apply Ho.
    - intros j Hj%Hp. destruct (Hd j Hj) as [Hok Ha]. split; [eapply device_ok_clocks; [apply Hc|done]|].
      unfold s1. rewrite device_on by done. by case_decide.
    - rewrite Ei. unfold cycles_ok, upd. cbn. lia. }
  destruct (spends_cpu_steps _ s1 s' Hsteps Hr) as (Hr' & Hs' & Eu). split; [done|]. split.
  - etransitivity; [|exact Hs']. constructor; try done. apply length_on_device.
  - rewrite Eu, Ei. unfold used, upd. cbn. lia.
Qed.

Lemma runs_running s s' : granted s -> runs s s' -> running s' /\ same_clocks s s'.
Proof. intros Hg [n Hn]. by destruct (runs_for_running n s s' Hg Hn) as (? & ? & _). Qed.

End Invariant.

End Running.
