(* ===== verification/TimerLoop.v ===== *)
(** * TimerLoop: the loop of [execute_timers] with callbacks that use timers

    The timers that are due run in order of expiry although their callbacks
    re-arm, enable, disable and create timers, some of them for the same
    instant ([synchronize]).  The loop ends: a turn at the instant [T] takes
    one timer of some rank away and only adds timers of lower ranks at [T], or
    later ones. *)

From stdpp Require Import base tactics numbers option list gmap fin_maps relations sorting.
From Stdlib Require Import ZArith Lia Bool.
From S2P Require Import Prelude Attotime Scheduler ExecuteFacts.

(** ** The order of the measure

    Below rank [K], the highest rank that changes goes down. *)

Definition below (K : nat) (f g : nat -> nat) : Prop :=
  exists j, (j < K)%nat /\ (f j < g j)%nat /\ forall i, (j < i < K)%nat -> (f i <= g i)%nat.

Lemma below_wf K : well_founded (below K).
Proof.
  induction K as [|K IH]; intros g; [by constructor; intros f (j & Hj & _); lia|].
  remember (g K) as n eqn:En. revert g En. induction (lt_wf n) as [n _ IHn]. intros g ->.
  induction (IH g) as [g _ IHg]. constructor. intros f (j & Hj & Hlt & Hle).
  destruct (decide (j = K)) as [->|Hne]; [by apply (IHn (f K))|].
  destruct (decide (f K = g K)) as [E|E].
  - apply IHg; [|intros n Hn g' Eg'; apply (IHn n); [lia|exact Eg']].
    exists j. split; [lia|]. split; [done|]. intros i Hi. apply Hle. lia.
  - apply (IHn (f K)); [|done]. specialize (Hle K). lia.
Qed.

(** ** Operations and the scheduler's clocks *)

Definition clockwork (s : sched) :=
  (m_basetime s, m_callback_timer s, m_callback_timer_expire_time s, m_executing_device s).

Lemma insert_clockwork chk id s : clockwork (timer_list_insert chk id s) = clockwork s /\
  m_callback_timer_modified (timer_list_insert chk id s) = m_callback_timer_modified s.
Proof.
  unfold timer_list_insert. destruct (_ && _).
  - destruct (insert_scan _ _ _ _ _ _) as [[p|] [c|]]; done.
  - by destruct (m_inactive_timers s).
Qed.
Lemma remove_clockwork id s : clockwork (timer_list_remove id s) = clockwork s /\
  m_callback_timer_modified (timer_list_remove id s) = m_callback_timer_modified s.
Proof. unfold timer_list_remove. destruct (m_prev _), (m_next _); try done; by case_bool_decide. Qed.
Lemma abort_clockwork id s :
  let s' := if bool_decide (m_timer_list s = Some id) then abort_timeslice s else s in
  clockwork s' = clockwork s /\ m_callback_timer_modified s' = m_callback_timer_modified s.
Proof. cbv zeta. case_bool_decide; [|done]. unfold abort_timeslice. by destruct (m_executing_device s). Qed.

Lemma adjust_clockwork delay param period id s : clockwork (adjust delay param period id s) = clockwork s /\
  m_callback_timer_modified (adjust delay param period id s) =
    (bool_decide (m_callback_timer s = Some id) || m_callback_timer_modified s).
Proof.
  unfold adjust. cbv zeta. set (s1 := if bool_decide (m_callback_timer s = Some id) then _ else s).
  assert (clockwork s1 = clockwork s /\ m_callback_timer_modified s1 =
    (bool_decide (m_callback_timer s = Some id) || m_callback_timer_modified s)) as [E1 E2]
    by (unfold s1; by case_bool_decide).
  set (s2 := put _ _ s1). destruct (remove_clockwork id s2) as [R1 R2].
  destruct (insert_clockwork false id (timer_list_remove id s2)) as [I1 I2].
  destruct (abort_clockwork id (timer_list_insert false id (timer_list_remove id s2))) as [A1 A2].
  rewrite A1, A2, I1, I2, R1, R2. done.
Qed.

Lemma init_clockwork cb delay param temp id s : clockwork (init cb delay param temp id s) = clockwork s /\
  m_callback_timer_modified (init cb delay param temp id s) = m_callback_timer_modified s.
Proof.
  unfold init. cbv zeta. set (s1 := upd heap _ s).
  destruct (insert_clockwork false id s1) as [I1 I2].
  destruct (abort_clockwork id (timer_list_insert false id s1)) as [A1 A2]. rewrite A1, A2, I1, I2. done.
Qed.

Lemma enable_clockwork b id s : clockwork (enable b id s).2 = clockwork s /\
  m_callback_timer_modified (enable b id s).2 = m_callback_timer_modified s.
Proof.
  unfold enable. destruct (Bool.eqb _ b); [done|]. cbn [snd].
  destruct (remove_clockwork id (put id (fun t => t <| m_enabled := b |>) s)) as [R1 R2].
  destruct (insert_clockwork false id (timer_list_remove id (put id (fun t => t <| m_enabled := b |>) s))) as [I1 I2].
  rewrite I1, I2, R1, R2. done.
Qed.

Lemma clockwork_time s s' : clockwork s' = clockwork s -> time s' = time s.
Proof. unfold clockwork, time. intros E. injection E as -> -> -> ->. done. Qed.

(** A sum that is not [never] is exact. *)
Lemma add_exact l r : wf l -> wf r -> is_never (add l r) = false -> val (add l r) = val l + val r.
Proof.
  intros Hl Hr Hn. destruct (is_never l) eqn:E1; [by rewrite add_never_l in Hn|].
  destruct (is_never r) eqn:E2; [by rewrite add_never_r in Hn|].
  rewrite add_val in * by done. apply of_val_val_lt. unfold is_never, of_val in Hn.
  destruct (Z.leb_spec ATTOTIME_MAX_SECONDS ((val l + val r) / ATTOSECONDS_PER_SECOND)); [done|].
  pose proof (Z.mul_succ_div_gt (val l + val r) ATTOSECONDS_PER_SECOND). atto_unfold. lia.
Qed.

(** ** What a callback may do *)

Section Callbacks.
(** [d]: the never-expiring timer; [rank]: the ranks of the callbacks; [kept]:
    timers that the callbacks leave alone. *)
Context (d : nat) (rank : option nat -> nat) (kept : nat -> Prop).

(** A timer of one of the lists. *)
Definition queued (s : sched) (id : nat) : Prop := exists ex A I, inv ex s A I d /\ id ∈ A ++ I.

(** A time after now, or a callback of a rank below [r]. *)
Definition later (r : nat) (delay : Z) (cb : option nat) : Prop := 0 < delay \/ (0 <= delay /\ (rank cb < r)%nat).

Inductive arms (r : nat) : sched -> sched -> Prop :=
| arms_adjust delay param period id s : queued s id -> ~ kept id ->
    wf delay -> wf period -> 0 <= m_seconds period ->
    later r (val (if m_seconds delay <? 0 then zero else delay)) (m_callback (timer_at (heap s) id)) ->
    arms r s (adjust delay param period id s)
| arms_init cb delay param temp id s : heap s !! id = None -> ~ kept id -> wf delay -> later r (val delay) cb ->
    arms r s (init cb delay param temp id s)
| arms_enable id s : queued s id -> ~ kept id ->
    later r (val (expire_at (heap s) id) - val (time s)) (m_callback (timer_at (heap s) id)) ->
    arms r s (enable true id s).2
| arms_disable id s : queued s id -> ~ kept id -> arms r s (enable false id s).2.

(** The states in which the loop calls back for the timer [id]. *)
Definition calling (id : nat) (s : sched) : Prop :=
  m_callback_timer s = Some id /\ m_executing_device s = None /\ exists A I, inv (Some id) s A I d /\ id ∈ A.

(** ** The scheduler inside a callback

    The timer [id] has come out first at the instant [T]; [A0] are the other
    active timers, [h0] the store and [t0] the timer [id] then. *)

Section Turn.
Context (id : nat) (T : Z) (r : nat) (A0 : list nat) (h0 : gmap nat emu_timer) (t0 : emu_timer).

Definition rank_at (h : gmap nat emu_timer) (x : nat) : nat := rank (m_callback (timer_at h x)).

(** Later than [T], or at [T] with a lower rank. *)
Definition postponed (t : emu_timer) : Prop :=
  T < val (m_expire t) \/ (val (m_expire t) = T /\ (rank (m_callback t) < r)%nat).

Lemma postponed_data t t' : data t = data t' -> postponed t -> postponed t'.
Proof.
  intros E. unfold postponed.
  by rewrite (f_equal m_expire E : m_expire t = m_expire t'), (f_equal m_callback E : m_callback t = m_callback t').
Qed.

(** An active timer is as it was, or was moved by the callback. *)
Definition accounted (s : sched) (x : nat) : Prop :=
  (x ∈ A0 /\ data (timer_at (heap s) x) = data (timer_at h0 x)) \/ (~ kept x /\ postponed (timer_at (heap s) x)).

(** What the callback leaves of its own timer unless it re-arms it. *)
Definition own (t : emu_timer) : Prop :=
  (m_expire t, m_period t, m_callback t, m_temporary t) = (m_expire t0, m_period t0, m_callback t0, m_temporary t0) /\
  (one_shot t0 = true -> m_enabled t = false).

Record during (s : sched) : Prop := mk_during {
  dur_inv : exists ex A I, inv ex s A I d /\ (ex = None \/ ex = Some id) /\
    (m_callback_timer_modified s = true -> ex = None) /\ id ∈ A ++ I /\
    (forall x, x ∈ A -> x ≠ id -> accounted s x) /\ (forall x, kept x -> x ∈ A0 -> x ≠ id -> x ∈ A) /\
    (m_callback_timer_modified s = true -> id ∈ A -> postponed (timer_at (heap s) id));
  dur_kept : forall x, kept x -> x ≠ id -> x ∈ A0 -> data (timer_at (heap s) x) = data (timer_at h0 x);
  dur_own : m_callback_timer_modified s = false -> own (timer_at (heap s) id);
  dur_own_kept : kept id -> m_callback_timer_modified s = false /\ data (timer_at (heap s) id) = data t0;
  dur_time : val (time s) = T /\ m_callback_timer s = Some id
}.

Lemma own_data t t' : data t = data t' -> own t -> own t'.
Proof.
  intros E. unfold own.
  rewrite (f_equal m_expire E : m_expire t = m_expire t'), (f_equal m_period E : m_period t = m_period t'),
    (f_equal m_callback E : m_callback t = m_callback t'), (f_equal m_temporary E : m_temporary t = m_temporary t'),
    (f_equal m_enabled E : m_enabled t = m_enabled t'). done.
Qed.

(** A timer [y] is given the value [t] and moved. *)
Lemma during_moved s s' y t ex A I A' I' :
  during s -> inv ex s A I d -> (ex = None \/ ex = Some id) -> (m_callback_timer_modified s = true -> ex = None) ->
  id ∈ A ++ I -> (forall x, x ∈ A -> x ≠ id -> accounted s x) -> (forall x, kept x -> x ∈ A0 -> x ≠ id -> x ∈ A) ->
  (m_callback_timer_modified s = true -> id ∈ A -> postponed (timer_at (heap s) id)) ->
  inv (except ex y) s' A' I' d -> placed (heap s) t y A I A' I' ->
  data (timer_at (heap s') y) = data t ->
  (forall x, x ≠ y -> data (timer_at (heap s') x) = data (timer_at (heap s) x)) ->
  clockwork s' = clockwork s -> ~ kept y ->
  (m_callback_timer_modified s' = m_callback_timer_modified s \/ (m_callback_timer_modified s' = true /\ y = id)) ->
  (y ∈ A' -> postponed t) -> (y = id -> m_callback_timer_modified s' = false -> own t) ->
  during s'.
Proof.
  intros [_ Hk Ho Hok [Ht Hc]] Hinv Hex Hmod Hid Hacc Hin Hidp Hinv' Hpl Hdy Hdx Hclk Hny Hm Hpost Hown.
  assert (forall x, x ∈ A' -> x ≠ y -> x ∈ A) as Hold.
  { intros x Hx Hne. destruct (placed_elem _ _ _ _ _ _ _ x Hpl) as [->|Hx']; [set_solver|done|].
    revert Hpl Hx. unfold placed. destruct (_ && _).
    - intros (_ & A1 & A2 & E & -> & _) Hx. apply (elem_of_without y). rewrite E. set_solver.
    - intros [-> _] Hx. by apply (elem_of_without y) in Hx as [_ ?]. }
  constructor.
  - exists (except ex y), A', I'. split; [done|]. split; [|split; [|split; [|split; [|split]]]].
    + unfold except. case_bool_decide; [by left|done].
    + intros Em. unfold except. case_bool_decide; [done|]. destruct Hm as [Hm|[_ ->]]; [apply Hmod; congruence|].
      destruct Hex as [->| ->]; [done|congruence].
    + by eapply placed_in.
    + intros x Hx Hne. destruct (decide (x = y)) as [->|Hxy].
      * right. split; [done|]. eapply postponed_data; [symmetry; exact Hdy|by apply Hpost].
      * destruct (Hacc x (Hold x Hx Hxy) Hne) as [[Ha E]|[Hnk Hp]]; [left|right].
        -- split; [done|]. by rewrite Hdx.
        -- split; [done|]. eapply postponed_data; [symmetry; by apply Hdx|done].
    + intros x Hkx Hx0 Hne. eapply placed_other; [exact Hpl|by intros ->|by apply Hin].
    + intros Em Hx. destruct (decide (id = y)) as [<-|Hxy].
      * eapply postponed_data; [symmetry; exact Hdy|by apply Hpost].
      * destruct Hm as [Hm|[_ ->]]; [|done]. eapply postponed_data; [symmetry; by apply Hdx|].
        apply Hidp; [congruence|by apply Hold].
  - intros x Hkx Hne Hx. rewrite Hdx by (by intros ->). by apply Hk.
  - intros Em. destruct (decide (y = id)) as [->|Hne].
    + eapply own_data; [symmetry; exact Hdy|by apply Hown].
    + destruct Hm as [Hm|[Hm _]]; [|congruence]. eapply own_data; [symmetry; apply Hdx; congruence|apply Ho; congruence].
  - intros Hkid. destruct (Hok Hkid) as [Em Ed]. split.
    + destruct Hm as [->|[_ ->]]; done.
    + rewrite Hdx by (by intros ->). done.
  - rewrite (clockwork_time _ _ Hclk). split; [done|]. unfold clockwork in Hclk. injection Hclk. congruence.
Qed.

Context (HT0 : val (m_expire t0) = T) (Hr0 : rank (m_callback t0) = r).

Lemma later_postponed e t : m_expire t = e -> later r (val e - T) (m_callback t) -> postponed t.
Proof. intros <-. unfold later, postponed. intros [|[]]; [left; lia|]. destruct (Z.eq_dec (val (m_expire t)) T); [by right|left; lia]. Qed.

Lemma queued_in s y ex A I : queued s y -> inv ex s A I d -> y ∈ A ++ I.
Proof. intros (ex' & A' & I' & Hinv' & Hy) Hinv. by destruct (inv_unique _ _ _ _ _ _ _ _ Hinv Hinv') as [-> ->]. Qed.

Lemma during_arms s s' : arms r s s' -> during s -> during s'.
Proof.
  intros Ha D. pose proof D as [(ex & A & I & Hinv & Hex & Hmod & Hid & Hacc & Hin & Hidp) _ Ho _ [Ht Hc]].
  destruct Ha as [delay param period y s Hq Hny Hwd Hwp Hps Hl | cb delay param temp y s Hf Hny Hwd Hl
                 | y s Hq Hny Hl | y s Hq Hny].
  - pose proof (queued_in _ _ _ _ _ Hq Hinv) as Hy.
    destruct (adjust_spec ex delay param period y s A I d) as (A' & I' & Hinv' & Hpl & Hd & Hx & _); [done..|].
    destruct (adjust_clockwork delay param period y s) as [Ek Em].
    eapply (during_moved s _ y _ ex A I A' I'); try done.
    + rewrite Em, Hc. destruct (decide (id = y)) as [->|];
        [right; by rewrite bool_decide_true|left; by rewrite bool_decide_false by congruence].
    + intros Hya. destruct (inv_active _ _ _ _ _ Hinv' y Hya) as [_ Hn]. unfold expire_at in Hn.
      rewrite (f_equal m_expire Hd : m_expire (timer_at (heap (adjust delay param period y s)) y) = _) in Hn.
      apply (later_postponed _ _ eq_refl). unfold adjusted in *. cbn -[add] in *.
      rewrite add_exact; [|apply (inv_now _ _ _ _ _ Hinv)|by destruct (_ <? _)|done].
      rewrite Ht. by replace (T + val (if m_seconds delay <? 0 then zero else delay) - T)
        with (val (if m_seconds delay <? 0 then zero else delay)) by lia.
    + intros -> Em'. rewrite Em, Hc, bool_decide_true in Em' by done. discriminate.
  - destruct (init_spec_except ex cb delay param temp y s A I d) as (A' & I' & Hinv' & Hpl & Hd & Hx); [done..|].
    destruct (init_clockwork cb delay param temp y s) as [Ek Em].
    eapply (during_moved s _ y _ ex A I A' I'); try done.
    + by left.
    + intros Hya. destruct (inv_active _ _ _ _ _ Hinv' y Hya) as [_ Hn]. unfold expire_at in Hn.
      rewrite (f_equal m_expire Hd : m_expire (timer_at (heap (init cb delay param temp y s)) y) = _) in Hn.
      apply (later_postponed _ _ eq_refl). cbn -[add] in *.
      rewrite add_exact; [|apply (inv_now _ _ _ _ _ Hinv)|done|done].
      rewrite Ht. by replace (T + val delay - T) with (val delay) by lia.
    + intros ->. exfalso. destruct (lists_in_heap _ _ _ id (inv_lists _ _ _ _ _ Hinv)) as [? E]; [set_solver|congruence].
  - destruct (decide (m_enabled (timer_at (heap s) y) = true)) as [E|E].
    { unfold enable. rewrite E. exact D. }
    pose proof (queued_in _ _ _ _ _ Hq Hinv) as Hy.
    destruct (enable_spec ex true y s A I d) as (A' & I' & Hinv' & Hpl & Hd & Hx); [done..|].
    destruct (enable_clockwork true y s) as [Ek Em].
    rewrite Ht in Hl.
    eapply (during_moved s _ y _ ex A I A' I'); try done.
    + by left.
    + intros _. by apply (later_postponed _ _ eq_refl).
    + intros -> Em'. rewrite Em in Em'. destruct (Ho Em') as [Eo _]. injection Eo as E1 E2 E3 E4.
      unfold later, expire_at in Hl. rewrite E1, E3, HT0, Hr0 in Hl. destruct Hl; lia.
  - destruct (decide (m_enabled (timer_at (heap s) y) = false)) as [E|E].
    { unfold enable. rewrite E. exact D. }
    pose proof (queued_in _ _ _ _ _ Hq Hinv) as Hy.
    destruct (enable_spec ex false y s A I d) as (A' & I' & Hinv' & Hpl & Hd & Hx); [done..|].
    destruct (enable_clockwork false y s) as [Ek Em].
    eapply (during_moved s _ y _ ex A I A' I'); try done.
    + by left.
    + intros Hya. exfalso. unfold placed in Hpl. cbn [m_enabled] in Hpl.
      change (m_enabled (timer_at (heap s) y <| m_enabled := false |>)) with false in Hpl.
      rewrite andb_false_r in Hpl. destruct Hpl as [-> _]. by apply elem_of_without in Hya as [].
    + intros -> Em'. rewrite Em in Em'. destruct (Ho Em') as [Eo _]. by split.
Qed.

Lemma during_all s s' : rtc (arms r) s s' -> during s -> during s'.
Proof. induction 1 as [|s s1 s' Hs _ IH]; [done|]. intros D. apply IH. by eapply during_arms. Qed.

(** ** The end of a turn *)

Definition finish (s : sched) : sched :=
  if negb (m_callback_timer_modified s) then
    if negb (m_temporary (timer_at (heap s) id)) then schedule_next_period id s
    else reclaim id (timer_list_remove id s)
  else s.

Record turned (s' : sched) (A' I' : list nat) : Prop := mk_turned {
  td_inv : inv None s' A' I' d;
  td_accounted : forall x, x ∈ A' -> accounted s' x \/ (x = id /\ postponed (timer_at (heap s') x));
  td_kept : forall x, kept x -> x ≠ id -> x ∈ A0 -> x ∈ A' /\ data (timer_at (heap s') x) = data (timer_at h0 x);
  td_own : kept id -> m_temporary t0 = false ->
    (id ∈ A' <-> m_enabled t0 = true /\ is_never (m_expire (next_period t0)) = false) /\
    (id ∈ A' -> data (timer_at (heap s') id) = data (next_period t0))
}.

Lemma accounted_data s s' x : data (timer_at (heap s') x) = data (timer_at (heap s) x) -> accounted s x -> accounted s' x.
Proof.
  intros E [[Ha Ed]|[Hn Hp]]; [left; split; congruence|right]. split; [done|]. by eapply postponed_data; [symmetry|].
Qed.

(** The timer's own next period. *)
Lemma next_postponed t : own t -> timer_wf t -> m_enabled t = true -> is_never (m_expire (next_period t)) = false ->
  postponed (next_period t).
Proof.
  intros [E Hos] Hw He Hn. injection E as E1 E2 E3 E4. left. rewrite next_period_val, E1, HT0 by done.
  assert (one_shot t = false) as Ho.
  { unfold one_shot in *. rewrite E2. destruct (_ || _) eqn:Eo; [|done]. specialize (Hos eq_refl). congruence. }
  pose proof (period_pos t Hw Ho). lia.
Qed.

Lemma finish_turned s : during s -> exists A' I', turned (finish s) A' I'.
Proof.
  intros [(ex & A & I & Hinv & Hex & Hmod & Hid & Hacc & Hin & Hidp) Hk Ho Hok _]. unfold finish.
  assert (except ex id = None) as Eex.
  { unfold except. case_bool_decide; [done|]. by destruct Hex. }
  assert (id ∉ without id A) as Hnw by (rewrite elem_of_without; tauto).
  destruct (m_callback_timer_modified s) eqn:Em; cbn [negb].
  { rewrite Hmod in Hinv by done. exists A, I. constructor; [done| | |].
    - intros x Hx. destruct (decide (x = id)) as [->|]; [right; split; [done|by apply Hidp]|left; by apply Hacc].
    - intros x Hkx Hne Hx. split; [by apply Hin|by apply Hk].
    - intros Hkid. by destruct (Hok Hkid). }
  specialize (Ho eq_refl). destruct (m_temporary (timer_at (heap s) id)) eqn:Et; cbn [negb].
  - destruct (inv_reclaim ex id s A I d Hinv Hid) as [Hinv' Hx]. rewrite Eex in Hinv'.
    exists (without id A), (without id I). constructor; [done| | |].
    + intros x [Hne Hxa]%elem_of_without. left. eapply accounted_data; [by apply Hx|by apply Hacc].
    + intros x Hkx Hne Hx0. split; [apply elem_of_without; split; [done|by apply Hin]|]. rewrite Hx by done. by apply Hk.
    + destruct Ho as [E _]. injection E as _ _ _ E. intros _ E'. congruence.
  - rewrite schedule_next_period_relocate.
    assert (timer_wf (timer_at (heap s) id)) as Hw by (apply (inv_wf _ _ _ _ _ Hinv); set_solver).
    destruct (relocate_spec ex s A I d next_period id Hinv Hid) as (A' & I' & Hinv' & Hpl & Hfr);
      [done|by apply next_period_wf|].
    assert (is_Some (heap s !! id)) as Hsome by (apply (lists_in_heap _ _ _ _ (inv_lists _ _ _ _ _ Hinv)); set_solver).
    destruct (moved_data _ _ _ _ Hfr Hsome) as [Hd Hx]. rewrite Eex in Hinv'.
    exists A', I'. constructor; [done| | |].
    + intros x Hxa. destruct (placed_active _ _ _ _ _ _ _ _ Hpl Hxa Hnw) as [(-> & Hn & He)|[Hne Hxo]].
      * right. split; [done|]. eapply postponed_data; [symmetry; exact Hd|]. by apply next_postponed.
      * left. eapply accounted_data; [by apply Hx|by apply Hacc].
    + intros x Hkx Hne Hx0. split; [eapply placed_other; [exact Hpl|done|by apply Hin]|]. rewrite Hx by done. by apply Hk.
    + intros Hkid _. destruct (Hok Hkid) as [_ Ed].
      assert (data (next_period (timer_at (heap s) id)) = data (next_period t0)) as En.
      { change (next_period (data (timer_at (heap s) id)) = next_period (data t0)). by rewrite Ed. }
      pose proof (f_equal m_enabled Ed : m_enabled (timer_at (heap s) id) = m_enabled t0) as Een.
      pose proof (f_equal m_expire En : m_expire (next_period (timer_at (heap s) id)) = m_expire (next_period t0)) as Enx.
      split; [|intros _; by rewrite Hd]. rewrite <- Een, <- Enx. unfold placed in Hpl.
      change (m_enabled (next_period (timer_at (heap s) id))) with (m_enabled (timer_at (heap s) id)) in Hpl.
      destruct (is_never (m_expire (next_period (timer_at (heap s) id)))), (m_enabled (timer_at (heap s) id)); cbn [negb andb] in Hpl;
        [destruct Hpl as [-> _]; split; [by intros ?%Hnw|by intros []]..| |
         destruct Hpl as [-> _]; split; [by intros ?%Hnw|by intros []]].
      destruct Hpl as (_ & A1 & A2 & _ & -> & _). split; [done|]. intros _. apply elem_of_app. right. by left.
Qed.
End Turn.

(** The state in which the callback of the head of the queue runs. *)
Lemma during_firing id s A I : inv None s (id :: A) I d ->
  let t := timer_at (heap s) id in
  during id (val (m_expire t)) (rank (m_callback t)) A (heap s) (timer_at (heap (firing id s)) id) (firing id s).
Proof.
  intros Hinv t. pose proof (inv_firing id s (id :: A) I d Hinv ltac:(set_solver)) as Hf.
  assert (is_Some (heap s !! id)) as Hsome by (apply (lists_in_heap _ _ _ _ (inv_lists _ _ _ _ _ Hinv)); set_solver).
  assert (forall x, x ≠ id -> timer_at (heap (firing id s)) x = timer_at (heap s) x) as Hx
    by (intros x Hne; by rewrite firing_at, decide_False by done).
  assert (m_callback_timer_modified (firing id s) = false /\ time (firing id s) = m_expire t /\
    m_callback_timer (firing id s) = Some id) as (Em & Et & Ec) by (unfold firing; by destruct (_ || _)).
  constructor.
  - exists (Some id), (id :: A), I. rewrite Em. split; [done|]. split; [by right|]. split; [done|].
    split; [set_solver|]. split; [|split; [|done]].
    + intros x Hxa Hne. left. rewrite Hx by done. split; [set_solver|done].
    + intros x _ Hxa _. by right.
  - intros x _ Hne _. by rewrite Hx.
  - intros _. split; [done|]. rewrite firing_at, decide_True by done. fold t.
    destruct (one_shot t) eqn:Eo; [done|]. by rewrite Eo.
  - intros _. done.
  - by rewrite Et.
Qed.

Lemma arms_clockwork r s s' : rtc (arms r) s s' -> clockwork s' = clockwork s.
Proof.
  induction 1 as [|s s1 s' Ha _ IH]; [done|]. rewrite IH. destruct Ha.
  - by apply adjust_clockwork.
  - by apply init_clockwork.
  - by apply enable_clockwork.
  - by apply enable_clockwork.
Qed.

Lemma finish_clock id s : m_basetime (finish id s) = m_basetime s /\ m_executing_device (finish id s) = m_executing_device s.
Proof.
  unfold finish. destruct (negb _); [|done].
  assert (forall s1, clockwork s1 = clockwork s -> m_basetime s1 = m_basetime s /\ m_executing_device s1 = m_executing_device s) as Hc
    by (unfold clockwork; intros s1 E; injection E; done).
  destruct (negb _); apply Hc.
  - unfold schedule_next_period. etrans; [apply insert_clockwork|]. etrans; [apply remove_clockwork|]. done.
  - etrans; [|apply (remove_clockwork id s)]. done.
Qed.

(** ** Notes

    A callback that also notes when it ran, for which timer, and with what
    argument. *)
Definition note : Type := attotime * option nat * nat * Z.
Definition note_time (n : note) : Z := val n.1.1.1.

Section Loop.
Context {W : Type} (call : nat -> Z -> sched * W -> sched * W).

Definition noted (cb : nat) (param : Z) (sw : sched * (W * list note)) : sched * (W * list note) :=
  let '(s, (w, tr)) := sw in
  let '(s', w') := call cb param (s, w) in (s', (w', tr ++ [(time s, m_callback_timer s, cb, param)])).

Definition own_note (id : nat) (t : emu_timer) : list note :=
  match m_callback t with Some cb => [(m_expire t, Some id, cb, m_param t)] | None => [] end.

(** The notes do not disturb. *)
Definition forget (r : sched * (W * list note)) : sched * W := (r.1, r.2.1).

Lemma forget_timer id r : forget (execute_timer noted id r) = execute_timer call id (forget r).
Proof.
  destruct r as [s [w tr]]. unfold forget at 2. cbn [fst snd]. rewrite !execute_timer_firing. cbv zeta.
  destruct (m_enabled _); [destruct (m_callback _) as [cb|]|]; unfold noted;
    [destruct (call cb _ _) as [s1 w1]|..]; cbv beta iota; by repeat case_match.
Qed.

Lemma forget_timers fuel : forall r, option_map forget (execute_timers noted fuel r) = execute_timers call fuel (forget r).
Proof.
  induction fuel as [|fuel IH]; intros r; cbn [execute_timers];
    change ((forget r).1) with r.1; destruct (m_timer_list r.1) as [id|]; try done; destruct (leb _ _); try done.
  by rewrite IH, forget_timer.
Qed.

Context (K : nat) (HK : forall cb, (rank cb < K)%nat).
Context (Hcall : forall cb param id s w, calling id s -> m_callback (timer_at (heap s) id) = Some cb ->
  rtc (arms (rank (Some cb))) s (call cb param (s, w)).1).

Lemma turn id s w tr A I : inv None s (id :: A) I d -> m_executing_device s = None ->
  let t := timer_at (heap s) id in
  exists s' w' A' I', execute_timer noted id (s, (w, tr)) = (s', (w', tr ++ own_note id t)) /\
    turned id (val (m_expire t)) (rank (m_callback t)) A (heap s) (timer_at (heap (firing id s)) id) s' A' I' /\
    m_basetime s' = m_basetime s /\ m_executing_device s' = None.
Proof.
  intros Hinv Hex t. pose proof (during_firing id s A I Hinv) as D. cbv zeta in D. fold t in D.
  assert (is_Some (heap s !! id)) as Hsome by (apply (lists_in_heap _ _ _ _ (inv_lists _ _ _ _ _ Hinv)); set_solver).
  pose proof (firing_at id s id Hsome) as E0. rewrite decide_True in E0 by done. fold t in E0.
  assert (m_expire (timer_at (heap (firing id s)) id) = m_expire t /\ m_callback (timer_at (heap (firing id s)) id) = m_callback t)
    as [Ee Ec] by (rewrite E0; by destruct (one_shot t)).
  assert (m_basetime (firing id s) = m_basetime s /\ m_executing_device (firing id s) = m_executing_device s /\
    time (firing id s) = m_expire t /\ m_callback_timer (firing id s) = Some id) as (Fb & Fe & Ft & Fc)
    by (unfold firing; by destruct (_ || _)).
  assert (forall s1, during id (val (m_expire t)) (rank (m_callback t)) A (heap s) (timer_at (heap (firing id s)) id) s1 ->
    clockwork s1 = clockwork (firing id s) ->
    exists A' I', turned id (val (m_expire t)) (rank (m_callback t)) A (heap s) (timer_at (heap (firing id s)) id) (finish id s1) A' I' /\
      m_basetime (finish id s1) = m_basetime s /\ m_executing_device (finish id s1) = None) as Hfin.
  { intros s1 D1 Ek. destruct (finish_turned _ _ _ _ _ _ ltac:(by rewrite Ee) ltac:(by rewrite Ec) s1 D1) as (A' & I' & Hd).
    exists A', I'. split; [done|]. destruct (finish_clock id s1) as [-> ->]. unfold clockwork in Ek. injection Ek. intros. split; congruence. }
  rewrite execute_timer_firing. fold t. cbv zeta.
  assert (m_enabled t = true) as ->.
  { destruct (inv_active _ _ _ _ _ Hinv id (list_elem_of_here id A)) as [[?|] _]; done. }
  unfold own_note. destruct (m_callback t) as [cb|] eqn:Ecb.
  - pose proof (Hcall cb (m_param t) id (firing id s) w) as Hr. unfold noted.
    destruct (call cb (m_param t) (firing id s, w)) as [s1 w1]. cbn [fst] in Hr.
    assert (rtc (arms (rank (Some cb))) (firing id s) s1) as Hs.
    { apply Hr; [|by rewrite Ec]. split; [done|]. split; [congruence|]. exists (id :: A), I. split; [|by left].
      apply inv_firing; [done|set_solver]. }
    destruct (Hfin s1) as (A' & I' & Hd & H1 & H2).
    { eapply during_all; [by rewrite Ee|by rewrite Ec|exact Hs|exact D]. }
    { by eapply arms_clockwork. }
    exists (finish id s1), w1, A', I'. rewrite Ft, Fc. split; [|done]. unfold finish. by repeat case_match.
  - destruct (Hfin (firing id s) D eq_refl) as (A' & I' & Hd & H1 & H2).
    exists (finish id (firing id s)), w, A', I'. rewrite app_nil_r. split; [|done]. unfold finish. by repeat case_match.
Qed.

(** ** The measure goes down *)

(** The timers at the instant [T], rank by rank. *)
Definition at_rank (T : Z) (h : gmap nat emu_timer) (k : nat) (x : nat) : Prop :=
  val (expire_at h x) = T /\ rank_at h x = k.
#[local] Instance at_rank_dec T h k x : Decision (at_rank T h k x) := _.
Definition count (T : Z) (h : gmap nat emu_timer) (A : list nat) (k : nat) : nat :=
  length (filter (at_rank T h k) A).

Lemma turned_below id T A h0 s' A' I' t0 :
  val (expire_at h0 id) = T -> NoDup A ->
  turned id T (rank_at h0 id) A h0 t0 s' A' I' ->
  below K (count T (heap s') A') (count T h0 (id :: A)).
Proof.
  intros HT Hnd [Hinv Hacc _ _]. exists (rank_at h0 id). split; [apply HK|].
  assert (forall k, (rank_at h0 id <= k)%nat -> (count T (heap s') A' k <= length (filter (at_rank T h0 k) A))%nat) as Hle.
  { intros k Hk. unfold count. apply submseteq_length, NoDup_submseteq.
    - apply NoDup_filter. pose proof (lists_nodup _ _ _ (inv_lists _ _ _ _ _ Hinv)) as Hn.
      rewrite <- app_assoc in Hn. by apply NoDup_app in Hn as [? _].
    - intros x [[Ht Hr] Hx]%list_elem_of_filter. apply list_elem_of_filter. unfold rank_at, expire_at in *.
      assert (~ postponed T (rank (m_callback (timer_at h0 id))) (timer_at (heap s') x)) as Hnp
        by (intros [?|[_ ?]]; lia).
      destruct (Hacc x Hx) as [[[Ha E]|[_ Hp]]|[_ Hp]]; [|done|done]. split; [|done].
      unfold at_rank, rank_at, expire_at.
      by rewrite <- (f_equal m_expire E : m_expire (timer_at (heap s') x) = m_expire (timer_at h0 x)),
        <- (f_equal m_callback E : m_callback (timer_at (heap s') x) = m_callback (timer_at h0 x)). }
  split.
  - eapply Nat.le_lt_trans; [by apply Hle|]. unfold count. rewrite filter_cons_True by done. cbn. lia.
  - intros k Hk. etrans; [apply Hle; lia|]. unfold count. apply submseteq_length.
    rewrite filter_cons. case_decide; [by apply submseteq_cons|done].
Qed.

(** ** When a timer is due *)

Definition schedule (base : attotime) (t : emu_timer) : list (Z * nat * Z) :=
  match m_callback t with
  | Some cb => map (fun k => (val (m_expire t) + Z.of_nat k * val (m_period t), cb, m_param t)) (seq 0 (due base t))
  | None => []
  end.

Lemma schedule_data base t t' : data t = data t' -> schedule base t = schedule base t'.
Proof.
  intros E. unfold schedule. rewrite (due_data base t t' E).
  by rewrite (f_equal m_callback E : m_callback t = m_callback t'), (f_equal m_expire E : m_expire t = m_expire t'),
    (f_equal m_period E : m_period t = m_period t'), (f_equal m_param E : m_param t = m_param t').
Qed.

(** The next period, if there is one. *)
Definition again (t : emu_timer) : bool := negb (one_shot t) && negb (is_never (m_expire (next_period t))).

Lemma due_step base t : wf base -> is_never base = false -> timer_wf t -> val (m_expire t) <= val base ->
  due base t = S (if again t then due base (next_period t) else 0).
Proof.
  intros Hb Hnb Hw Hd. unfold due at 1, again. destruct (Z.leb_spec (val (m_expire t)) (val base)); [|lia].
  destruct (one_shot t) eqn:Eo; [done|]. cbn [negb andb]. f_equal. pose proof (period_pos t Hw Eo) as Hp.
  destruct (is_never (m_expire (next_period t))) eqn:En; cbn [negb].
  - enough (val base - val (m_expire t) < val (m_period t)) by (rewrite Z.div_small; lia).
    cbn in En. rewrite add_assign_eq in En. destruct Hw as (He & [Hpw _] & _).
    assert (is_never (m_expire t) = false) as E1.
    { unfold is_never in *. apply Z.leb_gt in Hnb. apply Z.leb_gt. unfold val in *. atto_unfold. lia. }
    assert (is_never (m_period t) = false) as E2 by (unfold one_shot in Eo; by apply orb_false_iff in Eo as [_ ->]).
    rewrite add_val in En by done.
    destruct (Z.lt_ge_cases (val (m_expire t) + val (m_period t)) (ATTOTIME_MAX_SECONDS * ATTOSECONDS_PER_SECOND)) as [Hlt|Hge].
    + exfalso. unfold is_never, of_val in En.
      assert ((val (m_expire t) + val (m_period t)) / ATTOSECONDS_PER_SECOND < ATTOTIME_MAX_SECONDS) as Hq
        by (apply Z.div_lt_upper_bound; unfold ATTOSECONDS_PER_SECOND in *; lia).
      destruct (Z.leb_spec ATTOTIME_MAX_SECONDS ((val (m_expire t) + val (m_period t)) / ATTOSECONDS_PER_SECOND)); [lia|].
      cbn [m_seconds] in En. apply Z.leb_le in En. lia.
    + unfold is_never in Hnb. apply Z.leb_gt in Hnb. unfold val in *. atto_unfold. lia.
  - unfold due. rewrite next_period_val by done. change (one_shot (next_period t)) with (one_shot t). rewrite Eo.
    change (m_period (next_period t)) with (m_period t).
    destruct (Z.leb_spec (val (m_expire t) + val (m_period t)) (val base)).
    + replace (val base - val (m_expire t)) with
        (val base - (val (m_expire t) + val (m_period t)) + 1 * val (m_period t)) by lia.
      rewrite Z.div_add by lia.
      pose proof (Z.div_pos (val base - (val (m_expire t) + val (m_period t))) (val (m_period t))). lia.
    + rewrite Z.div_small by lia. done.
Qed.

Lemma schedule_step base t : wf base -> is_never base = false -> timer_wf t -> val (m_expire t) <= val base ->
  schedule base t = map (fun n => (note_time n, n.1.2, n.2)) (own_note 0 t) ++
    (if again t then schedule base (next_period t) else []).
Proof.
  intros Hb Hnb Hw Hd. unfold schedule at 1, own_note. destruct (m_callback t) as [cb|] eqn:Ec.
  2:{ cbn. unfold schedule. change (m_callback (next_period t)) with (m_callback t). rewrite Ec. by destruct (again t). }
  rewrite due_step by done. cbn [seq map app]. f_equal; [unfold note_time; cbn; do 2 f_equal; lia|].
  unfold again. destruct (negb (one_shot t)); cbn [andb]; [|done].
  destruct (is_never (m_expire (next_period t))) eqn:En; cbn [negb]; [done|].
  unfold schedule. change (m_callback (next_period t)) with (m_callback t). rewrite Ec.
  change (m_param (next_period t)) with (m_param t). change (m_period (next_period t)) with (m_period t).
  rewrite next_period_val, <- seq_shift, map_map by done. apply map_ext. intros k. do 2 f_equal. lia.
Qed.

(** ** The whole loop *)

(** The calls for one timer. *)
Definition calls (x : nat) (tr : list note) : list (Z * nat * Z) :=
  map (fun n => (note_time n, n.1.2, n.2)) (filter (fun n : note => n.1.1.2 = Some x) tr).

Lemma calls_app x l1 l2 : calls x (l1 ++ l2) = calls x l1 ++ calls x l2.
Proof. unfold calls. by rewrite filter_app, map_app. Qed.
Lemma calls_own x id t : calls x (own_note id t) =
  if decide (x = id) then map (fun n => (note_time n, n.1.2, n.2)) (own_note 0 t) else [].
Proof.
  unfold calls, own_note. destruct (m_callback t) as [cb|]; [|by case_decide]. case_decide as E.
  - subst x. by rewrite filter_cons_True.
  - rewrite filter_cons_False; [done|]. cbn. congruence.
Qed.

(** What the rest of the loop does from the instant [T] on. *)
Record caught_up (T : Z) (s : sched) (A : list nat) (s' : sched) (A' I' : list nat) (tr : list note) : Prop := mk_caught_up {
  cu_inv : inv None s' A' I' d;
  cu_stopped : m_callback_timer s' = None /\ m_basetime s' = m_basetime s;
  cu_due : forall x, x ∈ A' -> val (m_basetime s) < val (expire_at (heap s') x);
  cu_sorted : StronglySorted (fun m n => note_time m <= note_time n) tr;
  cu_times : Forall (fun n => T <= note_time n <= val (m_basetime s)) tr;
  cu_calls : forall x, kept x -> x ∈ A -> m_temporary (timer_at (heap s) x) = false ->
    calls x tr = schedule (m_basetime s) (timer_at (heap s) x);
  cu_idle : forall x, kept x -> x ∉ A -> calls x tr = []
}.

Lemma caught_up_later T T' s A s' A' I' tr : T <= T' -> caught_up T' s A s' A' I' tr -> caught_up T s A s' A' I' tr.
Proof. intros Hle []. constructor; try done. eapply Forall_impl; [done|]. cbn. intros n ?. lia. Qed.

Lemma schedule_none base t : val base < val (m_expire t) -> schedule base t = [].
Proof.
  intros Hlt. unfold schedule, due. destruct (m_callback t); [|done].
  destruct (Z.leb_spec (val (m_expire t)) (val base)); [lia|done].
Qed.

Lemma stops s A I T x : inv None s A I d -> m_executing_device s = None -> wf (m_basetime s) ->
  head (A ++ [d]) = Some x -> val (m_basetime s) < val (expire_at (heap s) x) ->
  (forall y, y ∈ A -> val (m_basetime s) < val (expire_at (heap s) y)) /\
  caught_up T s A (s <| m_callback_timer := None |>) A I [].
Proof.
  intros Hinv Hex Hb Hx Hlt.
  assert (forall y, y ∈ A -> val (m_basetime s) < val (expire_at (heap s) y)) as Hall.
  { intros y Hy. destruct A as [|a A]; [by apply elem_of_nil in Hy|]. cbn in Hx; injection Hx as <-.
    pose proof (inv_sorted _ _ _ _ _ Hinv) as Hs. inversion Hs as [|? ? _ Hle]; subst.
    rewrite Forall_forall in Hle. apply elem_of_cons in Hy as [->|Hy]; [done|].
    specialize (Hle y Hy). unfold expires_by in Hle. lia. }
  split; [done|]. constructor; [|done|done|by constructor|by constructor| |done].
  - eapply (inv_same _ s); try done. unfold time; cbn. by rewrite Hex.
  - intros y _ Hy _. symmetry. apply schedule_none. by apply Hall.
Qed.

Lemma execute_timers_head fuel s w x : m_timer_list s = Some x ->
  execute_timers noted fuel (s, w) =
    if leb (m_expire (timer_at (heap s) x)) (m_basetime s)
    then match fuel with O => None | S fuel => execute_timers noted fuel (execute_timer noted x (s, w)) end
    else Some (s <| m_callback_timer := None |>, w).
Proof. intros E. destruct fuel; cbn [execute_timers fst snd]; by rewrite E. Qed.

(** The calls of one turn and of the rest. *)
Lemma turn_calls id s A I s1 A1 I1 s' A' I' tr :
  let t := timer_at (heap s) id in
  inv None s (id :: A) I d -> wf (m_basetime s) -> is_never (m_basetime s) = false -> val (m_expire t) <= val (m_basetime s) ->
  turned id (val (m_expire t)) (rank (m_callback t)) A (heap s) (timer_at (heap (firing id s)) id) s1 A1 I1 ->
  m_basetime s1 = m_basetime s -> caught_up (val (m_expire t)) s1 A1 s' A' I' tr ->
  caught_up (val (m_expire t)) s (id :: A) s' A' I' (own_note id t ++ tr).
Proof.
  intros t Hinv Hb Hnb Hd [Hinv1 Hacc Hkept Hown] Eb [C1 C2 C3 C4 C5 C6 C7]. rewrite Eb in *.
  assert (id ∉ A) as Hna.
  { pose proof (lists_nodup _ _ _ (inv_lists _ _ _ _ _ Hinv)) as Hn. cbn in Hn. apply NoDup_cons in Hn as [Hn _]. set_solver. }
  assert (is_Some (heap s !! id)) as Hsome by (apply (lists_in_heap _ _ _ _ (inv_lists _ _ _ _ _ Hinv)); set_solver).
  assert (timer_wf t) as Hw by (apply (inv_wf _ _ _ _ _ Hinv); set_solver).
  assert (Forall (fun n => note_time n = val (m_expire t)) (own_note id t)) as Hn
    by (unfold own_note; destruct (m_callback t); repeat constructor).
  assert (forall x, kept x -> x ∉ id :: A -> x ∉ A1) as Hout.
  { intros x Hk Hx Hx1. destruct (Hacc x Hx1) as [[[? _]|[? _]]|[-> _]]; [set_solver|done|set_solver]. }
  constructor; try done.
  - unfold own_note in *. destruct (m_callback t); [|done]. cbn [app]. constructor; [done|].
    eapply Forall_impl; [exact C5|]. intros n' Hn'. cbv beta in Hn'. change (val (m_expire t) <= note_time n'). lia.
  - apply Forall_app. split; [|done]. eapply Forall_impl; [exact Hn|]. cbn. intros n ->. lia.
  - intros x Hk Hx Ht. rewrite calls_app, calls_own. case_decide as Ex.
    + subst x. fold t in Ht |- *. rewrite (schedule_step _ t Hb Hnb Hw Hd). f_equal.
      pose proof (firing_at id s id Hsome) as E0. rewrite decide_True in E0 by done. fold t in E0.
      assert (m_enabled t = true) as Een by (destruct (inv_active _ _ _ _ _ Hinv id (list_elem_of_here id A)) as [[?|] _]; done).
      destruct (Hown Hk) as [Hin Hdat]; [rewrite E0; by destruct (one_shot t)|].
      assert (m_enabled (timer_at (heap (firing id s)) id) = negb (one_shot t)) as E1
        by (rewrite E0; destruct (one_shot t); [done|exact Een]).
      assert (m_expire (next_period (timer_at (heap (firing id s)) id)) = m_expire (next_period t)) as E2
        by (rewrite E0; by destruct (one_shot t)).
      rewrite E1, E2 in Hin. unfold again. destruct (negb (one_shot t)) eqn:Eo; cbn [andb].
      2:{ apply C7; [done|]. rewrite Hin. by intros []. }
      destruct (is_never (m_expire (next_period t))) eqn:En; cbn [negb].
      { apply C7; [done|]. rewrite Hin. by intros []. }
      assert (id ∈ A1) as Hid by (by apply Hin). specialize (Hdat Hid).
      apply negb_true_iff in Eo. rewrite E0, Eo in Hdat.
      rewrite C6; [by apply schedule_data|done|done|].
      by rewrite (f_equal m_temporary Hdat : m_temporary (timer_at (heap s1) id) = m_temporary t).
    + cbn [app]. destruct (Hkept x Hk Ex) as [Hx1 E]; [set_solver|]. rewrite C6; [by apply schedule_data|done|done|].
      by rewrite (f_equal m_temporary E : m_temporary (timer_at (heap s1) x) = m_temporary (timer_at (heap s) x)).
  - intros x Hk Hx. rewrite calls_app, calls_own. rewrite decide_False by set_solver. cbn [app]. apply C7; [done|by apply Hout].
Qed.

Lemma due_timers_end n : forall T, forall f, Acc (below K) f -> forall s w A I tr,
  inv None s A I d -> m_executing_device s = None -> wf (m_basetime s) -> is_never (m_basetime s) = false ->
  val (m_basetime s) - T <= Z.of_nat n -> (forall x, x ∈ A -> T <= val (expire_at (heap s) x)) ->
  count T (heap s) A = f ->
  exists fuel s' w' tr' A' I', execute_timers noted fuel (s, (w, tr)) = Some (s', (w', tr ++ tr')) /\
    caught_up T s A s' A' I' tr'.
Proof.
  induction (lt_wf n) as [n _ IHn]. intros T f Hf. induction Hf as [f _ IHf]. intros s w A I tr Hinv Hex Hb Hnb Hn HT Hcount.
  pose proof (inv_head _ _ _ _ _ Hinv) as Ehd. destruct (head (A ++ [d])) as [x|] eqn:Ex; [|by destruct A].
  assert (x ∈ A ++ [d]) as Hx by (destruct A; cbn in Ex; simplify_eq; set_solver).
  pose proof (leb_expire _ _ _ _ _ _ Hinv Hb Hx) as Eleb.
  destruct (Z.leb_spec (val (expire_at (heap s) x)) (val (m_basetime s))) as [Hdue|Hlt].
  2:{ exists 0%nat, (s <| m_callback_timer := None |>), w, [], A, I. rewrite (execute_timers_head _ _ _ x Ehd), Eleb, app_nil_r.
      split; [done|]. by eapply stops. }
  pose proof (dummy_not_due _ _ _ _ _ Hinv Hb Hnb) as Hdd.
  destruct A as [|a A]; cbn in Ex; injection Ex as ->; [lia|].
  pose proof (HT x (list_elem_of_here x A)) as HTx.
  assert (forall y, y ∈ x :: A -> val (expire_at (heap s) x) <= val (expire_at (heap s) y)) as Hmin.
  { pose proof (inv_sorted _ _ _ _ _ Hinv) as Hs. inversion Hs as [|? ? _ Hle]; subst. rewrite Forall_forall in Hle.
    intros y [->|Hy]%elem_of_cons; [done|]. exact (Hle y Hy). }
  destruct (Z.lt_ge_cases T (val (expire_at (heap s) x))) as [Hlt|Hge].
  - destruct (IHn (Z.to_nat (val (m_basetime s) - val (expire_at (heap s) x))) ltac:(lia) (val (expire_at (heap s) x))
      (count (val (expire_at (heap s) x)) (heap s) (x :: A)) (below_wf K _) s w (x :: A) I tr) as (fuel & s' & w' & tr' & A' & I' & E & C); try done; [lia|].
    exists fuel, s', w', tr', A', I'. split; [done|]. eapply caught_up_later; [|exact C]. lia.
  - assert (val (expire_at (heap s) x) = T) as ET by lia.
    destruct (turn x s w tr A I Hinv Hex) as (s1 & w1 & A1 & I1 & Et & Htd & Eb & Ex1).
    unfold expire_at in ET. rewrite ET in Htd.
    assert (NoDup A) as Hnd.
    { pose proof (lists_nodup _ _ _ (inv_lists _ _ _ _ _ Hinv)) as Hn'. cbn in Hn'. apply NoDup_cons in Hn' as [_ Hn'].
      rewrite <- app_assoc in Hn'. by apply NoDup_app in Hn' as [? _]. }
    destruct (IHf (count T (heap s1) A1)) with (s := s1) (w := w1) (A := A1) (I := I1) (tr := tr ++ own_note x (timer_at (heap s) x))
      as (fuel & s' & w' & tr' & A' & I' & E & C); try done; try (by rewrite Eb).
    + subst f. by eapply turned_below.
    + apply Htd.
    + intros y Hy. destruct (td_accounted _ _ _ _ _ _ _ _ _ Htd y Hy) as [[[Ha Ed]|[_ Hp]]|[_ Hp]].
      * unfold expire_at. rewrite (f_equal m_expire Ed : m_expire (timer_at (heap s1) y) = m_expire (timer_at (heap s) y)).
        apply HT. by right.
      * unfold expire_at. destruct Hp as [|[]]; lia.
      * unfold expire_at. destruct Hp as [|[]]; lia.
    + exists (S fuel), s', w', (own_note x (timer_at (heap s) x) ++ tr'), A', I'.
      rewrite (execute_timers_head _ _ _ x Ehd), Eleb, Et, E, <- app_assoc. split; [done|].
      rewrite <- ET in Htd, C |- *. by eapply (turn_calls x s A I s1 A1 I1).
Qed.
End Loop.

End Callbacks.

(** ** Property *)

(** C9: Running the timers terminates, calls back in order of expiry, and leaves
    nothing due, with callbacks that change the world in any way and use the
    timers: they may re-arm, enable, disable and create timers for later, and
    for the same instant those whose callback has a lower rank than their own
    (as [synchronize] does; without such a rank two callbacks can arm each
    other for ever).  A timer of the machine that the callbacks leave alone is
    called at its expiry and, when periodic, at every period up to the base
    time, with its own argument, and not otherwise.  The calls are noted by a
    wrapper that does not disturb them. *)
Theorem execute_timers_catches_up {W : Type} (call : nat -> Z -> sched * W -> sched * W)
    (d : nat) (rank : option nat -> nat) (K : nat) (kept : nat -> Prop) (s : sched) (w : W) A I :
  (forall cb, (rank cb < K)%nat) ->
  (forall cb param id s w, calling d id s -> m_callback (timer_at (heap s) id) = Some cb ->
     rtc (arms d rank kept (rank (Some cb))) s (call cb param (s, w)).1) ->
  inv None s A I d -> m_executing_device s = None -> wf (m_basetime s) -> is_never (m_basetime s) = false ->
  exists fuel s' w' tr A' I',
    execute_timers call fuel (s, w) = Some (s', w') /\
    execute_timers (noted call) fuel (s, (w, [])) = Some (s', (w', tr)) /\
    inv None s' A' I' d /\ m_callback_timer s' = None /\ m_basetime s' = m_basetime s /\
    (forall x, x ∈ A' -> val (m_basetime s) < val (expire_at (heap s') x)) /\
    StronglySorted (fun m n => note_time m <= note_time n) tr /\
    Forall (fun n => note_time n <= val (m_basetime s)) tr /\
    (forall x, kept x -> x ∈ A -> m_temporary (timer_at (heap s) x) = false ->
       calls x tr = schedule (m_basetime s) (timer_at (heap s) x)).
Proof.
  intros HK Hcall Hinv Hex Hb Hnb.
  set (T := match A with [] => val (m_basetime s) | x :: _ => val (expire_at (heap s) x) end).
  assert (forall x, x ∈ A -> T <= val (expire_at (heap s) x)) as HT.
  { subst T. pose proof (inv_sorted _ _ _ _ _ Hinv) as Hs. destruct A as [|a A]; [by intros x Hx%elem_of_nil|].
    inversion Hs as [|? ? _ Hle]; subst. rewrite Forall_forall in Hle.
    intros x [->|Hx]%elem_of_cons; [done|]. exact (Hle x Hx). }
  destruct (due_timers_end d rank kept call K HK Hcall (Z.to_nat (val (m_basetime s) - T)) T (count rank T (heap s) A)
    (below_wf K _) s w A I []) as (fuel & s' & w' & tr & A' & I' & E & [C1 [C2 C3] C4 C5 C6 C7 _]); try done; [lia|].
  exists fuel, s', w', tr, A', I'. split.
  { pose proof (forget_timers call fuel (s, (w, []))) as Ef. rewrite E in Ef. exact (eq_sym Ef). }
  split; [exact E|]. do 5 (split; [done|]). split; [|done].
  eapply Forall_impl; [exact C6|]. cbn. intros n ?. lia.
Qed.

(** ** Witness *)

(** Timer 1, periodic, synchronizes with callback 8, which sets a timer for two
    microseconds later, which re-arms itself once more. *)
Definition next_id (s : sched) : nat := fresh ({[1%nat]} ∪ dom (heap s)).
Definition chain_call (cb : nat) (param : Z) (sw : sched * nat) : sched * nat :=
  let '(s, w) := sw in
  match cb with
  | 7%nat => (synchronize (Some 8%nat) 0 (next_id s) s, S w)
  | 8%nat => (timer_set (usec 2) (Some 9%nat) param (next_id s) s, S w)
  | 9%nat => (match m_callback_timer s with
              | Some id => if decide (id = 1%nat) then s else adjust (usec 100) 5 never id s
              | None => s
              end, S w)
  | _ => (s, S w)
  end.
Definition chain_rank (cb : option nat) : nat := match cb with Some 7%nat => 1 | _ => 0 end.
Definition sample2 : sched := sample1 <| m_basetime := usec 20 |>.

Lemma next_id_fresh s : heap s !! next_id s = None /\ next_id s ≠ 1%nat.
Proof.
  pose proof (is_fresh ({[1%nat]} ∪ dom (heap s))) as Hf. fold (next_id s) in Hf.
  apply not_elem_of_union in Hf as [H1 H2]. split; [by apply not_elem_of_dom|by apply not_elem_of_singleton in H1].
Qed.

Lemma chain_contract cb param id s w : calling 0 id s -> m_callback (timer_at (heap s) id) = Some cb ->
  rtc (arms 0 chain_rank (fun x => x = 1%nat) (chain_rank (Some cb))) s (chain_call cb param (s, w)).1.
Proof.
  intros (Hc & _ & A & I & Hinv & Hid) _. destruct (next_id_fresh s) as [F1 F2].
  do 7 (destruct cb as [|cb]; [reflexivity|]). destruct cb as [|[|[|cb]]]; cbn [chain_call fst]; [..|reflexivity].
  - apply rtc_once, arms_init; [done|done|apply zero_wf|]. right. split; [done|cbn; lia].
  - apply rtc_once, arms_init; [done|done|apply usec_wf; lia|]. left. by vm_compute.
  - rewrite Hc. case_decide; [reflexivity|]. apply rtc_once, arms_adjust; [|done|apply usec_wf; lia|apply never_wf|by vm_compute|left; by vm_compute].
    exists (Some id), A, I. split; [done|set_solver].
Qed.

Lemma execute_timers_catches_up_witness :
  (exists fuel s' w' tr, execute_timers chain_call fuel (sample2, 0%nat) = Some (s', w') /\
     execute_timers (noted chain_call) fuel (sample2, (0%nat, [])) = Some (s', (w', tr)) /\
     calls 1 tr = [(val (usec 5), 7%nat, 42); (val (usec 15), 7%nat, 42)]) /\
  option_map (fun r => map (fun n => (n.1.1.1, n.1.2)) r.2.2) (execute_timers (noted chain_call) 10 (sample2, (0%nat, []))) =
    Some [(usec 5, 7%nat); (usec 5, 8%nat); (usec 7, 9%nat); (usec 15, 7%nat); (usec 15, 8%nat); (usec 17, 9%nat)].
Proof.
  split; [|vm_compute; reflexivity].
  destruct (execute_timers_catches_up chain_call 0 chain_rank 2 (fun x => x = 1%nat) sample2 0%nat [1%nat] [])
    as (fuel & s' & w' & tr & A' & I' & E1 & E2 & _ & _ & _ & _ & _ & _ & Hcalls).
  - intros [[|[|[|[|[|[|[|[|cb]]]]]]]]|]; cbn; lia.
  - intros cb param id s w. apply chain_contract.
  - apply inv_basetime; [apply sample1_inv|by apply usec_wf].
  - vm_compute. reflexivity.
  - apply usec_wf. lia.
  - vm_compute. reflexivity.
  - exists fuel, s', w', tr. split; [exact E1|]. split; [exact E2|].
    rewrite Hcalls; [vm_compute; reflexivity|reflexivity|by left|vm_compute; reflexivity].
Defined.
