(* ===== verification/Timeslice.v ===== *)
(** * Timeslices

    The arithmetic of a slice, the passes of the timeslice loop and its
    theorem: the loop reaches the next timer with no device a cycle behind, on
    conditions that the theorem lists; and time inside a slice. *)

From stdpp Require Import base tactics numbers option list gmap countable fin_maps relations sorting.
From Stdlib Require Import ZArith Lia Bool.
From S2P Require Import Prelude Attotime Device Scheduler Execute ExecuteFacts.

(** ** The arithmetic of a slice *)

(** [update_clock] fits the cycle length into 31 bits. *)
Lemma divisor_shift_spec fuel sh attos : 0 < attos < 2 ^ (31 + Z.of_nat fuel) ->
  exists k, 0 <= k /\ divisor_shift fuel sh attos = (sh + k, attos / 2 ^ k) /\ 0 < attos / 2 ^ k < 2147483648.
Proof.
  revert sh attos. induction fuel as [|fuel IH]; intros sh attos Ha; cbn [divisor_shift].
  - exists 0. rewrite Z.add_0_r, Z.div_1_r. split; [lia|]. split; [done|]. exact Ha.
  - change (Z.shiftl 1 31) with 2147483648. destruct (Z.leb_spec 2147483648 attos) as [Hl|Hl].
    + rewrite Z.shiftr_div_pow2 by lia. change (2 ^ 1) with 2.
      destruct (IH (sh + 1) (attos / 2)) as (k & Hk & E & Hr).
      { replace (31 + Z.of_nat (S fuel)) with (Z.succ (31 + Z.of_nat fuel)) in Ha by lia.
        rewrite Z.pow_succ_r in Ha by lia. split; [|apply Z.div_lt_upper_bound; lia].
        apply Z.div_str_pos. lia. }
      exists (Z.succ k). rewrite E. rewrite Z.pow_succ_r by done. rewrite <- Z.div_div in * by lia.
      split; [lia|]. split; [f_equal; lia|done].
    + exists 0. rewrite Z.add_0_r, Z.div_1_r. split; [lia|]. split; [done|lia].
Qed.

(** The clock data of a device that runs; [2 ^ 29] Hz is far above any
    processor modelled. *)
Definition speed_ok (x : execute_device) : Prop :=
  m_attoseconds_per_cycle x = 0 \/
  (0 < m_cycles_per_second x <= 536870912 /\
   m_attoseconds_per_cycle x = HZ_TO_ATTOSECONDS (m_cycles_per_second x) /\
   divisor_shift 64 0 (m_attoseconds_per_cycle x) = (m_divshift x, m_divisor x)).

Lemma cycle_length f : 0 < f <= 536870912 ->
  1 <= HZ_TO_ATTOSECONDS f <= ATTOSECONDS_PER_SECOND /\ ATTOSECONDS_PER_SECOND < (HZ_TO_ATTOSECONDS f + 1) * f.
Proof.
  intros Hf. unfold HZ_TO_ATTOSECONDS. pose proof (Z.mul_succ_div_gt ATTOSECONDS_PER_SECOND f).
  assert (1 <= ATTOSECONDS_PER_SECOND / f) by (apply Z.div_le_lower_bound; [lia|unfold ATTOSECONDS_PER_SECOND; lia]).
  assert (ATTOSECONDS_PER_SECOND / f <= ATTOSECONDS_PER_SECOND) by (apply Z.div_le_upper_bound; unfold ATTOSECONDS_PER_SECOND; lia).
  nia.
Qed.

(** The cycles granted: as many as fit, or a few more because the divisor is
    rounded down; never more than twice a second's worth. *)
Lemma slice_cycles x delta : speed_ok x -> m_attoseconds_per_cycle x ≠ 0 ->
  m_attoseconds_per_cycle x <= delta < ATTOSECONDS_PER_SECOND ->
  exists q, s32 (divu_64x32 (Z.shiftr (u64 delta) (m_divshift x)) (m_divisor x)) = q /\
    delta < (q + 1) * m_attoseconds_per_cycle x /\ 1 <= q <= 1073741824.
Proof.
  intros [|(Hf & Eh & Ed)] Hne Hd; [done|]. destruct (cycle_length _ Hf) as [Hh Hb]. rewrite <- Eh in Hh, Hb.
  set (h := m_attoseconds_per_cycle x) in *. set (f := m_cycles_per_second x) in *.
  destruct (divisor_shift_spec 64 0 h) as (k & Hk & E & Ha).
  { split; [lia|]. eapply Z.le_lt_trans; [apply Hh|]. by vm_compute. }
  rewrite E in Ed. injection Ed as Es Ea. rewrite <- Es, <- Ea, Z.add_0_l. clear Es Ea E.
  assert (0 < 2 ^ k) as Hp by (apply Z.pow_pos_nonneg; lia).
  rewrite u64_id by (unfold ATTOSECONDS_PER_SECOND in Hd; lia). rewrite Z.shiftr_div_pow2 by done.
  set (a := h / 2 ^ k) in *. set (m := delta / 2 ^ k).
  pose proof (Z.mul_div_le h (2 ^ k) Hp). pose proof (Z.mul_succ_div_gt h (2 ^ k) Hp).
  pose proof (Z.mul_div_le delta (2 ^ k) Hp). pose proof (Z.mul_succ_div_gt delta (2 ^ k) Hp).
  fold a in H, H0. fold m in H1, H2.
  assert (0 <= m <= delta) as Hm by (split; [apply Z.div_pos; lia|nia]).
  pose proof (Z.mul_div_le m a ltac:(lia)) as L1. pose proof (Z.mul_succ_div_gt m a ltac:(lia)) as L2.
  assert (0 <= m / a) by (apply Z.div_pos; lia).
  assert (m / a < 2 * f) as Hq.
  { (* q * a * 2^k <= delta < 10^18 < (h + 1) * f <= (a + 1) * 2^k * f *)
    assert (m < (a + 1) * f) by nia. apply Z.div_lt_upper_bound; nia. }
  unfold divu_64x32. rewrite u64_id, (u32_id a), u32_id, s32_id by (unfold ATTOSECONDS_PER_SECOND in *; lia).
  exists (m / a). split; [done|].
  assert (delta / h <= m / a) as Hle.
  { pose proof (Z.mul_div_le delta h ltac:(lia)). assert (0 <= delta / h) by (apply Z.div_pos; lia).
    assert (2 ^ k * a * (delta / h) <= h * (delta / h)) by (apply Z.mul_le_mono_nonneg_r; lia).
    apply Z.div_le_lower_bound; [lia|]. apply Z.div_le_lower_bound; lia. }
  pose proof (Z.mul_succ_div_gt delta h ltac:(lia)).
  assert (1 <= delta / h) by (apply Z.div_le_lower_bound; lia). split; [|lia].
  assert ((delta / h + 1) * h <= (m / a + 1) * h) by (apply Z.mul_le_mono_nonneg_r; lia). lia.
Qed.

(** The distance to the target, when it is below a second. *)
Lemma slice_delta_val target local : wf target -> wf local ->
  m_seconds local <= m_seconds target -> val target - val local < ATTOSECONDS_PER_SECOND ->
  slice_delta target local = val target - val local.
Proof.
  intros Ht Hl Hs Hd. unfold slice_delta. destruct (Z.ltb_spec (m_attoseconds target - m_attoseconds local) 0) as [Hn|Hn];
    destruct (Z.ltb_spec (m_seconds local) (m_seconds target)) as [Hm|Hm]; cbn [andb]; atto_unfold; nia.
Qed.

Lemma never_val : val never = 1000000000 * ATTOSECONDS_PER_SECOND.
Proof. reflexivity. Qed.

(** A time that is not [never] is before it. *)
Lemma before_never t : wf t -> is_never t = false -> val t < val never.
Proof.
  unfold is_never. intros Hw Hn. destruct (Z.leb_spec ATTOTIME_MAX_SECONDS (m_seconds t)); [done|].
  rewrite never_val. atto_unfold. lia.
Qed.
Lemma before_never_inv t : wf t -> val t < val never -> is_never t = false.
Proof.
  unfold is_never. intros Hw Hn. destruct (Z.leb_spec ATTOTIME_MAX_SECONDS (m_seconds t)); [|done].
  rewrite never_val in Hn. atto_unfold. lia.
Qed.

Lemma add_saturates l r : wf l -> wf r ->
  wf (add l r) /\ (val (add l r) = val l + val r \/ add l r = never).
Proof.
  intros Hl Hr. split; [auto with mame|]. destruct (is_never l) eqn:El; [right; by apply add_never_l|].
  destruct (is_never r) eqn:Er; [right; by apply add_never_r|]. rewrite add_val by done.
  destruct (Z.lt_ge_cases (val l + val r) (val never)) as [Hlt|Hge]; [left; apply of_val_val_lt; by rewrite never_val in Hlt|right].
  unfold of_val. destruct (Z.leb_spec ATTOTIME_MAX_SECONDS ((val l + val r) / ATTOSECONDS_PER_SECOND)) as [|Hx]; [done|].
  exfalso. assert (ATTOTIME_MAX_SECONDS <= (val l + val r) / ATTOSECONDS_PER_SECOND); [|lia].
  apply Z.div_le_lower_bound; [by vm_compute|]. rewrite never_val in Hge. unfold ATTOTIME_MAX_SECONDS. lia.
Qed.

(** Accounting: the local time moves on by the cycles that were run. *)
Lemma account_time ran x : wf (m_localtime x) -> 0 <= ran < 2147483648 ->
  0 < m_cycles_per_second x < 4294967296 ->
  m_attoseconds_per_cycle x = HZ_TO_ATTOSECONDS (m_cycles_per_second x) ->
  m_localtime (account ran x) = add (m_localtime x) (clocks_to_attotime (m_cycles_per_second x) ran).
Proof.
  intros Hw Hr Hf Eh. unfold account. cbv zeta.
  change (m_cycles_per_second (x <| m_totalcycles ::= fun n => u64 (n + ran) |>)) with (m_cycles_per_second x).
  change (m_attoseconds_per_cycle (x <| m_totalcycles ::= fun n => u64 (n + ran) |>)) with (m_attoseconds_per_cycle x).
  match goal with |- _ = ?r => change (add_assign (m_localtime x)
    (if u32 ran <? m_cycles_per_second x then mk_attotime 0 (m_attoseconds_per_cycle x * ran)
     else let '(secs, remainder) := divu_64x32_rem ran (m_cycles_per_second x) in
          mk_attotime (s32 secs) (s64 (u64 (remainder * m_attoseconds_per_cycle x)))) = r) end.
  rewrite add_assign_eq. f_equal. unfold clocks_to_attotime, attoseconds_per_clock. rewrite u32_id by lia.
  destruct (Z.eqb_spec (m_cycles_per_second x) 0); [lia|].
  destruct (Z.ltb_spec ran (m_cycles_per_second x)) as [Hl|Hl].
  - pose proof (tick_bounds (m_cycles_per_second x) ran). rewrite Eh.
    rewrite u64_id, s64_id by (atto_unfold; lia). f_equal. lia.
  - by rewrite Eh.
Qed.

Lemma account_grows ran x : wf (m_localtime x) -> 0 <= ran < 2147483648 -> speed_ok x -> m_attoseconds_per_cycle x ≠ 0 ->
  wf (m_localtime (account ran x)) /\
  (val (m_localtime x) + ran * m_attoseconds_per_cycle x <= val (m_localtime (account ran x)) \/
   m_localtime (account ran x) = never).
Proof.
  intros Hw Hr [|(Hf & Eh & _)] Hne; [done|]. rewrite account_time by (done || lia).
  destruct (clocks_to_attotime_val (m_cycles_per_second x) ran) as [Hw' Ev]; [lia|lia|].
  destruct (add_saturates _ _ Hw Hw') as [Hw2 [E|E]]; split; try done; [left|by right].
  rewrite E, Ev, Eh. pose proof (ticks_val_lower (m_cycles_per_second x) ran). lia.
Qed.

(** ** One pass over the devices *)

Section Passes.
Context {W : Type} `{ExecuteInterface W}.
Implicit Types (s : St W) (i j : nat).

(** The device is less than a cycle behind the time [b]. *)
Definition keeps_up (b : attotime) (x : execute_device) : Prop :=
  val b < val (m_localtime x) + Z.max 1 (m_attoseconds_per_cycle x).

Lemma keeps_up_earlier b b' x : val b' <= val b -> keeps_up b x -> keeps_up b' x.
Proof. unfold keeps_up. lia. Qed.

(** The deadline [z], at time [E], and the never-expiring timer [d]. *)
Context (z d : nat) (E : attotime).
Context (HE : wf E /\ is_never E = false).
(** A run is at least one cycle, and then what a device may do. *)
Context (Hrun : forall i ran s, granted i ran z d E s -> runs i z d s (execute_run i s)).

(** The deadline is less than a second away, by a cycle of the device. *)
Definition near (b : attotime) (x : execute_device) : Prop :=
  val E - val b + m_attoseconds_per_cycle x <= ATTOSECONDS_PER_SECOND.

Definition in_step (b : attotime) (i : nat) (x : execute_device) : Prop :=
  (device_ok i x /\ accountable x) /\ speed_ok x /\ participates x = true /\ keeps_up b x /\ near b x.

(** The state inside a pass from the time [b], over the devices [L]. *)
Record looping (b : attotime) (L : list nat) (s : St W) : Prop := mk_looping {
  loop_timers : timers_ok z d E s;
  loop_quanta : quanta_ok s.2;
  loop_list : m_execute_list s.2 = L;
  loop_nonempty : L ≠ [];
  loop_devices : forall j, present s j -> in_step b j (device s j);
  loop_base : m_basetime s.1 = b
}.

Lemma speed_clocks x y : clocks x = clocks y -> speed_ok y -> speed_ok x.
Proof. unfold clocks, speed_ok. intros Ec. injection Ec. intros. congruence. Qed.

Lemma in_step_clocks b i x y : clocks x = clocks y -> accountable x -> in_step b i y -> in_step b i x.
Proof.
  intros Ec Ha ([Hd _] & Hs & Hp & Hk & Hn). pose proof (clocks_fields _ _ Ec) as (_ & El & Ea & Es & Ee & _).
  split; [split; [by eapply device_ok_clocks|done]|]. split; [by eapply speed_clocks|].
  unfold participates, keeps_up, near. rewrite El, Ea, Es, Ee. done.
Qed.

(** A change of one device, which may move its local time forward. *)
Lemma looping_device b L i f s : looping b L s -> present s i ->
  own_timers (f (device s i)) = own_timers (device s i) -> in_step b i (f (device s i)) ->
  looping b L (on_device i f s).
Proof.
  intros [HT Hq El Hne Hd Hb] Hi Ho Hf. constructor; try done.
  - destruct HT as (? & ? & ? & A & I & ? & ? & ? & HO). split; [done|]. split; [done|]. split; [done|].
    exists A, I. split; [done|]. split; [done|]. split; [done|]. intros j. unfold present. rewrite length_on_device.
    intros Hj. rewrite device_on by done. case_decide; [subst j; rewrite Ho|]; by apply HO.
  - intros j. unfold present. rewrite length_on_device. intros Hj. rewrite device_on by done.
    case_decide; [by subst j|]. by apply Hd.
Qed.

(** A change of a device's counters. *)
Lemma looping_counts b L i f s : looping b L s ->
  (clocks (f (device s i)) = clocks (device s i) /\ (accountable (device s i) -> accountable (f (device s i)))) ->
  looping b L (on_device i f s) /\ (forall j, clocks (device (on_device i f s) j) = clocks (device s j)).
Proof.
  intros Hl [Hc Ha]. destruct (decide (present s i)) as [Hi|Hi].
  2:{ by rewrite device_on_out. }
  split.
  - pose proof (loop_devices _ _ _ Hl i Hi) as Hs. apply looping_device; [done|done|by destruct (clocks_fields _ _ Hc) as (_ & _ & _ & _ & _ & _ & ?)|].
    eapply in_step_clocks; [exact Hc|apply Ha, Hs|exact Hs].
  - intros j. rewrite device_on by done. case_decide; [by subst j|done].
Qed.

Lemma looping_running b L i ran s s' : looping b L s -> m_execute_list s'.2 = L ->
  same_clocks s s' -> running i ran z d E s' -> looping b L s'.
Proof.
  intros Hl El Hs Hr. constructor.
  - apply Hr.
  - apply Hr.
  - done.
  - apply Hl.
  - intros j Hj. assert (present s j) as Hj0 by (unfold present in *; by rewrite <- (same_length _ _ Hs)).
    eapply in_step_clocks; [apply (same_devices _ _ Hs)|by apply (run_devices _ _ _ _ _ _ Hr j Hj)|by apply Hl].
  - rewrite (same_base _ _ Hs). apply Hl.
Qed.

(** What a slice leaves alone. *)
Record slice_frame (s s' : St W) : Prop := mk_slice_frame {
  slice_length : length (devices s'.2) = length (devices s.2);
  slice_pending : m_suspend_changes_pending s.2 = true -> m_suspend_changes_pending s'.2 = true
}.
#[local] Instance slice_frame_preorder : PreOrder slice_frame.
Proof. split; [done|]. intros x y t [] []. constructor; [congruence|auto]. Qed.

Lemma slice_same s s' : same_clocks s s' -> slice_frame s s'.
Proof. intros []. by constructor. Qed.
Lemma slice_device i f s : slice_frame s (on_device i f s).
Proof. constructor; [apply length_on_device|done]. Qed.

(** The device runs, or its cycles are eaten. *)
Lemma run_cycles_ok b L i delta s : looping b L s -> present s i ->
  m_attoseconds_per_cycle (device s i) ≠ 0 ->
  m_attoseconds_per_cycle (device s i) <= delta < ATTOSECONDS_PER_SECOND ->
  let r := run_cycles i delta s in
  looping b L r.2 /\ slice_frame s r.2 /\
  (forall j, clocks (device r.2 j) = clocks (device s j)) /\ 1 <= r.1 < 2147483648.
Proof.
  intros Hl Hi Hne Hd. pose proof (loop_devices _ _ _ Hl i Hi) as (_ & Hsp & _).
  destruct (slice_cycles _ _ Hsp Hne Hd) as (q & Eq & _ & Hq). unfold run_cycles. cbv zeta. rewrite Eq.
  set (s1 := on_device i (fun x => x <| m_cycles_running := q |>) s).
  destruct (looping_counts b L i (fun x => x <| m_cycles_running := q |>) s) as [Hl1 Hc1]; [done|done|].
  fold s1 in Hl1, Hc1. assert (slice_frame s s1) as Hf1 by apply slice_device.
  assert (device s1 i = device s i <| m_cycles_running := q |>) as E1 by (unfold s1; rewrite device_on by done; by case_decide).
  destruct (_ =? 0); cbn [fst snd]; [|split; [done|]; split; [done|]; split; [done|lia]].
  set (s2 := on_device i (fun x => x <| m_cycles_stolen := 0 |>) s1).
  destruct (looping_counts b L i (fun x => x <| m_cycles_stolen := 0 |>) s1) as [Hl2 Hc2]; [done|done|].
  fold s2 in Hl2, Hc2. assert (slice_frame s1 s2) as Hf2 by apply slice_device.
  assert (present s1 i) as Hi1 by (unfold present; by rewrite (slice_length _ _ Hf1)).
  assert (present s2 i) as Hi2 by (unfold present; by rewrite (slice_length _ _ Hf2)).
  assert (device s2 i = device s1 i <| m_cycles_stolen := 0 |>) as E2 by (unfold s2; rewrite device_on by done; by case_decide).
  set (s3 := (s2.1, s2.2 <| m_executing := Some i |>)).
  assert (looping b L s3) as Hl3 by (destruct Hl2; by constructor).
  set (s4 := on_device i (fun x => x <| icount := m_cycles_running x |>) s3).
  destruct (looping_counts b L i (fun x => x <| icount := m_cycles_running x |>) s3) as [Hl4 Hc4]; [done|done|].
  fold s4 in Hl4, Hc4.
  assert (device s4 i = device s2 i <| icount := q |>) as E4.
  { unfold s4. rewrite device_on by done. case_decide; [|done]. change (device s3 i) with (device s2 i). by rewrite E2, E1. }
  assert (granted i q z d E s4) as Hg.
  { constructor.
    - split; [done|]. unfold present, s4. by rewrite length_on_device.
    - rewrite (loop_list _ _ _ Hl4). apply Hl4.
    - apply Hl4.
    - apply Hl4.
    - intros j Hj. apply (loop_devices _ _ _ Hl4 j Hj).
    - rewrite E4, E2, E1. done. }
  destruct (runs_running _ _ _ _ _ _ _ Hg (Hrun _ _ _ Hg)) as [Hr Hs]. set (s5 := execute_run i s4) in *.
  split; [|split; [|split]].
  - eapply looping_running; [exact Hl4| |exact Hs|exact Hr]. rewrite (same_list _ _ Hs). apply Hl4.
  - do 2 (etransitivity; [eassumption|]). etransitivity; [|by apply slice_same].
    constructor; [unfold s4; by rewrite length_on_device|done].
  - intros j. rewrite (same_devices _ _ Hs), Hc4. change (device s3 j) with (device s2 j). by rewrite Hc2, Hc1.
  - destruct (run_counts _ _ _ _ _ _ Hr) as (H1 & H2 & H3). lia.
Qed.

(** The turn of a device: the new target is not before the base time, the
    device is within a cycle of it, and if the target was past the base it
    still is. *)
Record turn_ok (b : attotime) (L : list nat) (i : nat) (target : attotime) (s : St W) (r : attotime * St W) : Prop := mk_turn_ok {
  turn_looping : looping b L r.2;
  turn_frame : slice_frame s r.2;
  turn_others : forall j, j ≠ i -> clocks (device r.2 j) = clocks (device s j);
  turn_keeps_up : keeps_up r.1 (device r.2 i);
  turn_wf : wf r.1;
  turn_target : val b <= val r.1 <= val target;
  turn_progress : val b < val target -> val b < val r.1
}.

Lemma turn_stays b L i target s : looping b L s -> present s i -> wf target ->
  val b <= val target -> keeps_up target (device s i) -> turn_ok b L i target s (target, s).
Proof. intros. by constructor. Qed.

Lemma turn_ran b L i target s s1 ran :
  looping b L s1 -> slice_frame s s1 -> (forall j, clocks (device s1 j) = clocks (device s j)) ->
  present s1 i -> wf b -> wf target -> val b <= val target -> val target <= val E ->
  m_attoseconds_per_cycle (device s i) ≠ 0 -> 1 <= ran < 2147483648 ->
  let s2 := on_device i (account ran) s1 in
  let localtime := m_localtime (device s2 i) in
  turn_ok b L i target s (if ltb localtime target then max_time localtime b else target, s2).
Proof.
  intros Hl Hf Hc Hi Hwb Hwt Hbt HtE Hne Hran s2 localtime.
  destruct (loop_devices _ _ _ Hl i Hi) as ([Hok Ha] & Hsp & Hp & Hk & Hn).
  destruct (clocks_fields _ _ (Hc i)) as (_ & _ & Eapc & _). rewrite <- Eapc in Hne.
  assert (0 < m_attoseconds_per_cycle (device s1 i)) as Hpos.
  { destruct Hsp as [|(Hcps & -> & _)]; [done|]. pose proof (cycle_length _ Hcps). lia. }
  destruct (account_grows ran (device s1 i)) as [Hwl Hg]; [apply Hok|lia|done|done|].
  assert (device s2 i = account ran (device s1 i)) as E2 by (unfold s2; rewrite device_on by done; by case_decide).
  assert (m_attoseconds_per_cycle (device s2 i) = m_attoseconds_per_cycle (device s1 i)) as Eapc2 by (by rewrite E2).
  assert (localtime = m_localtime (account ran (device s1 i))) as El by (unfold localtime; by rewrite E2).
  pose proof (before_never E (proj1 HE) (proj2 HE)) as HEn.
  assert (val (m_localtime (device s1 i)) + m_attoseconds_per_cycle (device s1 i) <= val localtime \/ val target < val localtime) as Hgrow.
  { rewrite El. destruct Hg as [Hg| ->]; [left; nia|right; lia]. }
  unfold keeps_up in Hk. rewrite Z.max_r in Hk by lia.
  assert (val b < val localtime) as Hbl by lia.
  assert (wf localtime) as Hwl' by (by rewrite El).
  assert (in_step b i (device s2 i)) as Hin.
  { rewrite E2. split; [|split; [|split; [|split]]]; try done.
    - split; [|done]. destruct Hok as (_ & ? & ? & ?). done.
    - unfold keeps_up. rewrite <- El. change (m_attoseconds_per_cycle (account ran (device s1 i))) with (m_attoseconds_per_cycle (device s1 i)). lia. }
  rewrite ltb_val by done. constructor; cbn [fst snd].
  - apply looping_device; [done|done|done|]. by rewrite <- E2.
  - etransitivity; [exact Hf|apply slice_device].
  - intros j Hj. unfold s2. rewrite device_on by done. case_decide; [congruence|]. apply Hc.
  - unfold keeps_up. fold localtime. rewrite Eapc2. unfold max_time. rewrite ltb_val by done.
    destruct (Z.ltb_spec (val localtime) (val target)); [|lia].
    destruct (Z.ltb_spec (val localtime) (val b)); lia.
  - unfold max_time. rewrite ltb_val by done.
    destruct (_ <? _); [destruct (_ <? _)|]; done.
  - unfold max_time. rewrite ltb_val by done.
    destruct (Z.ltb_spec (val localtime) (val target)); [destruct (Z.ltb_spec (val localtime) (val b))|]; lia.
  - unfold max_time. rewrite ltb_val by done.
    destruct (Z.ltb_spec (val localtime) (val target)); [destruct (Z.ltb_spec (val localtime) (val b))|]; lia.
Qed.

Lemma run_device_ok b L i target s : looping b L s -> present s i -> wf b -> wf target ->
  val b <= val target -> val target <= val E -> turn_ok b L i target s (run_device i (target, s)).
Proof.
  intros Hl Hi Hwb Hwt Hbt HtE. pose proof (loop_devices _ _ _ Hl i Hi) as ([Hok Ha] & Hsp & Hp & Hk & Hn).
  destruct Hok as (Hwl & Hrest). unfold run_device. fold (participates (device s i)). rewrite Hp. cbn [andb]. cbv zeta.
  unfold keeps_up in Hk. unfold near in Hn.
  destruct (Z.leb_spec (m_seconds (m_localtime (device s i))) (m_seconds target)) as [Hs|Hs].
  2:{ apply turn_stays; try done. unfold keeps_up. unfold wf, val in *. atto_unfold. nia. }
  destruct (Z.eqb_spec (m_attoseconds_per_cycle (device s i)) 0) as [E0|Hne].
  - constructor; cbn [fst snd]; try done.
    + apply looping_device; [done|done|done|]. split; [split; [by split|done]|]. split; [by left|]. split; [done|].
      split; [unfold keeps_up|exact Hn]. change (val b < val target + Z.max 1 (m_attoseconds_per_cycle (device s i))). lia.
    + apply slice_device.
    + intros j Hj. rewrite device_on by done. by case_decide.
    + rewrite device_on by done. case_decide; [|done]. unfold keeps_up.
      change (val target < val target + Z.max 1 (m_attoseconds_per_cycle (device s i))). lia.
  - assert (0 < m_attoseconds_per_cycle (device s i)) as Hpos.
    { destruct Hsp as [|(Hcps & -> & _)]; [done|]. pose proof (cycle_length _ Hcps). lia. }
    rewrite (slice_delta_val target _ Hwt Hwl Hs) by lia.
    destruct (Z.leb_spec (m_attoseconds_per_cycle (device s i)) (val target - val (m_localtime (device s i)))) as [Hd|Hd].
    2:{ apply turn_stays; try done. unfold keeps_up. lia. }
    pose proof (run_cycles_ok b L i (val target - val (m_localtime (device s i))) s Hl Hi Hne ltac:(lia)) as Hr.
    cbv zeta in Hr. destruct (run_cycles i _ s) as [ran s1]. cbn [fst snd] in Hr. destruct Hr as (Hl1 & Hf1 & Hc1 & Hran).
    assert (present s1 i) as Hi1 by (unfold present; by rewrite (slice_length _ _ Hf1)).
    pose proof (turn_ran b L i target s s1 ran Hl1 Hf1 Hc1 Hi1 Hwb Hwt Hbt HtE Hne Hran) as Ht. cbv zeta in Ht.
    assert (m_basetime (on_device i (account ran) s1).1 = b) as -> by apply Hl1. exact Ht.
Qed.

(** All turns of a pass. *)
Lemma turns_ok b L js target s : looping b L s -> (forall j, j ∈ js -> present s j) -> NoDup js ->
  wf b -> wf target -> val b <= val target -> val target <= val E ->
  let r := fold_left (fun ts i => run_device i ts) js (target, s) in
  looping b L r.2 /\ slice_frame s r.2 /\ (forall j, j ∉ js -> clocks (device r.2 j) = clocks (device s j)) /\
  (forall j, j ∈ js -> keeps_up r.1 (device r.2 j)) /\
  wf r.1 /\ val b <= val r.1 <= val target /\ (val b < val target -> val b < val r.1).
Proof.
  revert target s. induction js as [|i js IH]; intros target s Hl Hp Hnd Hwb Hwt Hbt HtE; cbn [fold_left].
  { split; [done|]. split; [done|]. split; [done|]. split; [by intros j Hj%elem_of_nil|]. cbn [fst]. lia || done. }
  apply NoDup_cons in Hnd as [Hni Hnd].
  destruct (run_device_ok b L i target s) as [T1 T2 T3 T4 T5 T6 T7]; [done|apply Hp; by left|done..|].
  destruct (run_device i (target, s)) as [target1 s1]. cbn [fst snd] in *.
  destruct (IH target1 s1) as (R1 & R2 & R3 & R4 & R5 & R6 & R7); try done; try lia.
  { intros j Hj. unfold present. rewrite (slice_length _ _ T2). apply Hp. by right. }
  split; [done|]. split; [by etransitivity|]. split; [|split; [|split; [done|split; [lia|lia]]]].
  - intros j [Hj1 Hj2]%not_elem_of_cons. rewrite R3 by done. by apply T3.
  - intros j [->|Hj]%elem_of_cons; [|by apply R4].
    specialize (R3 i Hni). destruct (clocks_fields _ _ R3) as (_ & El & Ea & _). unfold keeps_up in *.
    rewrite El, Ea. lia.
Qed.

(** ** Between the passes *)

(** The state between passes: every device of the machine is in the list,
    none is a cycle behind the base time, and one that will be suspended will
    have its cycles eaten. *)
Record ready (s : St W) : Prop := mk_ready {
  ready_timers : timers_ok z d E s;
  ready_quanta : quanta_ok s.2;
  ready_list : NoDup (m_execute_list s.2) /\ (forall j, j ∈ m_execute_list s.2 <-> present s j) /\ m_execute_list s.2 ≠ [];
  ready_devices : forall j, present s j -> (device_ok j (device s j) /\ accountable (device s j)) /\
    speed_ok (device s j) /\ keeps_up (m_basetime s.1) (device s j) /\ near (m_basetime s.1) (device s j);
  ready_settled : m_suspend_changes_pending s.2 = true \/ forall j, present s j -> participates (device s j) = true
}.

Lemma active_first_elem s j : j ∈ active_first s <-> present s j.
Proof.
  unfold active_first, present. rewrite elem_of_app, !list_elem_of_In, !filter_In, <- !list_elem_of_In, elem_of_seq.
  destruct (_ =? 0); cbn [negb]; naive_solver lia.
Qed.

Lemma active_first_nodup s : NoDup (active_first s).
Proof.
  unfold active_first. apply NoDup_app. split; [|split].
  - apply NoDup_ListNoDup, List.NoDup_filter, seq_NoDup.
  - intros j. rewrite !list_elem_of_In, !filter_In. intros [_ Hj] [_ Hn]. by rewrite Hj in Hn.
  - apply NoDup_ListNoDup, List.NoDup_filter, seq_NoDup.
Qed.

(** Applying the changes, before the list is rebuilt. *)
Lemma apply_all js c s : NoDup js -> (forall j, j ∈ js -> present s j) ->
  let r := fold_left apply_step js (c, s) in
  (exists ds, r.2 = (s.1, s.2 <| devices := ds |>) /\ length ds = length (devices s.2)) /\
  (forall j, device r.2 j = if decide (j ∈ js) then apply_change (device s j) else device s j).
Proof.
  revert c s. induction js as [|i js IH]; intros c s Hnd Hp; cbn [fold_left].
  { split.
    - exists (devices s.2). split; [|done]. destruct s as [t e]. cbn. by destruct e.
    - intros j. destruct (decide (j ∈ [])) as [Hj|Hj]; [by apply elem_of_nil in Hj|done]. }
  apply NoDup_cons in Hnd as [Hni Hnd]. cbv zeta. assert (present s i) as Hi by (apply Hp; by left).
  set (s1 := on_device i apply_change s). unfold apply_step at 2 4. fold s1.
  destruct (IH (Z.lor c (Z.lxor (m_suspend (device s i)) (m_nextsuspend (device s i)))) s1 Hnd) as [(ds & Er & El) Hd].
  { intros j Hj. unfold present, s1. rewrite length_on_device. apply Hp. by right. }
  split.
  - exists ds. split; [by rewrite Er|]. rewrite El. apply length_on_device.
  - intros j. rewrite Hd. unfold s1. rewrite device_on by done.
    destruct (decide (j ∈ js)), (decide (i = j)), (decide (j ∈ i :: js)); try done; subst; set_solver.
Qed.

Lemma apply_change_device x : accountable x ->
  participates (apply_change x) = true /\ accountable (apply_change x) /\ own_timers (apply_change x) = own_timers x.
Proof.
  unfold accountable, participates, apply_change, upd. cbn. intros [Hx|Hx]; rewrite Hx; split_and!; try done.
  - by left.
  - by rewrite orb_true_r.
  - by right.
Qed.

Lemma rebuild_keeps s : quanta_ok s.2 -> rebuild_execute_list s = (s.1, s.2 <| m_execute_list := active_first s |>).
Proof. intros [Hq _]. unfold rebuild_execute_list. by destruct (m_quantum_list s.2). Qed.

(** The state is the same up to the suspension of its devices and the order
    of the list. *)
Lemma ready_change s s' : ready s -> s'.1 = s.1 -> length (devices s'.2) = length (devices s.2) ->
  m_quantum_list s'.2 = m_quantum_list s.2 -> m_quantum_minimum s'.2 = m_quantum_minimum s.2 ->
  NoDup (m_execute_list s'.2) -> (forall j, j ∈ m_execute_list s'.2 <-> present s j) -> m_execute_list s'.2 ≠ [] ->
  (forall j, present s j -> participates (device s' j) = true /\
     (device s' j = device s j \/ device s' j = apply_change (device s j))) ->
  ready s' /\ forall j, present s' j -> participates (device s' j) = true.
Proof.
  intros [(T1 & T2 & T3 & A & I & T4 & T5 & T6 & T7) Hq Hl Hd Hs] E1 El Eq Em Hnd Hin Hne Hch.
  assert (forall j, present s' j <-> present s j) as Hp by (intros j; unfold present; by rewrite El).
  split; [|by intros j Hj%Hp; apply Hch].
  assert (forall j, present s j -> (device_ok j (device s' j) /\ accountable (device s' j)) /\
    speed_ok (device s' j) /\ keeps_up (m_basetime s.1) (device s' j) /\ near (m_basetime s.1) (device s' j) /\
    own_timers (device s' j) = own_timers (device s j)) as Hd'.
  { intros j Hj. destruct (Hd j Hj) as ([Hok Ha] & H2 & H3 & H4). destruct (Hch j Hj) as [_ [->| ->]]; [done|].
    destruct (apply_change_device _ Ha) as (_ & Ha' & Ho). split_and!; try done.
    all: by destruct (Hd j Hj) as ((Hok' & _) & ?). }
  constructor; rewrite ?E1.
  - split; [by rewrite E1|]. split; [by rewrite E1|]. split; [by rewrite E1|]. rewrite E1. exists A, I. split; [done|]. split; [done|]. split; [done|].
    intros j Hj%Hp. destruct (Hd' j Hj) as (_ & _ & _ & _ & ->). by apply T7.
  - unfold quanta_ok. by rewrite Eq, Em.
  - split; [done|]. split; [|done]. intros j. by rewrite Hin, Hp.
  - intros j Hj%Hp. destruct (Hd' j Hj) as (? & ? & ? & ? & _). done.
  - right. intros j Hj%Hp. by apply Hch.
Qed.

Lemma settle_changes_ok s : ready s ->
  ready (settle_changes s) /\ (settle_changes s).1 = s.1 /\
  m_quantum_list (settle_changes s).2 = m_quantum_list s.2 /\
  forall j, present (settle_changes s) j -> participates (device (settle_changes s) j) = true.
Proof.
  intros Hr. unfold settle_changes. destruct (m_suspend_changes_pending s.2) eqn:Ep.
  2:{ destruct (ready_settled s Hr) as [|Hs]; [congruence|]. done. }
  unfold apply_suspend_changes. destruct (ready_list s Hr) as (Hnd & Hin & Hne).
  destruct (apply_all (m_execute_list s.2) 0 s Hnd) as [(ds & Er & El) Hd]; [intros j Hj; by apply Hin|].
  destruct (fold_left apply_step _ _) as [c s1]. cbn [snd] in Er, Hd. subst s1.
  set (s1 := (s.1, s.2 <| devices := ds |>)) in *.
  assert (forall j, present s j -> device s1 j = apply_change (device s j)) as Hd1.
  { intros j Hj. rewrite Hd. destruct (decide _) as [|Hn]; [done|]. by destruct Hn; apply Hin. }
  assert (forall j, present s1 j <-> present s j) as Hp1 by (intros j; unfold present; cbn; by rewrite El).
  assert (forall j, present s j -> participates (device s1 j) = true) as Hpart.
  { intros j Hj. rewrite Hd1 by done. apply apply_change_device. by apply (ready_devices s Hr j Hj). }
  destruct (negb (c =? 0)).
  - rewrite rebuild_keeps by apply (ready_quanta s Hr).
    set (s2 := (s1.1, s1.2 <| m_execute_list := active_first s1 |>)).
    destruct (ready_change s s2) as [Hr2 Hp2]; try done.
    + apply active_first_nodup.
    + intros j. change (j ∈ active_first s1 <-> present s j). by rewrite active_first_elem.
    + change (active_first s1 ≠ []). intros E0. destruct (m_execute_list s.2) as [|k ks]; [done|].
      assert (k ∈ active_first s1) as Hk by (apply active_first_elem, Hp1, Hin; by left).
      rewrite E0 in Hk. by apply elem_of_nil in Hk.
    + intros j Hj. change (device s2 j) with (device s1 j). split; [by apply Hpart|right; by apply Hd1].
  - set (s2 := (s1.1, s1.2 <| m_suspend_changes_pending := false |>)).
    destruct (ready_change s s2) as [Hr2 Hp2]; try done.
    intros j Hj. change (device s2 j) with (device s1 j). split; [by apply Hpart|right; by apply Hd1].
Qed.

(** The next timer is not after the deadline. *)
Lemma next_timer_known s : timers_ok z d E s ->
  exists e, first_expire s = Some e /\ wf e /\ val e <= val E.
Proof.
  intros (_ & _ & _ & A & I & Hinv & Hz & He & _). pose proof (inv_head _ _ _ _ _ Hinv) as Hh.
  destruct A as [|h A]; [by apply elem_of_nil in Hz|]. cbn [app head] in Hh.
  exists (m_expire (timer_at (heap s.1) h)). unfold first_expire. rewrite Hh. split; [done|]. split.
  - apply (inv_wf _ _ _ _ _ Hinv). set_solver.
  - rewrite <- He. change (m_expire (timer_at (heap s.1) h)) with (expire_at (heap s.1) h).
    apply elem_of_cons in Hz as [->|Hz]; [done|].
    pose proof (inv_sorted _ _ _ _ _ Hinv) as Hs. apply StronglySorted_inv in Hs as [_ Hs].
    rewrite Forall_forall in Hs. by apply Hs.
Qed.

Lemma next_target_ok s e : quanta_ok s.2 -> wf (m_basetime s.1) -> wf e ->
  val (m_basetime s.1) < val e -> val e < val never ->
  exists target, next_target e s = Some target /\ wf target /\
    val (m_basetime s.1) < val target <= val e.
Proof.
  intros (Hne & Hall & _) Hwb Hwe Hbe Hen. unfold next_target.
  destruct (m_quantum_list s.2) as [|q qs]; [done|]. cbn [head]. cbn.
  apply Forall_cons_1 in Hall as [Hq _]. unfold quantum_ok in Hq.
  assert (wf (mk_attotime 0 (m_actual q))) as Hwq by (unfold wf; cbn; lia).
  destruct (add_saturates _ _ Hwb Hwq) as [Hwt Hv]. eexists. split; [reflexivity|].
  assert (val (m_basetime s.1) < val (add (m_basetime s.1) (mk_attotime 0 (m_actual q)))) as Hlt.
  { destruct Hv as [->| ->]; [unfold val at 3; cbn [m_seconds m_attoseconds]; lia|lia]. }
  rewrite ltb_val by done. destruct (Z.ltb_spec (val e) (val (add (m_basetime s.1) (mk_attotime 0 (m_actual q))))).
  - split; [done|lia].
  - split; [done|lia].
Qed.

(** Moving the base time keeps the timers in order. *)
Lemma timers_ok_base s s' b : timers_ok z d E s -> wf b -> s'.1 = s.1 <| m_basetime := b |> ->
  devices s'.2 = devices s.2 -> timers_ok z d E s'.
Proof.
  intros (T1 & T2 & T3 & A & I & T4 & T5 & T6 & T7) Hb E1 Ed. unfold timers_ok. rewrite E1.
  split; [done|]. split; [done|]. split; [done|]. exists A, I. split; [|split; [done|split; [done|]]].
  - eapply inv_same; [exact T4|done|done|done|]. unfold Scheduler.time.
    change (m_callback_timer (s.1 <| m_basetime := b |>)) with (m_callback_timer s.1). rewrite T1.
    change (m_executing_device (s.1 <| m_basetime := b |>)) with (m_executing_device s.1). by rewrite T2.
  - intros j. unfold present, device. rewrite Ed. apply T7.
Qed.

Lemma pass_ok s e : ready s -> first_expire s = Some e -> val (m_basetime s.1) < val e ->
  exists s', pass e s = Some s' /\ ready s' /\ val (m_basetime s.1) < val (m_basetime s'.1) <= val E.
Proof.
  intros Hr He Hbe. destruct (next_timer_known s (ready_timers s Hr)) as (e' & He' & Hwe & HeE).
  rewrite He in He'. injection He' as <-. pose proof (before_never E (proj1 HE) (proj2 HE)) as HEn.
  assert (wf (m_basetime s.1)) as Hwb by apply (ready_timers s Hr).
  destruct (next_target_ok s e (ready_quanta s Hr)) as (target & Ht & Hwt & Hbt); [done|done|done|lia|].
  unfold pass. rewrite Ht. cbn. destruct (settle_changes_ok s Hr) as (Hr1 & E1 & Eq & Hp1).
  set (s1 := settle_changes s) in *. clearbody s1. destruct (ready_list s1 Hr1) as (Hnd & Hin & Hne).
  assert (looping (m_basetime s.1) (m_execute_list s1.2) s1) as Hl.
  { constructor; try done; [apply Hr1|apply Hr1| |by rewrite E1].
    intros j Hj. destruct (ready_devices s1 Hr1 j Hj) as (H1 & H2 & H3 & H4). rewrite E1 in H3, H4.
    split; [done|]. split; [done|]. split; [by apply Hp1|done]. }
  destruct (turns_ok _ _ (m_execute_list s1.2) target s1 Hl) as (R1 & R2 & _ & R4 & R5 & R6 & R7);
    [intros j; apply Hin|done|done|done|lia|lia|].
  destruct (fold_left _ _ _) as [target2 s2]. cbn [fst snd] in *.
  set (s3 := (s2.1 <| m_basetime := target2 |>, s2.2 <| m_executing := None |>)).
  exists s3. split; [done|]. split; [|change (m_basetime s3.1) with target2; lia].
  assert (forall j, present s3 j <-> present s1 j) as Hp3.
  { intros j. unfold present. change (devices s3.2) with (devices s2.2). by rewrite (slice_length _ _ R2). }
  constructor.
  - by apply (timers_ok_base s2 s3 target2 (loop_timers _ _ _ R1) R5).
  - apply (loop_quanta _ _ _ R1).
  - change (m_execute_list s3.2) with (m_execute_list s2.2). rewrite (loop_list _ _ _ R1).
    split; [done|]. split; [|done]. intros j. by rewrite Hp3, Hin.
  - intros j Hj%Hp3. assert (present s2 j) as Hj2 by (unfold present in *; by rewrite (slice_length _ _ R2)).
    destruct (loop_devices _ _ _ R1 j Hj2) as (H1 & H2 & _ & _ & H5).
    change (device s3 j) with (device s2 j). change (m_basetime s3.1) with target2.
    split; [done|]. split; [done|]. split; [by apply R4, Hin|]. unfold near in *. lia.
  - right. intros j Hj%Hp3. assert (present s2 j) as Hj2 by (unfold present in *; by rewrite (slice_length _ _ R2)).
    by apply (loop_devices _ _ _ R1 j Hj2).
Qed.

(** The loop ends: each pass moves the base time on, and it stays below the
    deadline. *)
Lemma loop_ends n : forall s, ready s -> val E - val (m_basetime s.1) <= Z.of_nat n ->
  exists fuel s' e, run_until_timer fuel s = Some s' /\ ready s' /\ first_expire s' = Some e /\
    val e <= val (m_basetime s'.1) /\ val (m_basetime s.1) <= val (m_basetime s'.1) /\
    (val (m_basetime s.1) <= val E -> val (m_basetime s'.1) <= val E).
Proof.
  induction n as [|n IH]; intros s Hr Hn; destruct (next_timer_known s (ready_timers s Hr)) as (e & He & Hwe & HeE);
    assert (wf (m_basetime s.1)) as Hwb by apply (ready_timers s Hr);
    destruct (Z.lt_ge_cases (val (m_basetime s.1)) (val e)) as [Hlt|Hge].
  1: lia.
  1,3: exists 0%nat, s, e; cbn [run_until_timer]; rewrite He; cbn; rewrite ltb_val by done;
    destruct (Z.ltb_spec (val (m_basetime s.1)) (val e)); [lia|]; split_and!; (done || lia).
  destruct (pass_ok s e Hr He Hlt) as (s1 & Hp & Hr1 & Hb1).
  destruct (IH s1 Hr1) as (fuel & s2 & e2 & H1 & H2 & H3 & H4 & H5 & H6); [lia|].
  exists (S fuel), s2, e2. split; [|split; [done|split; [done|split; [done|split; [lia|intros; apply H6; lia]]]]].
  cbn [run_until_timer]. rewrite He. cbn. rewrite ltb_val by done.
  destruct (Z.ltb_spec (val (m_basetime s.1)) (val e)); [|lia]. by rewrite Hp.
Qed.

End Passes.

(** ** Properties *)

(** C5: The loop of [timeslice] ends at the next timer.  Devices that execute at
    least a cycle when they are run, and otherwise only use the interface,
    bring the base time to the next timer, which is not after the deadline
    [E], and no device ends up a cycle behind the base time, provided that
    at the start none is and
    - every clock is at most [2 ^ 29] Hz ([speed_ok]);
    - a device that is or will be suspended has its cycles eaten
      ([accountable], and the devices suspend with eaten cycles only): one
      that keeps its cycles keeps its local time too;
    - the deadline, and with it the next timer, is less than a second, by a
      cycle of each device, from the base time ([near]): the distance to the
      target is taken from the fractions of a second, and beyond that a
      device may be skipped ([slice_can_be_skipped]);
    - nobody moves the deadline timer [z]. *)
Theorem cpu_loop_reaches_timer {W : Type} `{ExecuteInterface W} (z d : nat) (E : attotime) (s : St W) :
  wf E -> is_never E = false -> val (m_basetime s.1) <= val E ->
  (forall i ran s, granted i ran z d E s -> runs i z d s (execute_run i s)) ->
  timers_ok z d E s -> quanta_ok s.2 ->
  NoDup (m_execute_list s.2) /\ (forall j, j ∈ m_execute_list s.2 <-> present s j) /\ m_execute_list s.2 ≠ [] ->
  (forall j, present s j -> device_ok j (device s j) /\ speed_ok (device s j)) ->
  (forall j, present s j -> accountable (device s j)) ->
  m_suspend_changes_pending s.2 = true \/ (forall j, present s j -> participates (device s j) = true) ->
  (forall j, present s j -> near E (m_basetime s.1) (device s j)) ->
  (forall j, present s j -> keeps_up (m_basetime s.1) (device s j)) ->
  exists fuel s' e, run_until_timer fuel s = Some s' /\ first_expire s' = Some e /\
    val e <= val (m_basetime s'.1) /\ val (m_basetime s.1) <= val (m_basetime s'.1) <= val E /\
    forall j, present s' j -> keeps_up (m_basetime s'.1) (device s' j).
Proof.
  intros HE Hn Hb Hrun HT Hq Hl Hd Ha Hs Hnear Hk.
  assert (ready z d E s) as Hr by (constructor; try done; intros j Hj; destruct (Hd j Hj); auto).
  destruct (loop_ends z d E (conj HE Hn) Hrun (Z.to_nat (val E - val (m_basetime s.1))) s Hr ltac:(lia))
    as (fuel & s' & e & H1 & H2 & H3 & H4 & H5 & H6).
  exists fuel, s', e. split; [done|]. split; [done|]. split; [done|]. split; [split; [done|by apply H6]|].
  intros j Hj. by apply (ready_devices _ _ _ s' H2 j Hj).
Qed.

(** ** Time inside a slice *)

Section Inside.
Context {W : Type} `{ExecuteInterface W}.

(** Cutting a slice short, of whatever device, moves no time. *)
Lemma abort_keeps_time j i (s : St W) :
  local_time (abort_timeslice j s) i = local_time s i /\ total_cycles (abort_timeslice j s) i = total_cycles s i.
Proof.
  unfold abort_timeslice. destruct (negb _); [done|]. destruct (decide (present s j)) as [Hj|Hj].
  2:{ by rewrite device_on_out. }
  unfold local_time, total_cycles, cycles_to_attotime. rewrite device_on by done.
  change (executing (on_device j swallow s) i) with (executing s i). case_decide as E; [|done].
  unfold swallow. destruct (Z.ltb_spec 0 (icount (device s i))) as [Hi|Hi]; [|done].
  set (x := device s i) in *.
  change (m_cycles_running (x <| m_cycles_stolen ::= Z.add (icount x) |> <| m_cycles_running ::= fun r => r - icount x |> <| icount := 0 |>))
    with (m_cycles_running x - icount x).
  change (icount (x <| m_cycles_stolen ::= Z.add (icount x) |> <| m_cycles_running ::= fun r => r - icount x |> <| icount := 0 |>)) with 0.
  rewrite Z.sub_0_r. destruct (executing s i); [|done]. split; [done|].
  change (u64 (m_totalcycles x + (m_cycles_running x - icount x) - 0) = u64 (m_totalcycles x + m_cycles_running x - icount x)).
  f_equal. lia.
Qed.

(** What a processor that counts the ticks of its clock sees while it runs. *)
Lemma time_seen i ran z d E (s : St W) : running i ran z d E s ->
  (forall n, execute_cycles_to_clocks i n = n) ->
  let x := device s i in
  local_time s i = add (m_localtime x) (clocks_to_attotime (m_clock x) (used x)) /\
  total_cycles s i = u64 (m_totalcycles x + used x).
Proof.
  intros Hr Hid x. destruct (run_counts _ _ _ _ _ _ Hr) as (H1 & H2 & H3).
  unfold local_time, total_cycles, cycles_to_attotime. rewrite (running_executes _ _ _ _ _ s Hr), Hid.
  fold x. fold x in H1, H2, H3. fold (used x). fold (used x) in H3. rewrite u64_id by lia. split; [done|].
  unfold used. f_equal. lia.
Qed.

(** The state in which the slice of [i] begins. *)
Lemma run_cycles_granted z d E i delta (s : St W) :
  timers_ok z d E s -> quanta_ok s.2 -> m_execute_list s.2 ≠ [] -> devices_ok s -> present s i ->
  m_suspend (device s i) = 0 -> speed_ok (device s i) -> m_attoseconds_per_cycle (device s i) ≠ 0 ->
  m_attoseconds_per_cycle (device s i) <= delta < ATTOSECONDS_PER_SECOND ->
  exists q s0, granted i q z d E s0 /\ clocks (device s0 i) = clocks (device s i) /\
    m_totalcycles (device s0 i) = m_totalcycles (device s i) /\
    run_cycles i delta s = let s1 := execute_run i s0 in (q - icount (device s1 i) - m_cycles_stolen (device s1 i), s1).
Proof.
  intros HT Hq Hl Hd Hi Hs Hsp Hne Hdelta. destruct (slice_cycles _ _ Hsp Hne Hdelta) as (q & Eq & _ & Hb).
  unfold run_cycles. cbv zeta. rewrite Eq, Hs. change (0 =? 0) with true. cbv iota.
  set (s1 := on_device i (fun x => x <| m_cycles_running := q |>) s).
  set (s2 := on_device i (fun x => x <| m_cycles_stolen := 0 |>) s1).
  set (s3 := (s2.1, s2.2 <| m_executing := Some i |>)).
  set (s4 := on_device i (fun x => x <| icount := m_cycles_running x |>) s3).
  assert (forall j, present s4 j <-> present s j) as Hp
    by (intros j; unfold present, s4; rewrite length_on_device; unfold s3; cbn; by rewrite !length_alter).
  assert (forall j, device s4 j = if decide (i = j)
    then device s j <| m_cycles_running := q |> <| m_cycles_stolen := 0 |> <| icount := q |> else device s j) as Ed.
  { intros j. assert (present s1 i) by (unfold present, s1; by rewrite length_on_device).
    assert (present s2 i) by (unfold present, s2; by rewrite length_on_device).
    unfold s4. rewrite device_on by done. change (device s3 j) with (device s2 j).
    unfold s2. rewrite device_on by done. unfold s1. rewrite device_on by done. by case_decide. }
  assert (device s4 i = device s i <| m_cycles_running := q |> <| m_cycles_stolen := 0 |> <| icount := q |>) as Ei
    by (rewrite Ed; by case_decide).
  assert (forall j, clocks (device s4 j) = clocks (device s j)) as Hc by (intros j; rewrite Ed; by case_decide).
  exists q, s4. split; [|split; [apply Hc|split; [by rewrite Ei|done]]].
  constructor; try done.
  - split; [done|]. by apply Hp.
  - destruct HT as (? & ? & ? & A & I & ? & ? & ? & Ho). split; [done|]. split; [done|]. split; [done|].
    exists A, I. split; [done|]. split; [done|]. split; [done|]. intros j Hj%Hp.
    destruct (clocks_fields _ _ (Hc j)) as (_ & _ & _ & _ & _ & _ & ->). by apply Ho.
  - intros j Hj%Hp. destruct (Hd j Hj) as [Hok Ha]. split; [eapply device_ok_clocks; [apply Hc|done]|].
    rewrite Ed. by case_decide.
  - by rewrite Ei.
Qed.
End Inside.

(** C22: The slice of a processor that counts the ticks of its clock, from the
    moment it is given its cycles, whatever it does in it: spending cycles,
    having them eaten, giving them back, suspending, and having the slice
    cut short.  [ran], the cycles the scheduler accounts for, are the cycles
    those steps cost, counted one by one; at every moment of the slice the
    local time is the time at its start and the cycles spent so far, and
    cutting the slice short there moves neither the time nor the cycle
    count; and what the processor sees at the end is what is recorded for
    it: nothing is lost or repeated between slices. *)
Theorem slice_time_continuous {W : Type} `{ExecuteInterface W} z d E i delta (s : St W) :
  timers_ok z d E s -> quanta_ok s.2 -> m_execute_list s.2 ≠ [] -> devices_ok s -> present s i ->
  m_suspend (device s i) = 0 -> speed_ok (device s i) -> m_attoseconds_per_cycle (device s i) ≠ 0 ->
  m_attoseconds_per_cycle (device s i) <= delta < ATTOSECONDS_PER_SECOND ->
  (forall n, execute_cycles_to_clocks i n = n) -> m_cycles_per_second (device s i) = m_clock (device s i) ->
  (forall ran s, granted i ran z d E s -> runs i z d s (execute_run i s)) ->
  let '(ran, s1) := run_cycles i delta s in
  let s2 := on_device i (account ran) s1 in
  exists q s0, granted i q z d E s0 /\ m_totalcycles (device s0 i) = m_totalcycles (device s i) /\
    s1 = execute_run i s0 /\ runs_for i z d ran s0 s1 /\
    (forall n s', runs_for i z d n s0 s' ->
       local_time s' i = add (m_localtime (device s i)) (clocks_to_attotime (m_clock (device s i)) n) /\
       total_cycles s' i = u64 (m_totalcycles (device s' i) + n) /\
       local_time (abort_timeslice i s') i = local_time s' i /\
       total_cycles (abort_timeslice i s') i = total_cycles s' i) /\
    m_localtime (device s2 i) = local_time s1 i /\ m_totalcycles (device s2 i) = total_cycles s1 i.
Proof.
  intros HT Hq Hl Hd Hi Hs Hsp Hne Hdelta Hid Hcps Hrun.
  destruct (run_cycles_granted z d E i delta s) as (q & s0 & Hg & Hc0 & Ht0 & ->); [done..|]. cbv zeta iota.
  destruct (Hrun q s0 Hg) as [n Hn]. set (s1 := execute_run i s0) in *.
  destruct (runs_for_running _ _ _ _ _ _ _ _ Hg Hn) as (Hr & Hsame & Eu).
  destruct (run_counts _ _ _ _ _ _ Hr) as (H1 & H2 & H3).
  assert (q - icount (device s1 i) - m_cycles_stolen (device s1 i) = n) as -> by (unfold used in Eu; lia).
  assert (forall n s', runs_for i z d n s0 s' ->
    local_time s' i = add (m_localtime (device s i)) (clocks_to_attotime (m_clock (device s i)) n) /\
    total_cycles s' i = u64 (m_totalcycles (device s' i) + n)) as Hseen.
  { intros n' s' Hn'. destruct (runs_for_running _ _ _ _ _ _ _ _ Hg Hn') as (Hr' & Hsame' & Eu').
    destruct (time_seen _ _ _ _ _ _ Hr' Hid) as [-> ->]. rewrite Eu'.
    pose proof (same_devices _ _ Hsame' i) as Hc'. rewrite Hc0 in Hc'.
    by destruct (clocks_fields _ _ Hc') as (-> & -> & _). }
  exists q, s0. split; [done|]. split; [done|]. split; [done|]. split; [done|]. split.
  { intros n' s' Hn'. destruct (Hseen n' s' Hn') as [? ?]. destruct (abort_keeps_time i i s') as [? ?]. done. }
  destruct (Hseen n s1 Hn) as [-> ->]. pose proof (same_devices _ _ Hsame i) as Hc. rewrite Hc0 in Hc.
  assert (present s1 i) as Hi1 by apply Hr. rewrite !device_on by done. rewrite decide_True by done.
  split; [|done]. destruct (run_devices _ _ _ _ _ _ Hr i Hi1) as [(Hw & _) _].
  assert (m_cycles_per_second (device s1 i) = m_cycles_per_second (device s i) /\
    m_attoseconds_per_cycle (device s1 i) = m_attoseconds_per_cycle (device s i) /\
    m_localtime (device s1 i) = m_localtime (device s i)) as (E1 & E2 & E3)
    by (unfold clocks in Hc; injection Hc; intros; done).
  destruct Hsp as [|(Hf & Eh & _)]; [done|]. fold (used (device s1 i)) in H3.
  rewrite account_time by (rewrite ?E1, ?E2; lia || done). by rewrite E1, E3, Hcps.
Qed.

(** ** A machine of two processors

    Each instruction takes three cycles; the machine logs the changes of the
    input lines. *)

Definition log : Type := list (nat * nat * Z).

Fixpoint counting (fuel : nat) (i : nat) (s : St log) : St log :=
  match fuel with
  | O => s
  | S fuel =>
      if 0 <? icount (device s i)
      then counting fuel i (on_device i (fun x => x <| icount ::= fun c => c - 3 |>) s)
      else s
  end.

Definition sample_interface : ExecuteInterface log := {|
  execute_run := fun i s => counting (Z.to_nat (icount (device s i))) i s;
  execute_set_input := fun i l state w => w ++ [(i, l, state)];
  device_reset := fun _ w => w;
  execute_clocks_to_cycles := fun _ n => n;
  execute_cycles_to_clocks := fun _ n => n;
  execute_min_cycles := fun _ => 3;
  execute_default_irq_vector := fun _ _ => 0;
  execute_input_edge_triggered := fun _ _ => false;
  device_index := fun i => Z.of_nat i;
  m_timed_interrupt := fun _ => None;
  m_driver_irq := fun _ => None;
  m_maximum_quantums := [];
  m_perfect_quantum_device := None;
  timer_callback := fun _ _ s => s
|}.

Section Sample.
#[local] Existing Instance sample_interface.

Lemma counting_steps z d i fuel (s : St log) : present s i -> m_cycles_running (device s i) <= 1073741824 ->
  exists n, cpu_steps i z d n s (counting fuel i s).
Proof.
  revert s. induction fuel as [|fuel IH]; intros s Hi Hb; cbn [counting]; [exists 0; constructor|].
  destruct (Z.ltb_spec 0 (icount (device s i))) as [Hc|Hc]; [|exists 0; constructor].
  destruct (IH (on_device i (fun x => x <| icount ::= fun c => c - 3 |>) s)) as [n Hn].
  - unfold present. by rewrite length_on_device.
  - rewrite device_on by done. by case_decide.
  - exists (3 + n). eapply steps_more; [apply (step_cycles i z d 3); unfold used; lia|exact Hn].
Qed.

Lemma counting_runs z d E i ran (s : St log) : granted i ran z d E s -> runs i z d s (execute_run i s).
Proof.
  intros [[Hx Hi] _ _ _ _ (E1 & E2 & E3 & Hran)].
  cbn [execute_run sample_interface]. destruct (Z.to_nat (icount (device s i))) as [|fuel] eqn:Ef; [lia|].
  cbn [counting]. destruct (Z.ltb_spec 0 (icount (device s i))); [|lia].
  destruct (counting_steps z d i fuel (on_device i (fun x => x <| icount ::= fun c => c - 3 |>) s)) as [n Hn].
  - unfold present. by rewrite length_on_device.
  - rewrite device_on by done. case_decide; [|done]. cbn. lia.
  - exists (3 + n), 3. split; [lia|]. by replace (3 + n - 3) with n by lia.
Qed.

(** The deadline is timer 1, in 5 microseconds; timers 2 and 3 belong to the
    processors, at 8 and 10 MHz. *)
Definition sample_timers : sched :=
  init None never 0 false 3%nat (init None never 0 false 2%nat sample1).
Definition sample_device (clock : Z) (spin_end : nat) : execute_device :=
  update_clock 0 false (new_device false clock zero) <| m_spin_end_timer := spin_end |>.
Definition sample_devices : St log :=
  (sample_timers, mk_executor [sample_device 8000000 2; sample_device 10000000 3] [0%nat; 1%nat] None true
     [mk_quantum 16666666666666666 16666666666666666 never] 375000000000 0 []).

Lemma placed_never h t id A I A' I' : placed h t id A I A' I' -> is_never (m_expire t) = true ->
  id ∉ A ++ I -> A' = A /\ I' = id :: I.
Proof.
  unfold placed. intros Hpl Hn Hni. rewrite Hn in Hpl. cbn [negb andb] in Hpl. destruct Hpl as [-> ->].
  rewrite !without_notin by (intros ?; apply Hni; set_solver). done.
Qed.

Lemma inv_alloc_never (t : sched) A I d id : inv None t A I d -> heap t !! id = None -> id ∉ A ++ I ->
  is_never (add (Scheduler.time t) never) = true -> inv None (init None never 0 false id t) A (id :: I) d.
Proof.
  intros Hi Hf Hni Hn. destruct (init_spec None never 0 false id t A I d Hi Hf never_wf) as (A' & I' & Hi' & Hpl & _).
  by apply placed_never in Hpl as [-> ->].
Qed.

Lemma sample_timers_inv : inv None sample_timers [1%nat] [3%nat; 2%nat] 0.
Proof.
  unfold sample_timers. apply inv_alloc_never; [apply inv_alloc_never; [apply sample1_inv|..]|..].
  all: try (vm_compute; reflexivity).
  all: intros Hx; rewrite ?elem_of_app, ?elem_of_cons, ?elem_of_nil in Hx; naive_solver.
Qed.

Lemma two_devices (P : nat -> Prop) : P 0%nat -> P 1%nat -> forall j, (j < 2)%nat -> P j.
Proof. intros H0 H1 [|[|j]] Hj; [done|done|lia]. Qed.

Lemma sample_device_ok i clock spin : clock = 8000000 \/ clock = 10000000 ->
  (device_ok i (sample_device clock spin) /\ accountable (sample_device clock spin)) /\
  speed_ok (sample_device clock spin) /\ keeps_up zero (sample_device clock spin) /\
  near (usec 5) zero (sample_device clock spin).
Proof.
  intros Hc. assert (0 < m_clock (sample_device clock spin) < 4294967296 /\
    m_localtime (sample_device clock spin) = zero /\ m_timed_interrupt_period (sample_device clock spin) = zero /\
    m_nextsuspend (sample_device clock spin) = 0) as (Hm & El & Ep & Es).
  { destruct Hc as [-> | ->]; vm_compute; done. }
  split; [split; [|by left]|split; [right|]].
  - unfold device_ok. rewrite El, Ep. split; [exact zero_wf|]. split; [split; [exact zero_wf|cbn; lia]|].
    split; [lia|]. intros n Hn. left. cbn [execute_cycles_to_clocks sample_interface]. lia.
  - destruct Hc as [-> | ->]; (split; [vm_compute; split; congruence|split; vm_compute; reflexivity]).
  - destruct Hc as [-> | ->]; split; vm_compute; congruence.
Qed.

Lemma sample_timers_ok (s : St log) : s.1 = sample_timers -> length (devices s.2) = 2%nat ->
  own_timers (device s 0) = [2%nat] -> own_timers (device s 1) = [3%nat] -> timers_ok 1 0 (usec 5) s.
Proof.
  intros E1 El E2 E3. unfold timers_ok. rewrite E1.
  split; [vm_compute; reflexivity|]. split; [vm_compute; reflexivity|]. split; [apply zero_wf|].
  exists [1%nat], [3%nat; 2%nat]. split; [apply sample_timers_inv|]. split; [by left|].
  split; [vm_compute; reflexivity|]. unfold present. rewrite El.
  apply two_devices; [rewrite E2|rewrite E3];
    (apply Forall_singleton; split; [rewrite !elem_of_app, !elem_of_cons; tauto|done]).
Qed.

Lemma sample_ready : ready 1 0 (usec 5) sample_devices.
Proof.
  constructor.
  - by apply sample_timers_ok.
  - split; [done|]. split; [repeat constructor|split]; vm_compute; reflexivity.
  - split; [|split; [|done]].
    + apply NoDup_cons. split; [|apply NoDup_singleton]. intros Hx%elem_of_cons. rewrite elem_of_nil in Hx. naive_solver.
    + intros j. change (m_execute_list sample_devices.2) with [0%nat; 1%nat].
      unfold present. change (length (devices sample_devices.2)) with 2%nat.
      rewrite !elem_of_cons, elem_of_nil. lia.
  - apply two_devices; apply sample_device_ok; tauto.
  - by left.
Qed.

Lemma cpu_loop_reaches_timer_witness :
  exists fuel s' e, run_until_timer fuel sample_devices = Some s' /\ first_expire s' = Some e /\
    val e <= val (m_basetime s'.1) /\
    option_map (fun s => (m_basetime s.1, map m_totalcycles (devices s.2))) (run_until_timer 3 sample_devices) =
      Some (usec 5, [42; 51]).
Proof.
  destruct (cpu_loop_reaches_timer 1 0 (usec 5) sample_devices) as (fuel & s' & e & H1 & H2 & H3 & _).
  - apply usec_wf. lia.
  - vm_compute. reflexivity.
  - vm_compute. congruence.
  - intros i ran s. apply counting_runs.
  - apply sample_ready.
  - apply sample_ready.
  - apply sample_ready.
  - intros j Hj. destruct (ready_devices _ _ _ _ sample_ready j Hj) as ([? _] & ? & _). split; assumption.
  - intros j Hj. apply (ready_devices _ _ _ _ sample_ready j Hj).
  - left. reflexivity.
  - intros j Hj. apply (ready_devices _ _ _ _ sample_ready j Hj).
  - intros j Hj. apply (ready_devices _ _ _ _ sample_ready j Hj).
  - exists fuel, s', e. split; [exact H1|]. split; [exact H2|]. split; [exact H3|]. vm_compute. reflexivity.
Defined.

(** A processor alone, 50 ns behind the base time after a timer, with no other
    timer within a second: the quantum is then a second less an attosecond,
    the target more than a second ahead of the processor, and the distance,
    taken from the fractions alone, comes out below a cycle.  The base time
    moves on by almost a second in which the processor does not run. *)
Definition sample_alone : St log :=
  (device_scheduler 0 <| m_basetime := mk_attotime 0 5050000000000 |>,
   mk_executor [sample_device 8000000 0 <| m_localtime := usec 5 |>] [0%nat] None true
     [mk_quantum (ATTOSECONDS_PER_SECOND - 1) 16666666666666666 never] (ATTOSECONDS_PER_SECOND - 1) 0 []).

Example slice_can_be_skipped :
  option_map (fun s => (m_basetime s.1, map (fun x => (m_localtime x, m_totalcycles x)) (devices s.2)))
    (pass never sample_alone) = Some (mk_attotime 1 5049999999999, [(usec 5, 0)]).
Proof. vm_compute. reflexivity. Qed.
End Sample.

(** A machine whose processors use four instructions of three cycles and then
    have their slice cut short. *)
Definition cutting_interface : ExecuteInterface log := {|
  execute_run := fun i s => abort_timeslice i (on_device i (fun x => x <| icount ::= fun c => c - 12 |>) s);
  execute_set_input := fun i l state w => w ++ [(i, l, state)];
  device_reset := fun _ w => w;
  execute_clocks_to_cycles := fun _ n => n;
  execute_cycles_to_clocks := fun _ n => n;
  execute_min_cycles := fun _ => 3;
  execute_default_irq_vector := fun _ _ => 0;
  execute_input_edge_triggered := fun _ _ => false;
  device_index := fun i => Z.of_nat i;
  m_timed_interrupt := fun _ => None;
  m_driver_irq := fun _ => None;
  m_maximum_quantums := [];
  m_perfect_quantum_device := None;
  timer_callback := fun _ _ s => s
|}.

Section Cutting.
#[local] Existing Instance cutting_interface | 0.

Lemma cutting_runs z d E i ran (s : St log) : granted i ran z d E s -> runs i z d s (execute_run i s).
Proof.
  intros _. exists (12 + (0 + 0)), 12. split; [lia|]. replace (12 + (0 + 0) - 12) with (0 + 0) by lia.
  eapply steps_more; [apply step_abort|constructor].
Qed.

Lemma slice_time_continuous_witness :
  let '(ran, s1) := run_cycles 0 5000000000000 sample_devices in
  ran = 12 /\ m_cycles_stolen (device s1 0) = 28 /\
  m_localtime (device (on_device 0 (account ran) s1) 0) = local_time s1 0 /\ total_cycles s1 0 = 12.
Proof.
  pose proof (@slice_time_continuous log cutting_interface 1 0 (usec 5) 0%nat 5000000000000 sample_devices) as P.
  assert (run_cycles 0 5000000000000 sample_devices =
    ((run_cycles 0 5000000000000 sample_devices).1, (run_cycles 0 5000000000000 sample_devices).2)) as E0
    by (destruct (run_cycles 0 5000000000000 sample_devices); reflexivity).
  rewrite E0 in P |- *. destruct P as (q & s0 & _ & _ & _ & _ & _ & H1 & _).
  - apply (ready_timers _ _ _ _ sample_ready).
  - apply (ready_quanta _ _ _ _ sample_ready).
  - discriminate.
  - intros j Hj. apply (ready_devices _ _ _ _ sample_ready j Hj).
  - vm_compute. lia.
  - reflexivity.
  - apply (ready_devices _ _ _ _ sample_ready 0%nat). vm_compute. lia.
  - vm_compute. congruence.
  - vm_compute. split; congruence.
  - reflexivity.
  - vm_compute. reflexivity.
  - intros ran s. apply cutting_runs.
  - split; [vm_compute; reflexivity|]. split; [vm_compute; reflexivity|]. split; [exact H1|]. vm_compute. reflexivity.
Defined.
End Cutting.
