(* ===== verification/ExecuteLaws.v ===== *)
(** * Quanta, interleave, input lines and triggers

    The scheduling quanta as a finite map from durations to expiry times, the
    perfect interleave as a second smallest element, the order in which a
    device sees the changes of an input line, and what wakes a device that
    waits for a trigger. *)

From stdpp Require Import base tactics numbers option list gmap sorting fin_maps.
From Stdlib Require Import ZArith Lia Bool.
From S2P Require Import Prelude Attotime Device Scheduler Execute ExecuteFacts Timeslice.

(** ** Quanta *)

(** The requests a list of quanta stands for. *)
Definition requests (l : list quantum_slot) : gmap Z attotime :=
  list_to_map ((fun q => (m_requested q, q_expire q)) <$> l).
Definition shortest_first : list quantum_slot -> Prop :=
  StronglySorted (fun a b => m_requested a < m_requested b).
Definition live (now : attotime) (l : list quantum_slot) : list quantum_slot :=
  filter (fun q => geb now (q_expire q) = false) l.
(** Adding a request: the later expiry of two equal ones counts. *)
Definition later (expire : attotime) (o : option attotime) : option attotime :=
  Some (match o with Some e => max_time e expire | None => expire end).

Lemma requests_cons q l : requests (q :: l) = <[m_requested q := q_expire q]> (requests l).
Proof. done. Qed.

Lemma requests_none l r : Forall (fun q => m_requested q ≠ r) l -> requests l !! r = None.
Proof.
  induction 1 as [|q l Hq _ IH]; [done|]. rewrite requests_cons, lookup_insert_ne by done. exact IH.
Qed.

Lemma requests_middle l1 q l2 : Forall (fun p => m_requested p ≠ m_requested q) l1 ->
  requests (l1 ++ q :: l2) = <[m_requested q := q_expire q]> (requests (l1 ++ l2)).
Proof.
  induction 1 as [|p l1 Hp _ IH]; [done|]. cbn [app]. rewrite !requests_cons, IH. by apply insert_insert_ne.
Qed.

Lemma shortest_first_live now l : shortest_first l -> shortest_first (live now l).
Proof.
  unfold shortest_first, live. induction 1 as [|q l Hs IH Hq]; [constructor|].
  rewrite filter_cons. destruct (decide _); [|done]. constructor; [done|].
  rewrite Forall_forall in *. intros p [_ Hp]%list_elem_of_filter. by apply Hq.
Qed.

Lemma requests_live now l : shortest_first l -> wf now -> Forall (fun q => wf (q_expire q)) l ->
  requests (live now l) = filter (fun r => val now < val r.2) (requests l).
Proof.
  unfold shortest_first, live. intros Hs Hn. induction Hs as [|q l Hs IH Hq]; intros Hw.
  { symmetry. apply map_filter_empty. }
  apply Forall_cons in Hw as [Hwq Hw]. specialize (IH Hw).
  assert (requests l !! m_requested q = None) as Hnone.
  { apply requests_none. eapply Forall_impl; [exact Hq|]. intros p Hp. cbv beta in *. lia. }
  rewrite filter_cons, requests_cons. pose proof (geb_val now (q_expire q) Hn Hwq) as Eg. rewrite Eg.
  destruct (Z.leb_spec (val (q_expire q)) (val now)) as [Hle|Hlt].
  - rewrite decide_False by done. rewrite map_filter_insert_False by (cbn; lia). by rewrite delete_id, IH.
  - rewrite decide_True by done. rewrite map_filter_insert_True by (cbn; lia). by rewrite requests_cons, IH.
Qed.

(** The loop past the place of the new quantum, and before it. *)
Lemma expire_quanta_longer now attos l kept n : Forall (fun q => attos < m_requested q) l ->
  expire_quanta now attos l kept n = (kept ++ live now l, n).
Proof.
  unfold live. intros Hl. revert kept. induction Hl as [|q l Hq _ IH]; intros kept; cbn [expire_quanta].
  { by rewrite app_nil_r. }
  rewrite filter_cons. destruct (geb now (q_expire q)) eqn:Eg.
  - rewrite IH. by rewrite decide_False by done.
  - destruct (Z.leb_spec (m_requested q) attos); [lia|]. rewrite IH. rewrite decide_True by done.
    by rewrite <- app_assoc.
Qed.

Lemma expire_quanta_split now attos l kept n : shortest_first l -> (n = length kept \/ Forall (fun q => attos < m_requested q) l) ->
  exists l1 l2, live now l = l1 ++ l2 /\
    Forall (fun q => m_requested q <= attos) l1 /\ Forall (fun q => attos < m_requested q) l2 /\
    expire_quanta now attos l kept n = (kept ++ l1 ++ l2, (if decide (l1 = []) then n else (length kept + length l1))%nat).
Proof.
  intros Hs. revert kept n. induction Hs as [|q l Hs IH Hq]; intros kept n Hn.
  { exists [], []. cbn. by rewrite app_nil_r. }
  destruct (Z.le_gt_cases (m_requested q) attos) as [Hle|Hgt].
  2:{ assert (Forall (fun q => attos < m_requested q) (q :: l)) as Hl.
      { constructor; [done|]. eapply Forall_impl; [exact Hq|]. intros p Hp. cbv beta in *. lia. }
      exists [], (live now (q :: l)). split; [done|]. split; [constructor|]. split.
      - unfold live. rewrite Forall_forall in *. intros p [_ Hp]%list_elem_of_filter. by apply Hl.
      - by rewrite expire_quanta_longer. }
  destruct Hn as [->|Hn]; [|apply Forall_cons in Hn as [Hn _]; cbv beta in Hn; lia].
  cbn [expire_quanta]. unfold live. rewrite filter_cons. destruct (geb now (q_expire q)) eqn:Eg.
  - destruct (IH kept (length kept)) as (l1 & l2 & E & H1 & H2 & Er); [by left|].
    exists l1, l2. rewrite decide_False by done. done.
  - destruct (Z.leb_spec (m_requested q) attos); [|lia].
    destruct (IH (kept ++ [q]) (S (length kept))) as (l1 & l2 & E & H1 & H2 & Er).
    { left. rewrite length_app. cbn. lia. }
    exists (q :: l1), l2. rewrite decide_True by done. unfold live in E. rewrite E.
    split; [done|]. split; [by constructor|]. split; [done|]. rewrite Er. f_equal.
    + by rewrite <- !app_assoc.
    + rewrite length_app. cbn [length]. destruct (decide (q :: l1 = [])); [done|].
      destruct (decide (l1 = [])) as [->|]; cbn; lia.
Qed.

(** Inserting behind the shorter ones. *)
Lemma partial_alter_later attos expire (m : gmap Z attotime) (e : attotime) :
  partial_alter (later expire) attos (<[attos := e]> m) = <[attos := max_time e expire]> m.
Proof.
  apply map_eq. intros r. destruct (decide (attos = r)) as [->|Hne].
  - by rewrite lookup_partial_alter_eq, !lookup_insert_eq.
  - by rewrite lookup_partial_alter_ne, !lookup_insert_ne.
Qed.
Lemma partial_alter_fresh attos expire (m : gmap Z attotime) : m !! attos = None ->
  partial_alter (later expire) attos m = <[attos := expire]> m.
Proof.
  intros Hn. apply map_eq. intros r. destruct (decide (attos = r)) as [->|Hne].
  - by rewrite lookup_partial_alter_eq, lookup_insert_eq, Hn.
  - by rewrite lookup_partial_alter_ne, lookup_insert_ne.
Qed.

Definition sized (minimum : Z) (q : quantum_slot) : Prop := m_actual q = Z.max (m_requested q) minimum.

Lemma shorter_ne (l : list quantum_slot) r : Forall (fun p => m_requested p < r) l -> Forall (fun p => m_requested p ≠ r) l.
Proof. intros Hl. eapply Forall_impl; [exact Hl|]. intros p Hp. cbv beta in *. lia. Qed.
Lemma longer_ne (l : list quantum_slot) r : Forall (fun p => r < m_requested p) l -> Forall (fun p => m_requested p ≠ r) l.
Proof. intros Hl. eapply Forall_impl; [exact Hl|]. intros p Hp. cbv beta in *. lia. Qed.

Lemma shortest_first_app l1 l2 : shortest_first (l1 ++ l2) <->
  shortest_first l1 /\ shortest_first l2 /\ Forall (fun a => Forall (fun b => m_requested a < m_requested b) l2) l1.
Proof.
  unfold shortest_first. induction l1 as [|a l1 IH]; cbn [app].
  { split; [intros Hs; split_and!; [constructor|done|constructor]|tauto]. }
  split.
  - intros [Hs Ha]%StronglySorted_inv. apply IH in Hs as (H1 & H2 & H3). apply Forall_app in Ha as [Ha1 Ha2].
    split; [by constructor|]. split; [done|]. by constructor.
  - intros (H1 & H2 & H3). apply StronglySorted_inv in H1 as [H1 Ha]. apply Forall_cons in H3 as [H3 H4].
    constructor; [by apply IH|]. apply Forall_app. done.
Qed.

Lemma insert_quantum_requests minimum attos expire l1 l2 :
  shortest_first (l1 ++ l2) -> Forall (fun q => m_requested q <= attos) l1 -> Forall (fun q => attos < m_requested q) l2 ->
  Forall (sized minimum) (l1 ++ l2) ->
  let l := insert_quantum minimum attos expire (l1 ++ l2) (length l1) in
  shortest_first l /\ Forall (sized minimum) l /\ requests l = partial_alter (later expire) attos (requests (l1 ++ l2)).
Proof.
  intros Hs H1 H2 Hz. cbv zeta. set (slot := mk_quantum (Z.max attos minimum) attos expire).
  pose proof Hs as (S1 & S2 & S12)%shortest_first_app.
  destruct l1 as [|q l1 _] using rev_ind.
  { cbn [app length insert_quantum]. cbn [app] in Hs, Hz. fold slot. split; [by constructor|]. split; [by constructor|].
    rewrite requests_cons. symmetry. apply partial_alter_fresh, requests_none, longer_ne, H2. }
  rewrite length_app. cbn [length]. rewrite Nat.add_1_r. rewrite <- app_assoc. cbn [app insert_quantum]. fold slot.
  rewrite list_lookup_middle by done.
  apply Forall_app in H1 as [H1 [Hq _]%Forall_cons]. apply shortest_first_app in S1 as (S1 & _ & Sq).
  rewrite <- app_assoc in Hz. cbn [app] in Hz. pose proof Hz as [Hz1 [Hzq Hz2]%Forall_cons]%Forall_app.
  assert (Forall (fun p => m_requested p < m_requested q) l1) as Hlt.
  { eapply Forall_impl; [exact Sq|]. by intros p [Hp _]%Forall_cons. }
  pose proof S12 as [S12a [Sq2 _]%Forall_cons]%Forall_app.
  destruct (Z.eqb_spec (m_requested q) attos) as [Eq|Hne].
  - assert (alter (fun q => q <| q_expire ::= fun e => max_time e expire |>) (length l1) (l1 ++ q :: l2) =
      l1 ++ (q <| q_expire ::= fun e => max_time e expire |>) :: l2) as ->.
    { rewrite alter_app_r_alt by lia. by rewrite Nat.sub_diag. }
    set (q' := q <| q_expire ::= fun e => max_time e expire |>).
    split; [|split].
    + apply shortest_first_app. split; [done|]. split; [by constructor|].
      rewrite Forall_forall in *. intros p Hp. apply Forall_cons. split; [by apply Hlt|]. by apply S12a.
    + apply Forall_app. split; [done|]. by constructor.
    + rewrite !requests_middle by (by apply shorter_ne). change (m_requested q') with (m_requested q).
      change (q_expire q') with (max_time (q_expire q) expire). by rewrite Eq, partial_alter_later.
  - assert (m_requested q < attos) as Hqa by lia.
    assert (take (S (length l1)) (l1 ++ q :: l2) = l1 ++ [q] /\ drop (S (length l1)) (l1 ++ q :: l2) = l2) as [-> ->].
    { rewrite (app_assoc l1 [q] l2) at 1. change (q :: l2) with ([q] ++ l2). rewrite app_assoc.
      replace (S (length l1)) with (length (l1 ++ [q])) by (rewrite length_app; cbn; lia).
      split; [apply take_app_length|apply drop_app_length]. }
    assert (Forall (fun p => m_requested p < attos) (l1 ++ [q])) as Hall.
    { apply Forall_app. split; [|by constructor]. eapply Forall_impl; [exact Hlt|]. intros p Hp. cbv beta in *. lia. }
    split; [|split].
    + apply shortest_first_app. split; [|split].
      * apply shortest_first_app. split; [done|]. split; [by repeat constructor|]. done.
      * by constructor.
      * rewrite Forall_forall in *. intros p Hp. apply Forall_cons. split; [by apply Hall|]. by apply S12.
    + apply Forall_app. split; [apply Forall_app; split; [done|by constructor]|by constructor].
    + rewrite requests_middle by (by apply shorter_ne). rewrite <- app_assoc. cbn [app].
      symmetry. apply partial_alter_fresh, requests_none. apply Forall_app. split; [apply Forall_app in Hall as [Ha _]; by apply shorter_ne|].
      constructor; [change (m_requested q ≠ attos); lia|by apply longer_ne].
Qed.

Section Laws.
Context {W : Type} `{ExecuteInterface W}.
Implicit Types (s : St W) (i j : nat).

(** C21: The list of quanta, kept shortest first, is a finite map: adding a
    request drops those that have expired, and of two requests for the same
    duration keeps the later expiry.  The actual quanta stay the requested
    ones, raised to the minimum, so the first of the list is the shortest
    request that is still live. *)
Theorem add_quantum_requests quantum duration s :
  wf (time s) -> Forall (fun q => wf (q_expire q)) (m_quantum_list s.2) ->
  shortest_first (m_quantum_list s.2) -> Forall (sized (m_quantum_minimum s.2)) (m_quantum_list s.2) ->
  let s' := add_quantum quantum duration s in
  shortest_first (m_quantum_list s'.2) /\ Forall (sized (m_quantum_minimum s.2)) (m_quantum_list s'.2) /\
  requests (m_quantum_list s'.2) =
    partial_alter (later (add (time s) duration)) (m_attoseconds quantum)
      (filter (fun r => val (time s) < val r.2) (requests (m_quantum_list s.2))) /\
  (forall q l, m_quantum_list s'.2 = q :: l ->
     forall r e, requests (m_quantum_list s'.2) !! r = Some e -> m_requested q <= r).
Proof.
  intros Hn Hw Hs Hz. unfold add_quantum. cbv zeta.
  destruct (expire_quanta_split (time s) (m_attoseconds quantum) (m_quantum_list s.2) [] 0 Hs) as (l1 & l2 & El & H1 & H2 & Er);
    [by left|]. rewrite Er. cbn [app length].
  assert ((if decide (l1 = []) then 0%nat else (0 + length l1)%nat) = length l1) as -> by (destruct (decide _) as [->|]; done).
  set (l' := insert_quantum _ _ _ _ _).
  match goal with |- context [(s.1, ?e)] => change (m_quantum_list (s.1, e).2) with l' end.
  destruct (insert_quantum_requests (m_quantum_minimum s.2) (m_attoseconds quantum) (add (time s) duration) l1 l2) as (S1 & S2 & S3).
  - rewrite <- El. by apply shortest_first_live.
  - done.
  - done.
  - rewrite <- El. unfold live. rewrite Forall_forall in *. intros q [_ Hq]%list_elem_of_filter. by apply Hz.
  - fold l' in S1, S2, S3. rewrite <- El in S3. split; [done|]. split; [done|]. split; [by rewrite S3, requests_live|].
    intros q l Eq r e He. rewrite Eq in S1, He. apply StronglySorted_inv in S1 as [_ Hq].
    destruct (Z.le_gt_cases (m_requested q) r) as [|Hlt]; [done|]. exfalso.
    rewrite requests_none in He; [done|]. constructor; [cbv beta; lia|].
    eapply Forall_impl; [exact Hq|]. intros p Hp. cbv beta in *. lia.
Qed.

(** ** The perfect interleave *)

Definition TOP : Z := ATTOSECONDS_PER_SECOND - 1.

Lemma interleave_fold l a b rest seen : a <= b -> Forall (fun q => b <= q) rest -> seen ≡ₚ a :: b :: rest ->
  let r := fold_left interleave_step l (a, b) in
  r.1 <= r.2 /\ exists rest', Forall (fun q => r.2 <= q) rest' /\ seen ++ l ≡ₚ r.1 :: r.2 :: rest'.
Proof.
  revert a b rest seen. induction l as [|q l IH]; intros a b rest seen Hab Hr Hp; cbn [fold_left].
  { split; [done|]. exists rest. by rewrite app_nil_r. }
  assert (seen ++ q :: l ≡ₚ (q :: seen) ++ l) as Hq by (cbn; by rewrite <- Permutation_middle).
  cbv zeta. enough (let r := fold_left interleave_step l (interleave_step (a, b) q) in
    r.1 <= r.2 /\ exists rest', Forall (fun q => r.2 <= q) rest' /\ (q :: seen) ++ l ≡ₚ r.1 :: r.2 :: rest')
    as (H1 & rest' & H2 & H3).
  { split; [done|]. exists rest'. split; [done|]. by rewrite Hq. }
  unfold interleave_step at 2. destruct (Z.ltb_spec q a); [|destruct (Z.ltb_spec q b)].
  - apply (IH q a (b :: rest)); [lia| |by rewrite Hp; constructor].
    constructor; [done|]. eapply Forall_impl; [exact Hr|]. intros p Hx. cbv beta in *. lia.
  - apply (IH a q (b :: rest)); [lia| |].
    + constructor; [cbv beta; lia|]. eapply Forall_impl; [exact Hr|]. intros p Hx. cbv beta in *. lia.
    + rewrite Hp. apply perm_swap.
  - apply (IH a b (q :: rest)); [lia| |].
    + by constructor.
    + rewrite Hp. rewrite perm_swap. constructor. apply perm_swap.
Qed.

(** C23: The minimum quantum becomes the second smallest cycle time of the devices
    (a second less an attosecond standing in for missing ones), and the actual
    quanta follow. *)
Theorem perfect_interleave s first rest :
  m_execute_list s.2 = first :: rest -> minimum_quantum s first <= TOP ->
  Forall (sized (m_quantum_minimum s.2)) (m_quantum_list s.2) ->
  let s' := compute_perfect_interleave s in
  m_quantum_minimum s'.2 =
    nth 1 (merge_sort Z.le (map (minimum_quantum s) (first :: rest) ++ [TOP])) TOP /\
  Forall (sized (m_quantum_minimum s'.2)) (m_quantum_list s'.2) /\
  map m_requested (m_quantum_list s'.2) = map m_requested (m_quantum_list s.2) /\ s'.1 = s.1.
Proof.
  intros El Hf Hz. unfold compute_perfect_interleave, built. rewrite El. cbv zeta. rewrite El.
  fold TOP. destruct (interleave_fold (map (minimum_quantum s) rest) (minimum_quantum s first) TOP [] [minimum_quantum s first; TOP])
    as (Hab & rest' & Hr & Hp); [done|constructor|done|].
  destruct (fold_left interleave_step _ _) as [a b]. cbn [fst snd] in *.
  assert (nth 1 (merge_sort Z.le (map (minimum_quantum s) (first :: rest) ++ [TOP])) TOP = b) as ->.
  { assert (merge_sort Z.le (map (minimum_quantum s) (first :: rest) ++ [TOP]) = a :: b :: merge_sort Z.le rest') as ->; [|done].
    apply (StronglySorted_unique Z.le).
    - apply (StronglySorted_merge_sort Z.le).
    - pose proof (StronglySorted_merge_sort Z.le rest') as Hs.
      assert (Forall (fun q => b <= q) (merge_sort Z.le rest')) as Hb by (by rewrite merge_sort_Permutation).
      constructor; [constructor; [done|exact Hb]|]. constructor; [done|].
      eapply Forall_impl; [exact Hb|]. intros p Hx. cbv beta in *. lia.
    - rewrite !merge_sort_Permutation. rewrite <- Hp. cbn [map app]. constructor. apply Permutation_app_comm. }
  destruct (Z.eqb_spec (m_quantum_minimum s.2) b) as [Eb|Hne]; cbn [negb]; [by rewrite <- Eb|].
  split; [done|]. split; [|split; [|done]].
  - apply List.Forall_map. apply Forall_true. by intros q.
  - cbn. rewrite List.map_map. by apply List.map_ext.
Qed.

(** ** Input lines *)

(** What an input line is made of is untouched. *)
Record same_inputs (s s' : St W) : Prop := mk_same_inputs {
  inputs_machine : m_machine s'.2 = m_machine s.2;
  inputs_length : length (devices s'.2) = length (devices s.2);
  inputs_devices : forall j, m_input (device s' j) = m_input (device s j)
}.
#[local] Instance same_inputs_preorder : PreOrder same_inputs.
Proof. split; [done|]. intros x y t [M1 L1 D1] [M2 L2 D2]. constructor; [congruence..|]. intros j. by rewrite D2. Qed.

Lemma inputs_device j f s : (forall x, m_input (f x) = m_input x) -> same_inputs s (on_device j f s).
Proof.
  intros Hf. constructor; [done|apply length_on_device|]. intros k. destruct (decide (present s j)) as [Hj|Hj].
  - rewrite device_on by done. case_decide; [by rewrite Hf|done].
  - by rewrite device_on_out.
Qed.

Lemma inputs_abort j s : same_inputs s (abort_timeslice j s).
Proof.
  unfold abort_timeslice. destruct (negb _); [reflexivity|]. apply inputs_device.
  intros x. unfold swallow. by destruct (_ <? _).
Qed.

Lemma inputs_resume j reason s : same_inputs s (resume j reason s).
Proof.
  unfold resume, suspend_resume_changed. cbv zeta. etransitivity; [|apply inputs_abort].
  etransitivity; [by apply (inputs_device j (fun x => x <| m_nextsuspend ::= fun m => Z.land m (Z.lnot reason) |>))|].
  by constructor.
Qed.

Lemma inputs_trigger j trigid s : same_inputs s (trigger j trigid s).
Proof.
  unfold trigger. cbv zeta. etransitivity; [apply inputs_abort|]. destruct (_ && _); [|reflexivity].
  etransitivity; [apply inputs_resume|]. by apply inputs_device.
Qed.

Lemma inputs_timers f s : same_inputs s (on_timers f s).
Proof.
  unfold on_timers. cbv zeta. set (s1 := (_, s.2)). assert (same_inputs s s1) as Hs by done.
  destruct (timeslice_aborted _); [|exact Hs]. etransitivity; [exact Hs|]. unfold scheduler_abort.
  destruct (m_executing s1.2); [apply inputs_abort|reflexivity].
Qed.

Section Line.
Context (i l : nat) (Hl : l ≠ INPUT_LINE_RESET /\ l ≠ INPUT_LINE_HALT).

(** The line exists, and its queue has room for 32 events. *)
Definition line_ok (s : St W) : Prop :=
  present s i /\ (l < length (m_input (device s i)))%nat /\
  length (m_queue (input s i l)) = 32%nat /\ (m_qindex (input s i l) <= 32)%nat.

Lemma input_on s f : line_ok s -> input (on_input i l f s) i l = f (input s i l).
Proof.
  intros (Hi & Hlt & _). unfold input, on_input. rewrite device_on by done. case_decide; [|done]. cbn.
  rewrite list_lookup_alter_eq. by destruct (lookup_lt_is_Some_2 _ _ Hlt) as [x ->].
Qed.

Lemma line_on s f : line_ok s ->
  (forall inp, length (m_queue inp) = 32%nat -> length (m_queue (f inp)) = 32%nat) ->
  (m_qindex (f (input s i l)) <= 32)%nat -> line_ok (on_input i l f s).
Proof.
  intros Hok Hq Hx. pose proof Hok as (Hi & Hlt & Hlen & _). split; [|split; [|split]].
  - unfold present, on_input. by rewrite length_on_device.
  - unfold on_input. rewrite device_on by done. case_decide; [|done]. cbn. by rewrite length_alter.
  - rewrite input_on by done. by apply Hq.
  - by rewrite input_on.
Qed.

Lemma same_line s s' : same_inputs s s' ->
  m_machine s'.2 = m_machine s.2 /\ input s' i l = input s i l /\ (line_ok s -> line_ok s').
Proof.
  intros [Em El Ed]. assert (input s' i l = input s i l) as Ei by (unfold input; by rewrite Ed).
  split; [done|]. split; [done|]. unfold line_ok, present. by rewrite El, Ed, Ei.
Qed.

(** The level the device is given. *)
Definition level (state : Z) : Z := if state =? CLEAR_LINE then CLEAR_LINE else ASSERT_LINE.
Definition valid_state (state : Z) : Prop := state = CLEAR_LINE \/ state = ASSERT_LINE \/ state = HOLD_LINE.

(** What the device and the line know: the state of the machine, and the
    state and the vector last put on the line. *)
Definition drive (a : W * Z * Z) (event : Z * Z) : W * Z * Z :=
  (execute_set_input i l (level event.1) a.1.1, event.1, event.2).
Definition known_line (s : St W) : W * Z * Z :=
  (m_machine s.2, m_curstate (input s i l), m_curvector (input s i l)).
Definition decoded (event : Z) : Z * Z := (Z.land event 0xff, Z.shiftr event 8).

Lemma input_event_ok event s : line_ok s -> valid_state (Z.land event 0xff) ->
  line_ok (input_event i l event s) /\
  known_line (input_event i l event s) = drive (known_line s) (decoded event) /\
  m_queue (input (input_event i l event s) i l) = m_queue (input s i l) /\
  m_qindex (input (input_event i l event s) i l) = m_qindex (input s i l) /\
  m_stored_vector (input (input_event i l event s) i l) = m_stored_vector (input s i l).
Proof.
  intros Hok Hv. unfold input_event. cbv zeta.
  set (f := fun inp : device_input => inp <| m_curstate := Z.land event 0xff |> <| m_curvector := Z.shiftr event 8 |>).
  set (s1 := on_input i l f s).
  assert (line_ok s1) as Hok1 by (apply line_on; [done|by intros inp|apply Hok]).
  assert (input s1 i l = f (input s i l)) as E1 by (by apply input_on).
  destruct Hl as [Hr Hh]. rewrite !(proj2 (Nat.eqb_neq _ _)) by done.
  assert (m_curstate (input s1 i l) = Z.land event 0xff) as Ec by (by rewrite E1).
  assert ((if (m_curstate (input s1 i l) =? HOLD_LINE) || (m_curstate (input s1 i l) =? ASSERT_LINE)
           then on_machine (execute_set_input i l ASSERT_LINE) s1
           else if m_curstate (input s1 i l) =? CLEAR_LINE then on_machine (execute_set_input i l CLEAR_LINE) s1 else s1)
          = on_machine (execute_set_input i l (level (Z.land event 0xff))) s1) as ->.
  { rewrite Ec. by destruct Hv as [-> | [-> | ->]]. }
  set (s2 := on_machine _ s1).
  assert (line_ok s2 /\ input s2 i l = f (input s i l) /\ known_line s2 = drive (known_line s) (decoded event)) as (Hok2 & E2 & Ek2).
  { split; [exact Hok1|]. split; [exact E1|]. unfold known_line. change (input s2 i l) with (input s1 i l). by rewrite E1. }
  assert (forall t, same_inputs s2 t -> line_ok t /\ known_line t = drive (known_line s) (decoded event) /\
    input t i l = f (input s i l)) as Hsame.
  { intros t Ht. destruct (same_line s2 t Ht) as (Em & Ei & Hk). split; [by apply Hk|].
    unfold known_line in *. rewrite Em, Ei. split; [exact Ek2|exact E2]. }
  destruct (negb _).
  - destruct (Hsame (signal_interrupt_trigger i s2)) as (H1 & H2 & H3); [apply inputs_trigger|].
    rewrite H3. done.
  - destruct (Hsame s2) as (H1 & H2 & H3); [reflexivity|]. rewrite H3. done.
Qed.

Definition pending (s : St W) : list Z := take (m_qindex (input s i l)) (m_queue (input s i l)).
(** What the device and the line will know once the queue is empty. *)
Definition settled (s : St W) : W * Z * Z := fold_left drive (map decoded (pending s)) (known_line s).
Definition valid_queue (s : St W) : Prop := Forall (fun event => valid_state (Z.land event 0xff)) (pending s).
Definition line_ready (s : St W) : Prop := line_ok s /\ valid_queue s.

Lemma nth_take_drop (q : list Z) n k : (k < n)%nat -> (n <= length q)%nat ->
  drop k (take n q) = nth k q 0 :: drop (S k) (take n q).
Proof.
  intros Hk Hn. assert (take n q !! k = Some (nth k q 0)) as E.
  { rewrite lookup_take_lt by done. destruct (lookup_lt_is_Some_2 q k) as [x Ex]; [lia|].
    rewrite Ex. f_equal. symmetry. by apply nth_lookup_Some. }
  by apply drop_S.
Qed.

Lemma empty_events_ok fuel k s : line_ok s -> valid_queue s -> (k <= m_qindex (input s i l) < fuel + k)%nat ->
  let s' := empty_events fuel i l k s in
  line_ok s' /\ known_line s' = fold_left drive (map decoded (drop k (pending s))) (known_line s) /\
  m_stored_vector (input s' i l) = m_stored_vector (input s i l).
Proof.
  revert k s. induction fuel as [|fuel IH]; intros k s Hok Hv Hk; [lia|]. cbn [empty_events]. cbv zeta.
  pose proof Hok as (Hi & Hlt & Hlen & Hq). destruct (Nat.ltb_spec k (m_qindex (input s i l))) as [Hlt'|Hge].
  - unfold pending. rewrite (nth_take_drop _ _ k) by lia. cbn [map fold_left].
    set (event := nth k (m_queue (input s i l)) 0).
    assert (valid_state (Z.land event 0xff)) as Hev.
    { unfold valid_queue, pending in Hv. rewrite <- (take_drop k (take _ _)), nth_take_drop in Hv by lia.
      apply Forall_app in Hv as [_ [Hv _]%Forall_cons]. exact Hv. }
    destruct (input_event_ok event s Hok Hev) as (H1 & H2 & H3 & H4 & H5).
    set (s1 := input_event i l event s) in *. clearbody s1.
    assert (pending s1 = pending s) as Ep by (unfold pending; by rewrite H3, H4).
    destruct (IH (S k) s1 H1) as (G1 & G2 & G3); [unfold valid_queue; by rewrite Ep|rewrite H4; lia|].
    split; [done|]. split; [|by rewrite G3]. rewrite G2, Ep, H2. done.
  - split; [done|]. split; [|done]. unfold pending. rewrite drop_ge by (rewrite length_take; lia). done.
Qed.

Definition drained (s : St W) : St W := on_input i l (fun inp => inp <| m_qindex := 0%nat |>) s.

Lemma drained_ok s : line_ok s ->
  line_ready (drained s) /\ known_line (drained s) = known_line s /\ m_qindex (input (drained s) i l) = 0%nat /\
  m_stored_vector (input (drained s) i l) = m_stored_vector (input s i l).
Proof.
  intros Hok. assert (input (drained s) i l = input s i l <| m_qindex := 0%nat |>) as E by (by apply input_on).
  split; [split|split; [|split]].
  - apply line_on; [done|by intros inp|cbn; lia].
  - unfold valid_queue, pending. by rewrite E.
  - unfold known_line. by rewrite E.
  - by rewrite E.
  - by rewrite E.
Qed.

Lemma drain_ok fuel s : line_ready s -> (m_qindex (input s i l) < fuel)%nat ->
  let s' := drained (empty_events fuel i l 0 s) in
  line_ready s' /\ known_line s' = settled s /\ m_qindex (input s' i l) = 0%nat /\
  m_stored_vector (input s' i l) = m_stored_vector (input s i l).
Proof.
  intros [Hok Hv] Hf. destruct (empty_events_ok fuel 0 s Hok Hv ltac:(lia)) as (H1 & H2 & H3).
  destruct (drained_ok _ H1) as (D1 & D2 & D3 & D4). cbv zeta.
  split; [exact D1|]. split; [by rewrite D2|]. split; [exact D3|]. by rewrite D4.
Qed.

Lemma empty_event_queue_ok s : line_ready s ->
  let s' := empty_event_queue i l s in
  line_ready s' /\ known_line s' = settled s /\ m_qindex (input s' i l) = 0%nat /\
  m_stored_vector (input s' i l) = m_stored_vector (input s i l).
Proof. intros Hr. refine (drain_ok 33 s Hr _). destruct Hr as [(_ & _ & _ & Hq) _]. lia. Qed.

(** The code an event is queued as. *)
Lemma event_code state vector : valid_state state -> -8388608 <= vector < 8388608 ->
  decoded (s32 (Z.lor (Z.land state 0xff) (Z.shiftl vector 8))) = (state, vector).
Proof.
  intros Hst Hv. assert (Z.land state 0xff = state) as Es by (by destruct Hst as [-> | [-> | ->]]).
  assert (0 <= state < 256) as Hr by (destruct Hst as [-> | [-> | ->]]; done).
  assert (Z.lor state (Z.shiftl vector 8) = state + vector * 256) as Ec.
  { replace (vector * 256) with (Z.shiftl vector 8) by (by rewrite Z.shiftl_mul_pow2).
    symmetry. apply Z.add_nocarry_lor. apply Z.bits_inj'. intros n Hn.
    rewrite Z.land_spec, Z.bits_0. destruct (Z.lt_ge_cases n 8).
    - rewrite Z.shiftl_spec_low by done. apply andb_false_r.
    - assert (Z.testbit state n = false) as ->; [|done].
      apply Z.bits_above_log2; unfold valid_state, CLEAR_LINE, ASSERT_LINE, HOLD_LINE in Hst; destruct Hst as [-> | [-> | ->]]; cbn; lia. }
  rewrite Es, Ec, s32_id by lia. unfold decoded. f_equal.
  - change 0xff with (Z.ones 8). rewrite Z.land_ones by lia. change (2 ^ 8) with 256.
    rewrite Z.mod_add by lia. by apply Z.mod_small.
  - rewrite Z.shiftr_div_pow2 by lia. change (2 ^ 8) with 256. rewrite Z.div_add by lia. rewrite Z.div_small by done. lia.
Qed.

(** The vector an event carries. *)
Definition vector_of (s : St W) (vector : Z) : Z :=
  if vector =? USE_STORED_VECTOR then m_stored_vector (input s i l) else vector.
Definition small (vector : Z) : Prop := -8388608 <= vector < 8388608.

(** Putting an event in the queue at its end. *)
Lemma enqueued_ok s state vector n : line_ready s -> n = m_qindex (input s i l) -> (n < 32)%nat ->
  valid_state state -> small (vector_of s vector) ->
  let s' := on_input i l (enqueued n state vector) (on_input i l (fun inp => inp <| m_qindex ::= S |>) s) in
  line_ready s' /\ settled s' = drive (settled s) (state, vector_of s vector) /\
  m_stored_vector (input s' i l) = m_stored_vector (input s i l).
Proof.
  intros [Hok Hvq] -> Hn Hst Hsm. cbv zeta. set (s1 := on_input i l (fun inp => inp <| m_qindex ::= S |>) s).
  assert (line_ok s1) as Hok1 by (apply line_on; [done|by intros inp|cbn; lia]).
  assert (input s1 i l = input s i l <| m_qindex ::= S |>) as E1 by (by apply input_on).
  set (s2 := on_input i l _ s1).
  set (event := s32 (Z.lor (Z.land state 0xff) (Z.shiftl (vector_of s vector) 8))).
  assert (input s2 i l = input s1 i l <| m_queue ::= <[m_qindex (input s i l) := event]> |>) as E2.
  { unfold s2. rewrite input_on by done. unfold enqueued, event, vector_of. by rewrite E1. }
  assert (line_ok s2) as Hok2.
  { apply line_on; [done| |]. { intros inp Hi. unfold enqueued. cbn. by rewrite length_insert. }
    unfold enqueued. rewrite E1. cbn. lia. }
  pose proof Hok as (_ & _ & Hlen & _).
  assert (pending s2 = pending s ++ [event]) as Ep.
  { unfold pending. rewrite E2, E1. cbn. rewrite (take_S_r _ _ event) by (apply list_lookup_insert_eq; lia).
    by rewrite take_insert_ge by lia. }
  assert (known_line s2 = known_line s) as Ek by (unfold known_line; by rewrite E2, E1).
  pose proof (event_code state _ Hst Hsm) as Ec. fold event in Ec.
  split; [split; [done|]|split].
  - unfold valid_queue. rewrite Ep. apply Forall_app. split; [done|]. apply Forall_singleton.
    unfold decoded in Ec. injection Ec as -> _. exact Hst.
  - unfold settled. rewrite Ep, Ek, map_app, fold_left_app. cbn [map fold_left]. by rewrite Ec.
  - by rewrite E2, E1.
Qed.

Lemma same_ready s s' : same_inputs s s' -> line_ready s -> line_ready s' /\ settled s' = settled s /\
  m_stored_vector (input s' i l) = m_stored_vector (input s i l).
Proof.
  intros Hs [Hok Hv]. destruct (same_line s s' Hs) as (Em & Ei & Hk).
  unfold line_ready, valid_queue, settled, pending, known_line. rewrite Em, Ei. split; [split; [by apply Hk|exact Hv]|done].
Qed.

Lemma maybe_synchronize_ok (b : bool) s : line_ready s ->
  let s' := if b then synchronize (input_events i l) 0 s else s in
  line_ready s' /\ settled s' = settled s /\ m_stored_vector (input s' i l) = m_stored_vector (input s i l).
Proof. intros Hr. destruct b; [|done]. apply same_ready; [apply inputs_timers|done]. Qed.

(** The tail of [set_state_synced], a place having been taken. *)
Lemma enqueue_ok s state vector n : line_ready s -> n = m_qindex (input s i l) -> (n < 32)%nat ->
  valid_state state -> small (vector_of s vector) ->
  let s1 := on_input i l (fun inp => inp <| m_qindex ::= S |>) s in
  let s' := if (n <? length (m_queue (input s1 i l)))%nat
            then let s := on_input i l (enqueued n state vector) s1 in
                 if (n =? 0)%nat then synchronize (input_events i l) 0 s else s
            else s1 in
  line_ready s' /\ settled s' = drive (settled s) (state, vector_of s vector) /\
  m_stored_vector (input s' i l) = m_stored_vector (input s i l).
Proof.
  intros Hr En Hn Hst Hsm. cbv zeta. destruct (enqueued_ok s state vector n Hr En Hn Hst Hsm) as (H1 & H2 & H3).
  pose proof Hr as [Hok _]. pose proof Hok as (_ & _ & Hlen & _).
  rewrite input_on by done. change (length (m_queue (input s i l <| m_qindex ::= S |>))) with (length (m_queue (input s i l))).
  rewrite Hlen. destruct (Nat.ltb_spec n 32); [|lia].
  destruct (maybe_synchronize_ok (n =? 0)%nat _ H1) as (G1 & G2 & G3).
  split; [exact G1|]. split; [by rewrite G2|]. by rewrite G3.
Qed.

(** Taking a place and giving it back. *)
Lemma place_back s : line_ready s ->
  let s' := on_input i l (fun inp => inp <| m_qindex ::= pred |>) (on_input i l (fun inp => inp <| m_qindex ::= S |>) s) in
  line_ready s' /\ settled s' = settled s /\ m_stored_vector (input s' i l) = m_stored_vector (input s i l).
Proof.
  intros [Hok Hv]. cbv zeta. set (s1 := on_input i l (fun inp => inp <| m_qindex ::= S |>) s).
  assert (input s1 i l = input s i l <| m_qindex ::= S |>) as E1 by (by apply input_on).
  assert (line_ok s /\ present s1 i /\ (l < length (m_input (device s1 i)))%nat) as (_ & Hp1 & Hl1).
  { pose proof Hok as (Hi & Hlt & _). split; [done|]. unfold s1, on_input. split.
    - unfold present. by rewrite length_on_device.
    - rewrite device_on by done. case_decide; [|done]. cbn. by rewrite length_alter. }
  set (s2 := on_input i l (fun inp => inp <| m_qindex ::= pred |>) s1).
  assert (input s2 i l = input s i l) as E2.
  { unfold s2, input, on_input. rewrite device_on by done. case_decide; [|done]. cbn.
    rewrite list_lookup_alter_eq. destruct (lookup_lt_is_Some_2 _ _ Hl1) as [x Ex]. rewrite Ex. cbn.
    unfold input in E1. rewrite Ex in E1. cbn in E1. rewrite E1. fold (input s i l). by destruct (input s i l). }
  assert (line_ok s2) as Hok2.
  { pose proof Hok as (_ & _ & Hlen & Hq). split; [|split; [|by rewrite E2]].
    - unfold present, s2, on_input. by rewrite length_on_device.
    - unfold s2, on_input. rewrite device_on by done. case_decide; [|done]. cbn. by rewrite length_alter. }
  unfold line_ready, valid_queue, settled, pending, known_line. by rewrite E2.
Qed.

Lemma set_state_ok s state vector : line_ready s -> valid_state state -> small (vector_of s vector) ->
  let s' := set_state_synced i l state vector s in
  line_ready s' /\ settled s' = drive (settled s) (state, vector_of s vector) /\
  m_stored_vector (input s' i l) = m_stored_vector (input s i l).
Proof.
  intros Hr Hst Hsm. pose proof Hr as [(Hi & Hlt & Hlen & Hq) _]. unfold set_state_synced. cbv zeta.
  rewrite (input_on s) by apply Hr.
  change (length (m_queue (input s i l <| m_qindex ::= S |>))) with (length (m_queue (input s i l))). rewrite Hlen.
  destruct (Nat.leb_spec 32 (m_qindex (input s i l))) as [Hfull|Hroom].
  2:{ exact (enqueue_ok s state vector _ Hr eq_refl Hroom Hst Hsm). }
  destruct (place_back s Hr) as (P1 & P2 & P3).
  set (s1 := on_input i l (fun inp => inp <| m_qindex ::= pred |>) _) in *.
  destruct (empty_event_queue_ok s1 P1) as (Q1 & Q2 & Q3 & Q4). set (s2 := empty_event_queue i l s1) in *.
  assert (vector_of s2 vector = vector_of s vector) as Ev by (unfold vector_of; by rewrite Q4, P3).
  destruct (enqueue_ok s2 state vector 0%nat Q1 (eq_sym Q3) ltac:(lia) Hst) as (R1 & R2 & R3); [by rewrite Ev|].
  rewrite Q3. split; [exact R1|]. split.
  - etransitivity; [exact R2|]. rewrite Ev. f_equal. unfold settled at 1, pending. rewrite Q3. cbn [take map fold_left].
    by rewrite Q2, P2.
  - etransitivity; [exact R3|]. by rewrite Q4, P3.
Qed.

Lemma set_states_ok (events : list (Z * Z)) s t : line_ready t ->
  m_stored_vector (input t i l) = m_stored_vector (input s i l) ->
  Forall (fun e => valid_state e.1 /\ small (vector_of s e.2)) events ->
  let t' := fold_left (fun s e => set_state_synced i l e.1 e.2 s) events t in
  line_ready t' /\ settled t' = fold_left (fun a e => drive a (e.1, vector_of s e.2)) events (settled t).
Proof.
  revert t. induction events as [|e events IH]; intros t Hr Hv Hall; [done|].
  apply Forall_cons in Hall as [[Hst Hsm] Hall]. cbn [fold_left].
  assert (vector_of t e.2 = vector_of s e.2) as Ev by (unfold vector_of; by rewrite Hv).
  destruct (set_state_ok t e.1 e.2) as (H1 & H2 & H3); [done|done|by rewrite Ev|].
  destruct (IH (set_state_synced i l e.1 e.2 t) H1) as [G1 G2]; [by rewrite H3|done|].
  split; [exact G1|]. cbv zeta. rewrite G2, H2. by rewrite Ev.
Qed.

(** C6: The device sees every change of an ordinary input line, in order and
    exactly once, however many are queued: after the queue is emptied the
    machine, the line's state and its vector are what driving the line with
    the changes one by one gives, a queue that overflows being flushed on the
    way. *)
Theorem input_line_in_order (events : list (Z * Z)) s : line_ready s ->
  Forall (fun e => valid_state e.1 /\ small (vector_of s e.2)) events ->
  let s' := empty_event_queue i l (fold_left (fun s e => set_state_synced i l e.1 e.2 s) events s) in
  known_line s' = fold_left (fun a e => drive a (e.1, vector_of s e.2)) events (settled s) /\
  m_qindex (input s' i l) = 0%nat.
Proof.
  intros Hr Hall. destruct (set_states_ok events s s Hr eq_refl Hall) as [Ht Es].
  destruct (empty_event_queue_ok _ Ht) as (_ & H2 & H3 & _).
  split; [exact (eq_trans H2 Es)|exact H3].
Qed.

End Line.
(** ** Triggers *)

(** What a trigger is about: the pending reasons and the trigger awaited. *)
Definition waits (x : execute_device) : Z * Z := (m_nextsuspend x, m_trigger x).
Definition woken (trigid : Z) (p : Z * Z) : Z * Z :=
  if test p.1 SUSPEND_REASON_TRIGGER && (p.2 =? trigid)
  then (Z.land p.1 (Z.lnot SUSPEND_REASON_TRIGGER), 0) else p.

Lemma waits_device k f s j : (forall x, waits (f x) = waits x) -> waits (device (on_device k f s) j) = waits (device s j).
Proof.
  intros Hf. destruct (decide (present s k)) as [Hk|Hk]; [|by rewrite device_on_out].
  rewrite device_on by done. case_decide; [apply Hf|done].
Qed.

Lemma waits_abort k s j : waits (device (abort_timeslice k s) j) = waits (device s j).
Proof.
  unfold abort_timeslice. destruct (negb _); [done|]. apply waits_device.
  intros x. unfold swallow. by destruct (_ <? _).
Qed.

Lemma waits_changed k s j : waits (device (suspend_resume_changed k s) j) = waits (device s j).
Proof. unfold suspend_resume_changed. cbv zeta. by rewrite waits_abort. Qed.

Lemma length_abort k s : length (devices (abort_timeslice k s).2) = length (devices s.2).
Proof. unfold abort_timeslice. destruct (negb _); [done|]. apply length_on_device. Qed.

Lemma waits_resume k reason s j : present s k ->
  waits (device (resume k reason s) j) =
    if decide (k = j) then (Z.land (m_nextsuspend (device s j)) (Z.lnot reason), m_trigger (device s j)) else waits (device s j).
Proof. intros Hk. unfold resume. cbv zeta. rewrite waits_changed, device_on by done. by case_decide. Qed.

Lemma waits_trigger k trigid s j : present s k ->
  waits (device (trigger k trigid s) j) = (if decide (k = j) then woken trigid (waits (device s j)) else waits (device s j)) /\
  length (devices (trigger k trigid s).2) = length (devices s.2).
Proof.
  intros Hk. unfold trigger. cbv zeta. set (s1 := abort_timeslice k s).
  assert (forall j, waits (device s1 j) = waits (device s j)) as E1 by (intros; apply waits_abort).
  assert (length (devices s1.2) = length (devices s.2)) as El by apply length_abort. clearbody s1.
  assert (present s1 k) as Hk1 by (unfold present; by rewrite El).
  pose proof (E1 k) as Ek. unfold waits in Ek. injection Ek as En Et.
  change (test (m_nextsuspend (device s1 k)) SUSPEND_REASON_TRIGGER && (m_trigger (device s1 k) =? trigid))
    with (test (waits (device s1 k)).1 SUSPEND_REASON_TRIGGER && ((waits (device s1 k)).2 =? trigid)).
  rewrite (E1 k). unfold woken. destruct (decide (k = j)) as [<-|Hne].
  - destruct (_ && _); [|by rewrite E1]. set (s2 := resume k SUSPEND_REASON_TRIGGER s1).
    assert (length (devices s2.2) = length (devices s1.2)) as El2.
    { unfold s2, resume, suspend_resume_changed. cbv zeta. rewrite length_abort. apply length_on_device. }
    split; [|by rewrite length_on_device, El2]. rewrite device_on by (unfold present; by rewrite El2).
    destruct (decide (k = k)); [|done]. unfold waits, upd. cbn. f_equal.
    pose proof (waits_resume k SUSPEND_REASON_TRIGGER s1 k Hk1) as Hw. fold s2 in Hw. rewrite decide_True in Hw by done.
    unfold waits in Hw. injection Hw as -> _. by rewrite En.
  - destruct (_ && _); [|by rewrite E1]. set (s2 := resume k SUSPEND_REASON_TRIGGER s1).
    assert (length (devices s2.2) = length (devices s1.2)) as El2.
    { unfold s2, resume, suspend_resume_changed. cbv zeta. rewrite length_abort. apply length_on_device. }
    split; [|by rewrite length_on_device, El2]. rewrite device_on by (unfold present; by rewrite El2).
    destruct (decide (k = j)); [done|]. unfold s2. rewrite waits_resume by done. rewrite decide_False by done. apply E1.
Qed.

Lemma waits_all js trigid s j : NoDup js -> (forall k, k ∈ js -> present s k) ->
  waits (device (fold_left (fun s k => trigger k trigid s) js s) j) =
    if decide (j ∈ js) then woken trigid (waits (device s j)) else waits (device s j).
Proof.
  revert s. induction js as [|k js IH]; intros s Hnd Hp; cbn [fold_left].
  { destruct (decide (j ∈ [])) as [Hj|]; [by apply elem_of_nil in Hj|done]. }
  apply NoDup_cons in Hnd as [Hk Hnd]. destruct (waits_trigger k trigid s j) as [Ew El]; [apply Hp; by left|].
  rewrite IH, Ew; [|done|intros m Hm; unfold present; rewrite El; apply Hp; by right].
  destruct (decide (j ∈ js)), (decide (k = j)), (decide (j ∈ k :: js)); subst; try done; set_solver.
Qed.

(** C24: A device that waits for a trigger is suspended for that reason, and a
    trigger clears the reason in exactly the devices that wait for it: other
    reasons, other devices and devices waiting for another trigger are left. *)
Theorem trigger_wakes_waiters i trigid other_trigger eat s :
  NoDup (m_execute_list s.2) -> (forall j, j ∈ m_execute_list s.2 <-> present s j) -> present s i ->
  let s1 := suspend_until_trigger i trigid eat s in
  suspended s1 i SUSPEND_REASON_TRIGGER = true /\
  (forall j, waits (device (scheduler_trigger other_trigger zero s1) j) = woken other_trigger (waits (device s1 j))) /\
  suspended (scheduler_trigger other_trigger zero s1) i SUSPEND_REASON_TRIGGER = negb (other_trigger =? trigid).
Proof.
  intros Hnd Hin Hi. cbv zeta. set (s1 := suspend_until_trigger i trigid eat s).
  assert (length (devices s1.2) = length (devices s.2) /\ m_execute_list s1.2 = m_execute_list s.2 /\
          waits (device s1 i) = (Z.lor (m_nextsuspend (device s i)) SUSPEND_REASON_TRIGGER, trigid)) as (El & Em & Ew).
  { unfold s1, suspend_until_trigger, suspend. cbv zeta.
    set (s2 := on_device i (fun x => x <| m_nextsuspend ::= fun m => Z.lor m SUSPEND_REASON_TRIGGER |> <| m_nexteatcycles := eat |>) s).
    assert (length (devices (suspend_resume_changed i s2).2) = length (devices s.2)) as E3.
    { unfold suspend_resume_changed. cbv zeta. rewrite length_abort. apply length_on_device. }
    split; [by rewrite length_on_device|]. split.
    - unfold suspend_resume_changed, abort_timeslice. cbv zeta. by destruct (negb _).
    - rewrite device_on by (unfold present; by rewrite E3). destruct (decide (i = i)); [|done].
      pose proof (waits_changed i s2 i) as E4. unfold s2 in E4 at 2. rewrite device_on in E4 by done.
      rewrite decide_True in E4 by done.
      change ((m_nextsuspend (device (suspend_resume_changed i s2) i), trigid) = (Z.lor (m_nextsuspend (device s i)) SUSPEND_REASON_TRIGGER, trigid)).
      f_equal. exact (f_equal fst E4). }
  assert (forall x, test (Z.lor x SUSPEND_REASON_TRIGGER) SUSPEND_REASON_TRIGGER = true) as Ht.
  { intros x. unfold SUSPEND_REASON_TRIGGER. rewrite test_08, Z.lor_spec. by rewrite orb_true_r. }
  assert (forall j, waits (device (scheduler_trigger other_trigger zero s1) j) = woken other_trigger (waits (device s1 j))) as Hall.
  { intros j. unfold scheduler_trigger. cbv zeta.
    assert (built s1 = s1) as ->.
    { unfold built. rewrite Em. destruct (m_execute_list s.2) as [|k ks] eqn:E; [|done].
      apply Hin in Hi. by apply elem_of_nil in Hi. }
    change (negb (eqb zero zero)) with false. cbv iota. rewrite Em, waits_all by
      (done || (intros k Hk; unfold present; rewrite El; by apply Hin)).
    destruct (decide _) as [|Hn]; [done|]. unfold device.
    rewrite lookup_ge_None_2; [done|]. rewrite El. destruct (decide (present s j)) as [Hj|Hj]; [|unfold present in Hj; lia].
    by apply Hin in Hj. }
  pose proof (f_equal fst Ew) as En. cbn in En.
  split; [unfold suspended; rewrite En; apply Ht|]. split; [done|].
  unfold suspended. change (m_nextsuspend (device (scheduler_trigger other_trigger zero s1) i))
    with (waits (device (scheduler_trigger other_trigger zero s1) i)).1. rewrite Hall, Ew. unfold woken. cbn [fst snd].
  rewrite Ht, (Z.eqb_sym trigid). destruct (other_trigger =? trigid); cbn [andb negb fst]; [|apply Ht].
  unfold SUSPEND_REASON_TRIGGER. rewrite test_08, Z.land_spec. apply andb_false_r.
Qed.
End Laws.

(** ** Witnesses, on the machine of two processors *)

Section Sample.
#[local] Existing Instance sample_interface.

Lemma sample_present j : present sample_devices j <-> j = 0%nat \/ j = 1%nat.
Proof. unfold present. change (length (devices sample_devices.2)) with 2%nat. lia. Qed.

Lemma add_quantum_requests_witness :
  map (fun q => (m_requested q, m_actual q)) (m_quantum_list (add_quantum (usec 1) (usec 50) sample_devices).2) =
    [(1000000000000, 1000000000000); (16666666666666666, 16666666666666666)] /\
  requests (m_quantum_list (add_quantum (usec 1) (usec 50) sample_devices).2) !! 1000000000000 = Some (usec 50).
Proof.
  destruct (add_quantum_requests (usec 1) (usec 50) sample_devices) as (H1 & H2 & H3 & _).
  - vm_compute. split; congruence.
  - apply Forall_singleton. vm_compute. split; congruence.
  - repeat constructor.
  - apply Forall_singleton. vm_compute. reflexivity.
  - split; [vm_compute; reflexivity|]. rewrite H3. vm_compute. reflexivity.
Defined.

Definition sample_uneven : St log := (sample_devices.1, sample_devices.2 <| m_quantum_minimum := 1000000 |>).

Lemma perfect_interleave_witness :
  m_quantum_minimum (compute_perfect_interleave sample_uneven).2 = 375000000000.
Proof.
  destruct (perfect_interleave sample_uneven 0%nat [1%nat]) as (H1 & _).
  - reflexivity.
  - vm_compute. congruence.
  - apply Forall_singleton. vm_compute. reflexivity.
  - rewrite H1. vm_compute. reflexivity.
Defined.

Lemma sample_line_ready : line_ready 1 3 sample_devices.
Proof.
  split.
  - split; [apply sample_present; by right|]. vm_compute. lia.
  - constructor.
Qed.

(** Forty changes: more than the queue holds. *)
Definition sample_pulses : list (Z * Z) := concat (replicate 20 [(ASSERT_LINE, 7); (CLEAR_LINE, USE_STORED_VECTOR)]).

Lemma forall_repeated {A} (P : A -> Prop) n l : Forall P l -> Forall P (concat (replicate n l)).
Proof. intros Hl. induction n as [|n IH]; [constructor|]. apply Forall_app. done. Qed.

Lemma known_machine i l (s : St log) : m_machine s.2 = (known_line i l s).1.1.
Proof. reflexivity. Qed.

Lemma input_line_in_order_witness :
  m_machine (empty_event_queue 1 3 (fold_left (fun s e => set_state_synced 1 3 e.1 e.2 s) sample_pulses sample_devices)).2 =
    concat (replicate 20 [(1%nat, 3%nat, ASSERT_LINE); (1%nat, 3%nat, CLEAR_LINE)]).
Proof.
  assert (3%nat ≠ INPUT_LINE_RESET /\ 3%nat ≠ INPUT_LINE_HALT) as Hl by (split; discriminate).
  assert (Forall (fun e => valid_state e.1 /\ small (vector_of 1 3 sample_devices e.2)) sample_pulses) as Hp.
  { apply forall_repeated. repeat constructor; cbn [fst snd];
      (by (right; left)) || (by left) || (vm_compute; congruence). }
  destruct (input_line_in_order 1 3 Hl sample_pulses sample_devices sample_line_ready Hp) as [H1 _].
  etransitivity; [apply (known_machine 1 3)|]. rewrite H1. vm_compute. reflexivity.
Defined.

Lemma trigger_wakes_waiters_witness :
  suspended (scheduler_trigger 9 zero (suspend_until_trigger 1 9 true sample_devices)) 1 SUSPEND_REASON_TRIGGER = false.
Proof.
  destruct (trigger_wakes_waiters 1 9 9 true sample_devices) as (_ & _ & H3).
  - apply NoDup_cons. split; [|apply NoDup_singleton]. intros Hx%elem_of_cons. rewrite elem_of_nil in Hx. naive_solver.
  - intros j. rewrite sample_present. change (m_execute_list sample_devices.2) with [0%nat; 1%nat].
    rewrite !elem_of_cons, elem_of_nil. tauto.
  - apply sample_present. by right.
  - exact H3.
Defined.
End Sample.
