(* ===== verification/Serial.v ===== *)
(** * Serial: the asynchronous serial interface (src/src/emu/diserial.h, diserial.cpp)

    [serial] is the state of [device_serial_interface]: the frame format, the
    receive and transmit shift registers and the two bit clocks.  The hooks a
    device overrides ([tra_callback], [rcv_callback], [tra_complete],
    [rcv_complete]) and the scheduler's time are the operations of the class
    [SerialDevice], against which the clock edges are written.
    [buffered] adds the transmit FIFO of [device_buffered_serial_interface]. *)

From stdpp Require Import base tactics numbers option list.
From Stdlib Require Import ZArith Lia Bool.
From S2P Require Import Prelude Attotime Scheduler.

(** ** Data *)

Definition RECEIVE_REGISTER_WAITING_FOR_START_BIT : Z := 0x01.
Definition RECEIVE_REGISTER_SYNCHRONISED : Z := 0x02.
Definition RECEIVE_REGISTER_FULL : Z := 0x04.
Definition TRANSMIT_REGISTER_EMPTY : Z := 0x0001.

Inductive parity_t := PARITY_NONE | PARITY_ODD | PARITY_EVEN | PARITY_MARK | PARITY_SPACE.
Inductive stop_bits_t := STOP_BITS_0 | STOP_BITS_1 | STOP_BITS_1_5 | STOP_BITS_2.

#[export] Instance parity_eq_dec : EqDecision parity_t.
Proof. solve_decision. Defined.

Record serial := mk_serial {
  m_start_bit_hack_for_external_clocks : bool;
  m_df_start_bit_count : Z;
  m_df_word_length : Z;
  m_df_parity : parity_t;
  m_df_stop_bit_count : Z;
  m_df_min_rx_stop_bit_count : Z;
  m_rcv_register_data : Z;
  m_rcv_flags : Z;
  m_rcv_bit_count_received : Z;
  m_rcv_bit_count : Z;
  m_rcv_byte_received : Z;
  m_rcv_framing_error : bool;
  m_rcv_parity_error : bool;
  m_tra_register_data : Z;
  m_tra_flags : Z;
  m_tra_bit_count_transmitted : Z;
  m_tra_bit_count : Z;
  m_rcv_clock : emu_timer;
  m_tra_clock : emu_timer;
  m_rcv_rate : attotime;
  m_tra_rate : attotime;
  m_rcv_line : Z;
  m_tra_clock_state : Z;
  m_rcv_clock_state : Z
}.

#[export] Instance serial_eta : Eta serial := fun s =>
  mk_serial (m_start_bit_hack_for_external_clocks s) (m_df_start_bit_count s)
    (m_df_word_length s) (m_df_parity s) (m_df_stop_bit_count s)
    (m_df_min_rx_stop_bit_count s) (m_rcv_register_data s) (m_rcv_flags s)
    (m_rcv_bit_count_received s) (m_rcv_bit_count s) (m_rcv_byte_received s)
    (m_rcv_framing_error s) (m_rcv_parity_error s) (m_tra_register_data s)
    (m_tra_flags s) (m_tra_bit_count_transmitted s) (m_tra_bit_count s)
    (m_rcv_clock s) (m_tra_clock s) (m_rcv_rate s) (m_tra_rate s) (m_rcv_line s)
    (m_tra_clock_state s) (m_rcv_clock_state s).

(** The constructor followed by [interface_pre_start], which allocates the two
    clocks. *)
Definition new_serial : serial :=
  mk_serial false 0 0 PARITY_NONE 0 0 0x8000 0 0 0 0 false false 0 TRANSMIT_REGISTER_EMPTY
    0 0 new_timer new_timer never never 0 0 0.

Definition is_receive_register_full (s : serial) : bool :=
  test (m_rcv_flags s) RECEIVE_REGISTER_FULL.
Definition is_transmit_register_empty (s : serial) : bool :=
  test (m_tra_flags s) TRANSMIT_REGISTER_EMPTY.
Definition is_receive_register_synchronized (s : serial) : bool :=
  test (m_rcv_flags s) RECEIVE_REGISTER_SYNCHRONISED.
Definition is_receive_register_shifting (s : serial) : bool :=
  0 <? m_rcv_bit_count_received s.

(** ** The receive register *)

Definition receive_register_reset (s : serial) : serial :=
  let s := s <| m_rcv_bit_count_received := 0 |> in
  let s := s <| m_rcv_flags ::= clear_bits RECEIVE_REGISTER_FULL |> in
  if m_df_start_bit_count s =? 0 then
    s <| m_rcv_flags ::= set_bits RECEIVE_REGISTER_SYNCHRONISED |>
      <| m_rcv_flags ::= clear_bits RECEIVE_REGISTER_WAITING_FOR_START_BIT |>
  else
    s <| m_rcv_flags ::= clear_bits RECEIVE_REGISTER_SYNCHRONISED |>
      <| m_rcv_flags ::= set_bits RECEIVE_REGISTER_WAITING_FOR_START_BIT |>.

Definition receive_register_update_bit (bit : Z) (s : serial) : serial :=
  let previous_bit := BIT (m_rcv_register_data s) 15 in
  let s := s <| m_rcv_register_data ::= fun d => Z.shiftr d 1 |> in
  let s := s <| m_rcv_register_data ::= fun d =>
                  u16 (Z.lor (Z.land d 0x7fff) (Z.shiftl bit 15)) |> in
  if test (m_rcv_flags s) RECEIVE_REGISTER_WAITING_FOR_START_BIT then
    if test (Z.lxor previous_bit bit) 0x01 then
      if bit =? 0 then
        s <| m_rcv_flags ::= clear_bits RECEIVE_REGISTER_WAITING_FOR_START_BIT |>
          <| m_rcv_flags ::= set_bits RECEIVE_REGISTER_SYNCHRONISED |>
          <| m_rcv_bit_count_received := 0 |>
          <| m_rcv_framing_error := false |>
          <| m_rcv_parity_error := false |>
      else s
    else s
  else if test (m_rcv_flags s) RECEIVE_REGISTER_SYNCHRONISED then
    let s := s <| m_rcv_bit_count_received ::= fun n => u8 (n + 1) |> in
    let s :=
      if (bit =? 0) &&
         (m_rcv_bit_count s - m_df_min_rx_stop_bit_count s <? m_rcv_bit_count_received s)
      then s <| m_rcv_framing_error := true |> else s in
    if m_rcv_bit_count_received s =? m_rcv_bit_count s then
      s <| m_rcv_bit_count_received := 0 |>
        <| m_rcv_flags ::= clear_bits RECEIVE_REGISTER_SYNCHRONISED |>
        <| m_rcv_flags ::= set_bits RECEIVE_REGISTER_WAITING_FOR_START_BIT |>
        <| m_rcv_flags ::= set_bits RECEIVE_REGISTER_FULL |>
    else s
  else s.

Fixpoint popcount (n : nat) (x : Z) : Z :=
  match n with O => 0 | S n => b2z (Z.testbit x (Z.of_nat n)) + popcount n x end.

(** [BIT(std::popcount(data), 0)] of a byte. *)
Definition odd_ones (data : Z) : Z := BIT (popcount 8 data) 0.

Definition receive_register_extract (s : serial) : serial :=
  let s := receive_register_reset s in
  let data := u8 (Z.shiftr (m_rcv_register_data s) (16 - m_rcv_bit_count s)) in
  let data := u8 (Z.land data (Z.lnot (Z.shiftl 0xff (m_df_word_length s)))) in
  let s := s <| m_rcv_byte_received := data |> in
  let parity_received :=
    Z.land (Z.shiftr (m_rcv_register_data s) (16 - m_rcv_bit_count s + m_df_word_length s)) 0x01 in
  let failed :=
    match m_df_parity s with
    | PARITY_NONE => false
    | PARITY_ODD => parity_received =? odd_ones data
    | PARITY_EVEN => negb (parity_received =? odd_ones data)
    | PARITY_MARK => parity_received =? 0
    | PARITY_SPACE => negb (parity_received =? 0)
    end in
  if failed then s <| m_rcv_parity_error := true |> else s.

(** [rx_w]; [now] is the scheduler's time. *)
Definition rx_w (now : attotime) (state : Z) (s : serial) : serial :=
  let s := s <| m_rcv_line := u8 state |> in
  if test (m_rcv_flags s) RECEIVE_REGISTER_SYNCHRONISED then s
  else
    let s := receive_register_update_bit state s in
    if test (m_rcv_flags s) RECEIVE_REGISTER_SYNCHRONISED then
      if negb (is_never (m_rcv_rate s))
      then s <| m_rcv_clock ::= adjusted now (mul (m_rcv_rate s) 2) 0 (m_rcv_rate s) |>
      else if m_start_bit_hack_for_external_clocks s
           then s <| m_rcv_bit_count_received ::= fun n => u8 (n - 1) |>
           else s
    else s.

(** ** The transmit register *)

Definition transmit_register_reset (s : serial) : serial :=
  s <| m_tra_flags ::= set_bits TRANSMIT_REGISTER_EMPTY |>.

Definition transmit_register_add_bit (bit : Z) (s : serial) : serial :=
  s <| m_tra_register_data ::= fun d => u16 (Z.shiftl d 1) |>
    <| m_tra_register_data ::= fun d => u16 (Z.lor d (Z.land bit 0x01)) |>
    <| m_tra_bit_count ::= fun n => u8 (n + 1) |>.

(** [n] turns of a loop whose body is [f]. *)
Fixpoint repeat_bits (n : nat) (bit : Z) (s : serial) : serial :=
  match n with O => s | S n => repeat_bits n bit (transmit_register_add_bit bit s) end.

Fixpoint add_data_bits (n : nat) (transmit_data : Z) (s : serial) : serial :=
  match n with
  | O => s
  | S n => add_data_bits n (Z.shiftr transmit_data 1)
             (transmit_register_add_bit (BIT transmit_data 0) s)
  end.

Definition parity_bit (p : parity_t) (data_byte : Z) : Z :=
  match p with
  | PARITY_NONE => 0
  | PARITY_ODD => Z.lxor (odd_ones data_byte) 1
  | PARITY_EVEN => odd_ones data_byte
  | PARITY_MARK => 1
  | PARITY_SPACE => 0
  end.

Definition transmit_register_setup (now : attotime) (data_byte : Z) (s : serial) : serial :=
  let s := if negb (is_never (m_tra_rate s))
           then s <| m_tra_clock ::= adjusted now (m_tra_rate s) 0 (m_tra_rate s) |> else s in
  let s := s <| m_tra_bit_count_transmitted := 0 |> <| m_tra_bit_count := 0 |>
             <| m_tra_flags ::= clear_bits TRANSMIT_REGISTER_EMPTY |> in
  let s := repeat_bits (Z.to_nat (m_df_start_bit_count s)) 0 s in
  let s := add_data_bits (Z.to_nat (m_df_word_length s)) data_byte s in
  let s := if bool_decide (m_df_parity s = PARITY_NONE) then s
           else transmit_register_add_bit (parity_bit (m_df_parity s) data_byte) s in
  repeat_bits (Z.to_nat (m_df_stop_bit_count s)) 1 s.

Definition transmit_register_get_data_bit (s : serial) : Z * serial :=
  let bit := Z.land (Z.shiftr (m_tra_register_data s)
                       (m_tra_bit_count s - 1 - m_tra_bit_count_transmitted s)) 1 in
  let s := s <| m_tra_bit_count_transmitted ::= fun n => u8 (n + 1) |> in
  let s := if m_tra_bit_count_transmitted s =? m_tra_bit_count s
           then s <| m_tra_flags ::= set_bits TRANSMIT_REGISTER_EMPTY |> else s in
  (u8 bit, s).

(** ** Rates and the frame format *)

Definition set_rcv_rate (now rate : attotime) (s : serial) : serial :=
  let s := s <| m_rcv_rate := div rate 2 |> in
  let s := receive_register_reset s in
  s <| m_rcv_clock ::= adjusted now never 0 never |>.

Definition set_tra_rate (now rate : attotime) (s : serial) : serial :=
  let s := s <| m_tra_rate := div rate 2 |> in
  let s := transmit_register_reset s in
  s <| m_tra_clock ::= adjusted now never 0 never |>.

Definition rate_of_baud (baud : Z) : attotime :=
  if baud =? 0 then never else from_hz baud.
Definition rate_of_clock (clock div : Z) : attotime :=
  if negb (clock =? 0) && negb (div =? 0) then mul (from_hz_u32 clock) (u32 div) else never.

Definition set_rcv_baud (now : attotime) (baud : Z) : serial -> serial :=
  set_rcv_rate now (rate_of_baud baud).
Definition set_tra_baud (now : attotime) (baud : Z) : serial -> serial :=
  set_tra_rate now (rate_of_baud baud).
Definition set_rcv_clock (now : attotime) (clock div : Z) : serial -> serial :=
  set_rcv_rate now (rate_of_clock clock div).
Definition set_tra_clock (now : attotime) (clock div : Z) : serial -> serial :=
  set_tra_rate now (rate_of_clock clock div).
Definition set_rate (now rate : attotime) (s : serial) : serial :=
  set_tra_rate now rate (set_rcv_rate now rate s).

(** The two stop bit counts [set_data_frame] derives. *)
Definition stop_bit_counts (stop_bits : stop_bits_t) : Z * Z :=
  match stop_bits with
  | STOP_BITS_0 => (0, 0)
  | STOP_BITS_1 => (1, 1)
  | STOP_BITS_1_5 => (2, 1)
  | STOP_BITS_2 => (2, 1)
  end.

Definition set_data_frame (start_bit_count data_bit_count : Z) (parity : parity_t)
    (stop_bits : stop_bits_t) (s : serial) : serial :=
  let df_changed :=
    negb (start_bit_count =? m_df_start_bit_count s)
    || negb (data_bit_count =? m_df_word_length s)
    || negb (bool_decide (parity = m_df_parity s)) in
  let orig_stop_bit_count := m_df_stop_bit_count s in
  let orig_min_rx_stop_bit_count := m_df_min_rx_stop_bit_count s in
  let s := s <| m_df_word_length := u8 data_bit_count |> in
  let s := s <| m_df_stop_bit_count := (stop_bit_counts stop_bits).1 |>
             <| m_df_min_rx_stop_bit_count := (stop_bit_counts stop_bits).2 |> in
  let df_changed := df_changed
    || negb (m_df_stop_bit_count s =? orig_stop_bit_count)
    || negb (m_df_min_rx_stop_bit_count s =? orig_min_rx_stop_bit_count) in
  if negb df_changed then s
  else
    let s := s <| m_df_parity := parity |> <| m_df_start_bit_count := start_bit_count |> in
    let s := s <| m_rcv_bit_count := u8 (m_df_word_length s + m_df_min_rx_stop_bit_count s) |> in
    let s := if bool_decide (m_df_parity s = PARITY_NONE) then s
             else s <| m_rcv_bit_count ::= fun n => u8 (n + 1) |> in
    receive_register_reset s.

(** ** Clock edges

    What the interface asks of the device it is part of. *)

Class SerialDevice (D : Type) := {
  serial_of : D -> serial;
  on_serial : (serial -> serial) -> D -> D;
  sched_time : D -> attotime;
  tra_callback : D -> D;
  rcv_callback : D -> D;
  tra_complete : D -> D;
  rcv_complete : D -> D
}.

(** [on_serial] updates the serial part and nothing else of it. *)
Class SerialDeviceLaws (D : Type) `{SerialDevice D} := {
  serial_of_on_serial : forall f d, serial_of (on_serial f d) = f (serial_of d);
  sched_time_on_serial : forall f d, sched_time (on_serial f d) = sched_time d
}.

Section Edges.
Context {D : Type} `{SerialDevice D}.

(** The default [rcv_callback]. *)
Definition default_rcv_callback (d : D) : D :=
  on_serial (fun s => receive_register_update_bit (m_rcv_line s) s) d.

Definition stop_tra_clock (d : D) : D :=
  on_serial (fun s => s <| m_tra_clock ::= adjusted (sched_time d) never 0 never |>) d.
Definition stop_rcv_clock (d : D) : D :=
  on_serial (fun s => s <| m_rcv_clock ::= adjusted (sched_time d) never 0 never |>) d.

Definition tra_edge (d : D) : D :=
  let d :=
    if negb (is_transmit_register_empty (serial_of d)) then
      let d := tra_callback d in
      if is_transmit_register_empty (serial_of d) then tra_complete d else d
    else d in
  if is_transmit_register_empty (serial_of d) && negb (is_never (m_tra_rate (serial_of d)))
  then stop_tra_clock d else d.

Definition rcv_edge (d : D) : D :=
  let d := rcv_callback d in
  if is_receive_register_full (serial_of d) then rcv_complete (stop_rcv_clock d) else d.

Definition tx_clock_w (state : Z) (d : D) : D :=
  if negb (state =? m_tra_clock_state (serial_of d)) then
    let d := on_serial (fun s => s <| m_tra_clock_state := state |>) d in
    if negb (m_tra_clock_state (serial_of d) =? 0) then tra_edge d else d
  else d.

Definition rx_clock_w (state : Z) (d : D) : D :=
  if negb (state =? m_rcv_clock_state (serial_of d)) then
    let d := on_serial (fun s => s <| m_rcv_clock_state := state |>) d in
    if m_rcv_clock_state (serial_of d) =? 0 then rcv_edge d else d
  else d.

Definition clock_w (state : Z) (d : D) : D := rx_clock_w state (tx_clock_w state d).

(** The timer callbacks [rcv_clock] and [tra_clock]. *)
Definition rcv_clock (d : D) : D :=
  rx_clock_w (b2z (m_rcv_clock_state (serial_of d) =? 0)) d.
Definition tra_clock (d : D) : D :=
  tx_clock_w (b2z (m_tra_clock_state (serial_of d) =? 0)) d.
End Edges.

(** ** The transmit FIFO of [device_buffered_serial_interface<FIFO_LENGTH>] *)

Section Buffered.
Context (FIFO_LENGTH : nat).

Record buffered := mk_buffered {
  base_serial : serial;
  m_fifo : list Z;
  m_head : nat;
  m_tail : nat;
  m_empty : bool
}.

#[export] Instance buffered_eta : Eta buffered := fun b =>
  mk_buffered (base_serial b) (m_fifo b) (m_head b) (m_tail b) (m_empty b).

Definition buffered_tra_complete (now : attotime) (b : buffered) : buffered :=
  if negb (m_empty b) then
    let b := b <| base_serial ::= transmit_register_setup now (nth (m_head b) (m_fifo b) 0) |> in
    let b := b <| m_head ::= fun n => ((n + 1) mod FIFO_LENGTH)%nat |> in
    b <| m_empty := (m_head b =? m_tail b)%nat |>
  else b.

Definition clear_fifo (b : buffered) : buffered :=
  b <| m_head := 0%nat |> <| m_tail := 0%nat |> <| m_empty := true |>.

Definition transmit_byte (now : attotime) (byte : Z) (b : buffered) : buffered :=
  if m_empty b && is_transmit_register_empty (base_serial b) then
    b <| base_serial ::= transmit_register_setup now byte |>
  else if m_empty b || negb (m_head b =? m_tail b)%nat then
    b <| m_fifo ::= (<[m_tail b := byte]>) |>
      <| m_tail ::= fun n => ((n + 1) mod FIFO_LENGTH)%nat |>
      <| m_empty := false |>
  else b.

Definition fifo_empty (b : buffered) : bool := m_empty b.
Definition fifo_full (b : buffered) : bool := negb (m_empty b) && (m_head b =? m_tail b)%nat.
End Buffered.

(** ** Frames on the wire

    The bits of a character, in the order they are sent. *)

Definition data_bits (w : nat) (d : Z) : list bool :=
  map (fun i => Z.testbit d (Z.of_nat i)) (seq 0 w).
Definition parity_bits (p : parity_t) (d : Z) : list bool :=
  if bool_decide (p = PARITY_NONE) then [] else [parity_bit p d =? 1].
Definition frame (start w stop : nat) (p : parity_t) (d : Z) : list bool :=
  replicate start false ++ data_bits w d ++ parity_bits p d ++ replicate stop true.

(** [n] bits taken from the transmit register. *)
Fixpoint send (n : nat) (s : serial) : list Z * serial :=
  match n with
  | O => ([], s)
  | S n => let '(b, s) := transmit_register_get_data_bit s in
           let '(l, s) := send n s in (b :: l, s)
  end.

(** A bit arriving at a receiver whose clock ticks once per bit. *)
Definition hear (now : attotime) (b : Z) (s : serial) : serial :=
  let was := is_receive_register_synchronized s in
  let s := rx_w now b s in
  if was then
    let s := receive_register_update_bit (m_rcv_line s) s in
    if is_receive_register_full s then receive_register_extract s else s
  else s.
Definition listen (now : attotime) (bits : list Z) (s : serial) : serial :=
  fold_left (fun s b => hear now b s) bits s.

(** ** The transmit side *)

(** The transmit register holds the bits [l], first one highest. *)
Record tra_holds (s : serial) (l : list bool) : Prop := mk_tra_holds {
  tra_count : m_tra_bit_count s = Z.of_nat (length l);
  tra_bit : forall i, (i < length l)%nat ->
    Z.testbit (m_tra_register_data s) (Z.of_nat (length l - 1 - i)) = nth i l false
}.

(** The format fields. *)
Definition format (s : serial) : Z * Z * parity_t * Z :=
  (m_df_start_bit_count s, m_df_word_length s, m_df_parity s, m_df_stop_bit_count s).

Lemma b2z_land1 b : Z.land (b2z b) 0x01 = b2z b.
Proof. by destruct b. Qed.

Lemma testbit_b2z b n : 0 <= n -> Z.testbit (b2z b) n = b && (n =? 0).
Proof.
  intros Hn. destruct b; cbn [b2z andb]; [|apply Z.bits_0].
  destruct (Z.eqb_spec n 0) as [->|]; [done|]. change 1 with (2 ^ 0). by apply Z.pow2_bits_false.
Qed.

Lemma add_bit_holds s l b :
  tra_holds s l -> (length l < 16)%nat ->
  tra_holds (transmit_register_add_bit (b2z b) s) (l ++ [b]) /\
  format (transmit_register_add_bit (b2z b) s) = format s /\
  m_tra_flags (transmit_register_add_bit (b2z b) s) = m_tra_flags s /\
  m_tra_bit_count_transmitted (transmit_register_add_bit (b2z b) s) = m_tra_bit_count_transmitted s.
Proof.
  intros [Hc Hb] Hl. split; [|done]. constructor.
  - cbn. rewrite Hc, length_app, u8_id; cbn; lia.
  - rewrite length_app. cbn [length]. intros i Hi. cbn [transmit_register_add_bit m_tra_register_data upd].
    rewrite b2z_land1. rewrite testbit_u16 by lia.
    rewrite Z.lor_spec, testbit_u16, Z.shiftl_spec, testbit_b2z by lia.
    destruct (Nat.eq_dec i (length l)) as [->|Hne].
    + rewrite app_nth2, Nat.sub_diag by lia. rewrite Z.testbit_neg_r by lia.
      replace (Z.of_nat _) with 0 by lia. by rewrite andb_true_r.
    + rewrite app_nth1 by lia. destruct (Z.eqb_spec (Z.of_nat (length l + 1 - 1 - i)) 0); [lia|].
      rewrite andb_false_r, orb_false_r, <- Hb by lia. f_equal. lia.
Qed.

(** The same for a run of bits: on a state of format [F], [f] adds [l']. *)
Definition adds (F : Z * Z * parity_t * Z) (f : serial -> serial) (l' : list bool) : Prop :=
  forall s l, format s = F -> tra_holds s l -> (length (l ++ l') <= 16)%nat ->
  tra_holds (f s) (l ++ l') /\ format (f s) = format s /\
  m_tra_flags (f s) = m_tra_flags s /\
  m_tra_bit_count_transmitted (f s) = m_tra_bit_count_transmitted s.

Lemma adds_id F : adds F (fun s => s) [].
Proof. intros s l _ H _. by rewrite app_nil_r. Qed.

Lemma adds_bit F b : adds F (transmit_register_add_bit (b2z b)) [b].
Proof. intros s l _ H Hl. rewrite length_app in Hl. cbn in Hl. apply add_bit_holds; [done|lia]. Qed.

Lemma adds_comp F f g l1 l2 : adds F f l1 -> adds F g l2 -> adds F (fun s => g (f s)) (l1 ++ l2).
Proof.
  intros Hf Hg s l HF H Hl. rewrite !length_app in Hl.
  destruct (Hf s l HF H) as (H1 & E1 & E2 & E3); [rewrite length_app; lia|].
  destruct (Hg (f s) _ ltac:(congruence) H1) as (H2 & E4 & E5 & E6); [rewrite !length_app; lia|].
  rewrite app_assoc. rewrite E4, E5, E6. done.
Qed.

(** [f] may be chosen by the format. *)
Lemma adds_fmt F (g : Z * Z * parity_t * Z -> serial -> serial) l' :
  adds F (g F) l' -> adds F (fun s => g (format s) s) l'.
Proof. intros Hg s l HF. specialize (Hg s l HF). rewrite HF in Hg |- *. exact Hg. Qed.

Lemma adds_repeat F n b : adds F (repeat_bits n (b2z b)) (replicate n b).
Proof.
  induction n as [|n IH]; [apply adds_id|].
  exact (adds_comp F _ _ [b] _ (adds_bit F b) IH).
Qed.

Lemma data_bits_S w d : data_bits (S w) d = Z.testbit d 0 :: data_bits w (Z.shiftr d 1).
Proof.
  unfold data_bits. cbn [seq map]. f_equal. rewrite <- seq_shift, map_map. apply map_ext.
  intros i. rewrite Z.shiftr_spec by lia. f_equal. lia.
Qed.

Lemma adds_data F w d : adds F (add_data_bits w d) (data_bits w d).
Proof.
  revert d. induction w as [|w IH]; intros d; [apply adds_id|].
  rewrite data_bits_S. cbn [add_data_bits]. rewrite BIT_testbit by lia.
  exact (adds_comp F _ _ [Z.testbit d 0] _ (adds_bit F _) (IH _)).
Qed.

Lemma odd_ones_bit d : exists b, odd_ones d = b2z b.
Proof. unfold odd_ones. rewrite BIT_testbit by lia. eauto. Qed.

Lemma parity_bit_b2z p d : parity_bit p d = b2z (parity_bit p d =? 1).
Proof. destruct (odd_ones_bit d) as [b E]. destruct p; cbn; rewrite ?E; by destruct b. Qed.

Lemma data_bits_length w d : length (data_bits w d) = w.
Proof. unfold data_bits. by rewrite length_map, length_seq. Qed.

(** [transmit_register_setup] in two steps. *)
Definition setup_start (now : attotime) (s : serial) : serial :=
  let s := if negb (is_never (m_tra_rate s))
           then s <| m_tra_clock ::= adjusted now (m_tra_rate s) 0 (m_tra_rate s) |> else s in
  s <| m_tra_bit_count_transmitted := 0 |> <| m_tra_bit_count := 0 |>
    <| m_tra_flags ::= clear_bits TRANSMIT_REGISTER_EMPTY |>.
Definition setup_parity (d : Z) (F : Z * Z * parity_t * Z) (s : serial) : serial :=
  if bool_decide (F.1.2 = PARITY_NONE) then s
  else transmit_register_add_bit (parity_bit F.1.2 d) s.
Definition setup_bits (d : Z) (s : serial) : serial :=
  let s := (fun s => repeat_bits (Z.to_nat (format s).1.1.1) (b2z false) s) s in
  let s := (fun s => add_data_bits (Z.to_nat (format s).1.1.2) d s) s in
  let s := setup_parity d (format s) s in
  (fun s => repeat_bits (Z.to_nat (format s).2) (b2z true) s) s.

Lemma setup_split now d s : transmit_register_setup now d s = setup_bits d (setup_start now s).
Proof. reflexivity. Qed.

Lemma adds_parity p d F : F.1.2 = p -> adds F (setup_parity d F) (parity_bits p d).
Proof.
  intros E. unfold setup_parity, parity_bits. rewrite E. case_bool_decide; [apply adds_id|].
  pose proof (adds_bit F (parity_bit p d =? 1)) as H'. by rewrite <- parity_bit_b2z in H'.
Qed.

Lemma adds_setup start w stop p d :
  adds (Z.of_nat start, Z.of_nat w, p, Z.of_nat stop) (setup_bits d) (frame start w stop p d).
Proof.
  unfold frame, setup_bits. set (F := (_, _, _, _)).
  apply (adds_comp F (fun s => repeat_bits (Z.to_nat (format s).1.1.1) (b2z false) s)
    (fun s => let s := add_data_bits (Z.to_nat (format s).1.1.2) d s in
       let s := setup_parity d (format s) s in
       repeat_bits (Z.to_nat (format s).2) (b2z true) s)).
  { apply (adds_fmt F (fun F => repeat_bits (Z.to_nat F.1.1.1) (b2z false))). cbn.
    rewrite Nat2Z.id. apply adds_repeat. }
  apply (adds_comp F (fun s => add_data_bits (Z.to_nat (format s).1.1.2) d s)
    (fun s => let s := setup_parity d (format s) s in
       repeat_bits (Z.to_nat (format s).2) (b2z true) s)).
  { apply (adds_fmt F (fun F => add_data_bits (Z.to_nat F.1.1.2) d)). cbn.
    rewrite Nat2Z.id. apply adds_data. }
  apply (adds_comp F (fun s => setup_parity d (format s) s)
    (fun s => repeat_bits (Z.to_nat (format s).2) (b2z true) s)).
  { apply (adds_fmt F (setup_parity d)). by apply adds_parity. }
  apply (adds_fmt F (fun F => repeat_bits (Z.to_nat F.2) (b2z true))). cbn.
  rewrite Nat2Z.id. apply adds_repeat.
Qed.

Lemma flags_off_empty x : test (clear_bits TRANSMIT_REGISTER_EMPTY x) TRANSMIT_REGISTER_EMPTY = false.
Proof. unfold clear_bits, TRANSMIT_REGISTER_EMPTY. by bits_simp. Qed.
Lemma flags_on_empty x : test (set_bits TRANSMIT_REGISTER_EMPTY x) TRANSMIT_REGISTER_EMPTY = true.
Proof. unfold set_bits, TRANSMIT_REGISTER_EMPTY. by bits_simp. Qed.

(** What [transmit_register_setup] loads. *)
Lemma setup_holds now d s start w stop p :
  format s = (Z.of_nat start, Z.of_nat w, p, Z.of_nat stop) ->
  (length (frame start w stop p d) <= 16)%nat ->
  let s' := transmit_register_setup now d s in
  tra_holds s' (frame start w stop p d) /\ m_tra_bit_count_transmitted s' = 0 /\
  is_transmit_register_empty s' = false.
Proof.
  intros Hf Hl. rewrite setup_split.
  destruct (adds_setup start w stop p d (setup_start now s) []) as (H & E & Efl & Et).
  - rewrite <- Hf. unfold setup_start. by destruct (negb _).
  - constructor; [unfold setup_start; by destruct (negb _)|intros i Hi; cbn in Hi; lia].
  - done.
  - split; [done|]. cbv zeta. rewrite Et. split; [unfold setup_start; by destruct (negb _)|].
    unfold is_transmit_register_empty. rewrite Efl. unfold setup_start.
    destruct (negb _); apply flags_off_empty.
Qed.

(** Taking the bits out again: the register runs empty with the last one. *)
Lemma send_bits n l s :
  tra_holds s l -> (length l <= 16)%nat -> is_transmit_register_empty s = false ->
  m_tra_bit_count_transmitted s = Z.of_nat (length l - n) -> (n <= length l)%nat ->
  exists s', send n s = (map b2z (drop (length l - n) l), s') /\
    (is_transmit_register_empty s' = bool_decide (n ≠ 0%nat)) /\ format s' = format s.
Proof.
  revert s. induction n as [|n IH]; intros s Hh Hl He Ht Hn.
  - exists s. rewrite Nat.sub_0_r, drop_all. done.
  - cbn [send]. unfold transmit_register_get_data_bit. destruct Hh as [Hc Hb].
    set (s1 := s <| m_tra_bit_count_transmitted ::= fun k => u8 (k + 1) |>).
    assert (m_tra_bit_count_transmitted s1 = Z.of_nat (length l - n)) as Ht1
      by (cbn; rewrite Ht, u8_id; lia).
    rewrite Ht1. change (m_tra_bit_count s1) with (m_tra_bit_count s). rewrite Hc.
    assert (u8 (Z.land (Z.shiftr (m_tra_register_data s)
      (Z.of_nat (length l) - 1 - m_tra_bit_count_transmitted s)) 1) =
      b2z (nth (length l - S n) l false)) as ->.
    { fold (BIT (m_tra_register_data s) (Z.of_nat (length l) - 1 - m_tra_bit_count_transmitted s)).
      rewrite Ht, BIT_testbit by lia. rewrite <- Hb by lia.
      replace (Z.of_nat (length l) - 1 - Z.of_nat (length l - S n)) with
        (Z.of_nat (length l - 1 - (length l - S n))) by lia. by destruct (Z.testbit _ _). }
    destruct (lookup_lt_is_Some_2 l (length l - S n)) as [b Eb]; [lia|].
    rewrite (nth_lookup_Some _ _ _ _ Eb), (drop_S _ _ _ Eb).
    replace (S (length l - S n)) with (length l - n)%nat by lia. cbn [map].
    destruct (Z.eqb_spec (Z.of_nat (length l - n)) (Z.of_nat (length l))) as [E|E].
    + assert (n = 0)%nat as -> by lia. cbn [send]. eexists. split.
      { f_equal. by rewrite Nat.sub_0_r, drop_all. }
      split; [apply flags_on_empty|done].
    + destruct (IH s1) as (s' & -> & Hs' & Hf'); [done..|lia|].
      exists s'. split; [done|]. split; [|done]. rewrite Hs'. by rewrite !bool_decide_true by lia.
Qed.

(** ** The receive side *)

(** The last bits shifted into the receive register, oldest first. *)
Definition rx_holds (reg : Z) (l : list bool) : Prop :=
  forall i, (i < length l)%nat ->
  Z.testbit reg (16 - Z.of_nat (length l) + Z.of_nat i) = nth i l false.

Lemma rx_shift reg l b : rx_holds reg l -> (length l < 16)%nat ->
  rx_holds (u16 (Z.lor (Z.land (Z.shiftr reg 1) 0x7fff) (Z.shiftl (b2z b) 15))) (l ++ [b]).
Proof.
  intros H Hl i. rewrite length_app. cbn [length]. intros Hi.
  change 0x7fff with (Z.ones 15).
  rewrite testbit_u16, Z.lor_spec, Z.land_spec, Z.shiftr_spec, Z.shiftl_spec by lia.
  destruct (Nat.eq_dec i (length l)) as [->|Hne].
  - rewrite app_nth2, Nat.sub_diag by lia. rewrite Z.ones_spec_high by lia.
    rewrite andb_false_r, testbit_b2z by lia. cbn [nth orb].
    replace (_ - 15) with 0 by lia. by rewrite andb_true_r.
  - rewrite app_nth1, <- H, Z.ones_spec_low, andb_true_r by lia.
    rewrite (Z.testbit_neg_r (b2z b)) by lia. rewrite orb_false_r. f_equal. lia.
Qed.

(** What the receiver compares with: the format and the clock hack. *)
Definition rx_format (s : serial) : Z * Z * parity_t * Z * Z * bool :=
  (m_df_start_bit_count s, m_df_word_length s, m_df_parity s,
   m_df_min_rx_stop_bit_count s, m_rcv_bit_count s, m_start_bit_hack_for_external_clocks s).

(** One start bit, [w] data bits, [m] stop bits to check, [n] bits in all. *)
Definition rx_frame (w m n : nat) (p : parity_t) (s : serial) : Prop :=
  rx_format s = (1, Z.of_nat w, p, Z.of_nat m, Z.of_nat n, false) /\
  (n = w + length (parity_bits p 0) + m)%nat /\ (1 <= w <= 8)%nat /\ (n <= 16)%nat.

(** The three flags. *)
Definition rx_flags (s : serial) : bool * bool * bool :=
  (test (m_rcv_flags s) RECEIVE_REGISTER_WAITING_FOR_START_BIT,
   test (m_rcv_flags s) RECEIVE_REGISTER_SYNCHRONISED,
   test (m_rcv_flags s) RECEIVE_REGISTER_FULL).

(** Waiting for a start bit, the line high. *)
Definition idle (s : serial) : Prop :=
  rx_flags s = (true, false, false) /\ Z.testbit (m_rcv_register_data s) 15 = true.

(** [l] has been received after a start bit. *)
Record receiving (m n : nat) (s : serial) (l : list bool) : Prop := mk_receiving {
  recv_flags : rx_flags s = (false, true, false);
  recv_count : m_rcv_bit_count_received s = Z.of_nat (length l);
  recv_holds : rx_holds (m_rcv_register_data s) l;
  recv_framing : m_rcv_framing_error s = existsb negb (drop (n - m) l);
  recv_parity : m_rcv_parity_error s = false
}.

Ltac flags_unfold :=
  unfold rx_flags, set_bits, clear_bits, RECEIVE_REGISTER_WAITING_FOR_START_BIT,
    RECEIVE_REGISTER_SYNCHRONISED, RECEIVE_REGISTER_FULL in *.

Lemma flags_full x :
  (test (set_bits RECEIVE_REGISTER_FULL (set_bits RECEIVE_REGISTER_WAITING_FOR_START_BIT
     (clear_bits RECEIVE_REGISTER_SYNCHRONISED x))) RECEIVE_REGISTER_WAITING_FOR_START_BIT,
   test (set_bits RECEIVE_REGISTER_FULL (set_bits RECEIVE_REGISTER_WAITING_FOR_START_BIT
     (clear_bits RECEIVE_REGISTER_SYNCHRONISED x))) RECEIVE_REGISTER_SYNCHRONISED,
   test (set_bits RECEIVE_REGISTER_FULL (set_bits RECEIVE_REGISTER_WAITING_FOR_START_BIT
     (clear_bits RECEIVE_REGISTER_SYNCHRONISED x))) RECEIVE_REGISTER_FULL) = (true, false, true).
Proof. flags_unfold. f_equal; [f_equal|]; by bits_simp. Qed.

Lemma flags_start x :
  test x RECEIVE_REGISTER_FULL = false ->
  (test (set_bits RECEIVE_REGISTER_SYNCHRONISED (clear_bits RECEIVE_REGISTER_WAITING_FOR_START_BIT x))
     RECEIVE_REGISTER_WAITING_FOR_START_BIT,
   test (set_bits RECEIVE_REGISTER_SYNCHRONISED (clear_bits RECEIVE_REGISTER_WAITING_FOR_START_BIT x))
     RECEIVE_REGISTER_SYNCHRONISED,
   test (set_bits RECEIVE_REGISTER_SYNCHRONISED (clear_bits RECEIVE_REGISTER_WAITING_FOR_START_BIT x))
     RECEIVE_REGISTER_FULL) = (false, true, false).
Proof.
  flags_unfold. autorewrite with bits. intros H. f_equal; [f_equal|]; bits_simp; by rewrite ?H.
Qed.

Lemma flags_reset x :
  (test (set_bits RECEIVE_REGISTER_WAITING_FOR_START_BIT (clear_bits RECEIVE_REGISTER_SYNCHRONISED
     (clear_bits RECEIVE_REGISTER_FULL x))) RECEIVE_REGISTER_WAITING_FOR_START_BIT,
   test (set_bits RECEIVE_REGISTER_WAITING_FOR_START_BIT (clear_bits RECEIVE_REGISTER_SYNCHRONISED
     (clear_bits RECEIVE_REGISTER_FULL x))) RECEIVE_REGISTER_SYNCHRONISED,
   test (set_bits RECEIVE_REGISTER_WAITING_FOR_START_BIT (clear_bits RECEIVE_REGISTER_SYNCHRONISED
     (clear_bits RECEIVE_REGISTER_FULL x))) RECEIVE_REGISTER_FULL) = (true, false, false).
Proof. flags_unfold. f_equal; [f_equal|]; by bits_simp. Qed.

Lemma framing_step (k : nat) (l : list bool) (b : bool) :
  existsb negb (drop k (l ++ [b])) =
    existsb negb (drop k l) || (negb b && (k <=? length l)%nat).
Proof.
  destruct (Nat.leb_spec k (length l)).
  - rewrite drop_app_le, existsb_app by lia. cbn. by rewrite orb_false_r, andb_true_r.
  - rewrite !drop_ge by (rewrite ?length_app; cbn; lia). by rewrite andb_false_r.
Qed.

(** One bit into a synchronised receiver. *)
Lemma update_synced m n w p s l b :
  rx_frame w m n p s -> receiving m n s l -> (length l < n)%nat ->
  let s' := receive_register_update_bit (b2z b) s in
  rx_format s' = rx_format s /\ rx_holds (m_rcv_register_data s') (l ++ [b]) /\
  m_rcv_framing_error s' = existsb negb (drop (n - m) (l ++ [b])) /\
  m_rcv_parity_error s' = false /\
  if (S (length l) =? n)%nat then rx_flags s' = (true, false, true)
  else rx_flags s' = (false, true, false) /\ m_rcv_bit_count_received s' = Z.of_nat (S (length l)).
Proof.
  intros (Hfmt & Hn & Hw & Hn16) [Hfl Hc Hh Hfe Hpe] Hl.
  unfold rx_format in Hfmt. injection Hfmt as _ _ _ Hm Hbc _.
  unfold rx_flags in Hfl. injection Hfl as Hw0 Hs0 Hf0.
  unfold receive_register_update_bit. cbn [m_rcv_flags upd]. rewrite Hw0, Hs0.
  set (s1 := s <| m_rcv_register_data ::= _ |> <| m_rcv_register_data ::= _ |>
               <| m_rcv_bit_count_received ::= _ |>).
  assert (m_rcv_bit_count_received s1 = Z.of_nat (S (length l))) as Hc1
    by (cbn; rewrite Hc, u8_id; lia).
  rewrite Hc1. change (m_rcv_bit_count s1) with (m_rcv_bit_count s).
  change (m_df_min_rx_stop_bit_count s1) with (m_df_min_rx_stop_bit_count s).
  rewrite Hbc, Hm.
  assert ((b2z b =? 0) && (Z.of_nat n - Z.of_nat m <? Z.of_nat (S (length l)))
    = negb b && (n - m <=? length l)%nat) as ->.
  { destruct b; [done|]. cbn [b2z negb andb]. apply eq_true_iff_eq.
    change (0 =? 0) with true. cbn [andb]. rewrite Z.ltb_lt, Nat.leb_le. lia. }
  set (s2 := if negb b && _ then _ else s1).
  assert (rx_format s2 = rx_format s /\ m_rcv_register_data s2 = m_rcv_register_data s1 /\
    m_rcv_flags s2 = m_rcv_flags s /\ m_rcv_parity_error s2 = false /\
    m_rcv_bit_count_received s2 = Z.of_nat (S (length l)) /\
    m_rcv_framing_error s2 = existsb negb (drop (n - m) (l ++ [b]))) as (E1 & E2 & E3 & E4 & E5 & E6).
  { rewrite framing_step, <- Hfe. subst s2.
    destruct (negb b && _); rewrite ?orb_true_r, ?orb_false_r; repeat split; done. }
  assert (rx_holds (m_rcv_register_data s2) (l ++ [b])) as Hh2.
  { rewrite E2. apply rx_shift; [done|lia]. }
  rewrite E5. assert (m_rcv_bit_count s2 = Z.of_nat n) as -> by (unfold rx_format in E1; congruence).
  clear Hc1 Hbc. clearbody s2. clear s1 E2.
  destruct (Z.eqb_spec (Z.of_nat (S (length l))) (Z.of_nat n)) as [E|E],
    (Nat.eqb_spec (S (length l)) n) as [E'|E']; try lia.
  - cbn [m_rcv_register_data m_rcv_framing_error m_rcv_parity_error upd].
    split; [exact E1|]. split_and!; [done..|]. unfold rx_flags. cbn [m_rcv_flags upd].
    rewrite flags_full. done.
  - split_and!; try done. unfold rx_flags. by rewrite E3, Hw0, Hs0, Hf0.
Qed.

(** The start bit. *)
Lemma hear_start now m n w p s :
  rx_frame w m n p s -> idle s ->
  receiving m n (hear now 0 s) [] /\ rx_frame w m n p (hear now 0 s).
Proof.
  intros [Hfmt Hn] [Hfl Hline]. unfold rx_flags in Hfl. injection Hfl as Hw0 Hs0 Hf0.
  unfold hear, is_receive_register_synchronized. rewrite Hs0.
  unfold rx_w. cbn [m_rcv_flags upd]. rewrite Hs0.
  unfold receive_register_update_bit. cbn [m_rcv_flags m_rcv_register_data upd]. rewrite Hw0.
  rewrite BIT_testbit, Hline by lia. change (test (Z.lxor (b2z true) 0) 1) with true.
  change (0 =? 0) with true. cbn iota.
  set (s1 := _ <| m_rcv_parity_error := false |>).
  assert (rx_flags s1 = (false, true, false)) as Hfl1 by (apply flags_start; exact Hf0).
  assert (test (m_rcv_flags s1) RECEIVE_REGISTER_SYNCHRONISED = true) as H2
    by exact (f_equal (fun t => t.1.2) Hfl1).
  rewrite H2.
  assert (rx_format s1 = rx_format s /\ m_rcv_bit_count_received s1 = 0 /\
    m_rcv_framing_error s1 = false /\ m_rcv_parity_error s1 = false) as (E1 & E2 & E3 & E4) by done.
  assert (m_start_bit_hack_for_external_clocks s1 = false) as ->
    by exact (f_equal (fun t => t.2) (eq_trans E1 Hfmt)).
  clearbody s1.
  assert (forall s', rx_format s' = rx_format s1 -> rx_flags s' = rx_flags s1 ->
    m_rcv_bit_count_received s' = m_rcv_bit_count_received s1 ->
    m_rcv_framing_error s' = m_rcv_framing_error s1 ->
    m_rcv_parity_error s' = m_rcv_parity_error s1 ->
    receiving m n s' [] /\ rx_frame w m n p s') as Hk.
  { intros s' F1 F2 F3 F4 F5. split; [|split; [congruence|done]]. constructor.
    - congruence.
    - rewrite F3, E2. done.
    - intros i Hi. cbn in Hi. lia.
    - rewrite F4, E3. by rewrite drop_nil.
    - congruence. }
  destruct (negb _); by apply Hk.
Qed.

(** The byte a list of bits stands for, lowest first. *)
Fixpoint byte_of_bits (l : list bool) : Z :=
  match l with [] => 0 | b :: l => b2z b + 2 * byte_of_bits l end.

Lemma byte_of_bits_testbit l i :
  0 <= i -> Z.testbit (byte_of_bits l) i = nth (Z.to_nat i) l false.
Proof.
  revert i. induction l as [|b l IH]; intros i Hi; cbn [byte_of_bits].
  - rewrite Z.bits_0. by destruct (Z.to_nat i).
  - destruct (Z.eq_dec i 0) as [->|Hne].
    + rewrite Z.bit0_odd, Z.odd_add_mul_2. by destruct b.
    + assert (i = Z.succ (i - 1)) as Ei by lia. rewrite Ei at 1.
      assert (Z.testbit (2 * byte_of_bits l + b2z b) (Z.succ (i - 1)) =
        Z.testbit (byte_of_bits l) (i - 1)) as Hsucc.
      { destruct b; cbn [b2z]; [apply Z.testbit_odd_succ|rewrite Z.add_0_r; apply Z.testbit_even_succ]; lia. }
      rewrite Z.add_comm, Hsucc, IH by lia.
      replace (Z.to_nat i) with (S (Z.to_nat (i - 1))) by lia. done.
Qed.

Lemma byte_of_data_bits w d : 0 <= d < 2 ^ Z.of_nat w -> byte_of_bits (data_bits w d) = d.
Proof.
  revert d. induction w as [|w IH]; intros d Hd; [cbn in *; lia|].
  rewrite data_bits_S. cbn [byte_of_bits]. rewrite IH.
  - rewrite Z.bit0_odd, Z.shiftr_div_pow2 by lia. change (2 ^ 1) with 2.
    pose proof (Z.div_mod d 2). rewrite Zmod_odd in *. destruct (Z.odd d); cbn [b2z]; lia.
  - rewrite Z.shiftr_div_pow2 by lia. change (2 ^ 1) with 2.
    rewrite Nat2Z.inj_succ, Z.pow_succ_r in Hd by lia.
    split; [apply Z.div_pos; lia|apply Z.div_lt_upper_bound; lia].
Qed.

Lemma nth_take_below {X} (n i : nat) (l : list X) d : (i < n)%nat -> nth i (take n l) d = nth i l d.
Proof. intros H. rewrite !nth_lookup. by rewrite lookup_take_lt. Qed.

(** The parity check of [receive_register_extract]. *)
Definition parity_fails (p : parity_t) (data received : Z) : bool :=
  match p with
  | PARITY_NONE => false
  | PARITY_ODD => received =? odd_ones data
  | PARITY_EVEN => negb (received =? odd_ones data)
  | PARITY_MARK => received =? 0
  | PARITY_SPACE => negb (received =? 0)
  end.

Lemma parity_fails_bit p data b :
  p ≠ PARITY_NONE -> parity_fails p data (b2z b) = negb (b2z b =? parity_bit p data).
Proof. intros Hp. destruct (odd_ones_bit data) as [c E]. destruct p; cbn; rewrite ?E; by destruct b, c. Qed.

(** Taking the byte out of a full register. *)
Lemma extract_full w m n p s l :
  rx_frame w m n p s -> rx_holds (m_rcv_register_data s) l -> length l = n ->
  m_rcv_parity_error s = false ->
  let s' := receive_register_extract s in
  rx_format s' = rx_format s /\ rx_flags s' = (true, false, false) /\
  m_rcv_register_data s' = m_rcv_register_data s /\
  m_rcv_framing_error s' = m_rcv_framing_error s /\
  m_rcv_byte_received s' = byte_of_bits (take w l) /\
  m_rcv_parity_error s' = parity_fails p (byte_of_bits (take w l)) (b2z (nth w l false)).
Proof.
  intros (Hfmt & Hn & Hw & Hn16) Hh Hl Hpe. unfold rx_format in Hfmt.
  injection Hfmt as Hst Hwl Hp Hm Hbc _.
  unfold receive_register_extract, receive_register_reset. cbn [m_df_start_bit_count upd].
  rewrite Hst. change (1 =? 0) with false. cbv iota.
  set (s1 := s <| m_rcv_bit_count_received := 0 |> <| m_rcv_flags ::= _ |> <| m_rcv_flags ::= _ |>
               <| m_rcv_flags ::= _ |>).
  change (m_rcv_register_data s1) with (m_rcv_register_data s).
  change (m_rcv_bit_count s1) with (m_rcv_bit_count s).
  change (m_df_word_length s1) with (m_df_word_length s).
  rewrite Hwl, Hbc.
  assert (u8 (Z.land (u8 (Z.shiftr (m_rcv_register_data s) (16 - Z.of_nat n)))
    (Z.lnot (Z.shiftl 255 (Z.of_nat w)))) = byte_of_bits (take w l)) as ->.
  { apply Z.bits_inj'. intros i Hi. rewrite byte_of_bits_testbit by done.
    unfold u8. change 256 with (2 ^ 8). destruct (Z.lt_ge_cases i 8) as [Hi8|Hi8].
    - rewrite Z.mod_pow2_bits_low by lia. rewrite Z.land_spec, Z.lnot_spec by lia.
      rewrite Z.mod_pow2_bits_low, Z.shiftr_spec, Z.shiftl_spec by lia.
      destruct (Z.lt_ge_cases i (Z.of_nat w)) as [Hiw|Hiw].
      + rewrite (Z.testbit_neg_r 255), andb_true_r by lia.
        rewrite nth_take_below by lia. rewrite <- Hh by lia. f_equal. lia.
      + change 255 with (Z.ones 8). rewrite Z.ones_spec_low, andb_false_r by lia.
        by rewrite nth_overflow by (rewrite length_take; lia).
    - rewrite Z.mod_pow2_bits_high by lia. by rewrite nth_overflow by (rewrite length_take; lia). }
  set (data := byte_of_bits (take w l)).
  set (s2 := s1 <| m_rcv_byte_received := data |>).
  change (m_df_parity s2) with (m_df_parity s). rewrite Hp.
  change (Z.land (Z.shiftr (m_rcv_register_data s2) (16 - m_rcv_bit_count s2 + m_df_word_length s2)) 1)
    with (BIT (m_rcv_register_data s) (16 - m_rcv_bit_count s + m_df_word_length s)).
  rewrite Hwl, Hbc.
  set (received := BIT _ _).
  assert (parity_fails p data received = parity_fails p data (b2z (nth w l false))) as Hpar.
  { destruct (decide (p = PARITY_NONE)) as [->|Hnp]; [done|].
    assert (length (parity_bits p 0) = 1)%nat as Hlen
      by (unfold parity_bits; by rewrite bool_decide_false).
    subst received. rewrite BIT_testbit by lia. rewrite <- Hh, Hl by lia. done. }
  fold (parity_fails p data received). rewrite Hpar.
  assert (rx_flags s2 = (true, false, false)) as Hf2 by apply flags_reset.
  destruct (parity_fails p data (b2z (nth w l false))); split_and!; done.
Qed.

(** ** Hearing a whole frame *)

(** A complete frame [l] has been taken out of the register. *)
Record received (w m n : nat) (p : parity_t) (s : serial) (l : list bool) : Prop := mk_received {
  rcvd_frame : rx_frame w m n p s;
  rcvd_flags : rx_flags s = (true, false, false);
  rcvd_line : Z.testbit (m_rcv_register_data s) 15 = nth (n - 1) l false;
  rcvd_byte : m_rcv_byte_received s = byte_of_bits (take w l);
  rcvd_framing : m_rcv_framing_error s = existsb negb (drop (n - m) l);
  rcvd_parity : m_rcv_parity_error s =
    parity_fails p (byte_of_bits (take w l)) (b2z (nth w l false))
}.

Lemma hear_synced now m n s l b :
  receiving m n s l ->
  let s0 := s <| m_rcv_line := b2z b |> in
  hear now (b2z b) s =
    (let s := receive_register_update_bit (b2z b) s0 in
     if is_receive_register_full s then receive_register_extract s else s) /\
  receiving m n s0 l /\ rx_format s0 = rx_format s.
Proof.
  intros H. pose proof (f_equal (fun t => t.1.2) (recv_flags _ _ _ _ H)) as Hs. cbn in Hs.
  split; [|split; [by destruct H|done]].
  unfold hear, is_receive_register_synchronized. rewrite Hs.
  assert (u8 (b2z b) = b2z b) as Eb by (by destruct b).
  unfold rx_w. cbn [m_rcv_flags upd]. rewrite Hs, Eb. done.
Qed.

Lemma rx_frame_format w m n p s s' : rx_format s' = rx_format s -> rx_frame w m n p s -> rx_frame w m n p s'.
Proof. unfold rx_frame. by intros ->. Qed.

Lemma hear_bit now m n w p s l b :
  rx_frame w m n p s -> receiving m n s l -> (S (length l) < n)%nat ->
  receiving m n (hear now (b2z b) s) (l ++ [b]) /\ rx_frame w m n p (hear now (b2z b) s).
Proof.
  intros Hfmt H Hl. destruct (hear_synced now m n s l b H) as (-> & H0 & E0).
  set (s0 := s <| m_rcv_line := b2z b |>) in *.
  pose proof (rx_frame_format _ _ _ _ _ _ E0 Hfmt) as Hfmt0.
  destruct (update_synced m n w p s0 l b Hfmt0 H0) as (E1 & Hh & Hfe & Hpe & Hfl); [lia|].
  destruct (Nat.eqb_spec (S (length l)) n); [lia|]. destruct Hfl as [Hfl Hc]. cbv zeta.
  assert (is_receive_register_full (receive_register_update_bit (b2z b) s0) = false) as ->
    by exact (f_equal snd Hfl).
  split; [|by eapply rx_frame_format]. constructor; try done. rewrite Hc, length_app. cbn. lia.
Qed.

Lemma hear_last now m n w p s l b :
  rx_frame w m n p s -> receiving m n s l -> S (length l) = n ->
  received w m n p (hear now (b2z b) s) (l ++ [b]).
Proof.
  intros Hfmt H Hl. destruct (hear_synced now m n s l b H) as (-> & H0 & E0).
  set (s0 := s <| m_rcv_line := b2z b |>) in *.
  pose proof (rx_frame_format _ _ _ _ _ _ E0 Hfmt) as Hfmt0.
  destruct (update_synced m n w p s0 l b Hfmt0 H0) as (E1 & Hh & Hfe & Hpe & Hfl); [lia|].
  destruct (Nat.eqb_spec (S (length l)) n); [|lia]. cbv zeta.
  assert (is_receive_register_full (receive_register_update_bit (b2z b) s0) = true) as ->
    by exact (f_equal snd Hfl).
  set (s1 := receive_register_update_bit (b2z b) s0) in *. clearbody s1.
  pose proof (rx_frame_format _ _ _ _ _ _ E1 Hfmt0) as Hfmt1.
  assert (length (l ++ [b]) = n) as Hlen by (rewrite length_app; cbn; lia).
  destruct (extract_full w m n p s1 (l ++ [b]) Hfmt1 Hh Hlen Hpe) as (F1 & F2 & F3 & F4 & F5 & F6).
  constructor; try done.
  - by eapply rx_frame_format.
  - rewrite F3, <- Hh by lia. f_equal. lia.
  - by rewrite F4.
Qed.

Lemma listen_bits now m n w p l2 : forall l1 s,
  rx_frame w m n p s -> receiving m n s l1 -> l2 ≠ [] -> (length l1 + length l2)%nat = n ->
  received w m n p (listen now (map b2z l2) s) (l1 ++ l2).
Proof.
  induction l2 as [|b l2 IH]; intros l1 s Hfmt H Hne Hl; [done|]. cbn [map listen fold_left].
  cbn [length] in Hl. destruct l2 as [|b' l2].
  - apply hear_last; [done|done|cbn in Hl; lia].
  - destruct (hear_bit now m n w p s l1 b Hfmt H) as [H' Hfmt']; [cbn in Hl; lia|].
    replace (l1 ++ b :: b' :: l2) with ((l1 ++ [b]) ++ b' :: l2) by (by rewrite <- app_assoc).
    apply IH; [done..|]. rewrite length_app. cbn in *. lia.
Qed.

(** A further stop bit changes nothing. *)
Lemma hear_stop now w m n p s l :
  received w m n p s l -> nth (n - 1) l false = true -> received w m n p (hear now 1 s) l.
Proof.
  intros [Hfmt Hfl Hline Hb Hfe Hpe] Hlast. rewrite Hlast in Hline.
  pose proof (f_equal (fun t => t.1.2) Hfl) as Hs. pose proof (f_equal (fun t => t.1.1) Hfl) as Hw.
  cbn in Hs, Hw. unfold hear, is_receive_register_synchronized. rewrite Hs.
  unfold rx_w, receive_register_update_bit. cbn [m_rcv_flags m_rcv_register_data upd].
  rewrite Hs, Hw. rewrite BIT_testbit, Hline by lia.
  change (test (Z.lxor (b2z true) 1) 1) with false. cbv iota. cbn [m_rcv_flags upd]. rewrite Hs.
  constructor; try done. rewrite Hlast. cbn [m_rcv_register_data upd].
  rewrite testbit_u16 by lia. rewrite Z.lor_spec, Z.shiftl_spec by lia.
  cbn. by rewrite orb_true_r.
Qed.

Lemma listen_stops now w m n p k s l :
  received w m n p s l -> nth (n - 1) l false = true ->
  received w m n p (listen now (map b2z (replicate k true)) s) l.
Proof.
  intros H Hl. revert s H. induction k as [|k IH]; intros s H; [done|]. apply IH. by apply hear_stop.
Qed.

Lemma listen_frame now w m n p s l :
  rx_frame w m n p s -> idle s -> length l = n -> received w m n p (listen now (0 :: map b2z l) s) l.
Proof.
  intros Hfmt Hi Hl. destruct (hear_start now m n w p s Hfmt Hi) as [H Hfmt'].
  apply (listen_bits now m n w p l [] (hear now 0 s) Hfmt' H); [|done].
  intros ->. destruct Hfmt as (_ & ? & ? & _). cbn in Hl. lia.
Qed.

(** ** The frame format *)

Definition consistent (s : serial) : Prop :=
  m_rcv_bit_count s = m_df_word_length s + m_df_min_rx_stop_bit_count s
    + (if bool_decide (m_df_parity s = PARITY_NONE) then 0 else 1).

Lemma new_serial_consistent : consistent new_serial.
Proof. done. Qed.

Lemma set_data_frame_spec w p sb s :
  consistent s -> (1 <= w <= 8)%nat ->
  let s' := set_data_frame 1 (Z.of_nat w) p sb s in
  consistent s' /\ format s' = (1, Z.of_nat w, p, (stop_bit_counts sb).1) /\
  m_df_min_rx_stop_bit_count s' = (stop_bit_counts sb).2 /\
  m_start_bit_hack_for_external_clocks s' = m_start_bit_hack_for_external_clocks s /\
  (format s = format s' /\ m_df_min_rx_stop_bit_count s = m_df_min_rx_stop_bit_count s' /\
   rx_flags s' = rx_flags s \/ rx_flags s' = (true, false, false)).
Proof.
  intros Hc Hw.
  assert (u8 (Z.of_nat w) = Z.of_nat w) as Ew by (apply u8_id; lia).
  assert (0 <= (stop_bit_counts sb).1 <= 2 /\ 0 <= (stop_bit_counts sb).2 <= 1) as Hsb by (by destruct sb).
  unfold set_data_frame. rewrite Ew. cbn [m_df_stop_bit_count m_df_min_rx_stop_bit_count upd].
  destruct (negb _) eqn:Ech.
  - zbool. unfold format. cbn [m_df_start_bit_count m_df_word_length m_df_parity m_df_stop_bit_count upd
      m_df_min_rx_stop_bit_count m_start_bit_hack_for_external_clocks].
    apply bool_decide_eq_true in H2. subst p.
    split; [|split; [congruence|split; [done|split; [done|left]]]].
    + unfold consistent in *. cbn. congruence.
    + split; [congruence|]. split; [congruence|done].
  - set (s1 := s <| m_df_word_length := _ |> <| m_df_stop_bit_count := _ |> <| m_df_min_rx_stop_bit_count := _ |>
                 <| m_df_parity := p |> <| m_df_start_bit_count := 1 |>).
    set (n := u8 _).
    assert (n = Z.of_nat w + (stop_bit_counts sb).2) as En by (subst n; cbn; apply u8_id; lia).
    change (m_df_parity (s1 <| m_rcv_bit_count := n |>)) with p.
    set (s2 := if bool_decide _ then _ else _).
    assert (format s2 = format s1 /\ m_df_min_rx_stop_bit_count s2 = (stop_bit_counts sb).2 /\
      consistent s2 /\ m_start_bit_hack_for_external_clocks s2 = m_start_bit_hack_for_external_clocks s)
      as (F1 & F2 & F3 & F4).
    { subst s2. unfold consistent. destruct (bool_decide (p = PARITY_NONE)) eqn:Ep; cbn; rewrite Ep.
      - split_and!; [done..|lia|done].
      - rewrite u8_id by lia. split_and!; [done..|lia|done]. }
    clearbody s2. unfold receive_register_reset. cbn [m_df_start_bit_count upd].
    assert (m_df_start_bit_count s2 = 1) as -> by (unfold format in F1; cbn in F1; congruence).
    change (1 =? 0) with false. cbv iota.
    split; [exact F3|]. split; [exact F1|]. split; [exact F2|]. split; [exact F4|right].
    apply flags_reset.
Qed.

(** Two ends configured alike agree on the frames. *)
Lemma configured_frame w p sb s :
  consistent s -> (1 <= w <= 8)%nat -> sb ≠ STOP_BITS_0 ->
  m_start_bit_hack_for_external_clocks s = false ->
  rx_frame w 1 (w + length (parity_bits p 0) + 1) p (set_data_frame 1 (Z.of_nat w) p sb s).
Proof.
  intros Hc Hw Hsb Hh. destruct (set_data_frame_spec w p sb s Hc Hw) as (Hc' & Hf & Hm & Hh' & _).
  set (s' := set_data_frame 1 (Z.of_nat w) p sb s) in *.
  assert ((stop_bit_counts sb).2 = 1) as E1 by (by destruct sb). rewrite E1 in Hm.
  unfold format in Hf. injection Hf as Hst Hwl Hp Hsc.
  split; [|split; [done|split; [done|]]].
  - unfold rx_format. rewrite Hst, Hwl, Hp, Hm, Hh', Hh. do 2 f_equal.
    rewrite Hc', Hwl, Hm, Hp. unfold parity_bits. destruct (bool_decide _); cbn [length]; lia.
  - unfold parity_bits. destruct (bool_decide _); cbn [length]; lia.
Qed.

Lemma parity_bits_length p d : length (parity_bits p d) = length (parity_bits p 0).
Proof. unfold parity_bits. by destruct (bool_decide _). Qed.

Lemma listen_app now l1 l2 s : listen now (l1 ++ l2) s = listen now l2 (listen now l1 s).
Proof. unfold listen. apply fold_left_app. Qed.

(** The body of a frame, up to the first stop bit. *)
Definition body (w : nat) (p : parity_t) (d : Z) : list bool :=
  data_bits w d ++ parity_bits p d ++ [true].

Lemma body_length w p d : length (body w p d) = (w + length (parity_bits p 0) + 1)%nat.
Proof. unfold body. rewrite !length_app, data_bits_length, parity_bits_length. cbn. lia. Qed.

Lemma body_last w p d : nth (w + length (parity_bits p 0) + 1 - 1) (body w p d) false = true.
Proof.
  unfold body. rewrite app_assoc, app_nth2; rewrite length_app, data_bits_length, (parity_bits_length p d);
    [|lia]. by replace (_ - _)%nat with 0%nat by lia.
Qed.

Lemma body_take w p d : take w (body w p d) = data_bits w d.
Proof. unfold body. by rewrite take_app_length' by (by rewrite data_bits_length). Qed.

Lemma body_parity w p d : p ≠ PARITY_NONE -> nth w (body w p d) false = (parity_bit p d =? 1).
Proof.
  intros Hp. unfold body, parity_bits. rewrite bool_decide_false by done.
  rewrite app_nth2; rewrite data_bits_length; [|lia]. by rewrite Nat.sub_diag.
Qed.

Lemma frame_body w p d k :
  map b2z (frame 1 w (S k) p d) = (0 :: map b2z (body w p d)) ++ map b2z (replicate k true).
Proof.
  unfold frame, body. cbn [replicate app map b2z]. f_equal. rewrite <- map_app, <- !app_assoc. done.
Qed.

(** *** The parity of a byte *)

Lemma fold_xorb_snoc l b : fold_right xorb false (l ++ [b]) = xorb b (fold_right xorb false l).
Proof.
  induction l as [|x l IH]; cbn; [done|]. rewrite IH. by destruct x, b, (fold_right xorb false l).
Qed.

Lemma popcount_odd n l :
  Z.odd (popcount n (byte_of_bits l)) = fold_right xorb false (take n l).
Proof.
  induction n as [|n IH]; [done|]. cbn [popcount]. rewrite Z.odd_add, IH.
  rewrite byte_of_bits_testbit, Nat2Z.id by lia. destruct (l !! n) as [b|] eqn:E.
  - rewrite (take_S_r _ _ b E), fold_xorb_snoc, (nth_lookup_Some _ _ _ b E). by destruct b.
  - apply lookup_ge_None in E. rewrite nth_overflow by done.
    rewrite !take_ge by lia. by destruct (fold_right _ _ _).
Qed.

Lemma odd_ones_bits l : (length l <= 8)%nat -> odd_ones (byte_of_bits l) = b2z (fold_right xorb false l).
Proof.
  intros H. unfold odd_ones. rewrite BIT_testbit, Z.bit0_odd, popcount_odd, take_ge by lia. done.
Qed.

Lemma xor_flip i l : (i < length l)%nat ->
  fold_right xorb false (alter negb i l) = negb (fold_right xorb false l).
Proof.
  revert i. induction l as [|b l IH]; intros [|i] Hi; cbn [length] in Hi; [lia..| |].
  - cbn. by destruct b, (fold_right xorb false l).
  - change (alter negb (S i) (b :: l)) with (b :: alter negb i l). cbn [fold_right].
    rewrite IH by lia. by destruct b, (fold_right xorb false l).
Qed.

Lemma take_alter_ge {X} (f : X -> X) n i (l : list X) : (n <= i)%nat -> take n (alter f i l) = take n l.
Proof. revert n i. induction l as [|x l IH]; intros [|n] [|i] H; cbn; try done; [lia|]. f_equal. apply IH. lia. Qed.

Lemma take_alter_lt {X} (f : X -> X) n i (l : list X) : (i < n)%nat -> take n (alter f i l) = alter f i (take n l).
Proof.
  revert n i. induction l as [|x l IH]; intros [|n] [|i] H; cbn; try done; [lia..|].
  f_equal. apply IH. lia.
Qed.

Lemma nth_alter_ne {X} (f : X -> X) i j (l : list X) x : i ≠ j -> nth j (alter f i l) x = nth j l x.
Proof. intros H. rewrite !nth_lookup. by rewrite list_lookup_alter_ne. Qed.

Lemma nth_alter_negb i l : (i < length l)%nat -> nth i (alter negb i l) false = negb (nth i l false).
Proof.
  intros H. destruct (lookup_lt_is_Some_2 l i H) as [b Hb].
  rewrite !nth_lookup, list_lookup_alter, decide_True, Hb by done. done.
Qed.

(** *** The FIFO of waiting bytes *)

(** [b] queues the bytes [q], the next one to send first. *)
Record queued (N : nat) (b : buffered) (q : list Z) : Prop := mk_queued {
  queued_length : length (m_fifo b) = N;
  queued_head : (m_head b < N)%nat;
  queued_fits : (length q <= N)%nat;
  queued_tail : m_tail b = ((m_head b + length q) mod N)%nat;
  queued_empty : m_empty b = bool_decide (q = []);
  queued_nth : forall k, (k < length q)%nat -> nth ((m_head b + k) mod N) (m_fifo b) 0 = nth k q 0
}.

Lemma mod_wrap a N : (0 < N)%nat -> (a < 2 * N)%nat ->
  (a mod N = if (a <? N)%nat then a else a - N)%nat.
Proof.
  intros HN Ha. destruct (Nat.ltb_spec a N); [by apply Nat.mod_small|].
  symmetry. apply Nat.mod_unique with 1%nat; lia.
Qed.

Ltac wrap :=
  repeat match goal with
  | |- context [(?a mod ?N)%nat] => rewrite (mod_wrap a N) by lia
  | H : context [(?a mod ?N)%nat] |- _ => rewrite (mod_wrap a N) in H by lia
  end;
  repeat match goal with
  | |- context [(?a <? ?b)%nat] => destruct (Nat.ltb_spec a b)
  | H : context [(?a <? ?b)%nat] |- _ => destruct (Nat.ltb_spec a b)
  end.

Lemma full_iff N b q : (0 < N)%nat -> queued N b q ->
  (m_head b =? m_tail b)%nat = bool_decide (length q = 0 \/ length q = N)%nat.
Proof.
  intros HN [_ Hh Hf Ht _ _]. apply eq_true_iff_eq. rewrite Nat.eqb_eq, bool_decide_eq_true, Ht.
  destruct (Nat.eq_dec (length q) N) as [E|]; wrap; lia.
Qed.

Lemma queued_push N b q byte : (0 < N)%nat -> queued N b q -> (length q < N)%nat ->
  queued N (b <| m_fifo ::= (<[m_tail b := byte]>) |> <| m_tail ::= fun n => ((n + 1) mod N)%nat |>
              <| m_empty := false |>) (q ++ [byte]).
Proof.
  intros HN [Hl Hh Hf Ht He Hn] Hlt. constructor; cbn; rewrite ?length_app; cbn; try lia.
  - by rewrite length_insert.
  - rewrite Ht, Nat.Div0.add_mod_idemp_l. f_equal. lia.
  - by rewrite bool_decide_false by (destruct q; done).
  - intros k Hk. destruct (Nat.eq_dec k (length q)) as [->|Hne].
    + rewrite app_nth2, Nat.sub_diag, <- Ht by lia.
      assert (m_tail b < length (m_fifo b))%nat as Hlt' by (rewrite Ht, Hl; apply Nat.mod_upper_bound; lia).
      rewrite nth_lookup, list_lookup_insert_eq by done. done.
    + rewrite app_nth1, <- Hn by lia. rewrite !nth_lookup, list_lookup_insert_ne; [done|].
      rewrite Ht. wrap; lia.
Qed.

Lemma queued_pop N b x q : (0 < N)%nat -> queued N b (x :: q) ->
  nth (m_head b) (m_fifo b) 0 = x /\
  forall base, let h := ((m_head b + 1) mod N)%nat in
  queued N (b <| base_serial := base |> <| m_head := h |> <| m_empty := (h =? m_tail b)%nat |>) q.
Proof.
  intros HN H. pose proof H as [Hl Hh Hf Ht He Hn]. cbn [length] in *. split.
  - pose proof (Hn 0%nat ltac:(lia)) as H0. rewrite Nat.add_0_r, Nat.mod_small in H0 by done. done.
  - intros base. constructor; cbn; try done; try lia.
    + apply Nat.mod_upper_bound. lia.
    + rewrite Ht, Nat.Div0.add_mod_idemp_l. f_equal. lia.
    + apply eq_true_iff_eq. rewrite Nat.eqb_eq, bool_decide_eq_true, Ht.
      rewrite <- length_zero_iff_nil. destruct (Nat.eq_dec (length q) (N - 1)); wrap; lia.
    + intros k Hk. pose proof (Hn (S k) ltac:(lia)) as H0. cbn [nth] in H0. rewrite <- H0.
      rewrite Nat.Div0.add_mod_idemp_l. do 2 f_equal. lia.
Qed.

(** ** Properties *)

(** C11: A character goes over the line intact: after the two ends are configured
    alike, the bits [transmit_register_setup] loads leave the register one by
    one, it runs empty with the last one, and a receiver that was waiting with
    the line high takes the same byte out, without errors, and waits again. *)
Theorem frame_roundtrip now w p sb d t r :
  consistent t -> consistent r -> (1 <= w <= 8)%nat -> sb ≠ STOP_BITS_0 ->
  m_start_bit_hack_for_external_clocks r = false ->
  0 <= d < 2 ^ Z.of_nat w ->
  let t := set_data_frame 1 (Z.of_nat w) p sb t in
  let r := set_data_frame 1 (Z.of_nat w) p sb r in
  idle r ->
  let stop := Z.to_nat (stop_bit_counts sb).1 in
  let bits := map b2z (frame 1 w stop p d) in
  exists t', send (length bits) (transmit_register_setup now d t) = (bits, t') /\
    is_transmit_register_empty t' = true /\
    let r' := listen now bits r in
    m_rcv_byte_received r' = d /\ m_rcv_framing_error r' = false /\
    m_rcv_parity_error r' = false /\ idle r'.
Proof.
  intros Hct Hcr Hw Hsb Hh Hd t' r' Hi stop bits.
  destruct (set_data_frame_spec w p sb t Hct Hw) as (_ & Hft & _).
  pose proof (configured_frame w p sb r Hcr Hw Hsb Hh) as Hfr. fold r' in Hfr.
  assert (exists k, stop = S k /\ (k <= 1)%nat) as (k & Ek & Hk)
    by (subst stop; destruct sb; [done| | |]; eexists; split; try reflexivity; lia).
  assert (length (frame 1 w stop p d) <= 16)%nat as Hlen.
  { unfold frame. rewrite !length_app, !length_replicate, data_bits_length, parity_bits_length, Ek.
    unfold parity_bits. destruct (bool_decide _); cbn; lia. }
  destruct (setup_holds now d t' 1 w stop p) as (Hh1 & Hh2 & Hh3); [|done|].
  { subst t' stop. rewrite Hft. do 2 f_equal. rewrite Z2Nat.id; [done|]. destruct sb; cbn; lia. }
  destruct (send_bits (length (frame 1 w stop p d)) _ _ Hh1 Hlen Hh3) as (t'' & Hs & He & _);
    [by rewrite Nat.sub_diag|lia|].
  exists t''. unfold bits at 1. rewrite length_map, Hs, Nat.sub_diag. split; [done|].
  split; [rewrite He, bool_decide_true; [done|]; unfold frame; cbn; lia|].
  unfold bits. rewrite Ek, frame_body, listen_app. cbv zeta.
  pose proof (listen_frame now w 1 _ p r' (body w p d) Hfr Hi (body_length w p d)) as Hrc.
  apply (listen_stops now _ _ _ _ k) in Hrc; [|apply body_last].
  destruct Hrc as [_ Hfl Hline Hb Hfe Hpe].
  rewrite body_take, byte_of_data_bits in * by done. split; [done|]. split.
  { rewrite Hfe. unfold body. rewrite app_assoc, Nat.add_sub, drop_app_length'; [done|].
    by rewrite length_app, data_bits_length, (parity_bits_length p d). }
  split; [|split; [done|by rewrite Hline, body_last]].
  rewrite Hpe. destruct (decide (p = PARITY_NONE)) as [->|Hp]; [done|].
  by rewrite parity_fails_bit, body_parity, <- parity_bit_b2z, Z.eqb_refl by done.
Qed.

(** What a receiver makes of any frame: the low [w] bits are the byte, a stop
    bit at zero is a framing error, and the parity error is the one of the
    frame's own data and parity bit. *)
Theorem frame_decode now w m n p r l :
  rx_frame w m n p r -> idle r -> length l = n ->
  let r' := listen now (0 :: map b2z l) r in
  m_rcv_byte_received r' = byte_of_bits (take w l) /\
  m_rcv_framing_error r' = existsb negb (drop (n - m) l) /\
  m_rcv_parity_error r' = parity_fails p (byte_of_bits (take w l)) (b2z (nth w l false)) /\
  is_receive_register_synchronized r' = false.
Proof.
  intros Hf Hi Hl. destruct (listen_frame now w m n p r l Hf Hi Hl) as [_ Hfl _ Hb Hfe Hpe].
  split_and!; try done. exact (f_equal (fun t => t.1.2) Hfl).
Qed.

(** C38: With odd or even parity, one wrong data or parity bit is always noticed. *)
Theorem single_bit_error_detected now w p d r i :
  rx_frame w 1 (w + length (parity_bits p 0) + 1) p r -> idle r ->
  p = PARITY_ODD \/ p = PARITY_EVEN -> 0 <= d < 2 ^ Z.of_nat w -> (i <= w)%nat ->
  m_rcv_parity_error (listen now (0 :: map b2z (alter negb i (body w p d))) r) = true.
Proof.
  intros Hf Hi Hp Hd Hiw. pose proof Hf as (_ & _ & Hw & _).
  assert (p ≠ PARITY_NONE) as Hnp by (by destruct Hp as [-> | ->]).
  destruct (listen_frame now w 1 _ p r (alter negb i (body w p d)) Hf Hi) as [_ _ _ _ _ ->];
    [by rewrite length_alter, body_length|].
  rewrite parity_fails_bit by done.
  destruct (decide (i = w)) as [->|Hne].
  - rewrite take_alter_ge, body_take, byte_of_data_bits by done.
    rewrite nth_alter_negb, body_parity by (rewrite ?body_length; lia || done).
    destruct (odd_ones_bit d) as [c Ec]. destruct Hp as [-> | ->]; cbn; rewrite Ec; by destruct c.
  - rewrite take_alter_lt, nth_alter_ne, body_take, body_parity by (lia || done).
    assert (odd_ones (byte_of_bits (alter negb i (data_bits w d))) = Z.lxor (odd_ones d) 1) as Ho.
    { rewrite <- (byte_of_data_bits w d Hd) at 2.
      rewrite !odd_ones_bits, xor_flip by (rewrite ?length_alter, data_bits_length; lia).
      by destruct (fold_right xorb false (data_bits w d)). }
    destruct (odd_ones_bit d) as [c Ec].
    destruct Hp as [-> | ->]; cbn; rewrite Ho, Ec; by destruct c.
Qed.

(** C36: The ring buffer behind a transmitter is a queue of at most [N] bytes:
    a byte offered to an idle transmitter is sent at once, one offered to a
    busy transmitter is queued, one offered to a full queue is dropped, and
    each completed character fetches the oldest byte. *)
Theorem fifo_refines_queue N now byte b q :
  (0 < N)%nat -> queued N b q ->
  (fifo_empty b = bool_decide (q = [])) /\ (fifo_full b = bool_decide (length q = N)) /\
  queued N (clear_fifo b) [] /\
  (let b' := transmit_byte N now byte b in
   if bool_decide (q = []) && is_transmit_register_empty (base_serial b)
   then queued N b' [] /\ base_serial b' = transmit_register_setup now byte (base_serial b)
   else if bool_decide (length q < N)%nat
   then queued N b' (q ++ [byte]) /\ base_serial b' = base_serial b
   else b' = b) /\
  (let b' := buffered_tra_complete N now b in
   match q with
   | [] => b' = b
   | x :: q' => queued N b' q' /\ base_serial b' = transmit_register_setup now x (base_serial b)
   end).
Proof.
  intros HN H. pose proof (full_iff N b q HN H) as Hfull. pose proof H as [Hl Hh Hf Ht He Hn].
  split; [done|]. split.
  { unfold fifo_full. rewrite Hfull, He. destruct q as [|x q]; [|cbn [length]];
      repeat case_bool_decide; cbn in *; try done; lia. }
  split.
  { constructor; cbn; try done; try lia. by rewrite Nat.Div0.mod_0_l. }
  unfold transmit_byte, buffered_tra_complete. rewrite Hfull, He. split; cbv zeta.
  - destruct (bool_decide (q = []) && _) eqn:E.
    + apply andb_true_iff in E as [->%bool_decide_eq_true _]. split; [by destruct H|done].
    + assert (bool_decide (q = []) || negb (bool_decide (length q = 0 \/ length q = N)%nat)
        = bool_decide (length q < N)%nat) as ->.
      { destruct q as [|x q]; cbn [length] in *; repeat case_bool_decide; cbn; try done; lia. }
      destruct (bool_decide (length q < N)%nat) eqn:Elt; [|done].
      apply bool_decide_eq_true in Elt. split; [by apply queued_push|done].
  - destruct q as [|x q]; [done|]. rewrite bool_decide_false by done. cbn [negb].
    destruct (queued_pop N b x q HN H) as [Hx Hq]. rewrite Hx. split; [apply Hq|done].
Qed.

(** ** Witnesses *)

Lemma frame_roundtrip_witness :
  m_rcv_byte_received (listen zero (map b2z (frame 1 7 2 PARITY_EVEN 0x55))
    (set_data_frame 1 7 PARITY_EVEN STOP_BITS_2 new_serial)) = 0x55.
Proof.
  destruct (frame_roundtrip zero 7 PARITY_EVEN STOP_BITS_2 0x55 new_serial new_serial)
    as (t' & _ & _ & H & _); [done|done|lia|done|done|cbn; lia|by split; vm_compute|exact H].
Defined.

Definition sample_receiver : serial := set_data_frame 1 8 PARITY_ODD STOP_BITS_1 new_serial.

Lemma sample_receiver_frame : rx_frame 8 1 10 PARITY_ODD sample_receiver /\ idle sample_receiver.
Proof. split; [apply (configured_frame 8); done || lia|by split; vm_compute]. Qed.

Lemma frame_decode_witness :
  m_rcv_framing_error (listen zero (0 :: map b2z (replicate 10 false)) sample_receiver) = true.
Proof.
  destruct (frame_decode zero 8 1 10 PARITY_ODD sample_receiver (replicate 10 false))
    as (_ & E & _); [apply sample_receiver_frame|apply sample_receiver_frame|reflexivity|].
  rewrite E. reflexivity.
Defined.

Lemma single_bit_error_detected_witness :
  m_rcv_parity_error (listen zero (0 :: map b2z (alter negb 3%nat (body 8 PARITY_ODD 0xa5)))
    sample_receiver) = true.
Proof.
  apply (single_bit_error_detected zero 8 PARITY_ODD 0xa5 sample_receiver 3);
    [apply sample_receiver_frame|apply sample_receiver_frame|by left|cbn; lia|lia].
Defined.

Definition sample_fifo : buffered := mk_buffered new_serial [1; 2; 3; 4] 3%nat 1%nat false.

Lemma fifo_refines_queue_witness :
  queued 4 (transmit_byte 4 zero 9 sample_fifo) [4; 1; 9].
Proof.
  destruct (fifo_refines_queue 4 zero 9 sample_fifo [4; 1]) as (_ & _ & _ & H & _); [lia| |].
  - constructor; cbn; try lia; try reflexivity. intros k Hk. by destruct k as [|[|]]; [..|lia].
  - destruct H as [H _]. exact H.
Defined.
