(* ===== verification/Duart.v ===== *)
(** * Duart: the MC68681 family (src/src/devices/machine/mc68681.h, mc68681.cpp)

    The state of a [duart_base_device] with its channels, every register
    access, the serial hooks of [duart_channel] and the counter/timer, for all
    the chips of the file: [kind] selects the overrides of the derived
    classes.  The lines the chip drives are the operations of the class
    [DuartEnv]; a callback gets and returns the whole state, since the board
    may write back to the chip from inside it. *)

From stdpp Require Import base tactics numbers option list.
From Stdlib Require Import ZArith Lia Bool.
From S2P Require Import Prelude Attotime Scheduler Serial.

(** ** Constants *)

Definition MC68681_RX_FIFO_SIZE : nat := 3.

Definition baud_rate_ACR_0 : list Z :=
  [50; 110; 134; 200; 300; 600; 1200; 1050; 2400; 4800; 7200; 9600; 38400; 0; 0; 0].
Definition baud_rate_ACR_0_X_1 : list Z :=
  [75; 110; 134; 150; 3600; 14400; 28800; 57600; 115200; 4800; 1800; 9600; 19200; 0; 0; 0].
Definition baud_rate_ACR_1 : list Z :=
  [75; 110; 134; 150; 300; 600; 1200; 2000; 2400; 4800; 1800; 9600; 19200; 0; 0; 0].
Definition baud_rate_ACR_1_X_1 : list Z :=
  [50; 110; 134; 200; 3600; 14400; 28800; 57600; 115200; 4800; 7200; 9600; 38400; 0; 0; 0].
Definition baud_rate_ACR_0_340 : list Z :=
  [50; 110; 134; 200; 300; 600; 1200; 1050; 2400; 4800; 7200; 9600; 38400; 76800; 0; 0].
Definition baud_rate_ACR_1_340 : list Z :=
  [75; 110; 134; 150; 300; 600; 1200; 2000; 2400; 4800; 1800; 9600; 19200; 38400; 0; 0].

Definition INT_INPUT_PORT_CHANGE : Z := 0x80.
Definition INT_DELTA_BREAK_B : Z := 0x40.
Definition INT_RXRDY_FFULLB : Z := 0x20.
Definition INT_TXRDYB : Z := 0x10.
Definition INT_COUNTER_READY : Z := 0x08.
Definition INT_DELTA_BREAK_A : Z := 0x04.
Definition INT_RXRDY_FFULLA : Z := 0x02.
Definition INT_TXRDYA : Z := 0x01.

Definition STATUS_RECEIVED_BREAK : Z := 0x80.
Definition STATUS_FRAMING_ERROR : Z := 0x40.
Definition STATUS_PARITY_ERROR : Z := 0x20.
Definition STATUS_OVERRUN_ERROR : Z := 0x10.
Definition STATUS_TRANSMITTER_EMPTY : Z := 0x08.
Definition STATUS_TRANSMITTER_READY : Z := 0x04.
Definition STATUS_FIFO_FULL : Z := 0x02.
Definition STATUS_RECEIVER_READY : Z := 0x01.

(** [STATUS_RECEIVED_BREAK | STATUS_FRAMING_ERROR | STATUS_PARITY_ERROR] *)
Definition STATUS_CHARACTER_ERRORS : Z := 0xe0.

Definition MODE_RX_INT_SELECT_BIT : Z := 0x40.
Definition MODE_BLOCK_ERROR : Z := 0x20.

Definition CLEAR_LINE : Z := 0.
Definition ASSERT_LINE : Z := 1.

(** ** State *)

Inductive duart_kind := SCN2681 | MC68681 | MCF5206E_UART | SC28C94 | MC68340_DUART | XR68C681.
Inductive chan := ChA | ChB | ChC | ChD.

#[export] Instance chan_eq_dec : EqDecision chan.
Proof. solve_decision. Defined.
#[export] Instance duart_kind_eq_dec : EqDecision duart_kind.
Proof. solve_decision. Defined.

Record duart_channel := mk_channel {
  ch_serial : serial;
  CR : Z;
  CSR : Z;
  MR1 : Z;
  MR2 : Z;
  MR_ptr : Z;
  SR : Z;
  tx_baud_rate : Z;
  rx_baud_rate : Z;
  rx_enabled : Z;
  rx_fifo : list Z;
  rx_fifo_read_ptr : nat;
  rx_fifo_write_ptr : nat;
  rx_fifo_num : nat;
  m_tx_data : Z;
  m_tx_data_in_buffer : bool;
  m_tx_break : bool;
  m_bits_transmitted : Z;
  m_tx_enabled : bool;
  m_rx_prescaler : Z;
  m_tx_prescaler : Z
}.

#[export] Instance duart_channel_eta : Eta duart_channel := fun c =>
  mk_channel (ch_serial c) (CR c) (CSR c) (MR1 c) (MR2 c) (MR_ptr c) (SR c)
    (tx_baud_rate c) (rx_baud_rate c) (rx_enabled c) (rx_fifo c) (rx_fifo_read_ptr c)
    (rx_fifo_write_ptr c) (rx_fifo_num c) (m_tx_data c) (m_tx_data_in_buffer c)
    (m_tx_break c) (m_bits_transmitted c) (m_tx_enabled c) (m_rx_prescaler c) (m_tx_prescaler c).

(** The constructor; the members it leaves alone keep what [c] has there. *)
Definition new_duart_channel (c : duart_channel) : duart_channel :=
  c <| ch_serial := new_serial |> <| MR1 := 0 |> <| MR2 := 0 |> <| SR := 0 |>
    <| rx_enabled := 0 |> <| rx_fifo_num := 0%nat |> <| m_tx_data_in_buffer := false |>
    <| m_tx_break := false |> <| m_bits_transmitted := 255 |> <| m_tx_enabled := false |>
    <| rx_fifo := replicate (MC68681_RX_FIFO_SIZE + 1) 0 |>.

Record duart := mk_duart {
  kind : duart_kind;
  clock : Z;
  m_chanA : duart_channel;
  m_chanB : duart_channel;
  m_chanC : duart_channel;
  m_chanD : duart_channel;
  ip3clk : Z;
  ip4clk : Z;
  ip5clk : Z;
  ip6clk : Z;
  ACR : Z;
  IMR : Z;
  ISR : Z;
  OPCR : Z;
  OPR : Z;
  CTR : Z;
  IPCR : Z;
  IP_last_state : Z;
  half_period : Z;
  duart_timer : emu_timer;
  m_irq_state : bool;
  m_read_vector : bool;
  IVR : Z;
  UBG : Z;
  m_XTXA : bool;
  m_XRXA : bool;
  m_XTXB : bool;
  m_XRXB : bool
}.

#[export] Instance duart_eta : Eta duart := fun d =>
  mk_duart (kind d) (clock d) (m_chanA d) (m_chanB d) (m_chanC d) (m_chanD d) (ip3clk d)
    (ip4clk d) (ip5clk d) (ip6clk d) (ACR d) (IMR d) (ISR d) (OPCR d) (OPR d) (CTR d)
    (IPCR d) (IP_last_state d) (half_period d) (duart_timer d) (m_irq_state d)
    (m_read_vector d) (IVR d) (UBG d) (m_XTXA d) (m_XRXA d) (m_XTXB d) (m_XRXB d).

(** The constructors of the base and derived classes. *)
Definition new_duart (k : duart_kind) (d : duart) : duart :=
  d <| kind := k |> <| ip3clk := 0 |> <| ip4clk := 0 |> <| ip5clk := 0 |> <| ip6clk := 0 |>
    <| ACR := 0 |> <| IP_last_state := 0 |> <| m_read_vector := false |>
    <| m_XTXA := false |> <| m_XRXA := false |> <| m_XTXB := false |> <| m_XRXB := false |>
    <| m_chanA ::= new_duart_channel |> <| m_chanB ::= new_duart_channel |>
    <| m_chanC ::= new_duart_channel |> <| m_chanD ::= new_duart_channel |>
    <| duart_timer := new_timer |>.

Definition set_clocks (clk3 clk4 clk5 clk6 : Z) (d : duart) : duart :=
  d <| ip3clk := clk3 |> <| ip4clk := clk4 |> <| ip5clk := clk5 |> <| ip6clk := clk6 |>.

Definition channel (c : chan) (d : duart) : duart_channel :=
  match c with ChA => m_chanA d | ChB => m_chanB d | ChC => m_chanC d | ChD => m_chanD d end.
Definition on_channel (c : chan) (f : duart_channel -> duart_channel) (d : duart) : duart :=
  match c with
  | ChA => d <| m_chanA ::= f |>
  | ChB => d <| m_chanB ::= f |>
  | ChC => d <| m_chanC ::= f |>
  | ChD => d <| m_chanD ::= f |>
  end.

(** [get_ch], the channel number. *)
Definition get_ch (c : chan) : Z := match c with ChA => 0 | ChB => 1 | ChC => 2 | ChD => 3 end.

Definition irq_pending (d : duart) : bool := negb (Z.land (ISR d) (IMR d) =? 0).

(** ** Baud rates and the counter's rate *)

Definition base_calc_baud (d : duart) (ch : Z) (rx : bool) (data : Z) : Z :=
  let sel := Z.land data 0x0f in
  if BIT (ACR d) 7 =? 0 then
    let baud_rate := nth (Z.to_nat sel) baud_rate_ACR_0 0 in
    if ch =? 0 then
      if sel =? 0xe then Z.quot (ip3clk d) 16
      else if sel =? 0xf then ip3clk d else baud_rate
    else if ch =? 1 then
      if sel =? 0xe then Z.quot (ip5clk d) 16
      else if sel =? 0xf then ip5clk d else baud_rate
    else baud_rate
  else nth (Z.to_nat sel) baud_rate_ACR_1 0.

Definition mc68340_calc_baud (d : duart) (ch : Z) (rx : bool) (data : Z) : Z :=
  let sel := Z.land data 0x0f in
  let baud_rate :=
    if BIT (ACR d) 7 =? 0 then nth (Z.to_nat sel) baud_rate_ACR_0_340 0
    else nth (Z.to_nat sel) baud_rate_ACR_1_340 0 in
  if ch =? 0 then
    if sel =? 0xe then Z.quot (ip3clk d) 16
    else if sel =? 0xf then ip3clk d else baud_rate
  else if ch =? 1 then
    if sel =? 0xe then Z.quot (ip5clk d) 16
    else if sel =? 0xf then ip5clk d else baud_rate
  else baud_rate.

Definition xr68c681_calc_baud (d : duart) (ch : Z) (rx : bool) (data : Z) : Z :=
  let sel := Z.land data 0x0f in
  let baud_rate := nth (Z.to_nat sel) baud_rate_ACR_0 0 in
  let from_tables (x : bool) :=
    if x then if BIT (ACR d) 7 =? 0 then nth (Z.to_nat sel) baud_rate_ACR_0_X_1 0
              else nth (Z.to_nat sel) baud_rate_ACR_1_X_1 0
    else if BIT (ACR d) 7 =? 0 then nth (Z.to_nat sel) baud_rate_ACR_0 0
         else nth (Z.to_nat sel) baud_rate_ACR_1 0 in
  if ch =? 0 then
    if sel =? 0x0e then Z.quot (ip3clk d) 16
    else if sel =? 0x0f then ip3clk d
    else from_tables ((rx && m_XRXA d) || (negb rx && m_XTXA d))
  else if ch =? 1 then
    if sel =? 0x0e then Z.quot (ip5clk d) 16
    else if sel =? 0x0f then ip5clk d
    else from_tables ((rx && m_XRXB d) || (negb rx && m_XTXB d))
  else baud_rate.

Definition mcf5206e_calc_baud (d : duart) (ch : Z) (rx : bool) (data : Z) : Z :=
  let ubg_temp := if 0 <? UBG d then UBG d else 1 in
  let sel := Z.land data 0xf in
  if sel =? 0xe then Z.quot (ip3clk d) 16
  else if sel =? 0xf then ip3clk d
  else if sel =? 0xd then clock d / 32 / ubg_temp
  else 0.

(** The virtual [calc_baud]. *)
Definition calc_baud (d : duart) (ch : Z) (rx : bool) (data : Z) : Z :=
  match kind d with
  | MC68340_DUART => mc68340_calc_baud d ch rx data
  | XR68C681 => xr68c681_calc_baud d ch rx data
  | MCF5206E_UART => mcf5206e_calc_baud d ch rx data
  | _ => base_calc_baud d ch rx data
  end.

Definition get_ct_rate (d : duart) : Z :=
  let source := Z.land (Z.shiftr (ACR d) 4) 3 in
  if test (ACR d) 0x40 then
    if source =? 3 then clock d / 16 else clock d
  else
    if source =? 0 then clock d
    else if source =? 1 then u32 (tx_baud_rate (m_chanA d))
    else if source =? 2 then u32 (tx_baud_rate (m_chanB d))
    else clock d / 16.

(** ** The environment *)

Class DuartEnv (W : Type) := {
  now : W -> attotime;
  write_irq : Z -> duart * W -> duart * W;
  write_tx : chan -> Z -> duart * W -> duart * W;
  write_outport : Z -> duart * W -> duart * W;
  read_inport : option (duart * W -> Z * (duart * W));
  side_effects_disabled : W -> bool
}.

Section Device.
Context {W : Type} `{DuartEnv W}.

#[local] Abbreviation St := (duart * W)%type.

(** An assignment to the device, or to channel [c] of it. *)
Definition dev (f : duart -> duart) (s : St) : St := (f s.1, s.2).
Definition chan_do (c : chan) (f : duart_channel -> duart_channel) : St -> St :=
  dev (on_channel c f).
Definition chan_of (c : chan) (s : St) : duart_channel := channel c s.1.

(** [f] when [b]. *)
Definition when (b : bool) (f : St -> St) (s : St) : St := if b then f s else s.

(** ** Interrupts and the output port *)

(** The automatic outputs OP4 to OP7: bit [op] of OPR follows bit [isr]. *)
Definition follow (op isr : Z) (mask : Z) (d : duart) : duart :=
  if bit_set (OPCR d) op then
    if bit_set (ISR d) isr then d <| OPR ::= set_bits mask |> else d <| OPR ::= clear_bits mask |>
  else d.

Definition base_update_interrupts (s : St) : St :=
  let s :=
    if irq_pending s.1 then
      if negb (m_irq_state s.1)
      then write_irq ASSERT_LINE (dev (fun d => d <| m_irq_state := true |>) s) else s
    else
      if m_irq_state s.1
      then write_irq CLEAR_LINE (dev (fun d => d <| m_irq_state := false |>) s) else s in
  if test (OPCR s.1) 0xf0 then
    let s := dev (follow 4 1 0x10) s in
    let s := dev (follow 5 5 0x20) s in
    let s := dev (follow 6 0 0x40) s in
    let s := dev (follow 7 4 0x80) s in
    write_outport (Z.lxor (OPR s.1) 0xff) s
  else s.

Definition has_read_vector (k : duart_kind) : bool :=
  match k with MC68681 | XR68C681 | MCF5206E_UART => true | _ => false end.

(** The virtual [update_interrupts]. *)
Definition update_interrupts (s : St) : St :=
  let s := base_update_interrupts s in
  if has_read_vector (kind s.1) && negb (irq_pending s.1)
  then dev (fun d => d <| m_read_vector := false |>) s else s.

Definition get_irq_vector (s : St) : Z * St :=
  let s := if negb (side_effects_disabled s.2)
           then dev (fun d => d <| m_read_vector := true |>) s else s in
  (IVR s.1, s).

Definition clear_ISR_bits (mask : Z) (s : St) : St :=
  if test (ISR s.1) mask then update_interrupts (dev (fun d => d <| ISR ::= clear_bits mask |>) s)
  else s.
Definition set_ISR_bits (mask : Z) (s : St) : St :=
  if negb (test (ISR s.1) mask) then update_interrupts (dev (fun d => d <| ISR ::= set_bits mask |>) s)
  else s.

(** The interrupt bits of a channel: A has its own, every other one B's. *)
Definition INT_TXRDY (c : chan) : Z := if get_ch c =? 0 then INT_TXRDYA else INT_TXRDYB.
Definition INT_RXRDY_FFULL (c : chan) : Z :=
  if get_ch c =? 0 then INT_RXRDY_FFULLA else INT_RXRDY_FFULLB.
Definition INT_DELTA_BREAK (c : chan) : Z :=
  if get_ch c =? 0 then INT_DELTA_BREAK_A else INT_DELTA_BREAK_B.

(** [duart_channel::update_interrupts]. *)
Definition chan_update_interrupts (c : chan) (s : St) : St :=
  let mode := Z.land (MR2 (chan_of c s)) 0xc0 in
  let s := if (mode =? 0x40) || (mode =? 0xc0)
           then chan_do c (fun ch => ch <| SR ::= clear_bits STATUS_TRANSMITTER_READY |>) s else s in
  let s := if test (SR (chan_of c s)) STATUS_TRANSMITTER_READY
           then set_ISR_bits (INT_TXRDY c) s else clear_ISR_bits (INT_TXRDY c) s in
  if test (MR1 (chan_of c s)) MODE_RX_INT_SELECT_BIT then
    if test (SR (chan_of c s)) STATUS_FIFO_FULL
    then set_ISR_bits (INT_RXRDY_FFULL c) s else clear_ISR_bits (INT_RXRDY_FFULL c) s
  else
    if test (SR (chan_of c s)) STATUS_RECEIVER_READY
    then set_ISR_bits (INT_RXRDY_FFULL c) s else clear_ISR_bits (INT_RXRDY_FFULL c) s.

(** ** The receiver *)

(** [rx_fifo_push] up to its call of [update_interrupts]: an overrun backs the
    write pointer up to the tail entry, *)
Definition fifo_overrun (ch : duart_channel) : duart_channel :=
  if (rx_fifo_num ch =? MC68681_RX_FIFO_SIZE + 1)%nat then
    ch <| SR ::= set_bits STATUS_OVERRUN_ERROR |>
       <| rx_fifo_write_ptr ::= fun p => match p with S p => p | O => MC68681_RX_FIFO_SIZE end |>
  else ch.

(** the word is stored and counted, *)
Definition fifo_store (word : Z) (ch : duart_channel) : duart_channel :=
  let ch := ch <| rx_fifo ::= (<[rx_fifo_write_ptr ch := word]>) |> in
  let ch := ch <| rx_fifo_write_ptr ::= S |> in
  let ch := if (MC68681_RX_FIFO_SIZE <? rx_fifo_write_ptr ch)%nat
            then ch <| rx_fifo_write_ptr := 0%nat |> else ch in
  if (rx_fifo_num ch <=? MC68681_RX_FIFO_SIZE)%nat then ch <| rx_fifo_num ::= S |> else ch.

(** and the status follows the count. *)
Definition fifo_push_status (errors : Z) (ch : duart_channel) : duart_channel :=
  let ch :=
    if (rx_fifo_num ch =? 1)%nat then
      let ch := ch <| SR ::= set_bits STATUS_RECEIVER_READY |> in
      let ch := if negb (test (MR1 ch) MODE_BLOCK_ERROR)
                then ch <| SR ::= clear_bits STATUS_CHARACTER_ERRORS |> else ch in
      ch <| SR ::= set_bits errors |>
    else ch in
  if (rx_fifo_num ch =? MC68681_RX_FIFO_SIZE)%nat
  then ch <| SR ::= set_bits STATUS_FIFO_FULL |> else ch.

Definition fifo_word (data errors : Z) : Z := u16 (Z.lor (u8 data) (Z.shiftl errors 8)).
Definition fifo_push (data errors : Z) (ch : duart_channel) : duart_channel :=
  fifo_push_status errors (fifo_store (fifo_word data errors) (fifo_overrun ch)).

Definition rx_fifo_push (c : chan) (data errors : Z) (s : St) : St :=
  chan_update_interrupts c (chan_do c (fifo_push data errors) s).

(** [read_rx_fifo] of a FIFO that is not empty, up to its call of
    [update_interrupts]. *)
Definition fifo_advance (ch : duart_channel) : duart_channel :=
  let ch := ch <| rx_fifo_read_ptr ::= S |> in
  let ch := if (MC68681_RX_FIFO_SIZE <? rx_fifo_read_ptr ch)%nat
            then ch <| rx_fifo_read_ptr := 0%nat |> else ch in
  ch <| rx_fifo_num ::= pred |>.

Definition fifo_pop_status (ch : duart_channel) : duart_channel :=
  let ch := if (rx_fifo_num ch =? MC68681_RX_FIFO_SIZE - 1)%nat
            then ch <| SR ::= clear_bits STATUS_FIFO_FULL |> else ch in
  let ch := if negb (test (MR1 ch) MODE_BLOCK_ERROR)
            then ch <| SR ::= clear_bits STATUS_CHARACTER_ERRORS |> else ch in
  if (rx_fifo_num ch =? 0)%nat
  then ch <| SR ::= clear_bits STATUS_RECEIVER_READY |>
  else ch <| SR ::= set_bits (Z.shiftr (nth (rx_fifo_read_ptr ch) (rx_fifo ch) 0) 8) |>.

Definition fifo_pop (ch : duart_channel) : Z * duart_channel :=
  (u8 (nth (rx_fifo_read_ptr ch) (rx_fifo ch) 0), fifo_pop_status (fifo_advance ch)).

Definition read_rx_fifo (c : chan) (s : St) : Z * St :=
  if (rx_fifo_num (chan_of c s) =? 0)%nat then (0, chan_update_interrupts c s)
  else
    let '(rv, ch) := fifo_pop (chan_of c s) in
    (rv, chan_update_interrupts c (chan_do c (fun _ => ch) s)).

Definition ch_rcv_complete (c : chan) (s : St) : St :=
  let s := chan_do c (fun ch => ch <| ch_serial ::= receive_register_extract |>) s in
  let ch := chan_of c s in
  if negb (rx_enabled ch =? 0) || (Z.land (MR2 ch) 0xc0 =? 0x80) then
    let errors := 0 in
    let errors := if m_rcv_framing_error (ch_serial ch)
                  then Z.lor errors STATUS_FRAMING_ERROR else errors in
    let errors := if m_rcv_parity_error (ch_serial ch)
                  then Z.lor errors STATUS_PARITY_ERROR else errors in
    rx_fifo_push c (m_rcv_byte_received (ch_serial ch)) errors s
  else s.

(** ** The transmitter *)

Definition ch_transmit_setup (c : chan) (data : Z) (s : St) : St :=
  let t := now s.2 in
  chan_do c (fun ch => ch <| ch_serial ::= transmit_register_setup t data |>) s.

Definition ch_tra_complete (c : chan) (s : St) : St :=
  if m_tx_data_in_buffer (chan_of c s) then
    let s := ch_transmit_setup c (m_tx_data (chan_of c s)) s in
    let s := chan_do c (fun ch => ch <| m_bits_transmitted := 0 |> <| m_tx_data_in_buffer := false |>
                                    <| SR ::= set_bits STATUS_TRANSMITTER_READY |>) s in
    chan_update_interrupts c s
  else
    chan_update_interrupts c (chan_do c (fun ch => ch <| SR ::= set_bits STATUS_TRANSMITTER_EMPTY |>) s).

Definition ch_tra_callback (c : chan) (s : St) : St :=
  let loopback := Z.land (MR2 (chan_of c s)) 0xc0 =? 0x80 in
  let '(bit, ser) := transmit_register_get_data_bit (ch_serial (chan_of c s)) in
  let s := chan_do c (fun ch => ch <| ch_serial := ser |>) s in
  let s :=
    if negb loopback then write_tx c bit s
    else let t := now s.2 in chan_do c (fun ch => ch <| ch_serial ::= rx_w t bit |>) s in
  let s := chan_do c (fun ch => ch <| m_bits_transmitted ::= fun n => u8 (n + 1) |>) s in
  let ch := chan_of c s in
  if (1 <? m_bits_transmitted ch) && negb (m_tx_data_in_buffer ch) && m_tx_enabled ch then
    chan_update_interrupts c (chan_do c (fun ch => ch <| SR ::= set_bits STATUS_TRANSMITTER_READY |>) s)
  else s.

(** The channel as a serial device. *)
#[export] Instance channel_serial (c : chan) : SerialDevice St := {
  serial_of s := ch_serial (chan_of c s);
  on_serial f := chan_do c (fun ch => ch <| ch_serial ::= f |>);
  sched_time s := now s.2;
  tra_callback := ch_tra_callback c;
  rcv_callback := chan_do c (fun ch =>
    ch <| ch_serial ::= fun ser => receive_register_update_bit (m_rcv_line ser) ser |>);
  tra_complete := ch_tra_complete c;
  rcv_complete := ch_rcv_complete c
}.

#[export] Instance channel_serial_laws (c : chan) : @SerialDeviceLaws St (channel_serial c).
Proof. split; intros f [d w]; by destruct c. Qed.

Definition write_TX (c : chan) (data : Z) (s : St) : St :=
  if negb (test (SR (chan_of c s)) STATUS_TRANSMITTER_READY) then s
  else
    let s := chan_do c (fun ch => ch <| SR ::=
      clear_bits (Z.lor STATUS_TRANSMITTER_READY STATUS_TRANSMITTER_EMPTY) |>) s in
    let s :=
      if negb (is_transmit_register_empty (ch_serial (chan_of c s)))
      then chan_do c (fun ch => ch <| m_tx_data := data |> <| m_tx_data_in_buffer := true |>) s
      else chan_do c (fun ch => ch <| m_bits_transmitted := 0 |>) (ch_transmit_setup c data s) in
    chan_update_interrupts c s.

(** ** Mode and command registers *)

Definition parity_of (MR1 : Z) : parity_t :=
  let sel := Z.land (Z.shiftr MR1 3) 3 in
  if sel =? 0 then if test MR1 4 then PARITY_ODD else PARITY_EVEN
  else if sel =? 1 then if test MR1 4 then PARITY_MARK else PARITY_SPACE
  else PARITY_NONE.

Definition stop_bits_of (MR2 : Z) : stop_bits_t :=
  let sel := Z.land (Z.shiftr MR2 2) 3 in
  if (sel =? 0) || (sel =? 1) then STOP_BITS_1
  else if sel =? 2 then STOP_BITS_1_5 else STOP_BITS_2.

Definition recalc_framing (ch : duart_channel) : duart_channel :=
  ch <| ch_serial ::= set_data_frame 1 (Z.land (MR1 ch) 3 + 5) (parity_of (MR1 ch)) (stop_bits_of (MR2 ch)) |>.

Definition write_MR (c : chan) (data : Z) (s : St) : St :=
  let s := chan_do c (fun ch =>
    if MR_ptr ch =? 0 then ch <| MR1 := data |> <| MR_ptr := 1 |> else ch <| MR2 := data |>) s in
  chan_update_interrupts c (chan_do c recalc_framing s).

(** The pin [write_CR] drives high when it resets the transmitter. *)
Definition reset_tx_pin (c : chan) : chan := if get_ch c =? 0 then ChA else ChB.

Definition reset_receiver (ch : duart_channel) : duart_channel :=
  ch <| rx_enabled := 0 |> <| SR ::= clear_bits STATUS_RECEIVER_READY |>
     <| SR ::= clear_bits STATUS_CHARACTER_ERRORS |> <| SR ::= clear_bits STATUS_OVERRUN_ERROR |>
     <| rx_fifo_read_ptr := 0%nat |> <| rx_fifo_write_ptr := 0%nat |> <| rx_fifo_num := 0%nat |>
     <| ch_serial ::= receive_register_reset |>.

(** The switch on bits 6 to 4 of a command. *)
Definition command (c : chan) (data : Z) (s : St) : St :=
  let cmd := Z.land (Z.shiftr data 4) 0x07 in
  if cmd =? 1 then chan_do c (fun ch => ch <| MR_ptr := 0 |>) s
  else if cmd =? 2 then chan_do c reset_receiver s
  else if cmd =? 3 then
    let s := chan_do c (fun ch => ch <| SR ::=
      clear_bits (Z.lor STATUS_TRANSMITTER_READY STATUS_TRANSMITTER_EMPTY) |>) s in
    let s := write_tx (reset_tx_pin c) 1 s in
    let s := clear_ISR_bits (INT_TXRDY c) s in
    chan_do c (fun ch => ch <| ch_serial ::= transmit_register_reset |> <| m_bits_transmitted := 255 |>
                            <| m_tx_data_in_buffer := false |> <| m_tx_enabled := false |>) s
  else if cmd =? 4 then
    chan_do c (fun ch => ch <| SR ::= clear_bits (Z.lor STATUS_CHARACTER_ERRORS STATUS_OVERRUN_ERROR) |>) s
  else if cmd =? 5 then clear_ISR_bits (INT_DELTA_BREAK c) s
  else if cmd =? 6 then
    if negb (m_tx_break (chan_of c s)) then
      let s := chan_do c (fun ch => ch <| m_tx_break := true |>) s in
      if Z.land (MR2 (chan_of c s)) 0xc0 =? 0x80
      then rx_fifo_push c 0 STATUS_RECEIVED_BREAK (set_ISR_bits (INT_DELTA_BREAK c) s) else s
    else s
  else if cmd =? 7 then
    if m_tx_break (chan_of c s) then
      let s := chan_do c (fun ch => ch <| m_tx_break := false |>) s in
      if Z.land (MR2 (chan_of c s)) 0xc0 =? 0x80 then set_ISR_bits (INT_DELTA_BREAK c) s else s
    else s
  else s.

Definition write_CR (c : chan) (data : Z) (s : St) : St :=
  let s := command c data s in
  let s := when (bit_set data 0) (chan_do c (fun ch => ch <| rx_enabled := 1 |>)) s in
  let s := when (bit_set data 1) (chan_do c (fun ch =>
    ch <| rx_enabled := 0 |> <| SR ::= clear_bits STATUS_RECEIVER_READY |>)) s in
  let s :=
    if negb (bit_set (CR (chan_of c s)) 2) && bit_set data 2 then
      set_ISR_bits (INT_TXRDY c) (chan_do c (fun ch =>
        ch <| SR ::= set_bits (Z.lor STATUS_TRANSMITTER_READY STATUS_TRANSMITTER_EMPTY) |>
           <| m_tx_data_in_buffer := false |> <| m_tx_enabled := true |>) s)
    else s in
  let s :=
    if bit_set data 3 then
      clear_ISR_bits (INT_TXRDY c) (chan_do c (fun ch =>
        ch <| SR ::= clear_bits (Z.lor STATUS_TRANSMITTER_READY STATUS_TRANSMITTER_EMPTY) |>
           <| m_tx_data_in_buffer := false |> <| m_tx_enabled := false |>) s)
    else s in
  let s := chan_update_interrupts c s in
  chan_do c (fun ch => ch <| CR := data |>) s.

(** The clock select register: [write_chan_reg(1, data)]. *)
Definition write_CSR (c : chan) (data : Z) (s : St) : St :=
  let t := now s.2 in
  let tx := calc_baud s.1 (get_ch c) false (Z.land data 0xf) in
  let rx := calc_baud s.1 (get_ch c) true (Z.land (Z.shiftr data 4) 0xf) in
  chan_do c (fun ch => ch <| CSR := data |> <| tx_baud_rate := tx |> <| rx_baud_rate := rx |>
    <| ch_serial ::= set_rcv_baud t rx |> <| ch_serial ::= set_tra_baud t tx |>) s.

Definition read_chan_reg (c : chan) (reg : Z) (s : St) : Z * St :=
  if reg =? 0 then
    let ch := chan_of c s in
    if MR_ptr ch =? 0 then (MR1 ch, chan_do c (fun ch => ch <| MR_ptr := 1 |>) s) else (MR2 ch, s)
  else if reg =? 1 then (SR (chan_of c s), s)
  else if reg =? 3 then read_rx_fifo c s
  else (0xff, s).

Definition write_chan_reg (c : chan) (reg data : Z) (s : St) : St :=
  if reg =? 0 then write_MR c data s
  else if reg =? 1 then write_CSR c data s
  else if reg =? 2 then write_CR c data s
  else if reg =? 3 then write_TX c data s
  else s.

Definition baud_updated (c : chan) (s : St) : St := write_chan_reg c 1 (CSR (chan_of c s)) s.

(** [duart_channel::device_reset]. *)
Definition chan_device_reset (c : chan) (s : St) : St :=
  let s := write_CR c 0x10 s in
  let s := write_CR c 0x20 s in
  let s := write_CR c 0x30 s in
  let s := write_CR c 0x40 s in
  chan_do c (fun ch => ch <| ch_serial ::= set_data_frame 1 8 PARITY_NONE STOP_BITS_1 |>
    <| rx_baud_rate := 0 |> <| tx_baud_rate := 0 |> <| CSR := 0 |> <| m_tx_break := false |>) s.

(** The 16x clocks. *)
Definition tx_16x_clock_w (c : chan) (state : bool) (s : St) : St :=
  if state then
    let s := chan_do c (fun ch => ch <| m_tx_prescaler ::= fun n => u8 (n - 1) |>) s in
    if m_tx_prescaler (chan_of c s) =? 8 then tx_clock_w (D := St) (H := channel_serial c) 1 s
    else if m_tx_prescaler (chan_of c s) =? 0
    then tx_clock_w (D := St) (H := channel_serial c) 0 (chan_do c (fun ch => ch <| m_tx_prescaler := 16 |>) s)
    else s
  else s.

Definition rx_16x_clock_w (c : chan) (state : bool) (s : St) : St :=
  if negb (is_receive_register_synchronized (ch_serial (chan_of c s))) then
    rx_clock_w (D := St) (H := channel_serial c) 1 (chan_do c (fun ch => ch <| m_rx_prescaler := 32 |>) s)
  else if state then
    let s := chan_do c (fun ch => ch <| m_rx_prescaler ::= fun n => u8 (n - 1) |>) s in
    if m_rx_prescaler (chan_of c s) =? 8 then rx_clock_w (D := St) (H := channel_serial c) 0 s
    else if m_rx_prescaler (chan_of c s) =? 0
    then rx_clock_w (D := St) (H := channel_serial c) 1 (chan_do c (fun ch => ch <| m_rx_prescaler := 16 |>) s)
    else s
  else s.

(** The receive inputs [rx_a_w] to [rx_d_w]. *)
Definition rx_x_w (c : chan) (state : Z) (s : St) : St :=
  let t := now s.2 in chan_do c (fun ch => ch <| ch_serial ::= rx_w t (u8 state) |>) s.

(** ** The counter/timer *)

Definition get_ct_count (s : St) : Z :=
  u16 (as_ticks (Scheduler.remaining (now s.2) (duart_timer s.1)) (get_ct_rate s.1)).

Definition start_ct (count : Z) (s : St) : St :=
  let t := now s.2 in
  dev (fun d => d <| duart_timer ::= adjusted t (from_ticks (u64 count) (get_ct_rate d)) 0 never |>) s.

Definition ct_preset (d : duart) : Z := Z.max (CTR d) 1.

(** The serial clocks of channel [c] when the timer drives them. *)
Definition timer_clocks (c : chan) (s : St) : St :=
  let csr := CSR (chan_of c s) in
  let s := if Z.land csr 0x0f =? 0x0d
           then tx_16x_clock_w c (negb (half_period s.1 =? 0)) s else s in
  if Z.land csr 0xf0 =? 0xd0
  then rx_16x_clock_w c (negb (half_period s.1 =? 0)) s else s.

Definition duart_timer_callback (s : St) : St :=
  if test (ACR s.1) 0x40 then
    let s := dev (fun d => d <| half_period ::= fun h => Z.lxor h 1 |>) s in
    let s :=
      if Z.land (OPCR s.1) 0xc =? 0x4 then
        let s := dev (fun d => d <| OPR ::= fun o => Z.lxor o 0x8 |>) s in
        write_outport (Z.lxor (OPR s.1) 0xff) s
      else s in
    let s := timer_clocks ChA s in
    let s := timer_clocks ChB s in
    let s := if half_period s.1 =? 0 then set_ISR_bits INT_COUNTER_READY s else s in
    start_ct (ct_preset s.1) s
  else
    let s := if Z.land (OPCR s.1) 0xc =? 0x4 then dev (fun d => d <| OPR ::= set_bits 0x8 |>) s else s in
    start_ct 0xffff (set_ISR_bits INT_COUNTER_READY s).

(** [duart_timer->enable(false)], on the timer itself. *)
Definition stop_timer (s : St) : St := dev (fun d => d <| duart_timer ::= fun t => t <| m_enabled := false |> |>) s.

(** ** Register access *)

Definition base_read (offset : Z) (s : St) : Z * St :=
  let offset := Z.land offset 0xf in
  if (offset =? 0x00) || (offset =? 0x01) || (offset =? 0x03) then
    read_chan_reg ChA (Z.land offset 3) s
  else if offset =? 0x04 then
    let r := IPCR s.1 in
    let s := dev (fun d => d <| IPCR ::= fun i => Z.land i 0x0f |>) s in
    (r, clear_ISR_bits INT_INPUT_PORT_CHANGE s)
  else if offset =? 0x05 then (ISR s.1, s)
  else if offset =? 0x06 then (Z.shiftr (get_ct_count s) 8, s)
  else if offset =? 0x07 then (Z.land (get_ct_count s) 0xff, s)
  else if (offset =? 0x08) || (offset =? 0x09) || (offset =? 0x0b) then
    read_chan_reg ChB (Z.land offset 3) s
  else if offset =? 0x0a then (0x61, s)
  else if offset =? 0x0d then
    let '(r, s) := match read_inport with
                   | Some f => f s
                   | None => (IP_last_state s.1, s)
                   end in
    (Z.lor r 0x80, s)
  else if offset =? 0x0e then
    let s := if test (ACR s.1) 0x40 then dev (fun d => d <| half_period := 0 |>) s else s in
    (0xff, start_ct (ct_preset s.1) s)
  else if offset =? 0x0f then
    let s :=
      if negb (test (ACR s.1) 0x40) then
        let s := stop_timer s in
        if Z.land (OPCR s.1) 0xc =? 0x4 then dev (fun d => d <| OPR ::= clear_bits 0x8 |>) s else s
      else s in
    (0xff, clear_ISR_bits INT_COUNTER_READY s)
  else (0xff, s).

Definition mc68681_read (offset : Z) (s : St) : Z * St :=
  if offset =? 0x0c then (IVR s.1, s)
  else
    let '(r, s) := base_read offset s in
    if offset =? 0x0d then
      (if m_read_vector s.1 then clear_bits 0x40 r else set_bits 0x40 r, s)
    else (r, s).

Definition mcf5206e_read (offset : Z) (s : St) : Z * St :=
  if (offset =? 0x00) || (offset =? 0x01) || (offset =? 0x03) || (offset =? 0x04)
     || (offset =? 0x05) || (offset =? 0x0d) then base_read offset s
  else if offset =? 0x06 then (Z.shiftr (Z.land (UBG s.1) 0xff00) 8, s)
  else if offset =? 0x07 then (Z.land (UBG s.1) 0x00ff, s)
  else if offset =? 0x0c then (IVR s.1, s)
  else (0xff, s).

Definition mc68340_read (offset : Z) (s : St) : Z * St :=
  if offset =? 0x00 then (MR1 (chan_of ChA s), s)
  else if offset =? 0x08 then (MR1 (chan_of ChB s), s)
  else if offset =? 0x10 then (MR2 (chan_of ChA s), s)
  else if offset =? 0x11 then (MR2 (chan_of ChB s), s)
  else base_read offset s.

Definition sc28c94_read (offset : Z) (s : St) : Z * St :=
  let offset := Z.land offset 0x1f in
  if offset <? 0x10 then base_read offset s
  else if (offset =? 0x10) || (offset =? 0x11) || (offset =? 0x13) then
    read_chan_reg ChC (Z.land offset 3) s
  else if (offset =? 0x18) || (offset =? 0x19) || (offset =? 0x1b) then
    read_chan_reg ChD (Z.land offset 3) s
  else (0, s).

Definition xr68c681_read (offset : Z) (s : St) : Z * St :=
  if offset =? 0x02 then (Z.land (ISR s.1) (IMR s.1), s) else mc68681_read offset s.

(** The virtual [read]. *)
Definition read (offset : Z) (s : St) : Z * St :=
  match kind s.1 with
  | SCN2681 => base_read offset s
  | MC68681 => mc68681_read offset s
  | MCF5206E_UART => mcf5206e_read offset s
  | SC28C94 => sc28c94_read offset s
  | MC68340_DUART => mc68340_read offset s
  | XR68C681 => xr68c681_read offset s
  end.

Definition write_ACR (data : Z) (s : St) : St :=
  let old_acr := ACR s.1 in
  let s := dev (fun d => d <| ACR := data |>) s in
  let s :=
    if test (Z.lxor old_acr data) 0x40 then
      if test data 0x40 then
        start_ct (ct_preset s.1) (dev (fun d => d <| half_period := 0 |>) s)
      else
        let t := now s.2 in dev (fun d => d <| duart_timer ::= adjusted t never 0 never |>) s
    else s in
  let s := if negb (Z.land (Z.land (Z.shiftr (IPCR s.1) 4) data) 0x0f =? 0)
           then set_ISR_bits INT_INPUT_PORT_CHANGE s else s in
  let s := baud_updated ChA s in
  let s := baud_updated ChB s in
  let s := chan_update_interrupts ChA s in
  chan_update_interrupts ChB s.

Definition base_write (offset data : Z) (s : St) : St :=
  let offset := Z.land offset 0x0f in
  if offset <? 4 then write_chan_reg ChA (Z.land offset 3) data s
  else if offset =? 0x04 then write_ACR data s
  else if offset =? 0x05 then update_interrupts (dev (fun d => d <| IMR := data |>) s)
  else if offset =? 0x06 then
    dev (fun d => d <| CTR ::= fun c => Z.lor (Z.shiftl data 8) (Z.land c 0xff) |>) s
  else if offset =? 0x07 then
    dev (fun d => d <| CTR ::= fun c => Z.lor (Z.land c 0xff00) data |>) s
  else if (0x08 <=? offset) && (offset <=? 0x0b) then write_chan_reg ChB (Z.land offset 3) data s
  else if offset =? 0x0d then dev (fun d => d <| OPCR := data |>) s
  else if offset =? 0x0e then
    let s := dev (fun d => d <| OPR ::= set_bits data |>) s in
    write_outport (Z.lxor (OPR s.1) 0xff) s
  else if offset =? 0x0f then
    let s := dev (fun d => d <| OPR ::= clear_bits data |>) s in
    write_outport (Z.lxor (OPR s.1) 0xff) s
  else s.

Definition mc68681_write (offset data : Z) (s : St) : St :=
  if offset =? 0x0c then dev (fun d => d <| IVR := data |>) s else base_write offset data s.

Definition mcf5206e_write (offset data : Z) (s : St) : St :=
  if (offset =? 0x00) || (offset =? 0x01) || (offset =? 0x03) || (offset =? 0x04)
     || (offset =? 0x05) || (offset =? 0x0e) || (offset =? 0x0f) then base_write offset data s
  else if offset =? 0x02 then
    if negb (data =? 0xc) && negb (data =? 0x3) then base_write offset data s else s
  else if offset =? 0x06 then
    dev (fun d => d <| UBG ::= fun u => u16 (Z.lor (Z.land u 0x00ff) (Z.shiftl data 8)) |>) s
  else if offset =? 0x07 then
    let s := dev (fun d => d <| UBG ::= fun u => u16 (Z.lor (Z.land u 0xff00) data) |>) s in
    chan_update_interrupts ChA (baud_updated ChA s)
  else if offset =? 0x0c then dev (fun d => d <| IVR := data |>) s
  else s.

Definition mc68340_write (offset data : Z) (s : St) : St :=
  if offset =? 0x00 then chan_do ChA (fun ch => ch <| MR1 := data |>) s
  else if offset =? 0x08 then chan_do ChB (fun ch => ch <| MR1 := data |>) s
  else if offset =? 0x10 then chan_do ChA (fun ch => ch <| MR2 := data |>) s
  else if offset =? 0x11 then chan_do ChB (fun ch => ch <| MR2 := data |>) s
  else base_write offset data s.

Definition sc28c94_write (offset data : Z) (s : St) : St :=
  let offset := Z.land offset 0x1f in
  let s := if offset <? 0x10 then base_write offset data s else s in
  if (0x10 <=? offset) && (offset <=? 0x13) then write_chan_reg ChC (Z.land offset 3) data s
  else if (0x18 <=? offset) && (offset <=? 0x1b) then write_chan_reg ChD (Z.land offset 3) data s
  else s.

(** The extra commands of the XR68C681: what is left of [data] and the state. *)
Definition xr68c681_command (c : chan) (set_rx set_tx : bool -> duart -> duart) (data : Z) (s : St) : Z * St :=
  let cmd := Z.shiftr data 4 in
  if cmd =? 0x08 then (Z.land data 0x0f, baud_updated c (dev (set_rx true) s))
  else if cmd =? 0x09 then (Z.land data 0x0f, baud_updated c (dev (set_rx false) s))
  else if cmd =? 0x0a then (Z.land data 0x0f, baud_updated c (dev (set_tx true) s))
  else if cmd =? 0x0b then (Z.land data 0x0f, baud_updated c (dev (set_tx false) s))
  else if (cmd =? 0x0c) || (cmd =? 0x0d) || (cmd =? 0x0e) || (cmd =? 0x0f) then (Z.land data 0x0f, s)
  else (data, s).

Definition xr68c681_write (offset data : Z) (s : St) : St :=
  let '(data, s) :=
    if offset =? 0x02 then
      xr68c681_command ChA (fun b d => d <| m_XRXA := b |>) (fun b d => d <| m_XTXA := b |>) data s
    else if offset =? 0x0a then
      xr68c681_command ChB (fun b d => d <| m_XRXB := b |>) (fun b d => d <| m_XTXB := b |>) data s
    else (data, s) in
  mc68681_write offset data s.

(** The virtual [write]. *)
Definition write (offset data : Z) (s : St) : St :=
  match kind s.1 with
  | SCN2681 => base_write offset data s
  | MC68681 => mc68681_write offset data s
  | MCF5206E_UART => mcf5206e_write offset data s
  | SC28C94 => sc28c94_write offset data s
  | MC68340_DUART => mc68340_write offset data s
  | XR68C681 => xr68c681_write offset data s
  end.

(** ** The input port *)

Definition new_IP (mask state : Z) (d : duart) : Z :=
  u8 (Z.lor (Z.land (IP_last_state d) (Z.lnot mask)) (if state =? ASSERT_LINE then mask else 0)).

(** The four inputs whose changes are latched in IPCR. *)
Definition ip_change_w (mask delta : Z) (state : Z) (s : St) : St :=
  let newIP := new_IP mask state s.1 in
  let s :=
    if negb (newIP =? IP_last_state s.1) then
      let s := dev (fun d => d <| IPCR ::= clear_bits 0x0f |> <| IPCR ::= set_bits (Z.land newIP 0x0f) |>
                               <| IPCR ::= set_bits delta |>) s in
      if test (ACR s.1) mask then set_ISR_bits INT_INPUT_PORT_CHANGE s else s
    else s in
  dev (fun d => d <| IP_last_state := newIP |>) s.

Definition ip_plain_w (mask : Z) (state : Z) (s : St) : St :=
  let newIP := new_IP mask state s.1 in dev (fun d => d <| IP_last_state := newIP |>) s.

(** The ColdFire part ignores every input but the first. *)
Definition unless_coldfire (f : St -> St) (s : St) : St :=
  match kind s.1 with MCF5206E_UART => s | _ => f s end.

Definition ip0_w : Z -> St -> St := ip_change_w 0x01 0x10.
Definition ip1_w (state : Z) : St -> St := unless_coldfire (ip_change_w 0x02 0x20 state).
Definition ip2_w (state : Z) : St -> St := unless_coldfire (ip_change_w 0x04 0x40 state).
Definition ip3_w (state : Z) : St -> St := unless_coldfire (ip_change_w 0x08 0x80 state).
Definition ip4_w (state : Z) : St -> St := unless_coldfire (ip_plain_w 0x10 state).
Definition ip5_w (state : Z) : St -> St := unless_coldfire (ip_plain_w 0x20 state).
Definition ip6_w (state : Z) : St -> St := unless_coldfire (ip_plain_w 0x40 state).

(** ** Reset *)

Definition base_device_reset (s : St) : St :=
  let s := dev (fun d => d <| ACR := 0 |> <| IMR := 0 |> <| ISR := 0 |> <| OPCR := 0 |> <| OPR := 0 |>
                           <| CTR := 0 |> <| IPCR := 0 |> <| m_irq_state := false |>) s in
  let s := write_irq CLEAR_LINE s in
  write_outport (Z.lxor (OPR s.1) 0xff) s.

Definition device_reset (s : St) : St :=
  let s := base_device_reset s in
  match kind s.1 with
  | MC68681 => dev (fun d => d <| IVR := 0x0f |> <| m_read_vector := false |>) s
  | MCF5206E_UART => dev (fun d => d <| IVR := 0x0f |> <| UBG := 0 |> <| m_read_vector := false |>) s
  | XR68C681 =>
      dev (fun d => d <| IVR := 0x0f |> <| m_read_vector := false |> <| m_XTXA := false |>
                      <| m_XRXA := false |> <| m_XTXB := false |> <| m_XRXB := false |>) s
  | _ => s
  end.
End Device.
