(* ===== verification/DuartInv.v ===== *)
(** * DuartInv: the invariant of the DUART

    What holds of a [duart] between any two accesses: the widths of its
    registers, the shape of the receive FIFOs, the agreement of the status bits
    with them and with the transmit buffer, and that the interrupt line is up
    exactly when an unmasked interrupt is pending.  The board behind the
    callbacks is constrained by the class [DuartEnvLaws] only. *)

From stdpp Require Import base tactics numbers option list.
From Stdlib Require Import ZArith Lia Bool.
From S2P Require Import Prelude Attotime Scheduler Serial Duart.

Create HintDb duart.

(** ** The receive FIFO as a queue *)

(** The window of [rx_fifo_num] words from the read pointer on, around the end
    of the array. *)
Definition entries (ch : duart_channel) : list Z :=
  take (rx_fifo_num ch) (drop (rx_fifo_read_ptr ch) (rx_fifo ch ++ rx_fifo ch)).

Record fifo_pointers (ch : duart_channel) : Prop := mk_fifo_pointers {
  read_ptr_bound : (rx_fifo_read_ptr ch <= MC68681_RX_FIFO_SIZE)%nat;
  write_ptr_next : rx_fifo_write_ptr ch =
    ((rx_fifo_read_ptr ch + rx_fifo_num ch) mod (MC68681_RX_FIFO_SIZE + 1))%nat
}.

(** ** A channel *)

Definition RXRDY : Z := 0.
Definition FFULL : Z := 1.
Definition TXRDY : Z := 2.
Definition TXEMT : Z := 3.

(** A FIFO word is a byte and, above it, the three error bits of its status. *)
Definition clean_errors (e : Z) : Prop := is_u8 e /\ forall n, 0 <= n < 5 -> Z.testbit e n = false.
Definition clean_word (w : Z) : Prop := is_u16 w /\ clean_errors (Z.shiftr w 8).

(** Every member has a value of its type. *)
Definition chan_typed (ch : duart_channel) : Prop :=
  is_u8 (CR ch) /\ is_u8 (CSR ch) /\ is_u8 (MR1 ch) /\ is_u8 (MR2 ch) /\ is_u8 (SR ch) /\
  is_u8 (m_tx_data ch) /\ is_u8 (m_bits_transmitted ch) /\
  Forall clean_word (rx_fifo ch) /\ length (rx_fifo ch) = (MC68681_RX_FIFO_SIZE + 1)%nat.

(** [up] says that the channel has been reset: its constructor leaves the
    FIFO pointers alone. *)
Record chan_inv (up : bool) (ch : duart_channel) : Prop := mk_chan_inv {
  inv_typed : chan_typed ch;
  inv_num : (rx_fifo_num ch <= MC68681_RX_FIFO_SIZE + 1)%nat;
  inv_pointers : up = true -> fifo_pointers ch;
  inv_ready : Z.testbit (SR ch) RXRDY = true -> (0 < rx_fifo_num ch)%nat;
  inv_full : (MC68681_RX_FIFO_SIZE <= rx_fifo_num ch)%nat -> Z.testbit (SR ch) FFULL = true;
  inv_buffer : m_tx_data_in_buffer ch = true ->
    Z.testbit (SR ch) TXRDY = false /\ Z.testbit (SR ch) TXEMT = false
}.

(** ** The chip *)

Definition regs_typed (d : duart) : Prop :=
  is_u8 (ACR d) /\ is_u8 (IMR d) /\ is_u8 (ISR d) /\ is_u8 (OPCR d) /\ is_u8 (OPR d) /\
  is_u16 (CTR d) /\ is_u8 (IPCR d) /\ is_u8 (IP_last_state d) /\ is_u8 (IVR d) /\ is_u16 (UBG d).

Definition irq_ok (d : duart) : Prop := m_irq_state d = irq_pending d.

Record duart_inv (up : chan -> bool) (d : duart) : Prop := mk_duart_inv {
  inv_chan : forall c, chan_inv (up c) (channel c d);
  inv_regs : regs_typed d;
  inv_irq : irq_ok d
}.

(** ** What the chip asks of the board

    A callback may come back to the chip, and does: the rosco boards clock the
    SD card from the output port, and the card answers on an input pin; a
    looped-back line comes in at the receiver of the same channel.  It leaves
    alone everything but the line side of the channels and the input-port side:
    IPCR, the last input state, the input-port-change bit of ISR and what
    follows from it. *)

(** A channel without its serial interface. *)
Definition bare (ch : duart_channel) : duart_channel := ch <| ch_serial := new_serial |>.

Definition static (d : duart) :=
  (kind d, clock d, (bare (m_chanA d), bare (m_chanB d), bare (m_chanC d), bare (m_chanD d)),
   (ip3clk d, ip4clk d, ip5clk d, ip6clk d), (ACR d, IMR d, OPCR d, CTR d),
   (half_period d, duart_timer d), (IVR d, UBG d), (m_XTXA d, m_XRXA d, m_XTXB d, m_XRXB d)).

Record calm (d d' : duart) : Prop := mk_calm {
  calm_static : static d' = static d;
  calm_isr : forall n, 0 <= n < 7 -> Z.testbit (ISR d') n = Z.testbit (ISR d) n;
  calm_regs : regs_typed d -> regs_typed d';
  calm_irq : irq_ok d -> irq_ok d'
}.

#[export] Instance calm_preorder : PreOrder calm.
Proof.
  split; [by intros d|]. intros d1 d2 d3 [S1 I1 R1 Q1] [S2 I2 R2 Q2].
  split; [congruence|intros n Hn; by rewrite I2, I1|auto|auto].
Qed.

Class DuartEnvLaws (W : Type) `{DuartEnv W} := {
  write_irq_calm : forall v s, calm s.1 (write_irq v s).1;
  write_tx_calm : forall c b s, calm s.1 (write_tx c b s).1;
  write_outport_calm : forall v s, calm s.1 (write_outport v s).1;
  read_inport_calm : forall f s, read_inport = Some f -> calm s.1 (f s).2.1;
  read_inport_byte : forall f s, read_inport = Some f -> is_u8 (f s).1
}.
#[export] Hint Resolve write_irq_calm write_tx_calm write_outport_calm : mame.

(** ** Lemmas on channels *)

Lemma channel_on_channel c c' f d :
  channel c' (on_channel c f d) = if decide (c' = c) then f (channel c d) else channel c' d.
Proof. by destruct c, c'. Qed.

Lemma static_bare c d d' : static d' = static d -> bare (channel c d') = bare (channel c d).
Proof.
  intros E. apply (f_equal (fun x => x.1.1.1.1.1.2)) in E. cbn [static fst snd] in E.
  destruct c; cbn [channel];
    [exact (f_equal (fun x => x.1.1.1) E)|exact (f_equal (fun x => x.1.1.2) E)
    |exact (f_equal (fun x => x.1.2) E)|exact (f_equal snd E)].
Qed.

Lemma static_kind d d' : static d' = static d -> kind d' = kind d.
Proof. intros E. exact (f_equal (fun x => x.1.1.1.1.1.1.1) E). Qed.

Lemma chan_inv_bare up ch ch' : bare ch' = bare ch -> chan_inv up ch -> chan_inv up ch'.
Proof.
  intros E [T N P R F B]. destruct ch, ch'. cbn in E. injection E; intros; subst.
  split; [exact T|exact N|intros U; destruct (P U); by split|done..].
Qed.

Lemma chan_inv_serial up f ch : chan_inv up ch -> chan_inv up (ch <| ch_serial ::= f |>).
Proof. by apply chan_inv_bare. Qed.

Ltac chan_split :=
  split; unfold RXRDY, FFULL, TXRDY, TXEMT in *; cbn -[Z.testbit].

(** An assignment that touches no status bit and no FIFO member. *)
Ltac chan_easy :=
  let U := fresh in
  intros [T N P R F B]; chan_split;
  [unfold chan_typed in *; cbn; intuition auto with mame
  |auto|intros U; destruct (P U); by split|auto|auto|first [done|intros ?; discriminate]].

Lemma chan_inv_enabled up v ch : chan_inv up ch -> chan_inv up (ch <| rx_enabled := v |>).
Proof. chan_easy. Qed.

(** Clearing status bits other than FFULL, or setting those that promise
    nothing, keeps the invariant. *)
Lemma chan_inv_clear up m ch :
  Z.testbit m FFULL = false -> chan_inv up ch -> chan_inv up (ch <| SR ::= clear_bits m |>).
Proof.
  intros Hm [T N P R F B]. chan_split.
  - unfold chan_typed in *. cbn. intuition (auto with mame).
  - done.
  - intros U. destruct (P U). by split.
  - autorewrite with bits. intros [H _]%andb_true_iff. auto.
  - autorewrite with bits. intros H. rewrite F, Hm by done. done.
  - autorewrite with bits. intros H. destruct (B H) as [-> ->]. done.
Qed.

Lemma chan_inv_set up m ch :
  Z.testbit m RXRDY = false -> (Z.testbit m TXRDY || Z.testbit m TXEMT = true -> m_tx_data_in_buffer ch = false) ->
  chan_inv up ch -> chan_inv up (ch <| SR ::= set_bits m |>).
Proof.
  intros Hm Hb [T N P R F B]. chan_split.
  - unfold chan_typed in *. cbn. intuition (auto with mame).
  - done.
  - intros U. destruct (P U). by split.
  - autorewrite with bits. rewrite Hm, orb_false_r. done.
  - autorewrite with bits. intros H. by rewrite F.
  - autorewrite with bits. intros H. destruct (B H) as [-> ->].
    destruct (Z.testbit m 2), (Z.testbit m 3); rewrite ?Hb in H by done; done.
Qed.

(** ** The FIFO operations on the queue *)

(** What a push does to a queue of at most four words: at four, the last one
    is overwritten. *)
Definition queue_push (q : list Z) (w : Z) : list Z := take MC68681_RX_FIFO_SIZE q ++ [w].

(** Where the two operations leave the FIFO members. *)
Definition fifo_of (ch : duart_channel) : list Z * nat * nat * nat :=
  (rx_fifo ch, rx_fifo_read_ptr ch, rx_fifo_write_ptr ch, rx_fifo_num ch).

Definition overrun_of (f : list Z * nat * nat * nat) : list Z * nat * nat * nat :=
  let '(fifo, rp, wp, num) := f in
  (fifo, rp, if (num =? 4)%nat then match wp with S p => p | O => 3%nat end else wp, num).
Definition store_of (w : Z) (f : list Z * nat * nat * nat) : list Z * nat * nat * nat :=
  let '(fifo, rp, wp, num) := f in
  (<[wp := w]> fifo, rp, if (3 <? S wp)%nat then 0%nat else S wp, if (num <=? 3)%nat then S num else num).
Definition pop_of (f : list Z * nat * nat * nat) : list Z * nat * nat * nat :=
  let '(fifo, rp, wp, num) := f in
  (fifo, if (3 <? S rp)%nat then 0%nat else S rp, wp, pred num).

Lemma fifo_of_SR f ch : fifo_of (ch <| SR ::= f |>) = fifo_of ch.
Proof. reflexivity. Qed.

Lemma fifo_of_if (b : bool) x y : fifo_of (if b then x else y) = if b then fifo_of x else fifo_of y.
Proof. by destruct b. Qed.

Lemma fifo_push_status_of errors ch : fifo_of (fifo_push_status errors ch) = fifo_of ch.
Proof. unfold fifo_push_status. by repeat case_match. Qed.
Lemma fifo_pop_status_of ch : fifo_of (fifo_pop_status ch) = fifo_of ch.
Proof. unfold fifo_pop_status. by repeat case_match. Qed.

Lemma fifo_overrun_of ch : fifo_of (fifo_overrun ch) = overrun_of (fifo_of ch).
Proof.
  unfold fifo_overrun, fifo_of, overrun_of. change (MC68681_RX_FIFO_SIZE + 1)%nat with 4%nat.
  by destruct (rx_fifo_num ch =? 4)%nat.
Qed.

Lemma fifo_store_of w ch : fifo_of (fifo_store w ch) = store_of w (fifo_of ch).
Proof.
  unfold fifo_store, store_of, fifo_of, MC68681_RX_FIFO_SIZE. cbv zeta.
  set (c2 := ch <| rx_fifo ::= _ |> <| rx_fifo_write_ptr ::= _ |>).
  change (rx_fifo_write_ptr c2) with (S (rx_fifo_write_ptr ch)).
  destruct (3 <? S (rx_fifo_write_ptr ch))%nat;
    [set (c3 := c2 <| rx_fifo_write_ptr := 0%nat |>)|set (c3 := c2)];
    change (rx_fifo_num c3) with (rx_fifo_num ch); by destruct (rx_fifo_num ch <=? 3)%nat.
Qed.

Lemma fifo_push_of data errors ch :
  fifo_of (fifo_push data errors ch) = store_of (fifo_word data errors) (overrun_of (fifo_of ch)).
Proof. unfold fifo_push. by rewrite fifo_push_status_of, fifo_store_of, fifo_overrun_of. Qed.

Lemma fifo_pop_of ch : fifo_of (fifo_pop ch).2 = pop_of (fifo_of ch).
Proof.
  unfold fifo_pop. cbn [snd]. rewrite fifo_pop_status_of.
  unfold fifo_advance, fifo_of, pop_of, MC68681_RX_FIFO_SIZE. cbv zeta.
  set (c2 := ch <| rx_fifo_read_ptr ::= S |>).
  change (rx_fifo_read_ptr c2) with (S (rx_fifo_read_ptr ch)).
  by destruct (3 <? S (rx_fifo_read_ptr ch))%nat.
Qed.

(** The four words and the twenty positions of the pointers, by cases. *)
Lemma store_queue fifo rp num w :
  length fifo = 4%nat -> (rp <= 3)%nat -> (num <= 4)%nat ->
  let '(fifo', rp', wp', num') := store_of w (overrun_of (fifo, rp, ((rp + num) mod 4)%nat, num)) in
  rp' = rp /\ wp' = ((rp' + num') mod 4)%nat /\
  take num' (drop rp' (fifo' ++ fifo')) = queue_push (take num (drop rp (fifo ++ fifo))) w.
Proof.
  intros L R N. destruct fifo as [|a [|b [|c [|d [|]]]]]; try discriminate.
  destruct rp as [|[|[|[|rp]]]]; [..|lia];
    (destruct num as [|[|[|[|[|num]]]]]; [..|lia]); repeat split.
Qed.

Lemma pop_queue fifo rp num :
  length fifo = 4%nat -> (rp <= 3)%nat -> (num <= 4)%nat -> (0 < num)%nat ->
  let '(fifo', rp', wp', num') := pop_of (fifo, rp, ((rp + num) mod 4)%nat, num) in
  (rp' <= 3)%nat /\ wp' = ((rp' + num') mod 4)%nat /\
  take num (drop rp (fifo ++ fifo)) = nth rp fifo 0 :: take num' (drop rp' (fifo' ++ fifo')).
Proof.
  intros L R N P. destruct fifo as [|a [|b [|c [|d [|]]]]]; try discriminate.
  destruct rp as [|[|[|[|rp]]]]; [..|lia];
    (destruct num as [|[|[|[|[|num]]]]]; [lia|..|lia]); (split; [cbn; lia|repeat split]).
Qed.

Lemma fifo_push_entries data errors ch :
  length (rx_fifo ch) = (MC68681_RX_FIFO_SIZE + 1)%nat ->
  (rx_fifo_num ch <= MC68681_RX_FIFO_SIZE + 1)%nat -> fifo_pointers ch ->
  fifo_pointers (fifo_push data errors ch) /\
  entries (fifo_push data errors ch) = queue_push (entries ch) (fifo_word data errors).
Proof.
  intros L N [Hr Hw]. pose proof (fifo_push_of data errors ch) as E.
  unfold fifo_of in E. rewrite Hw in E. unfold entries.
  pose proof (store_queue _ _ _ (fifo_word data errors) L Hr N) as Q.
  change (MC68681_RX_FIFO_SIZE + 1)%nat with 4%nat in E. rewrite <- E in Q. cbv iota beta zeta in Q.
  destruct Q as (Q1 & Q2 & Q3). split; [|exact Q3]. split; [by rewrite Q1|exact Q2].
Qed.

Lemma fifo_pop_entries ch :
  length (rx_fifo ch) = (MC68681_RX_FIFO_SIZE + 1)%nat ->
  (rx_fifo_num ch <= MC68681_RX_FIFO_SIZE + 1)%nat -> (0 < rx_fifo_num ch)%nat -> fifo_pointers ch ->
  fifo_pointers (fifo_pop ch).2 /\
  exists w, entries ch = w :: entries (fifo_pop ch).2 /\ (fifo_pop ch).1 = u8 w.
Proof.
  intros L N P [Hr Hw]. pose proof (fifo_pop_of ch) as E.
  unfold fifo_of in E. rewrite Hw in E. unfold entries.
  pose proof (pop_queue _ _ _ L Hr N P) as Q.
  change (MC68681_RX_FIFO_SIZE + 1)%nat with 4%nat in E. rewrite <- E in Q. cbv iota beta zeta in Q.
  destruct Q as (Q1 & Q2 & Q3). split; [by split|]. eexists. split; [exact Q3|reflexivity].
Qed.

(** ** The FIFO operations keep the invariant *)

Lemma clean_fifo_word data e : clean_errors e -> clean_word (fifo_word data e).
Proof.
  intros [[He0 He1] Hc]. assert (Z.shiftr (fifo_word data e) 8 = e) as E.
  { unfold fifo_word. apply Z.bits_inj'. intros i Hi. rewrite Z.shiftr_spec by lia.
    assert (forall x k, is_u8 x -> 8 <= k -> Z.testbit x k = false) as Hh
      by (intros x k Hx; by apply is_u8_bits).
    destruct (Z.lt_ge_cases i 8).
    - rewrite testbit_u16, Z.lor_spec, Z.shiftl_spec, (Hh (u8 data)) by (lia || auto with mame).
      cbn [orb]. f_equal. lia.
    - rewrite (Hh e) by (unfold is_u8; lia). unfold u16. change 65536 with (2 ^ 16).
      by rewrite Z.mod_pow2_bits_high by lia. }
  split; [apply u16_range|]. rewrite E. by repeat split.
Qed.

(** What the FIFO operations leave alone, apart from the status. *)
Definition chan_rest (ch : duart_channel) :=
  (CR ch, CSR ch, MR1 ch, MR2 ch, m_tx_data ch, m_bits_transmitted ch, m_tx_data_in_buffer ch,
   rx_enabled ch, ch_serial ch, m_tx_enabled ch).

Lemma fifo_overrun_rest ch : chan_rest (fifo_overrun ch) = chan_rest ch.
Proof. unfold fifo_overrun. by case_match. Qed.
Lemma fifo_store_rest w ch :
  chan_rest (fifo_store w ch) = chan_rest ch /\ SR (fifo_store w ch) = SR ch.
Proof. unfold fifo_store. by repeat case_match. Qed.
Lemma fifo_push_status_rest e ch : chan_rest (fifo_push_status e ch) = chan_rest ch.
Proof. unfold fifo_push_status. by repeat case_match. Qed.
Lemma fifo_pop_status_rest ch : chan_rest (fifo_pop_status ch) = chan_rest ch.
Proof. unfold fifo_pop_status. by repeat case_match. Qed.
Lemma fifo_push_rest data e ch : chan_rest (fifo_push data e ch) = chan_rest ch.
Proof.
  unfold fifo_push. by rewrite fifo_push_status_rest, (proj1 (fifo_store_rest _ _)), fifo_overrun_rest.
Qed.
Lemma fifo_pop_rest ch : chan_rest (fifo_pop ch).2 = chan_rest ch.
Proof. unfold fifo_pop. cbn [snd]. rewrite fifo_pop_status_rest. unfold fifo_advance. by case_match. Qed.

Ltac low_bit n :=
  assert (n = 0 \/ n = 1 \/ n = 2 \/ n = 3) as [-> | [-> | [-> | ->]]] by lia; eval_bits; cbn [Z.eqb andb].

(** The four low status bits after a push and after a pop. *)
Lemma fifo_push_bits data e ch n :
  clean_errors e -> 0 <= n < 4 ->
  Z.testbit (SR (fifo_push data e ch)) n =
    Z.testbit (SR ch) n || (n =? RXRDY) && (rx_fifo_num (fifo_push data e ch) =? 1)%nat
    || (n =? FFULL) && (rx_fifo_num (fifo_push data e ch) =? 3)%nat.
Proof.
  intros [_ He] Hn. unfold fifo_push. set (w := fifo_word data e).
  set (c := fifo_store w (fifo_overrun ch)).
  assert (rx_fifo_num (fifo_push_status e c) = rx_fifo_num c) as ->
    by (exact (f_equal snd (fifo_push_status_of e c))).
  assert (Z.testbit (SR c) n = Z.testbit (SR ch) n) as <-.
  { subst c. rewrite (proj2 (fifo_store_rest _ _)). unfold fifo_overrun. case_match; [|done].
    cbn -[Z.testbit]. rewrite testbit_set_bits by lia.
    low_bit n; by rewrite orb_false_r. }
  generalize c. clear c. intros c. unfold fifo_push_status, RXRDY, FFULL, MC68681_RX_FIFO_SIZE.
  destruct (Nat.eqb_spec (rx_fifo_num c) 1) as [E1|E1].
  - destruct (negb _); cbn -[Z.testbit]; rewrite E1; cbn -[Z.testbit];
      rewrite testbit_set_bits, ?testbit_clear_bits, ?testbit_set_bits, He, ?orb_false_r, ?andb_false_r by lia;
      low_bit n; by destruct (Z.testbit (SR c) _).
  - destruct (Nat.eqb_spec (rx_fifo_num c) 3) as [E3|E3]; cbn -[Z.testbit];
      rewrite ?testbit_set_bits, ?andb_false_r, ?orb_false_r by lia; [|done].
    low_bit n; by destruct (Z.testbit (SR c) _).
Qed.

Lemma fifo_pop_bits ch n :
  Forall clean_word (rx_fifo ch) -> 0 <= n < 4 ->
  Z.testbit (SR (fifo_pop ch).2) n =
    Z.testbit (SR ch) n && negb ((n =? RXRDY) && (rx_fifo_num ch <=? 1)%nat)
    && negb ((n =? FFULL) && (rx_fifo_num ch =? 3)%nat).
Proof.
  intros Hf Hn. unfold fifo_pop, RXRDY, FFULL. cbn [snd]. set (c := fifo_advance ch).
  assert (SR c = SR ch /\ rx_fifo_num c = pred (rx_fifo_num ch) /\ rx_fifo c = rx_fifo ch) as (E1 & E2 & E3)
    by (subst c; unfold fifo_advance; by case_match).
  rewrite <- E1. assert ((rx_fifo_num ch <=? 1)%nat = (rx_fifo_num c =? 0)%nat) as ->
    by (rewrite E2; destruct (rx_fifo_num ch) as [|[]]; done).
  assert ((rx_fifo_num ch =? 3)%nat = (rx_fifo_num c =? 2)%nat) as ->
    by (rewrite E2; destruct (rx_fifo_num ch) as [|[|[|[|]]]]; done).
  rewrite <- E3 in Hf. clearbody c. clear E1 E2 E3.
  assert (Z.testbit (Z.shiftr (nth (rx_fifo_read_ptr c) (rx_fifo c) 0) 8) n = false) as Hw.
  { destruct (nth_in_or_default (rx_fifo_read_ptr c) (rx_fifo c) 0) as [Hin | ->].
    - apply list_elem_of_In in Hin. rewrite Forall_forall in Hf. apply (Hf _ Hin). lia.
    - apply Z.bits_0. }
  unfold fifo_pop_status. change (MC68681_RX_FIFO_SIZE - 1)%nat with 2%nat.
  destruct (Nat.eqb_spec (rx_fifo_num c) 2) as [E|E].
  - destruct (negb _); cbn -[Z.testbit]; rewrite E; cbn -[Z.testbit];
      rewrite testbit_set_bits, ?testbit_clear_bits, Hw, ?orb_false_r by lia;
      low_bit n; by destruct (Z.testbit (SR c) _).
  - destruct (negb _); cbn -[Z.testbit]; destruct (Nat.eqb_spec (rx_fifo_num c) 0); cbn -[Z.testbit];
      rewrite ?testbit_set_bits, ?testbit_clear_bits, ?Hw, ?orb_false_r by lia;
      low_bit n; by destruct (Z.testbit (SR c) _).
Qed.

Lemma SR_if (b : bool) x y : SR (if b then x else y) = if b then SR x else SR y.
Proof. by destruct b. Qed.
Lemma u8_if (b : bool) x y : is_u8 x -> is_u8 y -> is_u8 (if b then x else y).
Proof. by destruct b. Qed.
#[export] Hint Resolve u8_if : mame.

Lemma fifo_push_SR_u8 data e ch : is_u8 (SR ch) -> is_u8 (SR (fifo_push data e ch)).
Proof.
  intros H. unfold fifo_push.
  assert (is_u8 (SR (fifo_store (fifo_word data e) (fifo_overrun ch)))) as H'
    by (rewrite (proj2 (fifo_store_rest _ _)); unfold fifo_overrun; rewrite SR_if; apply u8_if; [apply u8_range|done]).
  generalize dependent (fifo_store (fifo_word data e) (fifo_overrun ch)). intros c Hc.
  unfold fifo_push_status. rewrite SR_if. apply u8_if; [apply u8_range|].
  destruct (rx_fifo_num c =? 1)%nat; [apply u8_range|done].
Qed.
Lemma fifo_pop_SR_u8 ch : is_u8 (SR (fifo_pop ch).2).
Proof. unfold fifo_pop, fifo_pop_status. cbn [snd]. rewrite SR_if. apply u8_if; apply u8_range. Qed.

Lemma typed_rest ch ch' :
  chan_rest ch' = chan_rest ch -> is_u8 (SR ch') -> Forall clean_word (rx_fifo ch') ->
  length (rx_fifo ch') = (MC68681_RX_FIFO_SIZE + 1)%nat -> chan_typed ch -> chan_typed ch'.
Proof.
  unfold chan_rest, chan_typed. intros E. injection E as -> -> -> -> -> -> _ _ _ _. tauto.
Qed.

Lemma chan_inv_push up data e ch : clean_errors e -> chan_inv up ch -> chan_inv up (fifo_push data e ch).
Proof.
  intros He [T N P R F B]. pose proof (fifo_push_of data e ch) as E.
  pose proof (fifo_push_rest data e ch) as Er. pose proof (fifo_push_bits data e ch) as Hb.
  unfold fifo_of, store_of, overrun_of in E. injection E as Ef Ep Ew En. unfold MC68681_RX_FIFO_SIZE in *.
  assert (rx_fifo_num (fifo_push data e ch) = Nat.min 4 (S (rx_fifo_num ch))) as En'
    by (rewrite En; destruct (Nat.leb_spec (rx_fifo_num ch) 3); lia).
  rewrite En' in *. destruct T as (T1 & T2 & T3 & T4 & T5 & T6 & T7 & T8 & T9). split.
  - apply (typed_rest ch); [done|by apply fifo_push_SR_u8|..|by unfold chan_typed].
    + rewrite Ef. apply Forall_insert; [done|by apply clean_fifo_word].
    + by rewrite Ef, length_insert.
  - rewrite En'. unfold MC68681_RX_FIFO_SIZE. lia.
  - intros U. by apply fifo_push_entries; [..|apply P].
  - rewrite En'. lia.
  - rewrite En', Hb by (done || unfold FFULL; lia). intros H. unfold FFULL in *.
    destruct (Nat.eq_dec (rx_fifo_num ch) 2) as [->|]; [by rewrite orb_true_r|].
    rewrite F by (unfold MC68681_RX_FIFO_SIZE in H; lia). done.
  - unfold chan_rest in Er. injection Er as _ _ _ _ _ _ -> _ _ _. intros H. destruct (B H) as [B1 B2].
    unfold TXRDY, TXEMT in *. rewrite !Hb, B1, B2 by (done || lia). done.
Qed.

Lemma chan_inv_pop up ch : (0 < rx_fifo_num ch)%nat -> chan_inv up ch -> chan_inv up (fifo_pop ch).2.
Proof.
  intros Hn [T N P R F B]. pose proof (fifo_pop_of ch) as E.
  pose proof (fifo_pop_rest ch) as Er.
  destruct T as (T1 & T2 & T3 & T4 & T5 & T6 & T7 & T8 & T9).
  pose proof (fun n => fifo_pop_bits ch n T8) as Hb. pose proof (fifo_pop_SR_u8 ch) as Hs.
  assert (up = true -> fifo_pointers (fifo_pop ch).2) as Hp
    by (intros U; by apply fifo_pop_entries; [..|apply P]).
  generalize dependent (fifo_pop ch).2. intros ch' E Er Hb Hs Hp.
  unfold fifo_of, pop_of in E. injection E as Ef Ep Ew En. split.
  - apply (typed_rest ch); [done|done|by rewrite Ef..|by unfold chan_typed].
  - rewrite En. lia.
  - done.
  - rewrite En, Hb by (unfold RXRDY; lia). unfold RXRDY, FFULL in *.
    destruct (Nat.leb_spec (rx_fifo_num ch) 1); [by rewrite andb_false_r|lia].
  - rewrite En, Hb by (unfold FFULL; lia). unfold RXRDY, FFULL, MC68681_RX_FIFO_SIZE in *. intros H.
    rewrite F by lia. by destruct (Nat.eqb_spec (rx_fifo_num ch) 3); [lia|].
  - unfold chan_rest in Er. injection Er as _ _ _ _ _ _ -> _ _ _. intros H. destruct (B H) as [B1 B2].
    unfold TXRDY, TXEMT in *. rewrite !Hb, B1, B2 by lia. done.
Qed.

(** ** Interrupts *)

Lemma duart_inv_calm up d d' : calm d d' -> duart_inv up d -> duart_inv up d'.
Proof.
  intros [S I R Q] [C G P]. split; [|auto..].
  intros c. apply (chan_inv_bare _ (channel c d)); [by apply static_bare|done].
Qed.

(** An assignment to the members outside [static] that the pending
    interrupts do not depend on. *)
Lemma calm_dev d d' :
  static d' = static d -> ISR d' = ISR d -> m_irq_state d' = m_irq_state d ->
  (regs_typed d -> regs_typed d') -> calm d d'.
Proof.
  intros S I Q R. split; [done|by rewrite I|done|].
  assert (IMR d' = IMR d) as E
    by (apply (f_equal (fun x => x.1.1.1.2.1.1.2)) in S; exact S).
  unfold irq_ok, irq_pending. by rewrite I, E, Q.
Qed.

(** Up to the registers' types, what an update of the interrupts achieves. *)
Record settled (d d' : duart) : Prop := mk_settled {
  settled_static : static d' = static d;
  settled_isr : forall n, 0 <= n < 7 -> Z.testbit (ISR d') n = Z.testbit (ISR d) n;
  settled_regs : regs_typed d -> regs_typed d';
  settled_irq : irq_ok d'
}.

Lemma settled_calm d d1 d' : settled d d1 -> calm d1 d' -> settled d d'.
Proof.
  intros [S1 I1 R1 Q1] [S2 I2 R2 Q2].
  split; [congruence|intros n Hn; by rewrite I2, I1|auto|auto].
Qed.

Lemma calm_settled d d' : irq_ok d -> calm d d' -> settled d d'.
Proof. intros Q [S1 I1 R1 Q1]. split; auto. Qed.

Lemma follow_calm op isr m d : calm d (follow op isr m d).
Proof.
  unfold follow. repeat case_match; [..|done]; apply calm_dev; try done;
    unfold regs_typed; cbn; intuition auto with mame.
Qed.

Section Laws.
Context {W : Type} `{DuartEnvLaws W}.

#[local] Abbreviation St := (duart * W)%type.

Lemma base_update_interrupts_settles (s : St) : settled s.1 (base_update_interrupts s).1.
Proof.
  cbv beta delta [base_update_interrupts]. bind_let s1.
  assert (settled s.1 s1.1) as H1.
  { subst s1. destruct s as [d w]. cbn [fst].
    destruct (irq_pending d) eqn:E, (m_irq_state d) eqn:Q; cbn [negb];
      first [apply calm_settled; [unfold irq_ok; congruence|done]
            |eapply settled_calm; [|apply write_irq_calm]; split; cbn; done]. }
  clearbody s1. destruct (test _ _); [|done].
  eapply settled_calm; [exact H1|]. etrans; [|apply write_outport_calm]. cbn [dev fst].
  etrans; [|apply follow_calm]. etrans; [|apply follow_calm].
  etrans; [|apply follow_calm]. apply follow_calm.
Qed.

Lemma update_interrupts_settles (s : St) : settled s.1 (update_interrupts s).1.
Proof.
  unfold update_interrupts. pose proof (base_update_interrupts_settles s) as Hs.
  case_match; [|done]. eapply settled_calm; [exact Hs|]. by apply calm_dev.
Qed.

Lemma settled_inv up d d' :
  settled d d' -> (forall c, chan_inv (up c) (channel c d)) -> regs_typed d -> duart_inv up d'.
Proof.
  intros [S I R Q] C G. split; [|auto..].
  intros c. apply (chan_inv_bare _ (channel c d)); [by apply static_bare|done].
Qed.

Lemma update_interrupts_inv up (s : St) :
  (forall c, chan_inv (up c) (channel c s.1)) -> regs_typed s.1 -> duart_inv up (update_interrupts s).1.
Proof. apply settled_inv, update_interrupts_settles. Qed.

Lemma set_ISR_bits_inv up m (s : St) : duart_inv up s.1 -> duart_inv up (set_ISR_bits m s).1.
Proof.
  intros I. unfold set_ISR_bits. case_match; [|done]. destruct I as [C G Q].
  apply update_interrupts_inv; [done|]. unfold regs_typed in *. cbn. intuition auto with mame.
Qed.

Lemma clear_ISR_bits_inv up m (s : St) : duart_inv up s.1 -> duart_inv up (clear_ISR_bits m s).1.
Proof.
  intros I. unfold clear_ISR_bits. case_match; [|done]. destruct I as [C G Q].
  apply update_interrupts_inv; [done|]. unfold regs_typed in *. cbn. intuition auto with mame.
Qed.

Lemma set_or_clear_inv up (b : bool) m (s : St) :
  duart_inv up s.1 -> duart_inv up (if b then set_ISR_bits m s else clear_ISR_bits m s).1.
Proof. destruct b; [apply set_ISR_bits_inv|apply clear_ISR_bits_inv]. Qed.

(** An assignment to a channel. *)
Lemma chan_do_inv up c f (s : St) :
  (chan_inv (up c) (channel c s.1) -> chan_inv (up c) (f (channel c s.1))) ->
  duart_inv up s.1 -> duart_inv up (chan_do c f s).1.
Proof.
  intros Hf [C G Q]. unfold chan_do, dev. cbn [fst]. split.
  - intros c'. rewrite channel_on_channel. destruct (decide _) as [->|]; auto.
  - by destruct c.
  - by destruct c.
Qed.

(** An assignment to the registers of the chip. *)
Lemma dev_inv up f (s : St) :
  (forall c, channel c (f s.1) = channel c s.1) -> (regs_typed s.1 -> regs_typed (f s.1)) ->
  (irq_ok s.1 -> irq_ok (f s.1)) -> duart_inv up s.1 -> duart_inv up (dev f s).1.
Proof. intros Hc Hr Hi [C G Q]. split; [intros c; cbn; by rewrite Hc|auto..]. Qed.

Lemma chan_update_interrupts_inv up c (s : St) :
  duart_inv up s.1 -> duart_inv up (chan_update_interrupts c s).1.
Proof.
  intros I. cbv beta delta [chan_update_interrupts]. bind_let mode. bind_let s1.
  assert (duart_inv up s1.1) as I1.
  { subst s1. case_match; [|done]. apply chan_do_inv; [by apply chan_inv_clear|done]. }
  clearbody s1. bind_let s2.
  assert (duart_inv up s2.1) as I2 by by apply set_or_clear_inv.
  clearbody s2. case_match; by apply set_or_clear_inv.
Qed.

Lemma dev_calm_inv up f (s : St) : calm s.1 (f s.1) -> duart_inv up s.1 -> duart_inv up (dev f s).1.
Proof. apply duart_inv_calm. Qed.

Lemma write_outport_inv up v (s : St) : duart_inv up s.1 -> duart_inv up (write_outport v s).1.
Proof. apply duart_inv_calm, write_outport_calm. Qed.
Lemma write_tx_inv up c b (s : St) : duart_inv up s.1 -> duart_inv up (write_tx c b s).1.
Proof. apply duart_inv_calm, write_tx_calm. Qed.
Lemma write_irq_inv up v (s : St) : duart_inv up s.1 -> duart_inv up (write_irq v s).1.
Proof. apply duart_inv_calm, write_irq_calm. Qed.

#[local] Hint Resolve set_ISR_bits_inv clear_ISR_bits_inv chan_update_interrupts_inv
  write_outport_inv write_tx_inv write_irq_inv : duart.
#[local] Hint Resolve chan_inv_serial chan_inv_enabled : duart.

(** *** The receiver *)

Lemma rx_fifo_push_inv up c data e (s : St) :
  clean_errors e -> duart_inv up s.1 -> duart_inv up (rx_fifo_push c data e s).1.
Proof.
  intros He I. apply chan_update_interrupts_inv, chan_do_inv; [|done].
  by apply chan_inv_push.
Qed.

Lemma read_rx_fifo_inv up c (s : St) : duart_inv up s.1 -> duart_inv up (read_rx_fifo c s).2.1.
Proof.
  intros I. unfold read_rx_fifo. destruct (Nat.eqb_spec (rx_fifo_num (chan_of c s)) 0);
    [by apply chan_update_interrupts_inv|].
  destruct (fifo_pop (chan_of c s)) as [rv ch] eqn:E. cbn [snd].
  apply chan_update_interrupts_inv, chan_do_inv; [|done]. intros Hc.
  replace ch with (fifo_pop (channel c s.1)).2 by (unfold chan_of in E; by rewrite E).
  apply chan_inv_pop; [|done]. unfold chan_of in *. lia.
Qed.

Lemma serial_do_inv up c f (s : St) :
  duart_inv up s.1 -> duart_inv up (chan_do c (fun ch => ch <| ch_serial ::= f |>) s).1.
Proof. intros I. apply chan_do_inv; auto with duart. Qed.
#[local] Hint Resolve serial_do_inv : duart.

Lemma clean_framing (b1 b2 : bool) :
  clean_errors (let e := if b1 then Z.lor 0 STATUS_FRAMING_ERROR else 0 in
                if b2 then Z.lor e STATUS_PARITY_ERROR else e).
Proof.
  split; [by destruct b1, b2|]. intros n Hn. assert (n = 4 \/ n < 4) as [-> |] by lia; [by destruct b1, b2|].
  low_bit n; by destruct b1, b2.
Qed.

Lemma rcv_complete_inv up c (s : St) : duart_inv up s.1 -> duart_inv up (ch_rcv_complete c s).1.
Proof.
  intros I. unfold ch_rcv_complete. case_match; [|auto with duart].
  apply rx_fifo_push_inv; [apply clean_framing|auto with duart].
Qed.

(** *** The transmitter *)

Lemma transmit_setup_inv up c data (s : St) :
  duart_inv up s.1 -> duart_inv up (ch_transmit_setup c data s).1.
Proof. unfold ch_transmit_setup. auto with duart. Qed.
#[local] Hint Resolve transmit_setup_inv : duart.

Lemma chan_inv_sending up f ch :
  (forall n, is_u8 (f n)) -> chan_inv up ch -> chan_inv up (ch <| m_bits_transmitted ::= f |>).
Proof. intros Hn. chan_easy. Qed.

Lemma chan_inv_unbuffer up ch :
  chan_inv up ch -> chan_inv up (ch <| m_tx_data_in_buffer := false |>).
Proof. chan_easy. Qed.

Lemma tra_complete_inv up c (s : St) : duart_inv up s.1 -> duart_inv up (ch_tra_complete c s).1.
Proof.
  intros I. unfold ch_tra_complete. destruct (m_tx_data_in_buffer _) eqn:E.
  - apply chan_update_interrupts_inv, chan_do_inv; [|auto with duart].
    intros Hc. apply chan_inv_set; [done|done|]. by apply chan_inv_unbuffer, chan_inv_sending.
  - apply chan_update_interrupts_inv, chan_do_inv; [|done]. by apply chan_inv_set.
Qed.

Lemma tra_callback_inv up c (s : St) : duart_inv up s.1 -> duart_inv up (ch_tra_callback c s).1.
Proof.
  intros I. unfold ch_tra_callback.
  destruct (transmit_register_get_data_bit _) as [bit ser].
  match goal with |- context [chan_do c (fun ch => ch <| m_bits_transmitted ::= _ |>) ?x] => set (s1 := x) end.
  assert (duart_inv up s1.1) as I1.
  { subst s1. case_match; [apply write_tx_inv|apply serial_do_inv]; by apply serial_do_inv. }
  clearbody s1.
  set (s2 := chan_do c _ s1).
  assert (duart_inv up s2.1) as I2 by (apply chan_do_inv; [apply chan_inv_sending; auto with mame|done]).
  clearbody s2. case_match; [|done]. zbool.
  apply chan_update_interrupts_inv, chan_do_inv; [|done]. by apply chan_inv_set.
Qed.

Lemma write_TX_inv up c data (s : St) :
  is_u8 data -> duart_inv up s.1 -> duart_inv up (write_TX c data s).1.
Proof.
  intros Hd I. unfold write_TX. case_match; [done|].
  set (m := Z.lor _ _). set (s1 := chan_do c _ s).
  assert (duart_inv up s1.1) as I1 by (apply chan_do_inv; [by apply chan_inv_clear|done]).
  assert (forall n, n = 2 \/ n = 3 -> Z.testbit (SR (channel c s1.1)) n = false) as Hc.
  { intros n Hn. subst s1. unfold chan_do, dev. cbn [fst]. rewrite channel_on_channel, decide_True by done.
    cbn -[Z.testbit]. rewrite testbit_clear_bits by lia. destruct Hn as [-> | ->]; by rewrite andb_false_r. }
  clearbody s1. apply chan_update_interrupts_inv. case_match.
  - apply chan_do_inv; [|done]. intros [T N P R F B].
    chan_split; [unfold chan_typed in *; cbn; tauto|done|intros U; destruct (P U); by split|done|done|].
    intros _. split; apply Hc; lia.
  - apply chan_do_inv; [by apply chan_inv_sending|auto with duart].
Qed.

#[local] Hint Resolve rx_fifo_push_inv read_rx_fifo_inv rcv_complete_inv tra_complete_inv
  tra_callback_inv write_TX_inv : duart.

(** *** Mode and command registers *)

Lemma recalc_framing_inv up ch : chan_inv up ch -> chan_inv up (recalc_framing ch).
Proof. apply chan_inv_serial. Qed.

Lemma write_MR_inv up c data (s : St) :
  is_u8 data -> duart_inv up s.1 -> duart_inv up (write_MR c data s).1.
Proof.
  intros Hd I. apply chan_update_interrupts_inv, chan_do_inv; [apply recalc_framing_inv|].
  apply chan_do_inv; [|done]. case_match; chan_easy.
Qed.

Lemma chan_inv_reset_receiver up ch : chan_inv up ch -> chan_inv true (reset_receiver ch).
Proof.
  intros I. unfold reset_receiver. apply chan_inv_serial.
  apply (chan_inv_clear _ STATUS_RECEIVER_READY) in I; [|done].
  apply (chan_inv_clear _ STATUS_CHARACTER_ERRORS) in I; [|done].
  apply (chan_inv_clear _ STATUS_OVERRUN_ERROR) in I; [|done].
  destruct I as [T N P R F B]. chan_split.
  - unfold chan_typed in *. cbn in *. tauto.
  - lia.
  - split; cbn; [lia|done].
  - cbn -[Z.testbit] in R. rewrite testbit_clear_bits, testbit_clear_bits, testbit_clear_bits by lia.
    eval_bits. by rewrite andb_false_r.
  - unfold MC68681_RX_FIFO_SIZE. lia.
  - done.
Qed.

Lemma chan_inv_up up ch : chan_inv true ch -> chan_inv up ch.
Proof. intros [T N P R F B]. split; auto. Qed.

Lemma chan_inv_reset_transmitter up ch :
  chan_inv up ch ->
  chan_inv up (ch <| ch_serial ::= transmit_register_reset |> <| m_bits_transmitted := 255 |>
                  <| m_tx_data_in_buffer := false |> <| m_tx_enabled := false |>).
Proof.
  intros I%(chan_inv_serial _ transmit_register_reset). revert I.
  generalize (ch <| ch_serial ::= transmit_register_reset |>). intros c. chan_easy.
  split; lia.
Qed.

Lemma command_inv up c data (s : St) : duart_inv up s.1 -> duart_inv up (command c data s).1.
Proof.
  intros I. unfold command.
  repeat match goal with |- duart_inv _ (if ?b then _ else _).1 => destruct b; cbn [fst] end; try done.
  - apply chan_do_inv; [chan_easy|done].
  - apply chan_do_inv; [|done]. intros Hc. apply chan_inv_up. by eapply chan_inv_reset_receiver.
  - apply chan_do_inv; [apply chan_inv_reset_transmitter|].
    apply clear_ISR_bits_inv, write_tx_inv, chan_do_inv; [by apply chan_inv_clear|done].
  - apply chan_do_inv; [by apply chan_inv_clear|done].
  - auto with duart.
  - apply rx_fifo_push_inv; [|apply set_ISR_bits_inv, chan_do_inv; [chan_easy|done]].
    split; [done|]. intros n Hn. assert (n = 4 \/ n < 4) as [-> |] by lia; [done|]. by low_bit n.
  - apply chan_do_inv; [chan_easy|done].
  - apply set_ISR_bits_inv, chan_do_inv; [chan_easy|done].
  - apply chan_do_inv; [chan_easy|done].
Qed.

Definition TX_STATUS : Z := Z.lor STATUS_TRANSMITTER_READY STATUS_TRANSMITTER_EMPTY.

Lemma chan_inv_tx_flags up (b : bool) f ch :
  f = (if b then set_bits TX_STATUS else clear_bits TX_STATUS) -> chan_inv up ch ->
  chan_inv up (ch <| SR ::= f |> <| m_tx_data_in_buffer := false |> <| m_tx_enabled := b |>).
Proof.
  intros -> I. set (c := ch <| m_tx_data_in_buffer := false |> <| m_tx_enabled := b |>).
  assert (chan_inv up c) as Ic by (revert I; chan_easy). destruct b.
  - exact (chan_inv_set up TX_STATUS c eq_refl (fun _ => eq_refl) Ic).
  - exact (chan_inv_clear up TX_STATUS c eq_refl Ic).
Qed.

Lemma write_CR_after_command up c data (s : St) :
  is_u8 data -> duart_inv up (command c data s).1 -> duart_inv up (write_CR c data s).1.
Proof.
  intros Hd I1. cbv beta delta [write_CR]. bind_let s1. fold s1 in I1. clearbody s1.
  bind_let s2. assert (duart_inv up s2.1) as I2.
  { subst s2. unfold when. case_match; [|done]. apply chan_do_inv; auto with duart. }
  clearbody s2. bind_let s3. assert (duart_inv up s3.1) as I3.
  { subst s3. unfold when. case_match; [|done]. apply chan_do_inv; [|done].
    intros Hc. apply chan_inv_clear; auto with duart. }
  clearbody s3. bind_let s4. assert (duart_inv up s4.1) as I4.
  { subst s4. case_match; [|done].
    apply set_ISR_bits_inv, chan_do_inv; [by apply (chan_inv_tx_flags _ true)|done]. }
  clearbody s4. bind_let s5. assert (duart_inv up s5.1) as I5.
  { subst s5. case_match; [|done].
    apply clear_ISR_bits_inv, chan_do_inv; [by apply (chan_inv_tx_flags _ false)|done]. }
  clearbody s5. bind_let s6. apply chan_do_inv; [chan_easy|by apply chan_update_interrupts_inv].
Qed.

Lemma write_CR_inv up c data (s : St) :
  is_u8 data -> duart_inv up s.1 -> duart_inv up (write_CR c data s).1.
Proof. intros Hd I. apply write_CR_after_command; [done|]. by apply command_inv. Qed.

Lemma write_CSR_inv up c data (s : St) :
  is_u8 data -> duart_inv up s.1 -> duart_inv up (write_CSR c data s).1.
Proof.
  intros Hd I. apply chan_do_inv; [|done]. intros Hc. do 2 apply chan_inv_serial. revert Hc. chan_easy.
Qed.

Lemma write_chan_reg_inv up c reg data (s : St) :
  is_u8 data -> duart_inv up s.1 -> duart_inv up (write_chan_reg c reg data s).1.
Proof.
  intros Hd I. unfold write_chan_reg. repeat case_match; auto using write_MR_inv, write_CSR_inv, write_CR_inv with duart.
Qed.

Lemma read_chan_reg_inv up c reg (s : St) :
  duart_inv up s.1 -> duart_inv up (read_chan_reg c reg s).2.1.
Proof.
  intros I. unfold read_chan_reg. repeat case_match; cbn [snd]; auto with duart.
  apply chan_do_inv; [chan_easy|done].
Qed.

Lemma baud_updated_inv up c (s : St) : duart_inv up s.1 -> duart_inv up (baud_updated c s).1.
Proof. intros I. apply write_CSR_inv; [|done]. by destruct (inv_chan _ _ I c) as [(_ & ? & _) _ _ _ _ _]. Qed.

(** Resetting a channel brings it up. *)
Definition raise (c : chan) (up : chan -> bool) (c' : chan) : bool := bool_decide (c' = c) || up c'.

Lemma chan_do_raise up c f (s : St) :
  (chan_inv (up c) (channel c s.1) -> chan_inv true (f (channel c s.1))) ->
  duart_inv up s.1 -> duart_inv (raise c up) (chan_do c f s).1.
Proof.
  intros Hf [C G Q]. unfold chan_do, dev. cbn [fst]. split; [|by destruct c..].
  intros c'. rewrite channel_on_channel. unfold raise. destruct (decide _) as [->|Hne].
  - rewrite bool_decide_true by done. auto.
  - rewrite bool_decide_false by done. apply C.
Qed.

Lemma chan_device_reset_inv up c (s : St) :
  duart_inv up s.1 -> duart_inv (raise c up) (chan_device_reset c s).1.
Proof.
  intros I. unfold chan_device_reset. apply chan_do_inv.
  { intros Hc. apply (chan_inv_serial _ (set_data_frame 1 8 PARITY_NONE STOP_BITS_1)) in Hc.
    revert Hc. generalize (channel c (write_CR c 64 (write_CR c 48 (write_CR c 32 (write_CR c 16 s)))).1
      <| ch_serial ::= set_data_frame 1 8 PARITY_NONE STOP_BITS_1 |>). intros ch. chan_easy. by split. }
  do 2 (apply write_CR_inv; [done|]). apply write_CR_after_command; [done|].
  apply chan_do_raise; [apply chan_inv_reset_receiver|]. by apply write_CR_inv.
Qed.

(** *** The serial clocks *)

Lemma tra_edge_inv up c (s : St) :
  duart_inv up s.1 -> duart_inv up (tra_edge (H := channel_serial c) s).1.
Proof.
  intros I. cbv beta delta [tra_edge]. bind_let s1.
  assert (duart_inv up s1.1) as I1.
  { subst s1. case_match; [|done]. bind_let s2.
    assert (duart_inv up s2.1) by by apply tra_callback_inv. clearbody s2. case_match; [|done].
    by apply tra_complete_inv. }
  clearbody s1. case_match; [|done]. by apply serial_do_inv.
Qed.

Lemma rcv_edge_inv up c (s : St) :
  duart_inv up s.1 -> duart_inv up (rcv_edge (H := channel_serial c) s).1.
Proof.
  intros I. cbv beta delta [rcv_edge]. bind_let s1.
  assert (duart_inv up s1.1) as I1 by by apply serial_do_inv. clearbody s1.
  case_match; [|done]. by apply rcv_complete_inv, serial_do_inv.
Qed.

Lemma tx_clock_w_inv up c v (s : St) :
  duart_inv up s.1 -> duart_inv up (tx_clock_w (H := channel_serial c) v s).1.
Proof.
  intros I. unfold tx_clock_w. case_match; [|done].
  case_match; [apply tra_edge_inv|]; by apply serial_do_inv.
Qed.

Lemma rx_clock_w_inv up c v (s : St) :
  duart_inv up s.1 -> duart_inv up (rx_clock_w (H := channel_serial c) v s).1.
Proof.
  intros I. unfold rx_clock_w. case_match; [|done].
  case_match; [apply rcv_edge_inv|]; by apply serial_do_inv.
Qed.

Lemma tx_16x_clock_w_inv up c b (s : St) :
  duart_inv up s.1 -> duart_inv up (tx_16x_clock_w c b s).1.
Proof.
  intros I. unfold tx_16x_clock_w. destruct b; [|done].
  repeat case_match; rewrite ?tx_clock_w_inv; try apply tx_clock_w_inv;
    repeat (apply chan_do_inv; [chan_easy|]); done.
Qed.

Lemma rx_16x_clock_w_inv up c b (s : St) :
  duart_inv up s.1 -> duart_inv up (rx_16x_clock_w c b s).1.
Proof.
  intros I. unfold rx_16x_clock_w. repeat case_match; try apply rx_clock_w_inv;
    repeat (apply chan_do_inv; [chan_easy|]); done.
Qed.

(** *** The counter/timer *)

(** An assignment to the members of the chip that are not channels, not
    interrupt state, and typed when they were. *)
Ltac dev_easy :=
  apply dev_inv; [by intros []| |done|];
  [unfold regs_typed; cbn -[Z.land Z.lor Z.lxor Z.shiftl]; intuition auto with mame|].

Lemma start_ct_inv up n (s : St) : duart_inv up s.1 -> duart_inv up (start_ct n s).1.
Proof. intros I. dev_easy. done. Qed.
#[local] Hint Resolve start_ct_inv tx_16x_clock_w_inv rx_16x_clock_w_inv baud_updated_inv : duart.

Lemma timer_clocks_inv up c (s : St) : duart_inv up s.1 -> duart_inv up (timer_clocks c s).1.
Proof. intros I. unfold timer_clocks. repeat case_match; auto with duart. Qed.
#[local] Hint Resolve timer_clocks_inv : duart.

Lemma timer_callback_inv up (s : St) : duart_inv up s.1 -> duart_inv up (duart_timer_callback s).1.
Proof.
  intros I. cbv beta delta [duart_timer_callback]. case_match.
  - bind_let s1. assert (duart_inv up s1.1) as I1 by (dev_easy; done). clearbody s1.
    bind_let s2. assert (duart_inv up s2.1) as I2.
    { subst s2. case_match; [|done]. apply write_outport_inv.
      apply dev_inv; [by intros []| |done|done]. unfold regs_typed. cbn. intuition auto with mame.
      apply u8_lxor; [done|by split]. }
    clearbody s2. cbv zeta. case_match; auto with duart.
  - apply start_ct_inv, set_ISR_bits_inv. case_match; [|done]. dev_easy. done.
Qed.

(** *** Register access *)

(** A read returns a byte and keeps the invariant. *)
Definition read_ok (up : chan -> bool) (r : Z * St) : Prop := is_u8 r.1 /\ duart_inv up r.2.1.

Lemma read_chan_reg_ok up c reg (s : St) : duart_inv up s.1 -> read_ok up (read_chan_reg c reg s).
Proof.
  intros I. split; [|by apply read_chan_reg_inv].
  destruct (inv_chan _ _ I c) as [(T1 & T2 & T3 & T4 & T5 & T6 & T7 & T8 & T9) _ _ _ _ _].
  unfold read_chan_reg. repeat case_match; cbn [fst]; try done.
  unfold read_rx_fifo. case_match; cbn [fst]; [done|].
  destruct (fifo_pop _) as [rv ch] eqn:E. cbn [fst]. injection E as <- _. apply u8_range.
Qed.

Lemma read_reg_ok up v (s : St) : is_u8 v -> duart_inv up s.1 -> read_ok up (v, s).
Proof. by split. Qed.

Lemma read_if_ok up (b : bool) x y : read_ok up x -> read_ok up y -> read_ok up (if b then x else y).
Proof. by destruct b. Qed.

Lemma when_inv up (b : bool) (x y : St) :
  duart_inv up x.1 -> duart_inv up y.1 -> duart_inv up (if b then x else y).1.
Proof. by destruct b. Qed.

(** One goal per branch of the code. *)
Ltac branches :=
  repeat match goal with
  | |- read_ok _ (if _ then _ else _) => apply read_if_ok
  | |- duart_inv _ (if _ then _ else _).1 => apply when_inv
  end.

Lemma base_read_ok up off (s : St) : duart_inv up s.1 -> read_ok up (base_read off s).
Proof.
  intros I. pose proof (inv_regs _ _ I) as (T1 & T2 & T3 & T4 & T5 & T6 & T7 & T8 & T9 & T10).
  unfold base_read. branches; try (by apply read_chan_reg_ok).
  - apply read_reg_ok; [done|]. apply clear_ISR_bits_inv. dev_easy. done.
  - by apply read_reg_ok.
  - apply read_reg_ok; [|done]. apply u8_shiftr, u16_range.
  - apply read_reg_ok; [|done]. by apply u8_land_r.
  - by apply read_reg_ok.
  - destruct read_inport as [f|] eqn:E.
    + pose proof (read_inport_calm f s E) as Hc. pose proof (read_inport_byte f s E) as Hb.
      destruct (f s) as [r s']. apply read_reg_ok; [by apply u8_lor|]. by apply (duart_inv_calm _ s.1).
    + apply read_reg_ok; [by apply u8_lor|done].
  - apply read_reg_ok; [done|]. apply start_ct_inv, when_inv; [|done]. dev_easy. done.
  - apply read_reg_ok; [done|]. apply clear_ISR_bits_inv, when_inv; [|done].
    apply when_inv; repeat dev_easy; done.
  - by apply read_reg_ok.
Qed.

Lemma mc68681_read_ok up off (s : St) : duart_inv up s.1 -> read_ok up (mc68681_read off s).
Proof.
  intros I. pose proof (inv_regs _ _ I) as (T1 & T2 & T3 & T4 & T5 & T6 & T7 & T8 & T9 & T10).
  unfold mc68681_read. apply read_if_ok; [by apply read_reg_ok|].
  destruct (base_read_ok up off s I) as [Hb Hi]. destruct (base_read off s) as [r s'].
  apply read_if_ok; [|by split]. split; [|done]. cbn [fst]. apply u8_if; apply u8_range.
Qed.

Lemma read_ok_all up off (s : St) : duart_inv up s.1 -> read_ok up (Duart.read off s).
Proof.
  intros I. pose proof (inv_regs _ _ I) as (T1 & T2 & T3 & T4 & T5 & T6 & T7 & T8 & T9 & T10).
  assert (forall c, chan_typed (channel c s.1)) as Hc by (intros c; apply (inv_chan _ _ I c)).
  pose proof (Hc ChA) as (_ & _ & A1 & A2 & _). pose proof (Hc ChB) as (_ & _ & B1 & B2 & _).
  unfold Duart.read. destruct (kind s.1).
  - by apply base_read_ok.
  - by apply mc68681_read_ok.
  - unfold mcf5206e_read. branches; try (by apply base_read_ok); try (by apply read_reg_ok).
    + apply read_reg_ok; [|done]. auto with mame.
    + apply read_reg_ok; [|done]. by apply u8_land_r.
  - unfold sc28c94_read. branches; try (by apply base_read_ok);
      try (by apply read_chan_reg_ok). by apply read_reg_ok.
  - unfold mc68340_read. branches; try (by apply base_read_ok); by apply read_reg_ok.
  - unfold xr68c681_read. apply read_if_ok; [|by apply mc68681_read_ok]. apply read_reg_ok; auto with mame.
Qed.

Lemma write_ACR_inv up data (s : St) : is_u8 data -> duart_inv up s.1 -> duart_inv up (write_ACR data s).1.
Proof.
  intros Hd I. cbv beta delta [write_ACR]. bind_let old.
  bind_let s1. assert (duart_inv up s1.1) as I1 by (dev_easy; done). clearbody s1.
  bind_let s2. assert (duart_inv up s2.1) as I2.
  { subst s2. apply when_inv; [|done]. apply when_inv; [apply start_ct_inv|]; dev_easy; done. }
  clearbody s2. cbv zeta. do 2 apply chan_update_interrupts_inv. do 2 apply baud_updated_inv.
  apply when_inv; auto with duart.
Qed.

Lemma base_write_inv up off data (s : St) :
  is_u8 data -> duart_inv up s.1 -> duart_inv up (base_write off data s).1.
Proof.
  intros Hd I. unfold base_write. branches; try (by apply write_chan_reg_inv); try done.
  - by apply write_ACR_inv.
  - destruct I as [C G Q]. apply update_interrupts_inv; [done|]. unfold regs_typed in *. cbn. intuition auto.
  - dev_easy; done.
  - dev_easy; done.
  - dev_easy; done.
  - apply write_outport_inv. dev_easy; done.
  - apply write_outport_inv. dev_easy; done.
Qed.

Lemma mc68681_write_inv up off data (s : St) :
  is_u8 data -> duart_inv up s.1 -> duart_inv up (mc68681_write off data s).1.
Proof. intros Hd I. unfold mc68681_write. branches; [dev_easy; done|by apply base_write_inv]. Qed.

Lemma write_UBG_typed u data :
  is_u16 u -> is_u8 data -> is_u16 (u16 (Z.lor (Z.land u 0xff00) data)).
Proof. intros. apply u16_range. Qed.

Lemma mcf5206e_write_inv up off data (s : St) :
  is_u8 data -> duart_inv up s.1 -> duart_inv up (mcf5206e_write off data s).1.
Proof.
  intros Hd I. unfold mcf5206e_write. branches; try (by apply base_write_inv); try done.
  - dev_easy; done.
  - apply chan_update_interrupts_inv, baud_updated_inv. dev_easy; done.
  - dev_easy; done.
Qed.

Lemma set_MR_inv up c (one : bool) data (s : St) :
  is_u8 data -> duart_inv up s.1 ->
  duart_inv up (chan_do c (fun ch => if one then ch <| MR1 := data |> else ch <| MR2 := data |>) s).1.
Proof. intros Hd I. apply chan_do_inv; [destruct one; chan_easy|done]. Qed.

Lemma mc68340_write_inv up off data (s : St) :
  is_u8 data -> duart_inv up s.1 -> duart_inv up (mc68340_write off data s).1.
Proof.
  intros Hd I. unfold mc68340_write. branches; try (by apply base_write_inv).
  - by apply (set_MR_inv up ChA true).
  - by apply (set_MR_inv up ChB true).
  - by apply (set_MR_inv up ChA false).
  - by apply (set_MR_inv up ChB false).
Qed.

Lemma sc28c94_write_inv up off data (s : St) :
  is_u8 data -> duart_inv up s.1 -> duart_inv up (sc28c94_write off data s).1.
Proof.
  intros Hd I. cbv beta delta [sc28c94_write]. bind_let o. bind_let s1.
  assert (duart_inv up s1.1) as I1 by (subst s1; branches; [by apply base_write_inv|done]).
  clearbody s1. branches; try (by apply write_chan_reg_inv). done.
Qed.

Lemma xr68c681_command_inv up c frx ftx data (s : St) :
  is_u8 data ->
  (forall b (s : St), duart_inv up s.1 -> duart_inv up (dev (frx b) s).1) ->
  (forall b (s : St), duart_inv up s.1 -> duart_inv up (dev (ftx b) s).1) ->
  duart_inv up s.1 -> read_ok up (xr68c681_command c frx ftx data s).
Proof.
  intros Hd Hr Ht I. unfold xr68c681_command. branches;
    (apply read_reg_ok; [auto with mame|try apply baud_updated_inv; auto]).
Qed.

Lemma xr68c681_write_inv up off data (s : St) :
  is_u8 data -> duart_inv up s.1 -> duart_inv up (xr68c681_write off data s).1.
Proof.
  intros Hd I. unfold xr68c681_write.
  match goal with |- context [match ?x with (_, _) => _ end] => assert (read_ok up x) as Hx; [|destruct x as [d s']] end.
  - branches; [apply xr68c681_command_inv..|]; auto; try (intros b t It; dev_easy; done). by split.
  - destruct Hx. by apply mc68681_write_inv.
Qed.

Lemma write_inv up off data (s : St) :
  is_u8 data -> duart_inv up s.1 -> duart_inv up (Duart.write off data s).1.
Proof.
  intros Hd I. unfold Duart.write. destruct (kind s.1);
    auto using base_write_inv, mc68681_write_inv, mcf5206e_write_inv, sc28c94_write_inv,
      mc68340_write_inv, xr68c681_write_inv.
Qed.

(** *** The input pins *)

Lemma ip_plain_w_calm m v (s : St) : calm s.1 (ip_plain_w m v s).1.
Proof.
  unfold ip_plain_w. apply calm_dev; try done. unfold regs_typed, new_IP. cbn.
  intuition auto with mame.
Qed.

Lemma set_ISR7_calm (s : St) : calm s.1 (set_ISR_bits INT_INPUT_PORT_CHANGE s).1.
Proof.
  unfold set_ISR_bits. case_match; [|done].
  destruct (update_interrupts_settles (dev (fun d => d <| ISR ::= set_bits INT_INPUT_PORT_CHANGE |>) s))
    as [S I R Q]. split; [exact S| |  |done].
  - intros n Hn. rewrite I by done. cbn -[Z.testbit]. rewrite testbit_set_bits by lia.
    assert (forall n, 0 <= n < 7 -> Z.testbit INT_INPUT_PORT_CHANGE n = false) as Hb.
    { intros m Hm. apply (Z.pow2_bits_false 7). lia. }
    by rewrite Hb, orb_false_r.
  - intros T. apply R. unfold regs_typed in *. cbn. intuition auto with mame.
Qed.

Lemma ip_change_w_calm m delta v (s : St) : calm s.1 (ip_change_w m delta v s).1.
Proof.
  cbv beta delta [ip_change_w]. bind_let ip. bind_let s1.
  assert (calm s.1 s1.1) as C1.
  { subst s1. case_match; [|done].
    cbv zeta. set (x := dev _ s). assert (calm s.1 x.1) as Cx.
    { apply calm_dev; try done. unfold regs_typed. cbn. intuition auto with mame. }
    case_match; [|done]. etrans; [exact Cx|apply set_ISR7_calm]. }
  etrans; [exact C1|]. apply calm_dev; try done. unfold regs_typed, ip, new_IP. cbn. intuition auto with mame.
Qed.

Lemma unless_coldfire_calm f (s : St) : calm s.1 (f s).1 -> calm s.1 (unless_coldfire f s).1.
Proof. unfold unless_coldfire. by case_match. Qed.

(** The seven pins, by number. *)
Definition ip_w (n : nat) : Z -> St -> St :=
  match n with
  | 0 => ip0_w | 1 => ip1_w | 2 => ip2_w | 3 => ip3_w | 4 => ip4_w | 5 => ip5_w | _ => ip6_w
  end%nat.

Lemma ip_w_calm n v (s : St) : calm s.1 (ip_w n v s).1.
Proof.
  destruct n as [|[|[|[|[|[|n]]]]]];
    first [apply ip_change_w_calm|apply unless_coldfire_calm; first [apply ip_change_w_calm|apply ip_plain_w_calm]].
Qed.

(** *** Reset *)

(** Reset settles the interrupt line whatever it was. *)
Lemma device_reset_inv up (s : St) :
  (forall c, chan_inv (up c) (channel c s.1)) -> regs_typed s.1 -> duart_inv up (device_reset s).1.
Proof.
  intros C G. assert (duart_inv up (base_device_reset s).1) as Ib.
  { unfold base_device_reset. apply write_outport_inv, write_irq_inv.
    split; [done| |done]. unfold regs_typed in *. cbn. unfold is_u8, is_u16 in *. lia. }
  unfold device_reset. destruct (kind _); try done; dev_easy; try done; by split.
Qed.

Lemma rx_x_w_inv up c v (s : St) : duart_inv up s.1 -> duart_inv up (rx_x_w c v s).1.
Proof. intros I. unfold rx_x_w. auto with duart. Qed.

Lemma get_irq_vector_inv up (s : St) : duart_inv up s.1 -> duart_inv up (get_irq_vector s).2.1.
Proof. intros I. unfold get_irq_vector. cbn [snd]. apply when_inv; [dev_easy; done|done]. Qed.
End Laws.

(** ** Construction *)

(** The memory of a channel before its constructor runs. *)
Lemma new_channel_inv ch : chan_typed ch -> chan_inv false (new_duart_channel ch).
Proof.
  intros T. chan_split; try done; try lia.
  - unfold chan_typed in *. cbn. destruct T as (T1 & T2 & T3 & T4 & T5 & T6 & T7 & T8 & T9).
    unfold is_u8 in *. repeat split; try lia; try tauto.
    assert (clean_word 0) as H0 by (split; [by split|]; split; [by split|]; intros; apply Z.bits_0).
    do 4 (apply Forall_cons_2; [exact H0|]). apply Forall_nil_2.
  - unfold MC68681_RX_FIFO_SIZE. lia.
Qed.

Lemma new_duart_typed k d :
  regs_typed d -> (forall c, chan_typed (channel c d)) ->
  regs_typed (new_duart k d) /\ forall c, chan_inv false (channel c (new_duart k d)).
Proof.
  intros G C. split.
  - unfold regs_typed in *. cbn. unfold is_u8, is_u16 in *. lia.
  - intros c. destruct c; apply new_channel_inv;
      [apply (C ChA)|apply (C ChB)|apply (C ChC)|apply (C ChD)].
Qed.
