(* ===== verification/DuartFacts.v ===== *)
(** * DuartFacts: what the DUART does

    The theorems about the operations of Duart, on top of the invariant of
    DuartInv: every history of accesses keeps the invariant, the receive FIFO
    is a queue of four, the counter reads back; and the lemmas on input
    changes that Board puts together. *)

From stdpp Require Import base tactics numbers option list.
From Stdlib Require Import ZArith Lia Bool.
From S2P Require Import Prelude Attotime Scheduler Serial Duart DuartInv.

(** ** Histories *)

(** Whatever reaches the chip from outside, or from its timers. *)
Inductive duart_event :=
  | ev_read (offset : Z)
  | ev_write (offset data : Z)
  | ev_irq_vector
  | ev_pin (n : nat) (state : Z)
  | ev_rx (c : chan) (state : Z)
  | ev_timer
  | ev_tra_clock (c : chan)
  | ev_rcv_clock (c : chan)
  | ev_reset.

Definition event_ok (e : duart_event) : Prop :=
  match e with ev_write _ data => is_u8 data | _ => True end.

Section Histories.
Context {W : Type} `{DuartEnv W}.
#[local] Abbreviation St := (duart * W)%type.

(** The reset of the device and then of its channels. *)
Definition reset_all (s : St) : St :=
  let k := kind s.1 in
  let s := device_reset s in
  let s := chan_device_reset ChB (chan_device_reset ChA s) in
  match k with
  | SC28C94 => chan_device_reset ChD (chan_device_reset ChC s)
  | _ => s
  end.

Definition handle (e : duart_event) (s : St) : St :=
  match e with
  | ev_read offset => (Duart.read offset s).2
  | ev_write offset data => Duart.write offset data s
  | ev_irq_vector => (get_irq_vector s).2
  | ev_pin n state => ip_w n state s
  | ev_rx c state => rx_x_w c state s
  | ev_timer => duart_timer_callback s
  | ev_tra_clock c => tra_clock (H := channel_serial c) s
  | ev_rcv_clock c => rcv_clock (H := channel_serial c) s
  | ev_reset => reset_all s
  end.

Definition history (es : list duart_event) (s : St) : St := fold_left (fun s e => handle e s) es s.
End Histories.

(** The channels a chip has. *)
Definition present (k : duart_kind) (c : chan) : bool :=
  match c with ChA | ChB => true | _ => bool_decide (k = SC28C94) end.

(** ** A board that does not answer *)

(** Time stands still at [t] and nobody listens to the lines. *)
#[export] Instance quiet_env : DuartEnv attotime := {
  now t := t;
  write_irq v s := s;
  write_tx c b s := s;
  write_outport v s := s;
  read_inport := None;
  side_effects_disabled t := false
}.

#[export] Instance quiet_env_laws : DuartEnvLaws attotime.
Proof. by split. Qed.

(** A chip as it comes out of its constructor, on cleared memory. *)
Definition blank_channel : duart_channel :=
  mk_channel new_serial 0 0 0 0 0 0 0 0 0 (replicate 4 0) 0 0 0 0 false false 0 false 0 0.
Definition blank_duart : duart :=
  mk_duart SCN2681 3686400 blank_channel blank_channel blank_channel blank_channel 0 0 0 0 0 0 0 0 0
    0 0 0 0 new_timer false false 0 0 false false false false.

Lemma blank_typed : regs_typed blank_duart /\ forall c, chan_typed (channel c blank_duart).
Proof.
  split; [unfold regs_typed, is_u8, is_u16; cbn; lia|]. intros c.
  replace (channel c blank_duart) with blank_channel by by destruct c.
  unfold chan_typed. cbn. unfold is_u8. repeat (split; [lia|]). split; [|done].
  assert (clean_word 0) as H0 by (split; [by split|]; split; [by split|]; intros; apply Z.bits_0).
  do 4 (apply Forall_cons_2; [exact H0|]). apply Forall_nil_2.
Qed.

(** ** The invariant along a history *)

Lemma duart_inv_ext up up' d : (forall c, up c = up' c) -> duart_inv up d -> duart_inv up' d.
Proof. intros E [C G Q]. split; [intros c; by rewrite <- E|done..]. Qed.

Section Laws.
Context {W : Type} `{DuartEnvLaws W}.
#[local] Abbreviation St := (duart * W)%type.

Lemma duart_inv_mono up up' d : (forall c, up' c = true -> up c = true) -> duart_inv up d -> duart_inv up' d.
Proof.
  intros E [C G Q]. split; [intros c|done..]. destruct (C c) as [T N P R F B].
  split; auto.
Qed.

Lemma reset_all_inv up (s : St) :
  (forall c, chan_inv (up c) (channel c s.1)) -> regs_typed s.1 ->
  duart_inv (fun c => present (kind s.1) c || up c) (reset_all s).1.
Proof.
  intros C G. pose proof (device_reset_inv _ _ C G) as I.
  apply (chan_device_reset_inv _ ChA), (chan_device_reset_inv _ ChB) in I.
  unfold reset_all. destruct (kind s.1).
  4: apply (chan_device_reset_inv _ ChC), (chan_device_reset_inv _ ChD) in I.
  all: eapply duart_inv_mono; [|exact I]; by intros [].
Qed.

Lemma handle_inv up e (s : St) : event_ok e -> duart_inv up s.1 -> duart_inv up (handle e s).1.
Proof.
  intros He I. destruct e; cbn [handle].
  - by apply read_ok_all.
  - by apply write_inv.
  - by apply get_irq_vector_inv.
  - apply (duart_inv_calm _ s.1); [apply ip_w_calm|done].
  - by apply rx_x_w_inv.
  - by apply timer_callback_inv.
  - by apply tx_clock_w_inv.
  - by apply rx_clock_w_inv.
  - destruct I as [C G Q]. eapply duart_inv_mono; [|by apply reset_all_inv].
    cbv beta. intros c' ->. by rewrite orb_true_r.
Qed.

Lemma history_inv up es (s : St) : Forall event_ok es -> duart_inv up s.1 -> duart_inv up (history es s).1.
Proof.
  intros He. revert s. induction He as [|e es He _ IH]; intros s I; [done|]. by apply IH, handle_inv.
Qed.

(** ** What an interrupt update leaves alone *)

Lemma set_or_clear_static (b : bool) m (s : St) :
  static (if b then set_ISR_bits m s else clear_ISR_bits m s).1 = static s.1.
Proof.
  destruct b; [unfold set_ISR_bits|unfold clear_ISR_bits]; case_match; try done;
    match goal with |- static (update_interrupts ?x).1 = _ => exact (settled_static _ _ (update_interrupts_settles x)) end.
Qed.

(** In the echo modes the update takes TxRDY back; nothing else of a channel
    changes. *)
Definition echo_mode (ch : duart_channel) : bool :=
  (Z.land (MR2 ch) 0xc0 =? 0x40) || (Z.land (MR2 ch) 0xc0 =? 0xc0).
Definition echo (ch : duart_channel) : duart_channel :=
  if echo_mode ch then ch <| SR ::= clear_bits STATUS_TRANSMITTER_READY |> else ch.

Lemma chan_update_frame c c' (s : St) :
  bare (channel c' (chan_update_interrupts c s).1) =
    bare (if decide (c' = c) then echo (channel c s.1) else channel c' s.1).
Proof.
  cbv beta delta [chan_update_interrupts]. bind_let mode. bind_let s1.
  assert (channel c' s1.1 = if decide (c' = c) then echo (channel c s.1) else channel c' s.1) as <-.
  { subst s1 mode. unfold echo, echo_mode, chan_of. destruct (_ || _).
    - apply channel_on_channel.
    - by destruct (decide _) as [->|]. }
  clearbody s1. bind_let s2.
  assert (static s2.1 = static s1.1) as E2 by apply set_or_clear_static. clearbody s2.
  apply static_bare. rewrite <- E2. case_match; apply set_or_clear_static.
Qed.

Lemma echo_fifo ch : fifo_of (echo ch) = fifo_of ch.
Proof. unfold echo. by case_match. Qed.
Lemma echo_bit ch n : 0 <= n < 8 -> n <> TXRDY -> Z.testbit (SR (echo ch)) n = Z.testbit (SR ch) n.
Proof.
  intros Hn Hne. unfold echo. case_match; [|done]. cbn -[Z.testbit]. rewrite testbit_clear_bits by done.
  replace (Z.testbit STATUS_TRANSMITTER_READY n) with false; [by rewrite andb_true_r|].
  symmetry. apply (Z.pow2_bits_false 2). unfold TXRDY in Hne. lia.
Qed.

Lemma entries_fifo ch ch' : fifo_of ch' = fifo_of ch -> entries ch' = entries ch.
Proof. unfold fifo_of, entries. intros E. by injection E as -> -> _ ->. Qed.

Lemma chan_update_entries c (s : St) :
  entries (chan_of c (chan_update_interrupts c s)) = entries (chan_of c s) /\
  forall n, 0 <= n < 8 -> n <> TXRDY ->
    Z.testbit (SR (chan_of c (chan_update_interrupts c s))) n = Z.testbit (SR (chan_of c s)) n.
Proof.
  pose proof (chan_update_frame c c s) as E. rewrite decide_True in E by done. unfold chan_of. split.
  - apply entries_fifo. rewrite <- (echo_fifo (channel c s.1)).
    exact (f_equal fifo_of E).
  - intros n Hn Hne. rewrite <- (echo_bit (channel c s.1)) by done.
    exact (f_equal (fun ch => Z.testbit (SR ch) n) E).
Qed.

Lemma chan_of_do c f (s : St) : chan_of c (chan_do c f s) = f (chan_of c s).
Proof. unfold chan_of, chan_do, dev. cbn [fst]. by rewrite channel_on_channel, decide_True. Qed.

(** *** The status a push and a pop leave *)

Lemma fifo_push_overrun_bit data e ch : clean_errors e ->
  Z.testbit (SR (fifo_push data e ch)) 4 = Z.testbit (SR ch) 4 || (rx_fifo_num ch =? 4)%nat.
Proof.
  intros [_ He]. unfold fifo_push. set (c := fifo_store _ _).
  assert (Z.testbit (SR c) 4 = Z.testbit (SR ch) 4 || (rx_fifo_num ch =? 4)%nat) as <-.
  { subst c. rewrite (proj2 (fifo_store_rest _ _)). unfold fifo_overrun.
    change (MC68681_RX_FIFO_SIZE + 1)%nat with 4%nat. case_match; [|by rewrite orb_false_r].
    cbn -[Z.testbit]. by rewrite testbit_set_bits by lia. }
  clearbody c. unfold fifo_push_status.
  destruct (rx_fifo_num c =? 1)%nat; [destruct (negb _)|];
    match goal with |- context [if ?b then _ else _] => destruct b end; cbn -[Z.testbit];
    autorewrite with bits; rewrite ?He by lia; eval_bits; by rewrite ?orb_false_r, ?andb_true_r.
Qed.

(** In character mode the error bits of the status are those of the character
    at the head. *)
Lemma fifo_pop_errors ch n :
  test (MR1 ch) MODE_BLOCK_ERROR = false -> (1 < rx_fifo_num ch)%nat -> 5 <= n < 8 ->
  Z.testbit (SR (fifo_pop ch).2) n =
    Z.testbit (nth (rx_fifo_read_ptr (fifo_pop ch).2) (rx_fifo ch) 0) (n + 8).
Proof.
  intros Hm Hn Hb.
  assert (rx_fifo_read_ptr (fifo_pop ch).2 = rx_fifo_read_ptr (fifo_advance ch)) as ->
    by exact (f_equal (fun f => f.1.1.2) (fifo_pop_status_of (fifo_advance ch))).
  unfold fifo_pop. cbn [snd]. set (c := fifo_advance ch).
  assert (MR1 c = MR1 ch /\ rx_fifo_num c = pred (rx_fifo_num ch) /\ rx_fifo c = rx_fifo ch) as (E1 & E2 & E3)
    by (subst c; unfold fifo_advance; by case_match).
  rewrite <- E1 in Hm. rewrite <- E3. assert (rx_fifo_num c <> 0%nat) as Hc by lia. clearbody c.
  unfold fifo_pop_status.
  destruct (rx_fifo_num c =? MC68681_RX_FIFO_SIZE - 1)%nat; cbn -[Z.testbit test]; rewrite Hm; cbn -[Z.testbit];
    (destruct (Nat.eqb_spec (rx_fifo_num c) 0); [done|]); cbn -[Z.testbit];
    rewrite testbit_set_bits, ?testbit_clear_bits, Z.shiftr_spec by lia;
    (assert (n = 5 \/ n = 6 \/ n = 7) as [-> | [-> | ->]] by lia); eval_bits;
    by rewrite andb_false_r.
Qed.

(** C3: After power-on and any history of accesses, clock edges, pin
    changes and further resets, on any chip of the family and any board that
    obeys [DuartEnvLaws]: every register has a value of its width, each receive
    FIFO that the chip has is well formed with RxRDY and FFULL agreeing with
    its fill, no channel that holds a byte back reports TxRDY or TxEMT, the
    interrupt output is up exactly when an unmasked interrupt is pending, and a
    further read returns a byte. *)
Theorem duart_consistent k d w es :
  regs_typed d -> (forall c, chan_typed (channel c d)) -> Forall event_ok es ->
  let s := history es (reset_all (new_duart k d, w)) in
  duart_inv (present k) s.1 /\ forall offset, is_u8 (Duart.read offset s).1.
Proof.
  intros G C He s. destruct (new_duart_typed k d G C) as [G' C'].
  assert (duart_inv (present k) s.1) as I.
  { apply history_inv; [done|].
    eapply duart_inv_mono; [|by apply (reset_all_inv (fun _ => false) (new_duart k d, w))].
    cbv beta. intros c Hc. replace (kind (new_duart k d, w).1) with k by done. by rewrite Hc. }
  split; [done|]. intros off. by apply (read_ok_all _ _ _ I).
Qed.

(** *** The queue *)

Lemma entries_nil ch : chan_typed ch -> fifo_pointers ch -> (rx_fifo_num ch <= 4)%nat ->
  length (entries ch) = rx_fifo_num ch.
Proof.
  intros (_ & _ & _ & _ & _ & _ & _ & _ & L) [Hr _] N. unfold entries. rewrite length_take, length_drop, length_app, L.
  unfold MC68681_RX_FIFO_SIZE in *. lia.
Qed.

Lemma entries_head ch : chan_typed ch -> fifo_pointers ch -> (0 < rx_fifo_num ch)%nat ->
  head (entries ch) = Some (nth (rx_fifo_read_ptr ch) (rx_fifo ch) 0).
Proof.
  intros (_ & _ & _ & _ & _ & _ & _ & _ & L) [Hr _] N. unfold entries, MC68681_RX_FIFO_SIZE in *.
  destruct (rx_fifo_num ch) as [|n]; [lia|].
  rewrite <- (take_drop (rx_fifo_read_ptr ch) (rx_fifo ch)) at 3.
  destruct (rx_fifo ch) as [|w0 [|w1 [|w2 [|w3 [|]]]]]; try discriminate.
  destruct (rx_fifo_read_ptr ch) as [|[|[|[|]]]]; done || lia.
Qed.

(** C18: The receive FIFO of a channel in use is a queue of at most four characters
    with their error bits.  A character that arrives goes to the end; the
    fifth takes the place of the fourth and sets OVERRUN.  Reading the receive
    buffer gives the character at the head and removes it, or 0 from an empty
    queue; RxRDY is taken back with the last one, and in character mode the
    error bits of the status become those of the next one. *)
Theorem rx_fifo_is_queue up c (s : St) :
  duart_inv up s.1 -> up c = true ->
  let ch := chan_of c s in
  (length (entries ch) <= 4)%nat /\
  (forall data e, clean_errors e ->
     let ch' := chan_of c (rx_fifo_push c data e s) in
     entries ch' = queue_push (entries ch) (fifo_word data e) /\
     Z.testbit (SR ch') 4 = Z.testbit (SR ch) 4 || (length (entries ch) =? 4)%nat) /\
  let '(v, s') := read_rx_fifo c s in
  let ch' := chan_of c s' in
  match entries ch with
  | [] => v = 0 /\ entries ch' = []
  | w :: q =>
      v = u8 w /\ entries ch' = q /\
      Z.testbit (SR ch') RXRDY = Z.testbit (SR ch) RXRDY && negb (bool_decide (q = [])) /\
      (test (MR1 ch) MODE_BLOCK_ERROR = false -> forall w', head q = Some w' ->
         forall n, 5 <= n < 8 -> Z.testbit (SR ch') n = Z.testbit w' (n + 8))
  end.
Proof.
  intros I U ch. destruct (inv_chan _ _ I c) as [T N P _ _ _]. specialize (P U).
  change (channel c s.1) with ch in T, N, P. pose proof T as (_ & _ & _ & _ & _ & _ & _ & Tf & L).
  pose proof (entries_nil ch T P N) as Len. split; [rewrite Len; exact N|]. split.
  - intros data e He ch'. destruct (chan_update_entries c (chan_do c (fifo_push data e) s)) as [E1 E2].
    unfold ch', rx_fifo_push. rewrite E1, (E2 4) by (done || lia). rewrite chan_of_do. fold ch. rewrite Len.
    split; [by apply fifo_push_entries|by apply fifo_push_overrun_bit].
  - unfold read_rx_fifo. fold ch. destruct (Nat.eqb_spec (rx_fifo_num ch) 0) as [E0|E0].
    + destruct (chan_update_entries c s) as [-> _]. fold ch.
      rewrite E0 in Len. by destruct (entries ch).
    + assert (0 < rx_fifo_num ch)%nat as Hp by lia.
      pose proof (fifo_pop_entries ch L N Hp P) as (P' & w & Ew & Ev).
      pose proof (fifo_pop_bits ch RXRDY Tf ltac:(done)) as Hb.
      pose proof (fun n => fifo_pop_errors ch n) as Hx.
      pose proof (fifo_pop_of ch) as Eof.
      assert (chan_typed (fifo_pop ch).2) as T' by
        (apply (inv_typed _ _ (chan_inv_pop _ ch Hp (inv_chan _ _ I c)))).
      destruct (fifo_pop ch) as [rv ch1] eqn:Epop. cbn [fst snd] in *. rewrite Ew, Ev.
      destruct (chan_update_entries c (chan_do c (fun _ => ch1) s)) as [E1 E2].
      rewrite E1, !chan_of_do in *. split; [done|]. split; [done|].
      assert (rx_fifo_num ch1 = pred (rx_fifo_num ch) /\ rx_fifo ch1 = rx_fifo ch) as [En Ef]
        by (unfold fifo_of, pop_of in Eof; by injection Eof).
      assert (rx_fifo_num ch1 <= 4)%nat as N1 by (unfold MC68681_RX_FIFO_SIZE in N; lia).
      pose proof (entries_nil ch1 T' P' N1) as Len1. split.
      * rewrite (E2 RXRDY), Hb by done. cbn [RXRDY FFULL Z.eqb andb negb]. rewrite andb_true_r. f_equal. f_equal.
        destruct (Nat.leb_spec (rx_fifo_num ch) 1), (entries ch1); cbn in Len1; rewrite En in Len1; try lia; done.
      * intros Hm w' Hw' n Hn. rewrite E2 by (unfold TXRDY; lia).
        assert (0 < rx_fifo_num ch1)%nat as Hp1 by (rewrite <- Len1; destruct (entries ch1); [done|cbn; lia]).
        rewrite Hx by (done || lia). rewrite <- Ef. f_equal.
        pose proof (entries_head ch1 T' P' Hp1) as Hh. congruence.
Qed.

(** ** The receiver reset *)

(** Resetting the receiver empties the FIFO and takes RxRDY back, but leaves
    FFULL as it was: with MR1 selecting FFULL the receive interrupt of an empty
    FIFO stays up. *)
Theorem receiver_reset_keeps_ffull (up : chan -> bool) (c : chan) (s : St) :
  duart_inv up s.1 ->
  let ch := chan_of c (write_CR c 0x20 s) in
  entries ch = [] /\ Z.testbit (SR ch) RXRDY = false /\
  Z.testbit (SR ch) FFULL = Z.testbit (SR (chan_of c s)) FFULL.
Proof.
  intros I ch. subst ch. unfold write_CR. change (bit_set 0x20 0) with false.
  change (bit_set 0x20 1) with false. change (bit_set 0x20 2) with false.
  change (bit_set 0x20 3) with false. rewrite andb_false_r. cbn [when]. cbv zeta.
  set (s1 := command c 0x20 s). rewrite chan_of_do.
  destruct (chan_update_entries c s1) as [E1 E2].
  set (ch1 := chan_of c (chan_update_interrupts c s1)) in *.
  change (entries (ch1 <| CR := 0x20 |>)) with (entries ch1).
  change (SR (ch1 <| CR := 0x20 |>)) with (SR ch1).
  rewrite E1, !E2 by done. clear E1 E2 ch1.
  assert (chan_of c s1 = reset_receiver (chan_of c s)) as -> by apply chan_of_do.
  split; [done|]. unfold reset_receiver. cbn -[Z.testbit]. unfold RXRDY, FFULL.
  autorewrite with bits. eval_bits. by rewrite ?andb_false_r, ?andb_true_r.
Qed.
End Laws.

Lemma duart_consistent_witness :
  let s := history [ev_write 0 0x13; ev_write 0 0x07; ev_write 1 0xbb; ev_write 2 0x05; ev_write 5 0x01;
                    ev_write 3 0x55; ev_tra_clock ChA; ev_timer; ev_pin 2 1; ev_read 5]
             (reset_all (new_duart MC68681 blank_duart, zero)) in
  duart_inv (present MC68681) s.1 /\ forall offset, is_u8 (Duart.read offset s).1.
Proof.
  destruct blank_typed as [G C]. apply (duart_consistent MC68681 blank_duart zero); [done|done|].
  repeat (apply Forall_cons_2; [by vm_compute|]). apply Forall_nil_2.
Defined.

(** A chip with two characters in the FIFO of channel A. *)
Definition sample_chip : duart * attotime :=
  rx_fifo_push ChA 0x42 STATUS_PARITY_ERROR
    (rx_fifo_push ChA 0x41 0 (reset_all (new_duart MC68681 blank_duart, zero))).

Lemma clean_parity : clean_errors STATUS_PARITY_ERROR.
Proof. exact (clean_framing false true). Qed.
Lemma clean_none : clean_errors 0.
Proof. exact (clean_framing false false). Qed.

Lemma sample_chip_inv : duart_inv (present MC68681) sample_chip.1.
Proof.
  apply rx_fifo_push_inv; [apply clean_parity|]. apply rx_fifo_push_inv; [apply clean_none|].
  destruct blank_typed as [G C]. destruct (new_duart_typed MC68681 _ G C) as [G' C'].
  eapply duart_inv_mono; [|exact (reset_all_inv (fun _ => false) (new_duart MC68681 blank_duart, zero) C' G')].
  by intros [].
Qed.

Lemma rx_fifo_is_queue_witness :
  let ch := chan_of ChA sample_chip in
  (length (entries ch) <= 4)%nat /\
  entries (chan_of ChA (rx_fifo_push ChA 0x43 0 sample_chip)) = queue_push (entries ch) 0x43.
Proof.
  intros ch. destruct (rx_fifo_is_queue (present MC68681) ChA sample_chip sample_chip_inv eq_refl) as (L & P & _).
  split; [exact L|]. exact (proj1 (P 0x43 0 clean_none)).
Defined.

Lemma receiver_reset_keeps_ffull_witness :
  entries (chan_of ChA (write_CR ChA 0x20 sample_chip)) = [].
Proof. exact (proj1 (receiver_reset_keeps_ffull (present MC68681) ChA sample_chip sample_chip_inv)). Defined.

(** ** Baud rates of the XR68C681 *)

(** With the X bit of the direction and channel clear and a table rate
    selected, the XR68C681 runs at the rate of the chips it extends; for the
    external clocks it ignores ACR bit 7. *)
Theorem xr68c681_rates (d : duart) (ch : Z) (rx : bool) (data : Z) :
  0 <= ch -> 
  (ch = 0 -> (if rx then m_XRXA d else m_XTXA d) = false) ->
  (ch = 1 -> (if rx then m_XRXB d else m_XTXB d) = false) ->
  ch < 2 ->
  let sel := Z.land data 0x0f in
  (sel < 14 -> xr68c681_calc_baud d ch rx data = base_calc_baud d ch rx data) /\
  (14 <= sel -> xr68c681_calc_baud d ch rx data =
     base_calc_baud (d <| ACR ::= clear_bits 0x80 |>) ch rx data).
Proof.
  intros H0 HA HB H1 sel. unfold xr68c681_calc_baud, base_calc_baud. fold sel.
  assert (BIT (ACR (d <| ACR ::= clear_bits 0x80 |>)) 7 = 0) as EB.
  { cbn -[BIT]. rewrite BIT_testbit, testbit_clear_bits by lia. eval_bits. by rewrite andb_false_r. }
  assert (0 <= sel <= 15) as Hs.
  { subst sel. change (Z.land data 0x0f) with (Z.land data (Z.ones 4)). rewrite Z.land_ones by lia. change (2 ^ 4) with 16.
    pose proof (Z.mod_pos_bound data 16). lia. }
  assert (ch = 0 \/ ch = 1) as [-> | ->] by lia; cbn [Z.eqb]; rewrite EB; cbn [Z.eqb].
  - specialize (HA eq_refl). destruct rx; rewrite HA; cbn [andb orb negb]; (split; intros Hl).
    all: destruct (Z.eqb_spec sel 14), (Z.eqb_spec sel 15); try lia; try done; by destruct (BIT (ACR d) 7 =? 0).
  - specialize (HB eq_refl). destruct rx; rewrite HB; cbn [andb orb negb]; (split; intros Hl).
    all: destruct (Z.eqb_spec sel 14), (Z.eqb_spec sel 15); try lia; try done; by destruct (BIT (ACR d) 7 =? 0).
Qed.

Lemma xr68c681_rates_witness :
  xr68c681_calc_baud (new_duart XR68C681 blank_duart) 1 true 0x3b = 9600.
Proof.
  destruct (xr68c681_rates (new_duart XR68C681 blank_duart) 1 true 0x3b) as [E _]; [lia|done|done|lia|].
  rewrite E; by vm_compute.
Defined.

(** ** The counter *)

Lemma remaining_adjusted (now t : attotime) p per (tm : emu_timer) :
  wf now -> wf t -> 0 < val t -> m_seconds now + m_seconds t + 1 < ATTOTIME_MAX_SECONDS ->
  0 <= m_seconds now -> 0 <= m_seconds t ->
  remaining now (adjusted now t p per tm) = t.
Proof.
  intros Hn Ht Hp Hs Hn0 Ht0. unfold remaining, adjusted. cbn -[ATTOTIME_MAX_SECONDS].
  destruct (Z.ltb_spec (m_seconds t) 0); [lia|].
  assert (is_never now = false /\ is_never t = false) as [N1 N2]
    by (unfold is_never; split; apply Z.leb_gt; lia).
  assert (val (add now t) = val now + val t) as Ev.
  { rewrite add_val by done. apply of_val_val_lt. atto_unfold. nia. }
  rewrite geb_val by auto with mame. rewrite Ev. destruct (Z.leb_spec (val now + val t) (val now)); [lia|].
  assert (is_never (add now t) = false) as N3.
  { unfold is_never. apply Z.leb_gt. pose proof (add_wf _ _ Hn Ht) as Hw. revert Ev Hw. atto_unfold. nia. }
  destruct (sub_val (add now t) now) as [Hw Ew]; [auto with mame..|done|].
  apply val_inj; [done|done|]. lia.
Qed.

Lemma duart_timer_start_ct {W} `{DuartEnv W} n (s : duart * W) :
  get_ct_rate (start_ct n s).1 = get_ct_rate s.1 /\
  get_ct_count (start_ct n s) =
    u16 (as_ticks (remaining (now s.2) (adjusted (now s.2) (from_ticks (u64 n) (get_ct_rate s.1)) 0 never (duart_timer s.1)))
           (get_ct_rate s.1)).
Proof. by split. Qed.

(** Starting the counter and reading it back at once, over its two byte
    registers, gives the preset (1 for a preset of 0) when the tick period is a
    whole number of attoseconds, and one less when it was rounded down. *)
Theorem counter_reads_back {W} `{DuartEnv W} (s : duart * W) :
  let n := ct_preset s.1 in
  let f := get_ct_rate s.1 in
  is_u16 (CTR s.1) -> 0 < f <= 1000000000 ->
  wf (now s.2) -> 0 <= m_seconds (now s.2) -> m_seconds (now s.2) + n / f + 1 < ATTOTIME_MAX_SECONDS ->
  test (ACR s.1) 0x40 = false ->
  let s' := (base_read 0x0e s).2 in
  256 * (base_read 0x06 s').1 + (base_read 0x07 s').1 =
    n - (if (ATTOSECONDS_PER_SECOND mod f =? 0) || (n mod f =? 0) then 0 else 1).
Proof.
  intros n f Hc Hf Hw Hn0 Hmax Hm s'.
  assert (1 <= n < 65536) as Hn by (unfold n, ct_preset, is_u16 in *; lia).
  assert (s' = start_ct n s) as Es by (subst s' n; unfold base_read; cbn -[start_ct test ct_preset]; by rewrite Hm).
  change ((base_read 0x06 s').1) with (Z.shiftr (get_ct_count s') 8).
  change ((base_read 0x07 s').1) with (Z.land (get_ct_count s') 0xff).
  rewrite Es. destruct (duart_timer_start_ct n s) as [_ ->]. fold f.
  rewrite u64_id by lia.
  assert (n / f < 2147483648) as Hq by (apply Z.div_lt_upper_bound; nia).
  destruct (ticks_roundtrip n f) as [Hwf Er]; [lia|lia|done|].
  assert (0 <= n / f) by (apply Z.div_pos; lia).
  assert (m_seconds (from_ticks n f) = n / f /\ 0 < val (from_ticks n f)) as [Es' Hv].
  { rewrite from_ticks_parts by lia. split; [done|]. unfold val. cbn [m_seconds m_attoseconds].
    assert (1000000000 <= ATTOSECONDS_PER_SECOND / f) by (apply Z.div_le_lower_bound; atto_unfold; lia).
    pose proof (Z.div_mod n f). pose proof (Z.mod_pos_bound n f). atto_unfold. nia. }
  rewrite remaining_adjusted by (done || rewrite ?Es'; done || lia). rewrite Er.
  set (k := if (_ =? 0) || (_ =? 0) then 0 else 1). assert (0 <= k <= 1) by (subst k; case_match; lia).
  rewrite u16_id by lia. rewrite Z.shiftr_div_pow2 by lia.
  change (Z.land (n - k) 0xff) with (Z.land (n - k) (Z.ones 8)). rewrite Z.land_ones by lia.
  change (2 ^ 8) with 256. pose proof (Z.div_mod (n - k) 256). lia.
Qed.

Lemma counter_reads_back_witness :
  let s := (set_clocks 0 0 0 0 blank_duart <| ACR := 0x30 |> <| CTR := 1000 |>, zero) in
  let s' := (base_read 0x0e s).2 in
  256 * (base_read 0x06 s').1 + (base_read 0x07 s').1 = 999.
Proof.
  intros s s'. refine (eq_trans (counter_reads_back s _ _ _ _ _ _) _);
    vm_compute; try split; congruence.
Defined.

(** ** The input pins *)

(** The input-pin side of the chip. *)
Definition inputs (d : duart) : Z * Z * bool := (IPCR d, IP_last_state d, Z.testbit (ISR d) 7).

(** The interrupt line does not come back to the pins; nor does the output
    port, unless some output pin follows the interrupt status: only then is
    it written when an interrupt changes. *)
Section Pins.
Context {W : Type} `{DuartEnvLaws W}.
#[local] Abbreviation St := (duart * W)%type.
Context (Hirq : forall v (s : St), inputs (write_irq v s).1 = inputs s.1).

Definition no_feedback (s : St) : Prop :=
  test (OPCR s.1) 0xf0 = false \/ forall v (s : St), inputs (write_outport v s).1 = inputs s.1.

Lemma follow_inputs op isr m d : inputs (follow op isr m d) = inputs d.
Proof. unfold follow. by repeat case_match. Qed.

Lemma static_OPCR d d' : static d' = static d -> OPCR d' = OPCR d.
Proof. unfold static. congruence. Qed.

Lemma update_inputs (s : St) : no_feedback s ->
  inputs (update_interrupts s).1 = inputs s.1 /\ no_feedback (update_interrupts s).
Proof.
  intros Hf. destruct (update_interrupts_settles s) as [S _ _ _].
  split; [|destruct Hf as [Hf|]; [left|by right]; by rewrite (static_OPCR _ _ S)].
  assert (inputs (base_update_interrupts s).1 = inputs s.1) as <-.
  - cbv beta delta [base_update_interrupts]. bind_let s1.
    assert (inputs s1.1 = inputs s.1 /\ OPCR s1.1 = OPCR s.1) as [<- Eo].
    { subst s1. repeat case_match; rewrite ?Hirq; (split; [done|]); try done;
        (etrans; [apply static_OPCR, write_irq_calm|done]). }
    clearbody s1. destruct (test (OPCR s1.1) 0xf0) eqn:Et; [|done].
    destruct Hf as [Hf|Hf]; [rewrite Eo in Et; congruence|]. cbv zeta. rewrite Hf. cbn [dev fst]. by rewrite !follow_inputs.
  - unfold update_interrupts. by case_match.
Qed.

Lemma set_ISR7_inputs (s : St) : no_feedback s ->
  inputs (set_ISR_bits INT_INPUT_PORT_CHANGE s).1 = (IPCR s.1, IP_last_state s.1, true) /\
  no_feedback (set_ISR_bits INT_INPUT_PORT_CHANGE s).
Proof.
  intros Hf. unfold set_ISR_bits. change INT_INPUT_PORT_CHANGE with 0x80. rewrite test_80.
  destruct (Z.testbit (ISR s.1) 7) eqn:E; cbn [negb]; [split; [unfold inputs; by rewrite E|done]|].
  match goal with |- context [update_interrupts ?x] => destruct (update_inputs x Hf) as [-> Hf'] end. split; [|done].
  unfold inputs. cbn -[Z.testbit]. rewrite testbit_set_bits by lia. by rewrite orb_true_r.
Qed.

Lemma clear_ISR7_inputs (s : St) : no_feedback s ->
  inputs (clear_ISR_bits INT_INPUT_PORT_CHANGE s).1 = (IPCR s.1, IP_last_state s.1, false).
Proof.
  intros Hf. unfold clear_ISR_bits. change INT_INPUT_PORT_CHANGE with 0x80. rewrite test_80.
  destruct (Z.testbit (ISR s.1) 7) eqn:E; [|unfold inputs; by rewrite E].
  match goal with |- context [update_interrupts ?x] => destruct (update_inputs x Hf) as [-> _] end.
  unfold inputs. cbn -[Z.testbit]. rewrite testbit_clear_bits by lia. by rewrite andb_false_r.
Qed.

Lemma new_IP_bits n v (d : duart) k :
  (n < 8)%nat -> 0 <= k < 8 -> v = CLEAR_LINE \/ v = ASSERT_LINE ->
  Z.testbit (new_IP (2 ^ Z.of_nat n) v d) k =
    if k =? Z.of_nat n then v =? ASSERT_LINE else Z.testbit (IP_last_state d) k.
Proof.
  intros Hn Hk Hv. unfold new_IP. rewrite testbit_u8, Z.lor_spec, Z.land_spec, Z.lnot_spec by lia.
  rewrite Z.pow2_bits_eqb by lia. rewrite (Z.eqb_sym (Z.of_nat n)).
  destruct (Z.eqb_spec k (Z.of_nat n)) as [->|Hne].
  - rewrite andb_false_r. destruct Hv as [-> | ->]; cbn [Z.eqb CLEAR_LINE ASSERT_LINE]; cbn.
    + apply Z.bits_0.
    + change (Z.testbit (2 ^ Z.of_nat n) (Z.of_nat n) = true). by apply Z.pow2_bits_true; lia.
  - rewrite andb_true_r. destruct (v =? ASSERT_LINE);
      [rewrite Z.pow2_bits_false by lia|rewrite Z.bits_0]; by rewrite orb_false_r.
Qed.

(** The state an edge on one of the four latched inputs leaves. *)
Lemma ip_change_inputs n v (s : St) :
  no_feedback s -> (n < 4)%nat -> let ip := new_IP (2 ^ Z.of_nat n) v s.1 in ip <> IP_last_state s.1 ->
  let s' := ip_change_w (2 ^ Z.of_nat n) (2 ^ (Z.of_nat n + 4)) v s in
  no_feedback s' /\
  inputs (ip_change_w (2 ^ Z.of_nat n) (2 ^ (Z.of_nat n + 4)) v s).1 =
    (set_bits (2 ^ (Z.of_nat n + 4)) (set_bits (Z.land ip 0x0f) (clear_bits 0x0f (IPCR s.1))), ip,
     Z.testbit (ISR s.1) 7 || Z.testbit (ACR s.1) (Z.of_nat n)).
Proof.
  intros Hf Hn ip Hne. unfold ip_change_w. fold ip. cbv zeta.
  destruct (Z.eqb_spec ip (IP_last_state s.1)) as [|_]; [done|]. cbn [negb].
  match goal with |- context [set_ISR_bits _ ?x] => set (s1 := x) end.
  change (ACR s1.1) with (ACR s.1). rewrite test_pow2 by lia.
  assert (no_feedback s1) as Hf1 by exact Hf.
  destruct (Z.testbit (ACR s.1) (Z.of_nat n)).
  - destruct (set_ISR7_inputs s1 Hf1) as [E Hf2]. set (s2 := set_ISR_bits INT_INPUT_PORT_CHANGE s1) in *.
    split; [exact Hf2|].
    transitivity ((inputs s2.1).1.1, ip, (inputs s2.1).2); [done|]. rewrite E. by rewrite orb_true_r.
  - split; [exact Hf1|]. by rewrite orb_false_r.
Qed.

(** The first four pins of a chip that has them. *)
Lemma ip_w_latched n v (s : St) : (n < 4)%nat -> (n = 0%nat \/ kind s.1 <> MCF5206E_UART) ->
  ip_w n v s = ip_change_w (2 ^ Z.of_nat n) (2 ^ (Z.of_nat n + 4)) v s.
Proof.
  intros Hn Hk. destruct n as [|[|[|[|n]]]]; [done| | | |lia]; cbn [ip_w];
    unfold ip1_w, ip2_w, ip3_w, unless_coldfire; destruct Hk as [|Hk]; try done; by destruct (kind s.1).
Qed.

End Pins.
