(* ===== verification/DuartMirror.v ===== *)
(** * DuartMirror: the interrupt status register mirrors the channels

    On the chips with two channels ISR bits 0, 1, 4 and 5 agree with the status
    of the channels after every access.  The 68340's serial module has an
    address for each MR1, a write to which selects the source of the receive
    interrupt without updating it, so there the agreement holds as long as
    MR1 is written through the shared mode register only. *)

From stdpp Require Import base tactics numbers option list.
From Stdlib Require Import ZArith Lia Bool.
From S2P Require Import Prelude Attotime Scheduler Serial Duart DuartInv DuartFacts.

(** ** The relation between a channel and its two interrupt bits *)

Definition tx_int (c : chan) : Z := if get_ch c =? 0 then 0 else 4.
Definition rx_int (c : chan) : Z := if get_ch c =? 0 then 1 else 5.
Definition rx_source (ch : duart_channel) : Z :=
  if test (MR1 ch) MODE_RX_INT_SELECT_BIT then FFULL else RXRDY.

Record mirrored (c : chan) (d : duart) : Prop := mk_mirrored {
  mirrored_tx : Z.testbit (ISR d) (tx_int c) = Z.testbit (SR (channel c d)) TXRDY;
  mirrored_rx : Z.testbit (ISR d) (rx_int c) = Z.testbit (SR (channel c d)) (rx_source (channel c d))
}.

(** Nothing that [mirrored c] depends on has changed. *)
Record untouched (c : chan) (d d' : duart) : Prop := mk_untouched {
  untouched_kind : kind d' = kind d;
  untouched_chan : bare (channel c d') = bare (channel c d);
  untouched_tx : Z.testbit (ISR d') (tx_int c) = Z.testbit (ISR d) (tx_int c);
  untouched_rx : Z.testbit (ISR d') (rx_int c) = Z.testbit (ISR d) (rx_int c)
}.

#[export] Instance untouched_preorder c : PreOrder (untouched c).
Proof.
  split; [by intros d|]. intros d1 d2 d3 [K1 C1 T1 R1] [K2 C2 T2 R2]. split; congruence.
Qed.

Lemma untouched_mirrored c d d' : untouched c d d' -> mirrored c d -> mirrored c d'.
Proof.
  intros [_ C T R] [M N]. unfold rx_source in N.
  assert (SR (channel c d') = SR (channel c d)) as ES by exact (f_equal SR C).
  assert (MR1 (channel c d') = MR1 (channel c d)) as EM by exact (f_equal MR1 C).
  split; unfold rx_source; rewrite ?EM, ES; congruence.
Qed.

Lemma calm_untouched c d d' : calm d d' -> untouched c d d'.
Proof. intros [S I _ _]. split; [by apply static_kind|by apply static_bare|apply I; destruct c; cbn; lia..]. Qed.

Create HintDb untouched.

(** [c] and [c'] have interrupt bits of their own. *)
Definition apart (c c' : chan) : Prop := get_ch c = 0 /\ get_ch c' <> 0 \/ get_ch c <> 0 /\ get_ch c' = 0.

Lemma apart_bits c c' : apart c c' ->
  c <> c' /\ (forall n, n = tx_int c \/ n = rx_int c -> 
    Z.testbit (INT_TXRDY c') n = false /\ Z.testbit (INT_RXRDY_FFULL c') n = false /\
    Z.testbit (INT_DELTA_BREAK c') n = false /\ Z.testbit INT_COUNTER_READY n = false /\ 0 <= n < 7).
Proof.
  intros A. unfold apart in A. destruct c, c'; cbn in A; try (exfalso; lia); (split; [done|]); intros n [-> | ->];
    by vm_compute.
Qed.

Section Laws.
Context {W : Type} `{DuartEnvLaws W}.
#[local] Abbreviation St := (duart * W)%type.

(** Setting or clearing interrupt bits: the effect on the low seven. *)
Lemma set_or_clear_bits (b : bool) m (s : St) n :
  0 <= n < 7 -> (exists k, m = 2 ^ k /\ 0 <= k) ->
  Z.testbit (ISR (if b then set_ISR_bits m s else clear_ISR_bits m s).1) n =
    if Z.testbit m n then b else Z.testbit (ISR s.1) n.
Proof.
  intros Hn (k & -> & Hk).
  assert (forall x, test x (2 ^ k) = Z.testbit x k) as Ht by (intros; by apply test_pow2).
  rewrite Z.pow2_bits_eqb by lia. destruct b; [unfold set_ISR_bits|unfold clear_ISR_bits]; rewrite Ht.
  - destruct (Z.testbit (ISR s.1) k) eqn:E; cbn [negb].
    + by destruct (Z.eqb_spec k n) as [<-|].
    + match goal with |- context [update_interrupts ?x] =>
        rewrite (settled_isr _ _ (update_interrupts_settles x)) by done end.
      cbn -[Z.testbit Z.pow]. rewrite testbit_set_bits, Z.pow2_bits_eqb by lia.
      destruct (k =? n); by rewrite ?orb_true_r, ?orb_false_r.
  - destruct (Z.testbit (ISR s.1) k) eqn:E.
    + match goal with |- context [update_interrupts ?x] =>
        rewrite (settled_isr _ _ (update_interrupts_settles x)) by done end.
      cbn -[Z.testbit Z.pow]. rewrite testbit_clear_bits, Z.pow2_bits_eqb by lia.
      destruct (k =? n); by rewrite ?andb_true_r, ?andb_false_r.
    + by destruct (Z.eqb_spec k n) as [<-|].
Qed.

Lemma int_masks c :
  (exists k, INT_TXRDY c = 2 ^ k /\ 0 <= k) /\ (exists k, INT_RXRDY_FFULL c = 2 ^ k /\ 0 <= k) /\
  (exists k, INT_DELTA_BREAK c = 2 ^ k /\ 0 <= k) /\ (exists k, INT_COUNTER_READY = 2 ^ k /\ 0 <= k) /\
  (exists k, INT_INPUT_PORT_CHANGE = 2 ^ k /\ 0 <= k).
Proof.
  split_and!; [exists (tx_int c)|exists (rx_int c)|exists (if get_ch c =? 0 then 2 else 6)|exists 3|exists 7];
    by destruct c.
Qed.

Lemma set_or_clear_untouched c (b : bool) m (s : St) :
  (exists k, m = 2 ^ k /\ 0 <= k) ->
  Z.testbit m (tx_int c) = false -> Z.testbit m (rx_int c) = false ->
  untouched c s.1 (if b then set_ISR_bits m s else clear_ISR_bits m s).1.
Proof.
  intros Hm Ht Hr.
  split; [apply static_kind, set_or_clear_static|apply static_bare, set_or_clear_static| |];
    (rewrite set_or_clear_bits by (done || destruct c; cbn; lia)); by rewrite ?Ht, ?Hr.
Qed.

(** An update of the interrupts of [c] makes ISR mirror it, *)
Lemma chan_update_mirrors c (s : St) : mirrored c (chan_update_interrupts c s).1.
Proof.
  cbv beta delta [chan_update_interrupts]. bind_let mode. bind_let s1. clearbody s1.
  destruct (int_masks c) as (M1 & M2 & _).
  bind_let s2. assert (static s2.1 = static s1.1 /\
    Z.testbit (ISR s2.1) (tx_int c) = Z.testbit (SR (chan_of c s1)) TXRDY) as [E2 T2].
  { split; [apply set_or_clear_static|]. subst s2. rewrite set_or_clear_bits by (done || destruct c; cbn; lia).
    replace (Z.testbit (INT_TXRDY c) (tx_int c)) with true by by destruct c. apply test_04. }
  clearbody s2. apply static_bare with (c := c) in E2.
  assert (SR (channel c s2.1) = SR (chan_of c s1)) as ES by exact (f_equal SR E2).
  assert (forall x, static x = static s2.1 -> bare (channel c x) = bare (channel c s2.1)) as Hb
    by (intros; by apply static_bare).
  assert (forall (b : bool), b = Z.testbit (SR (channel c s2.1)) (rx_source (channel c s2.1)) ->
    mirrored c (if b then set_ISR_bits (INT_RXRDY_FFULL c) s2 else clear_ISR_bits (INT_RXRDY_FFULL c) s2).1) as Hm.
  { intros b Hb'. pose proof (Hb _ (set_or_clear_static b (INT_RXRDY_FFULL c) s2)) as Ex.
    assert (SR (channel c (if b then set_ISR_bits (INT_RXRDY_FFULL c) s2 else clear_ISR_bits (INT_RXRDY_FFULL c) s2).1)
      = SR (channel c s2.1)) as Ex1 by exact (f_equal SR Ex).
    assert (MR1 (channel c (if b then set_ISR_bits (INT_RXRDY_FFULL c) s2 else clear_ISR_bits (INT_RXRDY_FFULL c) s2).1)
      = MR1 (channel c s2.1)) as Ex2 by exact (f_equal MR1 Ex).
    split; unfold rx_source; rewrite ?Ex2, Ex1, set_or_clear_bits by (done || destruct c; cbn; lia).
    - replace (Z.testbit (INT_RXRDY_FFULL c) (tx_int c)) with false by by destruct c. congruence.
    - replace (Z.testbit (INT_RXRDY_FFULL c) (rx_int c)) with true by by destruct c. exact Hb'. }
  unfold rx_source in Hm. unfold chan_of. destruct (test (MR1 (channel c s2.1)) MODE_RX_INT_SELECT_BIT).
  - apply Hm. apply test_02.
  - apply Hm. apply test_01.
Qed.

(** ** Operations on one channel leave the other alone *)

Section Other.
Context (c c' : chan) (Hapart : apart c c') (d0 : duart).

#[local] Abbreviation keeps s := (untouched c d0 s.1).

Lemma keeps_calm (s s' : St) : calm s.1 s'.1 -> keeps s -> keeps s'.
Proof. intros C K. etrans; [exact K|by apply calm_untouched]. Qed.

Lemma keeps_chan_do f (s : St) : keeps s -> keeps (chan_do c' f s).
Proof.
  intros K. destruct (apart_bits c c' Hapart) as [Hne _]. etrans; [exact K|].
  unfold chan_do, dev. cbn [fst]. split; [by destruct c'| |by destruct c'..].
  by rewrite channel_on_channel, decide_False.
Qed.

Lemma keeps_set_or_clear (b : bool) m (s : St) :
  m = INT_TXRDY c' \/ m = INT_RXRDY_FFULL c' \/ m = INT_DELTA_BREAK c' ->
  keeps s -> keeps (if b then set_ISR_bits m s else clear_ISR_bits m s).
Proof.
  intros Hm K. destruct (apart_bits c c' Hapart) as [_ Hb]. destruct (int_masks c') as (M1 & M2 & M3 & _).
  pose proof (Hb (tx_int c) (or_introl eq_refl)) as (T1 & T2 & T3 & _).
  pose proof (Hb (rx_int c) (or_intror eq_refl)) as (R1 & R2 & R3 & _).
  etrans; [exact K|]. by apply set_or_clear_untouched; destruct Hm as [-> | [-> | ->]].
Qed.
Lemma keeps_set m (s : St) :
  m = INT_TXRDY c' \/ m = INT_RXRDY_FFULL c' \/ m = INT_DELTA_BREAK c' ->
  keeps s -> keeps (set_ISR_bits m s).
Proof. exact (keeps_set_or_clear true m s). Qed.
Lemma keeps_clear m (s : St) :
  m = INT_TXRDY c' \/ m = INT_RXRDY_FFULL c' \/ m = INT_DELTA_BREAK c' ->
  keeps s -> keeps (clear_ISR_bits m s).
Proof. exact (keeps_set_or_clear false m s). Qed.

Lemma keeps_write_tx p b (s : St) : keeps s -> keeps (write_tx p b s).
Proof. apply keeps_calm, write_tx_calm. Qed.

Lemma keeps_if (b : bool) (x y : St) : keeps x -> keeps y -> keeps (if b then x else y).
Proof. by destruct b. Qed.

Lemma keeps_update (s : St) : keeps s -> keeps (chan_update_interrupts c' s).
Proof.
  intros K. cbv beta delta [chan_update_interrupts]. bind_let mode. bind_let s1.
  assert (keeps s1) as K1 by (subst s1; apply keeps_if; [by apply keeps_chan_do|done]). clearbody s1.
  bind_let s2. assert (keeps s2) by (apply keeps_set_or_clear; auto). clearbody s2.
  apply keeps_if; apply keeps_set_or_clear; auto.
Qed.

(** One goal per branch, then backwards through the calls. *)
Ltac keeps_auto :=
  repeat match goal with
  | K : untouched c d0 ?s.1 |- untouched c d0 ?s.1 => exact K
  | |- untouched _ _ (if _ then _ else _).1 => apply keeps_if
  | |- untouched _ _ (chan_do _ _ _).1 => apply keeps_chan_do
  | |- untouched _ _ (chan_update_interrupts _ _).1 => apply keeps_update
  | |- untouched _ _ (set_ISR_bits _ _).1 => apply keeps_set; [by auto|]
  | |- untouched _ _ (clear_ISR_bits _ _).1 => apply keeps_clear; [by auto|]
  | |- untouched _ _ (write_tx _ _ _).1 => apply keeps_write_tx
  end.

Lemma keeps_push data e (s : St) : keeps s -> keeps (rx_fifo_push c' data e s).
Proof. intros K. unfold rx_fifo_push. keeps_auto. Qed.

Lemma keeps_read_fifo (s : St) : keeps s -> keeps (read_rx_fifo c' s).2.
Proof.
  intros K. unfold read_rx_fifo. case_match; cbn [snd]; [keeps_auto|].
  destruct (fifo_pop _). cbn [snd]. keeps_auto.
Qed.

Lemma keeps_rcv_complete (s : St) : keeps s -> keeps (ch_rcv_complete c' s).
Proof. intros K. unfold ch_rcv_complete. keeps_auto. apply keeps_push. keeps_auto. Qed.

Lemma keeps_transmit_setup data (s : St) : keeps s -> keeps (ch_transmit_setup c' data s).
Proof. intros K. unfold ch_transmit_setup. keeps_auto. Qed.

Lemma keeps_tra_complete (s : St) : keeps s -> keeps (ch_tra_complete c' s).
Proof. intros K. unfold ch_tra_complete. keeps_auto. by apply keeps_transmit_setup. Qed.

Lemma keeps_tra_callback (s : St) : keeps s -> keeps (ch_tra_callback c' s).
Proof. intros K. unfold ch_tra_callback. destruct (transmit_register_get_data_bit _). keeps_auto. Qed.

Lemma keeps_write_TX data (s : St) : keeps s -> keeps (write_TX c' data s).
Proof.
  intros K. unfold write_TX. keeps_auto. apply keeps_transmit_setup. keeps_auto.
Qed.

Lemma keeps_write_MR data (s : St) : keeps s -> keeps (write_MR c' data s).
Proof. intros K. unfold write_MR. keeps_auto. Qed.

Lemma keeps_command data (s : St) : keeps s -> keeps (command c' data s).
Proof. intros K. unfold command. keeps_auto. apply keeps_push. keeps_auto. Qed.

Lemma keeps_write_CR data (s : St) : keeps s -> keeps (write_CR c' data s).
Proof.
  intros K. cbv beta delta [write_CR]. bind_let s1. assert (keeps s1) by by apply keeps_command.
  clearbody s1. unfold when. keeps_auto.
Qed.

Lemma keeps_write_CSR data (s : St) : keeps s -> keeps (write_CSR c' data s).
Proof. intros K. unfold write_CSR. keeps_auto. Qed.

Lemma keeps_write_chan_reg reg data (s : St) : keeps s -> keeps (write_chan_reg c' reg data s).
Proof.
  intros K. unfold write_chan_reg. keeps_auto;
    auto using keeps_write_MR, keeps_write_CSR, keeps_write_CR, keeps_write_TX.
Qed.

Lemma keeps_read_chan_reg reg (s : St) : keeps s -> keeps (read_chan_reg c' reg s).2.
Proof.
  intros K. unfold read_chan_reg. repeat case_match; cbn [snd]; try done; [keeps_auto|by apply keeps_read_fifo].
Qed.

Lemma keeps_chan_reset (s : St) : keeps s -> keeps (chan_device_reset c' s).
Proof. intros K. unfold chan_device_reset. keeps_auto. by do 4 apply keeps_write_CR. Qed.

Lemma keeps_tx_clock v (s : St) : keeps s -> keeps (tx_clock_w (H := channel_serial c') v s).
Proof.
  intros K. unfold tx_clock_w, tra_edge, stop_tra_clock. cbn [on_serial serial_of tra_callback tra_complete channel_serial].
  keeps_auto; first [apply keeps_tra_complete|idtac]; apply keeps_tra_callback; keeps_auto.
Qed.

Lemma keeps_rx_clock v (s : St) : keeps s -> keeps (rx_clock_w (H := channel_serial c') v s).
Proof.
  intros K. unfold rx_clock_w, rcv_edge, stop_rcv_clock. cbn [on_serial serial_of rcv_callback rcv_complete channel_serial].
  keeps_auto. apply keeps_rcv_complete. keeps_auto.
Qed.

Lemma keeps_timer_clocks (s : St) : keeps s -> keeps (timer_clocks c' s).
Proof.
  intros K. unfold timer_clocks, tx_16x_clock_w, rx_16x_clock_w.
  keeps_auto; try apply keeps_rx_clock; keeps_auto; try apply keeps_tx_clock; keeps_auto.
Qed.
End Other.

(** ** Operations on a channel re-establish its own bits *)

Section Own.
Context (c : chan).

#[local] Abbreviation ok s := (mirrored c s.1).

Lemma ok_calm (s s' : St) : calm s.1 s'.1 -> ok s -> ok s'.
Proof. intros C. apply untouched_mirrored. by apply calm_untouched. Qed.

(** An assignment that changes neither the status nor the mode. *)
Lemma ok_chan_do f (s : St) :
  (forall ch, SR (f ch) = SR ch /\ MR1 (f ch) = MR1 ch) -> ok s -> ok (chan_do c f s).
Proof.
  intros Hf [T R]. destruct (Hf (channel c s.1)) as [HS HM]. unfold chan_do, dev. cbn [fst].
  assert (ISR (on_channel c f s.1) = ISR s.1) as EI by by destruct c.
  split; unfold rx_source in *; rewrite channel_on_channel, decide_True, ?HM, HS, EI by done; done.
Qed.

Lemma ok_if (b : bool) (x y : St) : ok x -> ok y -> ok (if b then x else y).
Proof. by destruct b. Qed.
Lemma ok_write_tx p b (s : St) : ok s -> ok (write_tx p b s).
Proof. apply ok_calm, write_tx_calm. Qed.

Ltac ok_auto :=
  repeat match goal with
  | K : mirrored c ?s.1 |- mirrored c ?s.1 => exact K
  | |- mirrored _ (if _ then _ else _).1 => apply ok_if
  | |- mirrored _ (chan_update_interrupts _ _).1 => apply chan_update_mirrors
  | |- mirrored _ (write_tx _ _ _).1 => apply ok_write_tx
  | |- mirrored _ (chan_do _ _ _).1 => apply ok_chan_do; [by intros|]
  end.

Lemma ok_rcv_complete (s : St) : ok s -> ok (ch_rcv_complete c s).
Proof. intros K. unfold ch_rcv_complete, rx_fifo_push. ok_auto. Qed.
Lemma ok_tra_complete (s : St) : ok s -> ok (ch_tra_complete c s).
Proof. intros K. unfold ch_tra_complete. ok_auto. Qed.
Lemma ok_tra_callback (s : St) : ok s -> ok (ch_tra_callback c s).
Proof. intros K. unfold ch_tra_callback. destruct (transmit_register_get_data_bit _). ok_auto. Qed.

Lemma ok_write_chan_reg reg data (s : St) : ok s -> ok (write_chan_reg c reg data s).
Proof.
  intros K. unfold write_chan_reg, write_MR, write_CSR, write_TX. ok_auto.
  unfold write_CR. cbv zeta. ok_auto.
Qed.

Lemma ok_read_chan_reg reg (s : St) : ok s -> ok (read_chan_reg c reg s).2.
Proof.
  intros K. unfold read_chan_reg, read_rx_fifo. repeat case_match; cbn [snd]; ok_auto.
Qed.

Lemma ok_chan_reset (s : St) : ok (chan_device_reset c s).
Proof.
  unfold chan_device_reset, write_CR. cbv zeta. ok_auto.
Qed.

Lemma ok_tx_clock v (s : St) : ok s -> ok (tx_clock_w (H := channel_serial c) v s).
Proof.
  intros K. unfold tx_clock_w, tra_edge, stop_tra_clock.
  cbn [on_serial serial_of tra_callback tra_complete channel_serial].
  ok_auto; first [apply ok_tra_complete|idtac]; apply ok_tra_callback; ok_auto.
Qed.

Lemma ok_rx_clock v (s : St) : ok s -> ok (rx_clock_w (H := channel_serial c) v s).
Proof.
  intros K. unfold rx_clock_w, rcv_edge, stop_rcv_clock.
  cbn [on_serial serial_of rcv_callback rcv_complete channel_serial].
  ok_auto. apply ok_rcv_complete. ok_auto.
Qed.

Lemma ok_timer_clocks (s : St) : ok s -> ok (timer_clocks c s).
Proof.
  intros K. unfold timer_clocks, tx_16x_clock_w, rx_16x_clock_w.
  ok_auto; try apply ok_rx_clock; ok_auto; try apply ok_tx_clock; ok_auto.
Qed.
End Own.

(** ** Both channels of a chip *)

Definition both_mirrored (d : duart) : Prop := mirrored ChA d /\ mirrored ChB d.
Definition two_channels (k : duart_kind) : Prop :=
  match k with SC28C94 => False | _ => True end.

(** The addresses of MR1 in the 68340's module. *)
Definition bypasses_update (k : duart_kind) (off : Z) : Prop :=
  k = MC68340_DUART /\ (off = 0x00 \/ off = 0x08).

Section Chip.
Context (k : duart_kind) (Htwo : two_channels k).

(** What a step keeps: the kind of the chip and the agreement. *)
Definition good (s : St) : Prop := kind s.1 = k /\ both_mirrored s.1.

Definition other (c : chan) : chan := match c with ChA => ChB | _ => ChA end.

(** An operation on A or on B. *)
Lemma good_op c' (f : St -> St) (s : St) :
  c' = ChA \/ c' = ChB ->
  (untouched (other c') s.1 s.1 -> untouched (other c') s.1 (f s).1) ->
  (mirrored c' s.1 -> mirrored c' (f s).1) -> good s -> good (f s).
Proof.
  intros Hc Hu Ho [K [MA MB]]. specialize (Hu ltac:(done)).
  split; [by rewrite (untouched_kind _ _ _ Hu)|].
  destruct Hc as [-> | ->]; cbn [other] in Hu;
    (split; [|try by eapply untouched_mirrored]); first [by apply Ho|by eapply untouched_mirrored].
Qed.

Lemma apart_other c : c = ChA \/ c = ChB -> apart (other c) c.
Proof. intros [-> | ->]; unfold apart; cbn; lia. Qed.

Lemma good_untouched (s s' : St) :
  untouched ChA s.1 s'.1 -> untouched ChB s.1 s'.1 -> good s -> good s'.
Proof.
  intros UA UB [K [MA MB]]. split; [by rewrite (untouched_kind _ _ _ UA)|].
  split; [by apply (untouched_mirrored _ s.1)|by apply (untouched_mirrored _ s.1)].
Qed.

Lemma good_calm (s s' : St) : calm s.1 s'.1 -> good s -> good s'.
Proof. intros C. by apply good_untouched; apply calm_untouched. Qed.

(** An assignment to other members of the chip. *)
Lemma good_dev f (s : St) :
  (forall d, kind (f d) = kind d /\ ISR (f d) = ISR d /\ m_chanA (f d) = m_chanA d /\ m_chanB (f d) = m_chanB d) ->
  good s -> good (dev f s).
Proof.
  intros Hf. destruct (Hf s.1) as (K & I & A & B).
  apply good_untouched; (split; cbn [dev fst channel]; rewrite ?K, ?A, ?B, ?I; done).
Qed.

(** Interrupt bits that belong to no channel. *)
Lemma good_set_or_clear (b : bool) m (s : St) :
  m = INT_COUNTER_READY \/ m = INT_INPUT_PORT_CHANGE ->
  good s -> good (if b then set_ISR_bits m s else clear_ISR_bits m s).
Proof.
  intros Hm. destruct (int_masks ChA) as (_ & _ & _ & M4 & M5).
  apply good_untouched; apply set_or_clear_untouched; by destruct Hm as [-> | ->].
Qed.
Lemma good_set m (s : St) :
  m = INT_COUNTER_READY \/ m = INT_INPUT_PORT_CHANGE -> good s -> good (set_ISR_bits m s).
Proof. exact (good_set_or_clear true m s). Qed.
Lemma good_clear m (s : St) :
  m = INT_COUNTER_READY \/ m = INT_INPUT_PORT_CHANGE -> good s -> good (clear_ISR_bits m s).
Proof. exact (good_set_or_clear false m s). Qed.

Lemma good_update_interrupts (s : St) : good s -> good (update_interrupts s).
Proof.
  destruct (update_interrupts_settles s) as [S I _ _].
  apply good_untouched; (split; [by apply static_kind|by apply static_bare|apply I; cbn; lia..]).
Qed.

Lemma good_if (b : bool) (x y : St) : good x -> good y -> good (if b then x else y).
Proof. by destruct b. Qed.
Lemma good_if2 (b : bool) (x y : Z * St) : good x.2 -> good y.2 -> good (if b then x else y).2.
Proof. by destruct b. Qed.

Lemma good_outport v (s : St) : good s -> good (write_outport v s).
Proof. apply good_calm, write_outport_calm. Qed.

Section Ops.
Context (c : chan) (Hc : c = ChA \/ c = ChB).

Lemma good_write_chan_reg reg data (s : St) : good s -> good (write_chan_reg c reg data s).
Proof.
  apply (good_op c); [done| |apply ok_write_chan_reg]. apply keeps_write_chan_reg. by apply apart_other.
Qed.
Lemma good_read_chan_reg reg (s : St) : good s -> good (read_chan_reg c reg s).2.
Proof.
  apply (good_op c (fun s => (read_chan_reg c reg s).2)); [done| |apply ok_read_chan_reg].
  apply keeps_read_chan_reg. by apply apart_other.
Qed.
Lemma good_timer_clocks (s : St) : good s -> good (timer_clocks c s).
Proof.
  apply (good_op c); [done| |apply ok_timer_clocks]. apply keeps_timer_clocks. by apply apart_other.
Qed.
Lemma good_tx_clock v (s : St) : good s -> good (tx_clock_w (H := channel_serial c) v s).
Proof.
  apply (good_op c); [done| |apply ok_tx_clock]. apply keeps_tx_clock. by apply apart_other.
Qed.
Lemma good_rx_clock v (s : St) : good s -> good (rx_clock_w (H := channel_serial c) v s).
Proof.
  apply (good_op c); [done| |apply ok_rx_clock]. apply keeps_rx_clock. by apply apart_other.
Qed.
Lemma good_chan_update (s : St) : good s -> good (chan_update_interrupts c s).
Proof.
  apply (good_op c); [done| |intros _; apply chan_update_mirrors]. apply keeps_update. by apply apart_other.
Qed.
Lemma good_rx v (s : St) : good s -> good (rx_x_w c v s).
Proof.
  apply (good_op c); [done| |by apply ok_chan_do]. apply keeps_chan_do. by apply apart_other.
Qed.
End Ops.

#[local] Hint Resolve or_introl or_intror : core.

Ltac good_auto :=
  repeat match goal with
  | K : good ?s |- good ?s => exact K
  | |- good (if _ then _ else _) => apply good_if
  | |- good (if _ then _ else _).2 => apply good_if2
  | |- good (_, _).2 => cbn [snd]
  | |- good (dev _ _) => apply good_dev; [by intros|]
  | |- good (start_ct _ _) => apply good_dev; [by intros|]
  | |- good (stop_timer _) => apply good_dev; [by intros|]
  | |- good (write_outport _ _) => apply good_outport
  | |- good (update_interrupts _) => apply good_update_interrupts
  | |- good (chan_update_interrupts _ _) => apply good_chan_update; [by auto|]
  | |- good (set_ISR_bits _ _) => apply good_set; [by auto|]
  | |- good (clear_ISR_bits _ _) => apply good_clear; [by auto|]
  | |- good (timer_clocks _ _) => apply good_timer_clocks; [by auto|]
  | |- good (write_chan_reg _ _ _ _) => apply good_write_chan_reg; [by auto|]
  | |- good (baud_updated _ _) => apply good_write_chan_reg; [by auto|]
  | |- good (read_chan_reg _ _ _).2 => apply good_read_chan_reg; [by auto|]
  end.

Lemma good_timer (s : St) : good s -> good (duart_timer_callback s).
Proof. intros K. unfold duart_timer_callback. good_auto. Qed.

Lemma good_base_read off (s : St) : good s -> good (base_read off s).2.
Proof.
  intros K. unfold base_read. good_auto. destruct read_inport as [f|] eqn:E; [|done].
  pose proof (read_inport_calm f s E) as C. destruct (f s) as [r s']. by apply (good_calm s).
Qed.

Lemma good_base_write off data (s : St) : good s -> good (base_write off data s).
Proof. intros K. unfold base_write, write_ACR. good_auto. Qed.

Lemma chip_two (s : St) : good s -> two_channels (kind s.1).
Proof. intros [E _]. by rewrite E. Qed.

Lemma good_read off (s : St) : good s -> good (Duart.read off s).2.
Proof.
  intros K. pose proof (good_base_read off s K) as B. unfold Duart.read.
  pose proof (chip_two s K) as T. revert T. destruct (kind s.1); cbn [two_channels]; intros []; try done.
  all: unfold xr68c681_read, mc68681_read, mcf5206e_read, mc68340_read; good_auto; try done.
  all: destruct (base_read off s); good_auto; done.
Qed.

Lemma good_mc68681_write off data (s : St) : good s -> good (mc68681_write off data s).
Proof. intros K. unfold mc68681_write. good_auto. by apply good_base_write. Qed.

Lemma good_xr68c681_command c frx ftx data (s : St) :
  c = ChA \/ c = ChB ->
  (forall b (s : St), good s -> good (dev (frx b) s)) -> (forall b (s : St), good s -> good (dev (ftx b) s)) ->
  good s -> good (xr68c681_command c frx ftx data s).2.
Proof.
  intros Hc Hr Ht K. unfold xr68c681_command. good_auto;
    first [by apply Hr|by apply Ht].
Qed.

(** Assignments to MR2, on which nothing depends. *)
Lemma good_MR2 c data (s : St) : c = ChA \/ c = ChB -> good s -> good (chan_do c (fun ch => ch <| MR2 := data |>) s).
Proof.
  intros Hc. apply (good_op c); [done| |by apply ok_chan_do].
  apply keeps_chan_do. by apply apart_other.
Qed.

Lemma good_write off data (s : St) : ~ bypasses_update k off -> good s -> good (Duart.write off data s).
Proof.
  intros Hb K. unfold Duart.write. pose proof (chip_two s K) as T.
  assert (kind s.1 = MC68340_DUART -> (off =? 0x00) = false /\ (off =? 0x08) = false) as Hoff.
  { destruct K as [-> _]. intros Ek. split; apply Z.eqb_neq; intros ->; apply Hb; split; auto. }
  clear Hb. revert T Hoff. destruct (kind s.1); cbn [two_channels]; intros T Hoff; try done.
  - by apply good_base_write.
  - by apply good_mc68681_write.
  - unfold mcf5206e_write. good_auto; by apply good_base_write.
  - unfold mc68340_write. destruct (Hoff eq_refl) as [-> ->]. good_auto; [by apply good_MR2; auto..|by apply good_base_write].
  - unfold xr68c681_write.
    match goal with |- context [match ?x with (_, _) => _ end] => assert (good x.2) as Hx; [|destruct x as [d s']] end.
    + good_auto; apply good_xr68c681_command; auto; intros; good_auto.
    + by apply good_mc68681_write.
Qed.

Lemma good_reset_all (s : St) : kind s.1 = k -> good (reset_all s).
Proof.
  intros E.
  assert (kind (device_reset s).1 = kind s.1) as K0.
  { unfold device_reset, base_device_reset.
    match goal with |- context [write_outport ?v ?y] => set (s1 := write_outport v y) end.
    assert (kind s1.1 = kind s.1) as K1.
    { subst s1. rewrite (static_kind _ _ (calm_static _ _ (write_outport_calm _ _))).
      by rewrite (static_kind _ _ (calm_static _ _ (write_irq_calm _ _))). }
    clearbody s1. rewrite <- K1. by destruct (kind s1.1) eqn:E1. }
  unfold reset_all. set (s0 := device_reset s) in *. clearbody s0.
  assert (good (chan_device_reset ChB (chan_device_reset ChA s0))) as G.
  { pose proof (keeps_chan_reset ChB ChA (apart_other ChA (or_introl eq_refl)) s0.1 s0 ltac:(done)) as KB.
    pose proof (ok_chan_reset ChA s0) as OA. set (s1 := chan_device_reset ChA s0) in *.
    pose proof (keeps_chan_reset ChA ChB (apart_other ChB (or_intror eq_refl)) s1.1 s1 ltac:(done)) as KA.
    split; [|split].
    - by rewrite (untouched_kind _ _ _ KA), (untouched_kind _ _ _ KB), K0, E.
    - by apply (untouched_mirrored _ s1.1).
    - apply ok_chan_reset. }
  pose proof Htwo as T. rewrite <- E in T. revert T. destruct (kind s.1); intros []; exact G.
Qed.

(** The channels an event may name are those the chip has, and MR1 is not
    written past the interrupts. *)
Definition event_on_AB (e : duart_event) : Prop :=
  match e with
  | ev_write off _ => ~ bypasses_update k off
  | ev_rx c _ | ev_tra_clock c | ev_rcv_clock c => c = ChA \/ c = ChB
  | _ => True
  end.

Lemma good_handle e (s : St) : event_on_AB e -> good s -> good (handle e s).
Proof.
  intros He K. destruct e; cbn [handle event_on_AB] in *.
  - by apply good_read.
  - by apply good_write.
  - unfold get_irq_vector. good_auto.
  - apply (good_calm s); [apply ip_w_calm|done].
  - by apply good_rx.
  - by apply good_timer.
  - by apply good_tx_clock.
  - by apply good_rx_clock.
  - apply good_reset_all, K.
Qed.
End Chip.

(** C4: After a reset and any history, on every chip with two channels (all of
    the family but the four-channel SC28C94): ISR bits 0 and 4 are the TxRDY
    bits of the two status registers, and bits 1 and 5 their RxRDY or FFULL
    bits as bit 6 of MR1 selects.  On the 68340's module this is so as long
    as MR1 is not written at its addresses 0 and 8, since such a write
    selects another source without updating ISR ([bypassing_MR1_diverges]). *)
Theorem isr_mirrors_status k es (s : St) :
  kind s.1 = k -> two_channels k -> Forall (event_on_AB k) es ->
  let s' := history es (reset_all s) in mirrored ChA s'.1 /\ mirrored ChB s'.1.
Proof.
  intros E T He. pose proof (good_reset_all k T s E) as G. revert G. generalize (reset_all s). clear E s.
  induction He as [|e es He _ IH]; intros s G; cbn; [apply G|]. apply IH. by apply (good_handle k T).
Qed.
End Laws.

(** Channel A with 8 data bits, no parity, sends a byte; B is enabled. *)
Definition sample_session : list duart_event :=
  [ev_write 0 0x13; ev_write 0 0x07; ev_write 2 0x05; ev_write 3 0x55; ev_write 10 0x04].

Lemma isr_mirrors_status_witness :
  (let s := history sample_session (reset_all (new_duart MC68681 blank_duart, zero)) in
   (mirrored ChA s.1 /\ mirrored ChB s.1) /\ ISR s.1 = 0x10) /\
  (let s := history [ev_write 2 0x04] (reset_all (new_duart MC68340_DUART blank_duart, zero)) in
   (mirrored ChA s.1 /\ mirrored ChB s.1) /\ ISR s.1 = 0x01).
Proof.
  assert (forall k off, k <> MC68340_DUART \/ (off <> 0 /\ off <> 8) -> ~ bypasses_update k off) as Hb
    by (intros k off Hn [Ek Eo]; destruct Hn as [|[]]; [done|destruct Eo; done]).
  split; (split; [|by vm_compute]).
  - apply (isr_mirrors_status MC68681 sample_session (new_duart MC68681 blank_duart, zero)); [done|exact I|].
    repeat constructor; apply Hb; by left.
  - apply (isr_mirrors_status MC68340_DUART [ev_write 2 0x04] (new_duart MC68340_DUART blank_duart, zero)); [done|exact I|].
    repeat constructor; apply Hb; by right.
Defined.

(** What the theorem leaves out on the 68340's module: channel A, looped back,
    has received a character, ISR bit 1 shows RxRDY; MR1 is then told, at its
    own address, to show FFULL instead, and the bit stays up although the FIFO
    is not full. *)
Definition looped_character : list duart_event :=
  [ev_write 0x10 0x87; ev_write 2 0x05; ev_write 3 0x55] ++ mjoin (repeat [ev_tra_clock ChA; ev_rcv_clock ChA] 30).

Example bypassing_MR1_diverges :
  let s := history looped_character (reset_all (new_duart MC68340_DUART blank_duart, zero)) in
  let d := (history [ev_write 0 0x40] s).1 in
  mirrored ChA s.1 /\ Z.testbit (SR (channel ChA s.1)) RXRDY = true /\
  Z.testbit (ISR d) (rx_int ChA) = true /\ rx_source (channel ChA d) = FFULL /\
  Z.testbit (SR (channel ChA d)) FFULL = false /\ ~ mirrored ChA d.
Proof.
  intros s d. split; [split; vm_compute; reflexivity|]. split; [vm_compute; reflexivity|].
  split; [vm_compute; reflexivity|]. split; [vm_compute; reflexivity|]. split; [vm_compute; reflexivity|].
  intros [_ E]. vm_compute in E. discriminate.
Qed.
