(* ===== verification/Crc16.v ===== *)
(** * Crc16: the CRC-16 of data blocks and big-endian accesses
    (src/src/lib/util/hashing.h, hashing.cpp, multibyte.h)

    [crc16_creator::append] runs through a 256-entry table; it is shown equal
    to the bit-by-bit division by x^16 + x^12 + x^5 + 1, to detect every error
    confined to one byte, and to vanish on a block followed by its own CRC as
    [put_u16be] stores it. *)

From stdpp Require Import base tactics numbers option list.
From Stdlib Require Import ZArith Lia Bool.
From S2P Require Import Prelude.

(** ** Big-endian accesses

    A buffer pointer is the list of the bytes from there on. *)

Definition byte_at (buf : list Z) (i : nat) : Z := nth i buf 0.

Definition get_u16be (buf : list Z) : Z :=
  Z.lor (u16 (Z.shiftl (byte_at buf 0) 8)) (byte_at buf 1).
Definition get_u32be (buf : list Z) : Z :=
  Z.lor (Z.lor (Z.lor (u32 (Z.shiftl (byte_at buf 0) 24)) (u32 (Z.shiftl (byte_at buf 1) 16)))
    (u32 (Z.shiftl (byte_at buf 2) 8))) (byte_at buf 3).

(** The bytes [put_u16be] and [put_u32be] store. *)
Definition put_u16be (data : Z) : list Z := [u8 (Z.shiftr data 8); u8 data].
Definition put_u32be (data : Z) : list Z :=
  [u8 (Z.shiftr data 24); u8 (Z.shiftr data 16); u8 (Z.shiftr data 8); u8 data].

(** ** crc16_creator *)

Definition s_table : list Z :=
  [0x0000; 0x1021; 0x2042; 0x3063; 0x4084; 0x50a5; 0x60c6; 0x70e7;
   0x8108; 0x9129; 0xa14a; 0xb16b; 0xc18c; 0xd1ad; 0xe1ce; 0xf1ef;
   0x1231; 0x0210; 0x3273; 0x2252; 0x52b5; 0x4294; 0x72f7; 0x62d6;
   0x9339; 0x8318; 0xb37b; 0xa35a; 0xd3bd; 0xc39c; 0xf3ff; 0xe3de;
   0x2462; 0x3443; 0x0420; 0x1401; 0x64e6; 0x74c7; 0x44a4; 0x5485;
   0xa56a; 0xb54b; 0x8528; 0x9509; 0xe5ee; 0xf5cf; 0xc5ac; 0xd58d;
   0x3653; 0x2672; 0x1611; 0x0630; 0x76d7; 0x66f6; 0x5695; 0x46b4;
   0xb75b; 0xa77a; 0x9719; 0x8738; 0xf7df; 0xe7fe; 0xd79d; 0xc7bc;
   0x48c4; 0x58e5; 0x6886; 0x78a7; 0x0840; 0x1861; 0x2802; 0x3823;
   0xc9cc; 0xd9ed; 0xe98e; 0xf9af; 0x8948; 0x9969; 0xa90a; 0xb92b;
   0x5af5; 0x4ad4; 0x7ab7; 0x6a96; 0x1a71; 0x0a50; 0x3a33; 0x2a12;
   0xdbfd; 0xcbdc; 0xfbbf; 0xeb9e; 0x9b79; 0x8b58; 0xbb3b; 0xab1a;
   0x6ca6; 0x7c87; 0x4ce4; 0x5cc5; 0x2c22; 0x3c03; 0x0c60; 0x1c41;
   0xedae; 0xfd8f; 0xcdec; 0xddcd; 0xad2a; 0xbd0b; 0x8d68; 0x9d49;
   0x7e97; 0x6eb6; 0x5ed5; 0x4ef4; 0x3e13; 0x2e32; 0x1e51; 0x0e70;
   0xff9f; 0xefbe; 0xdfdd; 0xcffc; 0xbf1b; 0xaf3a; 0x9f59; 0x8f78;
   0x9188; 0x81a9; 0xb1ca; 0xa1eb; 0xd10c; 0xc12d; 0xf14e; 0xe16f;
   0x1080; 0x00a1; 0x30c2; 0x20e3; 0x5004; 0x4025; 0x7046; 0x6067;
   0x83b9; 0x9398; 0xa3fb; 0xb3da; 0xc33d; 0xd31c; 0xe37f; 0xf35e;
   0x02b1; 0x1290; 0x22f3; 0x32d2; 0x4235; 0x5214; 0x6277; 0x7256;
   0xb5ea; 0xa5cb; 0x95a8; 0x8589; 0xf56e; 0xe54f; 0xd52c; 0xc50d;
   0x34e2; 0x24c3; 0x14a0; 0x0481; 0x7466; 0x6447; 0x5424; 0x4405;
   0xa7db; 0xb7fa; 0x8799; 0x97b8; 0xe75f; 0xf77e; 0xc71d; 0xd73c;
   0x26d3; 0x36f2; 0x0691; 0x16b0; 0x6657; 0x7676; 0x4615; 0x5634;
   0xd94c; 0xc96d; 0xf90e; 0xe92f; 0x99c8; 0x89e9; 0xb98a; 0xa9ab;
   0x5844; 0x4865; 0x7806; 0x6827; 0x18c0; 0x08e1; 0x3882; 0x28a3;
   0xcb7d; 0xdb5c; 0xeb3f; 0xfb1e; 0x8bf9; 0x9bd8; 0xabbb; 0xbb9a;
   0x4a75; 0x5a54; 0x6a37; 0x7a16; 0x0af1; 0x1ad0; 0x2ab3; 0x3a92;
   0xfd2e; 0xed0f; 0xdd6c; 0xcd4d; 0xbdaa; 0xad8b; 0x9de8; 0x8dc9;
   0x7c26; 0x6c07; 0x5c64; 0x4c45; 0x3ca2; 0x2c83; 0x1ce0; 0x0cc1;
   0xef1f; 0xff3e; 0xcf5d; 0xdf7c; 0xaf9b; 0xbfba; 0x8fd9; 0x9ff8;
   0x6e17; 0x7e36; 0x4e55; 0x5e74; 0x2e93; 0x3eb2; 0x0ed1; 0x1ef0].

Definition crc16_reset : Z := 0xffff.

(** One turn of the loop of [append]. *)
Definition crc16_step (crc src : Z) : Z :=
  u16 (Z.lxor (Z.shiftl crc 8) (nth (Z.to_nat (Z.lxor (Z.shiftr crc 8) src)) s_table 0)).
Definition crc16_append (data : list Z) (crc : Z) : Z := fold_left crc16_step data crc.
Definition crc16_simple (data : list Z) : Z := crc16_append data crc16_reset.

(** ** The reference: long division, one bit at a time *)

Definition crc_bit (crc : Z) : Z :=
  if Z.testbit crc 15 then Z.lxor (u16 (Z.shiftl crc 1)) 0x1021 else u16 (Z.shiftl crc 1).
Definition crc_bits (crc : Z) : Z := Nat.iter 8 crc_bit crc.
Definition crc_reference (data : list Z) : Z :=
  fold_left (fun crc b => crc_bits (Z.lxor crc (Z.shiftl b 8))) data 0xffff.

(** The division is linear, so a word may be divided byte by byte. *)
Lemma u16_lxor x y : u16 (Z.lxor x y) = Z.lxor (u16 x) (u16 y).
Proof.
  apply Z.bits_inj'. intros i Hi. unfold u16. change 65536 with (2 ^ 16). rewrite Z.lxor_spec.
  destruct (Z.lt_ge_cases i 16); [|by rewrite !Z.mod_pow2_bits_high by lia].
  by rewrite !Z.mod_pow2_bits_low, Z.lxor_spec by lia.
Qed.

Lemma crc_bit_lxor x y : crc_bit (Z.lxor x y) = Z.lxor (crc_bit x) (crc_bit y).
Proof.
  unfold crc_bit. rewrite Z.lxor_spec, Z.shiftl_lxor, u16_lxor.
  generalize (u16 (Z.shiftl x 1)) (u16 (Z.shiftl y 1)). intros a b.
  apply Z.bits_inj'. intros i _.
  destruct (Z.testbit x 15), (Z.testbit y 15); cbn [xorb]; rewrite ?Z.lxor_spec;
    destruct (Z.testbit a i), (Z.testbit b i), (Z.testbit 0x1021 i); done.
Qed.

Lemma crc_bits_lxor x y : crc_bits (Z.lxor x y) = Z.lxor (crc_bits x) (crc_bits y).
Proof. unfold crc_bits. cbn [Nat.iter nat_rect]. by rewrite !crc_bit_lxor. Qed.

Lemma crc_bits_bytes : forall z, is_u8 z ->
  (crc_bits z =? Z.shiftl z 8) && (crc_bits (Z.shiftl z 8) =? nth (Z.to_nat z) s_table 0)
  && (u16 (nth (Z.to_nat z) s_table 0) =? nth (Z.to_nat z) s_table 0) = true.
Proof. apply forall_u8. vm_compute. reflexivity. Qed.

Lemma u16_byte_lxor x : is_u16 x -> x = Z.lxor (Z.shiftl (Z.shiftr x 8) 8) (u8 x).
Proof.
  intros Hx. apply Z.bits_inj'. intros i Hi. unfold u8. change 256 with (2 ^ 8).
  rewrite Z.lxor_spec, Z.shiftl_spec by lia. destruct (Z.lt_ge_cases i 8).
  - rewrite (Z.testbit_neg_r (Z.shiftr x 8)), Z.mod_pow2_bits_low by lia. done.
  - rewrite Z.shiftr_spec, Z.mod_pow2_bits_high, xorb_false_r by lia. f_equal. lia.
Qed.

Lemma u16_shiftl_byte x : u16 (Z.shiftl x 8) = Z.shiftl (u8 x) 8.
Proof.
  rewrite !Z.shiftl_mul_pow2 by lia. unfold u8, u16. change (2 ^ 8) with 256.
  change 65536 with (256 * 256). by rewrite Zmult_mod_distr_r.
Qed.

(** Eight bits at once are one table access. *)
Lemma crc_bits_table x : is_u16 x ->
  crc_bits x = u16 (Z.lxor (Z.shiftl x 8) (nth (Z.to_nat (Z.shiftr x 8)) s_table 0)).
Proof.
  intros Hx.
  assert (is_u8 (Z.shiftr x 8)) as Hh.
  { destruct Hx. rewrite Z.shiftr_div_pow2 by lia. change (2 ^ 8) with 256.
    split; [apply Z.div_pos; lia|apply Z.div_lt_upper_bound; lia]. }
  pose proof (crc_bits_bytes _ Hh) as Ch. pose proof (crc_bits_bytes _ (u8_range x)) as Cl.
  zbool. rewrite (u16_byte_lxor x Hx) at 1. rewrite crc_bits_lxor, u16_lxor, u16_shiftl_byte.
  rewrite Z.lxor_comm. congruence.
Qed.

Definition is_byte_list (l : list Z) : Prop := Forall is_u8 l.

Lemma crc16_step_u16 crc b : is_u16 (crc16_step crc b).
Proof. apply u16_range. Qed.

Lemma u16_byte_split x : is_u16 x -> is_u8 (Z.shiftr x 8) /\ x = 256 * Z.shiftr x 8 + u8 x.
Proof.
  intros [H1 H2]. rewrite Z.shiftr_div_pow2 by lia. change (2 ^ 8) with 256. unfold u8.
  pose proof (Z.div_mod x 256 ltac:(lia)). split; [|lia].
  split; [apply Z.div_pos; lia|apply Z.div_lt_upper_bound; lia].
Qed.

Lemma u8_lxor_shift x b : is_u8 b -> Z.shiftr (Z.lxor x (Z.shiftl b 8)) 8 = Z.lxor (Z.shiftr x 8) b.
Proof.
  intros Hb. rewrite Z.shiftr_lxor, Z.shiftr_shiftl_l by lia. reflexivity.
Qed.

Lemma u16_lxor_shift x b : is_u16 x -> is_u8 b -> is_u16 (Z.lxor x (Z.shiftl b 8)).
Proof.
  intros [Hx1 Hx2] [Hb1 Hb2]. rewrite Z.shiftl_mul_pow2 by lia. change (2 ^ 8) with 256.
  assert (Z.lxor x (b * 256) = u16 (Z.lxor x (b * 256))) as ->; [|apply u16_range].
  apply Z.bits_inj'. intros i Hi. unfold u16. change 65536 with (2 ^ 16).
  destruct (Z.lt_ge_cases i 16); [by rewrite Z.mod_pow2_bits_low|].
  rewrite Z.mod_pow2_bits_high by lia. rewrite Z.lxor_spec.
  assert (forall y, 0 <= y < 65536 -> Z.testbit y i = false) as Hhi.
  { intros y Hy. rewrite <- (Z.mod_small y (2 ^ 16)) by (change (2 ^ 16) with 65536; lia).
    by apply Z.mod_pow2_bits_high. }
  rewrite !Hhi by lia. done.
Qed.

(** One table step is one byte of long division. *)
Lemma crc16_step_reference crc b : is_u16 crc -> is_u8 b ->
  crc16_step crc b = crc_bits (Z.lxor crc (Z.shiftl b 8)).
Proof.
  intros Hc Hb. rewrite crc_bits_table by (by apply u16_lxor_shift).
  rewrite u8_lxor_shift by done. unfold crc16_step.
  apply Z.bits_inj'. intros i Hi. unfold u16. change 65536 with (2 ^ 16).
  destruct (Z.lt_ge_cases i 16); [|by rewrite !Z.mod_pow2_bits_high by lia].
  rewrite !Z.mod_pow2_bits_low by lia. rewrite !Z.lxor_spec. f_equal.
  rewrite !Z.shiftl_spec by lia. destruct (Z.lt_ge_cases i 8); [by rewrite !Z.testbit_neg_r by lia|].
  rewrite Z.lxor_spec, Z.shiftl_spec, (Z.testbit_neg_r b) by lia. by rewrite xorb_false_r.
Qed.

Lemma crc16_append_u16 data crc : is_u16 crc -> is_u16 (crc16_append data crc).
Proof.
  revert crc. induction data as [|b data IH]; intros crc Hc; [done|]. apply IH, crc16_step_u16.
Qed.

(** The low bytes of the table entries are all different: the index can be
    computed back from one. *)
Lemma table_low_index i : is_u8 i ->
  let y := u8 (nth (Z.to_nat i) s_table 0) in
  let x := u8 (Z.lxor y (Z.shiftl y 5)) in
  Z.lxor x (Z.shiftr x 4) = i.
Proof.
  intros Hi. apply Z.eqb_eq. revert i Hi.
  apply (forall_u8 (fun i => Z.lxor _ _ =? i)). vm_compute. reflexivity.
Qed.

Lemma table_low_inj i j : is_u8 i -> is_u8 j ->
  u8 (nth (Z.to_nat i) s_table 0) = u8 (nth (Z.to_nat j) s_table 0) -> i = j.
Proof.
  intros Hi Hj E. rewrite <- (table_low_index i Hi), <- (table_low_index j Hj). by rewrite E.
Qed.

Lemma crc16_step_low crc b :
  u8 (crc16_step crc b) = u8 (nth (Z.to_nat (Z.lxor (Z.shiftr crc 8) b)) s_table 0).
Proof.
  apply Z.bits_inj'. intros i Hi. unfold u8, crc16_step, u16.
  change 256 with (2 ^ 8). change 65536 with (2 ^ 16).
  destruct (Z.lt_ge_cases i 8); [|by rewrite !Z.mod_pow2_bits_high by lia].
  rewrite !Z.mod_pow2_bits_low by lia. rewrite Z.lxor_spec, Z.shiftl_spec, Z.testbit_neg_r by lia. done.
Qed.

(** A step loses nothing, neither of the running value nor of the byte. *)
Lemma crc16_step_index c1 c2 b1 b2 :
  is_u16 c1 -> is_u16 c2 -> is_u8 b1 -> is_u8 b2 ->
  crc16_step c1 b1 = crc16_step c2 b2 ->
  Z.lxor (Z.shiftr c1 8) b1 = Z.lxor (Z.shiftr c2 8) b2 /\ u8 c1 = u8 c2.
Proof.
  intros H1 H2 Hb1 Hb2 E.
  destruct (u16_byte_split c1 H1) as [S1 _], (u16_byte_split c2 H2) as [S2 _].
  assert (Z.lxor (Z.shiftr c1 8) b1 = Z.lxor (Z.shiftr c2 8) b2) as Ei.
  { apply table_low_inj; [by apply u8_lxor..|]. rewrite <- !crc16_step_low. by rewrite E. }
  split; [done|]. unfold crc16_step in E. rewrite Ei in E. revert E.
  generalize (nth (Z.to_nat (Z.lxor (Z.shiftr c2 8) b2)) s_table 0). intros t E.
  apply Z.bits_inj'. intros i Hi. unfold u8. change 256 with (2 ^ 8).
  destruct (Z.lt_ge_cases i 8); [|by rewrite !Z.mod_pow2_bits_high by lia].
  rewrite !Z.mod_pow2_bits_low by lia.
  apply (f_equal (fun z => Z.testbit z (i + 8))) in E. unfold u16 in E. change 65536 with (2 ^ 16) in E.
  rewrite !Z.mod_pow2_bits_low, !Z.lxor_spec, !Z.shiftl_spec in E by lia.
  replace (i + 8 - 8) with i in E by lia.
  by destruct (Z.testbit c1 i), (Z.testbit c2 i), (Z.testbit t (i + 8)).
Qed.

Lemma crc16_step_inj c1 c2 b :
  is_u16 c1 -> is_u16 c2 -> is_u8 b -> crc16_step c1 b = crc16_step c2 b -> c1 = c2.
Proof.
  intros H1 H2 Hb E. destruct (crc16_step_index c1 c2 b b) as [Ei El]; try done.
  assert (Z.shiftr c1 8 = Z.shiftr c2 8) as Eh.
  { apply (f_equal (fun z => Z.lxor z b)) in Ei. by rewrite !Z.lxor_assoc, Z.lxor_nilpotent, !Z.lxor_0_r in Ei. }
  destruct (u16_byte_split c1 H1) as [_ ->], (u16_byte_split c2 H2) as [_ ->]. congruence.
Qed.

Lemma crc16_append_inj data c1 c2 :
  is_byte_list data -> is_u16 c1 -> is_u16 c2 ->
  crc16_append data c1 = crc16_append data c2 -> c1 = c2.
Proof.
  intros Hd. revert c1 c2. induction Hd as [|b data Hb _ IH]; intros c1 c2 H1 H2 E; [done|].
  apply (crc16_step_inj c1 c2 b); [done..|]. apply IH; [apply crc16_step_u16..|done].
Qed.

Lemma crc16_append_app l1 l2 crc : crc16_append (l1 ++ l2) crc = crc16_append l2 (crc16_append l1 crc).
Proof. apply fold_left_app. Qed.

(** *** A word and its two bytes *)

Lemma u8_high x : is_u16 x -> u8 (Z.shiftr x 8) = Z.shiftr x 8.
Proof. intros Hx. apply u8_id. by destruct (u16_byte_split x Hx). Qed.

Lemma get_put_u16be x : is_u16 x -> get_u16be (put_u16be x) = x.
Proof.
  intros Hx. unfold get_u16be, put_u16be, byte_at. cbn [nth]. rewrite u16_shiftl_byte, !u8_high by done.
  rewrite (u16_byte_lxor x Hx) at 3. symmetry. apply Z.bits_inj'. intros i Hi.
  rewrite Z.lxor_spec, Z.lor_spec, !Z.shiftl_spec by lia. destruct (Z.lt_ge_cases i 8).
  - by rewrite Z.testbit_neg_r, xorb_false_l by lia.
  - unfold u8. change 256 with (2 ^ 8). rewrite !Z.mod_pow2_bits_high by lia.
    by rewrite xorb_false_r, orb_false_r.
Qed.

Lemma get_put_u32be x : 0 <= x < 4294967296 -> get_u32be (put_u32be x) = x.
Proof.
  intros Hx. unfold get_u32be, put_u32be, byte_at. cbn [nth].
  assert (forall b s, 0 <= b < 256 -> (s = 8 \/ s = 16 \/ s = 24) -> u32 (Z.shiftl b s) = Z.shiftl b s) as Hs.
  { intros b s Hb Hs. apply u32_id. rewrite Z.shiftl_mul_pow2 by lia.
    destruct Hs as [-> | [-> | ->]]; [change (2 ^ 8) with 256|change (2 ^ 16) with 65536|change (2 ^ 24) with 16777216]; lia. }
  assert (forall z, 0 <= u8 z < 256) as Hu by (intros; apply Z.mod_pos_bound; lia).
  rewrite !Hs by (done || auto). apply Z.bits_inj'. intros i Hi.
  rewrite !Z.lor_spec, !Z.shiftl_spec by lia.
  assert (forall z k, k < 8 -> 0 <= k -> Z.testbit (u8 z) k = Z.testbit z k) as Hlo
    by (intros; apply testbit_u8; lia).
  assert (forall z k, 8 <= k -> Z.testbit (u8 z) k = false) as Hhi
    by (intros z k Hk; apply (proj2 (proj1 (is_u8_bits _) (u8_range z))); lia).
  assert (forall z k, k < 0 -> Z.testbit z k = false) as Hneg by (intros; by apply Z.testbit_neg_r).
  destruct (Z.lt_ge_cases i 8); [|destruct (Z.lt_ge_cases i 16); [|destruct (Z.lt_ge_cases i 24); [|destruct (Z.lt_ge_cases i 32)]]].
  - rewrite !(Hneg (u8 (Z.shiftr x _))) by lia. by rewrite Hlo by lia.
  - rewrite (Hneg (u8 (Z.shiftr x 24))), (Hneg (u8 (Z.shiftr x 16))), Hlo, Z.shiftr_spec, Hhi, orb_false_r by lia.
    cbn [orb]. f_equal. lia.
  - rewrite (Hneg (u8 (Z.shiftr x 24))), (Hlo (Z.shiftr x 16)), Z.shiftr_spec, !Hhi, !orb_false_r by lia.
    cbn [orb]. f_equal. lia.
  - rewrite (Hlo (Z.shiftr x 24)), Z.shiftr_spec, !Hhi, !orb_false_r by lia. f_equal. lia.
  - rewrite !Hhi by lia. symmetry. rewrite <- (Z.mod_small x (2 ^ 32)) by (change (2 ^ 32) with 4294967296; lia).
    by rewrite Z.mod_pow2_bits_high by lia.
Qed.

Lemma append_own_bytes x : is_u16 x -> crc16_append (put_u16be x) x = 0.
Proof.
  intros Hx. unfold put_u16be. cbn [crc16_append fold_left]. rewrite u8_high by done.
  unfold crc16_step at 2. rewrite Z.lxor_nilpotent. cbn [Z.to_nat nth s_table]. rewrite Z.lxor_0_r.
  rewrite u16_shiftl_byte. unfold crc16_step. rewrite Z.shiftr_shiftl_l, Z.sub_diag, Z.shiftl_0_r, Z.lxor_nilpotent by lia.
  cbn [Z.to_nat nth s_table]. rewrite Z.lxor_0_r, Z.shiftl_shiftl by lia. unfold u16.
  rewrite Z.shiftl_mul_pow2 by lia. apply Z_mod_mult.
Qed.

(** ** Properties *)

(** C19: The table-driven [crc16_creator] computes the CRC-16 of the data bit by
    bit: long division by x^16 + x^12 + x^5 + 1 from the initial value ffff. *)
Theorem crc16_is_long_division data :
  is_byte_list data -> crc16_simple data = crc_reference data /\ is_u16 (crc16_simple data).
Proof.
  intros Hd. split; [|apply crc16_append_u16; by split].
  unfold crc16_simple, crc16_append, crc_reference, crc16_reset.
  assert (is_u16 0xffff) as Hc by (by split). revert Hc. generalize 0xffff.
  induction Hd as [|b data Hb _ IH]; intros crc Hc; [done|]. cbn [fold_left].
  rewrite <- crc16_step_reference by done. apply IH, crc16_step_u16.
Qed.

(** Two blocks that differ in exactly one byte have different CRCs. *)
Theorem crc16_detects_byte_error p a b q :
  is_byte_list (p ++ a :: q) -> is_u8 b -> a ≠ b ->
  crc16_simple (p ++ a :: q) ≠ crc16_simple (p ++ b :: q).
Proof.
  intros [Hp [Ha Hq]%Forall_cons]%Forall_app Hb Hne E. apply Hne.
  unfold crc16_simple in E. rewrite !crc16_append_app in E. cbn [crc16_append fold_left] in E.
  assert (is_u16 (crc16_append p crc16_reset)) as Hc by (apply crc16_append_u16; by split).
  apply crc16_append_inj in E; [|done|apply crc16_step_u16..].
  apply crc16_step_index in E as [E _]; [|done..].
  apply (f_equal (Z.lxor (Z.shiftr (crc16_append p crc16_reset) 8))) in E.
  by rewrite <- !Z.lxor_assoc, Z.lxor_nilpotent, !Z.lxor_0_l in E.
Qed.

(** A receiver that runs the CRC over a block and the two bytes [put_u16be]
    stored behind it gets zero, and reads the CRC back with [get_u16be]. *)
Theorem crc16_residue data :
  is_byte_list data ->
  crc16_simple (data ++ put_u16be (crc16_simple data)) = 0 /\
  get_u16be (put_u16be (crc16_simple data)) = crc16_simple data.
Proof.
  intros Hd. assert (is_u16 (crc16_simple data)) as Hc by (apply crc16_append_u16; by split).
  unfold crc16_simple at 1. rewrite crc16_append_app. fold (crc16_simple data).
  revert Hc. generalize (crc16_simple data). intros c Hc.
  split; [by apply append_own_bytes|by apply get_put_u16be].
Qed.

(** ** Witnesses *)

Lemma check_value_bytes : is_byte_list [0x31; 0x32; 0x33; 0x34; 0x35; 0x36; 0x37; 0x38; 0x39].
Proof. repeat constructor; lia. Qed.

(** The check value of this CRC, of the digits 1 to 9. *)
Lemma crc16_is_long_division_witness :
  crc16_simple [0x31; 0x32; 0x33; 0x34; 0x35; 0x36; 0x37; 0x38; 0x39] = 0x29b1.
Proof.
  destruct (crc16_is_long_division _ check_value_bytes) as [E _]. rewrite E. vm_compute. reflexivity.
Defined.

Lemma crc16_detects_byte_error_witness :
  crc16_simple [0x31; 0x32; 0x33] ≠ crc16_simple [0x31; 0x36; 0x33].
Proof.
  apply (crc16_detects_byte_error [0x31] 0x32 0x36 [0x33]); [repeat constructor; lia|split; lia|lia].
Defined.

Lemma crc16_residue_witness :
  crc16_simple [0x31; 0x32; 0x33; 0x34; 0x35; 0x36; 0x37; 0x38; 0x39; 0x29; 0xb1] = 0.
Proof. destruct (crc16_residue _ check_value_bytes) as [E _]. exact E. Defined.
