(* ===== verification/Harddisk.v ===== *)
(** * Harddisk: hard disk images (src/src/lib/util/harddisk.h, harddisk.cpp;
    src/src/devices/imagedev/harddriv.cpp)

    [hard_disk_file] reads and writes sectors of a CHD or of a raw file.  The
    CHD and the file are the classes [ChdFile] and [RandomReadWrite]; a file
    kept as a list of bytes is an instance of the latter.  [BlockImage] is what
    a client such as the SD card asks of [harddisk_image_device]. *)

From stdpp Require Import base tactics numbers option list.
From Stdlib Require Import ZArith Lia Bool.
From S2P Require Import Prelude.

(** ** The storage below *)

(** [util::random_read_write]: the length, and a read or write after a seek.
    A read returns the bytes it got, fewer at the end of the file. *)
Class RandomReadWrite (F : Type) := {
  rw_length : F -> option Z;
  rw_read_at : F -> Z -> Z -> option (list Z);
  rw_write_at : F -> Z -> list Z -> option F
}.

(** [chd_file]: the metadata's four numbers and access by units. *)
Class ChdFile (C : Type) := {
  chd_geometry : C -> option (Z * Z * Z * Z);
  chd_unit_bytes : C -> Z;
  chd_read_units : C -> Z -> option (list Z);
  chd_write_units : C -> Z -> list Z -> option C
}.

(** ** hard_disk_file *)

Record info := mk_info { cylinders : Z; heads : Z; sectors : Z; sectorbytes : Z }.

#[export] Instance info_eta : Eta info := fun i =>
  mk_info (cylinders i) (heads i) (sectors i) (sectorbytes i).

(** What backs the disk: a CHD, or a file with the offset of the image in it. *)
Inductive backing (C F : Type) :=
  | backed_by_chd (chd : C)
  | backed_by_file (fhandle : F) (fileoffset : Z).
Arguments backed_by_chd {C F}.
Arguments backed_by_file {C F}.

Record hard_disk_file (C F : Type) := mk_hard_disk { store : backing C F; hdinfo : info }.
Arguments mk_hard_disk {C F}.
Arguments store {C F}.
Arguments hdinfo {C F}.

(** The two inner loops of the constructor: the largest divisor tried first. *)
Fixpoint guess_heads (curheads : nat) (totalheads : Z) : option Z :=
  match curheads with
  | O | S O => None
  | S n => if totalheads mod Z.of_nat curheads =? 0 then Some (Z.of_nat curheads)
           else guess_heads n totalheads
  end.

Fixpoint guess_sectors (cursectors : nat) (totalsectors : Z) : option (Z * Z * Z) :=
  match cursectors with
  | O | S O => None
  | S n =>
      let next := guess_sectors n totalsectors in
      if totalsectors mod Z.of_nat cursectors =? 0 then
        let totalheads := totalsectors / Z.of_nat cursectors in
        match guess_heads 16 totalheads with
        | Some curheads => Some (totalheads / curheads, curheads, Z.of_nat cursectors)
        | None => next
        end
      else next
  end.

(** The outer loop. *)
Fixpoint guess_geometry (fuel : nat) (totalsectors : Z) : option (Z * Z * Z) :=
  match guess_sectors 63 totalsectors with
  | Some chs => Some chs
  | None => match fuel with
            | O => None
            | S fuel => guess_geometry fuel (u32 (totalsectors + 1))
            end
  end.

Section Disk.
Context {C F : Type} `{ChdFile C} `{RandomReadWrite F}.

(** The constructors; [None] is the exception. *)
Definition open_chd (c : C) : option (hard_disk_file C F) :=
  match chd_geometry c with
  | Some (cyl, hd, sec, bps) => Some (mk_hard_disk (backed_by_chd c) (mk_info cyl hd sec bps))
  | None => None
  end.

Definition open_file (corefile : F) (skipoffs : Z) : option (hard_disk_file C F) :=
  match rw_length corefile with
  | None => None
  | Some length =>
      match guess_geometry 4 (u32 (u64 (length - skipoffs) / 512)) with
      | Some (cyl, hd, sec) =>
          Some (mk_hard_disk (backed_by_file corefile skipoffs) (mk_info cyl hd sec 512))
      | None => None
      end
  end.

(** The byte position of a sector, in [uint32_t] arithmetic. *)
Definition sector_position (fileoffset lbasector : Z) (i : info) : Z :=
  u32 (fileoffset + u32 (lbasector * sectorbytes i)).

(** [read]: success, and the bytes stored into the buffer. *)
Definition hd_read (d : hard_disk_file C F) (lbasector : Z) : bool * list Z :=
  match store d with
  | backed_by_chd c =>
      match chd_read_units c lbasector with Some bytes => (true, bytes) | None => (false, []) end
  | backed_by_file f fileoffset =>
      match rw_read_at f (sector_position fileoffset lbasector (hdinfo d)) (sectorbytes (hdinfo d)) with
      | Some bytes => (Z.of_nat (length bytes) =? sectorbytes (hdinfo d), bytes)
      | None => (false, [])
      end
  end.

(** [write] of the sector's bytes at the start of [buffer]. *)
Definition hd_write (d : hard_disk_file C F) (lbasector : Z) (buffer : list Z)
    : bool * hard_disk_file C F :=
  let bytes := take (Z.to_nat (sectorbytes (hdinfo d))) buffer in
  match store d with
  | backed_by_chd c =>
      match chd_write_units c lbasector bytes with
      | Some c => (true, mk_hard_disk (backed_by_chd c) (hdinfo d))
      | None => (false, d)
      end
  | backed_by_file f fileoffset =>
      match rw_write_at f (sector_position fileoffset lbasector (hdinfo d)) bytes with
      | Some f => (true, mk_hard_disk (backed_by_file f fileoffset) (hdinfo d))
      | None => (false, d)
      end
  end.

Definition set_block_size (blocksize : Z) (d : hard_disk_file C F) : bool * hard_disk_file C F :=
  match store d with
  | backed_by_chd c => (chd_unit_bytes c =? blocksize, d)
  | backed_by_file _ _ => (true, mk_hard_disk (store d) (hdinfo d <| sectorbytes := blocksize |>))
  end.
End Disk.

(** ** The image device

    [harddisk_image_device] forwards to the [hard_disk_file] it holds.  Reading
    or writing without one dereferences a null pointer: [None]. *)

Class BlockImage (I : Type) := {
  image_exists : I -> bool;
  image_info : I -> option info;
  image_read : I -> Z -> option (bool * list Z);
  image_write : I -> Z -> list Z -> option (bool * I)
}.

#[export] Instance harddisk_image {C F} `{ChdFile C} `{RandomReadWrite F}
    : BlockImage (option (hard_disk_file C F)) := {
  image_exists i := match i with Some _ => true | None => false end;
  image_info i := option_map hdinfo i;
  image_read i lba := option_map (fun d => hd_read d lba) i;
  image_write i lba buffer :=
    option_map (fun d => let '(ok, d) := hd_write d lba buffer in (ok, Some d)) i
}.

(** [holds i n total disk]: an image of [total] blocks of [n] bytes with
    contents [disk]. *)
Class BlockImageLaws (I : Type) `{BlockImage I} := {
  holds : I -> Z -> Z -> (Z -> list Z) -> Prop;
  holds_exists : forall i n total disk, holds i n total disk -> image_exists i = true;
  holds_read : forall i n total disk lba, holds i n total disk -> 0 <= lba < total ->
    image_read i lba = Some (true, disk lba) /\ Z.of_nat (length (disk lba)) = n;
  holds_write : forall i n total disk lba buffer, holds i n total disk -> 0 <= lba < total ->
    n <= Z.of_nat (length buffer) ->
    exists i', image_write i lba buffer = Some (true, i') /\
      holds i' n total (fun b => if b =? lba then take (Z.to_nat n) buffer else disk b)
}.

(** ** A file as a list of bytes *)

Definition memfile : Type := list Z.

Definition mem_write (f : list Z) (pos : nat) (bytes : list Z) : list Z :=
  take pos f ++ replicate (pos - length f) 0 ++ bytes ++ drop (pos + length bytes) f.

#[export] Instance memfile_rw : RandomReadWrite memfile := {
  rw_length f := Some (Z.of_nat (length f));
  rw_read_at f pos n := Some (take (Z.to_nat n) (drop (Z.to_nat pos) f));
  rw_write_at f pos bytes := Some (mem_write f (Z.to_nat pos) bytes)
}.

(** No CHD is used with it. *)
#[export] Instance no_chd : ChdFile Empty_set := {
  chd_geometry c := match c with end;
  chd_unit_bytes c := match c with end;
  chd_read_units c := match c with end;
  chd_write_units c := match c with end
}.

Definition memdisk : Type := hard_disk_file Empty_set memfile.

(** ** Lemmas *)

Lemma guess_heads_sound n t h : guess_heads n t = Some h ->
  2 <= h <= Z.of_nat n /\ t mod h = 0.
Proof.
  induction n as [|[|n] IH]; [done..|]. cbn [guess_heads].
  destruct (Z.eqb_spec (t mod Z.of_nat (S (S n))) 0) as [E|E].
  - intros [= <-]. split; [lia|done].
  - intros Hg. apply IH in Hg as [? ?]. split; [lia|done].
Qed.

Lemma guess_heads_two n t : (2 <= n)%nat -> t mod 2 = 0 -> exists h, guess_heads n t = Some h.
Proof.
  induction n as [|[|n] IH]; intros Hn Ht; [lia..|]. cbn [guess_heads].
  destruct (Z.eqb_spec (t mod Z.of_nat (S (S n))) 0) as [E|E]; [eauto|].
  destruct n; [done|]. apply IH; [lia|done].
Qed.

Lemma guess_sectors_sound n t c h s : guess_sectors n t = Some (c, h, s) ->
  c * h * s = t /\ 2 <= h <= 16 /\ 2 <= s <= Z.of_nat n.
Proof.
  induction n as [|[|n] IH]; [done..|]. cbn [guess_sectors].
  assert (guess_sectors (S n) t = Some (c, h, s) ->
    c * h * s = t /\ 2 <= h <= 16 /\ 2 <= s <= Z.of_nat (S (S n))) as Hnext.
  { intros Hg. apply IH in Hg as (? & ? & ?). split_and!; lia. }
  destruct (Z.eqb_spec (t mod Z.of_nat (S (S n))) 0) as [E|E]; [|done].
  destruct (guess_heads 16 _) as [h'|] eqn:Eh; [|done].
  apply guess_heads_sound in Eh as [Hh Eh]. intros [= <- <- <-].
  set (k := Z.of_nat (S (S n))) in *.
  pose proof (Z.div_mod t k). pose proof (Z.div_mod (t / k) h'). split; [nia|lia].
Qed.

Lemma guess_sectors_four n t : (2 <= n)%nat -> t mod 4 = 0 -> exists g, guess_sectors n t = Some g.
Proof.
  induction n as [|[|n] IH]; intros Hn Ht; [lia..|]. cbn [guess_sectors].
  destruct (Nat.eq_dec n 0) as [->|Hne].
  - change (Z.of_nat 2) with 2.
    assert (t mod 2 = 0 /\ (t / 2) mod 2 = 0) as [-> H2]
      by (pose proof (Z.div_mod t 4); pose proof (Z.div_mod t 2); pose proof (Z.div_mod (t / 2) 2);
          pose proof (Z.mod_pos_bound t 2); pose proof (Z.mod_pos_bound (t / 2) 2); lia).
    destruct (guess_heads_two 16 (t / 2)) as [h ->]; [lia|done|]. eauto.
  - destruct (IH ltac:(lia) Ht) as [g Hg]. destruct (_ =? 0); [|eauto].
    destruct (guess_heads 16 _); eauto.
Qed.

Lemma guess_geometry_unfold fuel t :
  guess_geometry fuel t =
    match guess_sectors 63 t with
    | Some chs => Some chs
    | None => match fuel with O => None | S fuel => guess_geometry fuel (u32 (t + 1)) end
    end.
Proof. by destruct fuel. Qed.

#[local] Strategy opaque [guess_sectors].

Lemma mod4_step t k : (t + Z.of_nat (S k)) mod 4 = 0 -> (u32 (t + 1) + Z.of_nat k) mod 4 = 0.
Proof.
  intros Hk. unfold u32. pose proof (Z.div_mod (t + 1) 4294967296).
  assert (((t + 1) mod 4294967296 + Z.of_nat k) =
    (t + Z.of_nat (S k)) + (- (1073741824 * ((t + 1) / 4294967296))) * 4) as -> by lia.
  by rewrite Z.mod_add.
Qed.

Lemma guess_geometry_spec k : forall t, is_u32 t -> (t + Z.of_nat k) mod 4 = 0 ->
  exists c h s j, guess_geometry k t = Some (c, h, s) /\
    0 <= j <= Z.of_nat k /\ c * h * s = u32 (t + j) /\ 2 <= h <= 16 /\ 2 <= s <= 63.
Proof.
  induction k as [|k IH]; intros t Ht Hk; rewrite guess_geometry_unfold;
    destruct (guess_sectors 63 t) as [[[c h] s]|] eqn:Hg.
  1,3: apply guess_sectors_sound in Hg as (E & ? & ?); exists c, h, s, 0;
    rewrite Z.add_0_r, u32_id by done; split_and!; done || lia.
  - destruct (guess_sectors_four 63 t) as [g Hg']; [lia|by rewrite Z.add_0_r in Hk|congruence].
  - destruct (IH (u32 (t + 1)) (u32_range _) (mod4_step t k Hk)) as (c & h & s & j & Hg' & Hj & E & Hh).
    exists c, h, s, (j + 1). split; [done|]. split; [lia|]. split; [|done].
    rewrite E. unfold u32. rewrite Zplus_mod_idemp_l. f_equal. lia.
Qed.

Lemma guess_geometry_mono k k' t g : (k <= k')%nat -> guess_geometry k t = Some g ->
  guess_geometry k' t = Some g.
Proof.
  revert k' t. induction k as [|k IH]; intros [|k'] t Hk Hg; try lia;
    rewrite guess_geometry_unfold in Hg |- *; destruct (guess_sectors 63 t); try done.
  apply IH; [lia|done].
Qed.

(** *** The list file *)

Lemma mem_write_split f pos bytes :
  exists pre, mem_write f pos bytes = pre ++ bytes ++ drop (pos + length bytes) f /\ length pre = pos /\
    forall i, (i < pos)%nat -> (i < length f)%nat -> pre !! i = f !! i.
Proof.
  exists (take pos f ++ replicate (pos - length f) 0). unfold mem_write.
  split; [by rewrite <- app_assoc|]. split.
  - rewrite length_app, length_take, length_replicate. lia.
  - intros i Hi Hf. rewrite lookup_app_l by (rewrite length_take; lia). by rewrite lookup_take_lt.
Qed.

Lemma mem_write_read f pos bytes :
  take (length bytes) (drop pos (mem_write f pos bytes)) = bytes.
Proof.
  destruct (mem_write_split f pos bytes) as (pre & -> & Hl & _).
  rewrite drop_app_length' by done. by rewrite take_app_length.
Qed.

Lemma mem_write_other f pos bytes i :
  (i < length f)%nat -> (i < pos \/ pos + length bytes <= i)%nat -> mem_write f pos bytes !! i = f !! i.
Proof.
  intros Hi Ho. destruct (mem_write_split f pos bytes) as (pre & -> & Hl & Hpre).
  destruct (Nat.lt_ge_cases i pos).
  - rewrite lookup_app_l by lia. by apply Hpre.
  - rewrite lookup_app_r, lookup_app_r, lookup_drop by lia. f_equal. lia.
Qed.

Lemma take_drop_ext (f g : list Z) pos n :
  (forall i, (pos <= i < pos + n)%nat -> f !! i = g !! i) -> take n (drop pos f) = take n (drop pos g).
Proof.
  intros H. apply list_eq. intros i. destruct (Nat.lt_ge_cases i n).
  - rewrite !lookup_take_lt, !lookup_drop by done. apply H. lia.
  - by rewrite !lookup_take_ge.
Qed.

(** A sector that [sector_position] places without wrapping. *)
Definition in_reach (fileoffset lba : Z) (i : info) : Prop :=
  0 <= fileoffset /\ 0 <= lba /\ fileoffset + (lba + 1) * sectorbytes i <= 4294967296.

Lemma sector_position_exact fileoffset lba i :
  0 < sectorbytes i -> in_reach fileoffset lba i ->
  sector_position fileoffset lba i = fileoffset + lba * sectorbytes i.
Proof. intros Hb (H1 & H2 & H3). 
  pose proof (Z.mul_nonneg_nonneg lba (sectorbytes i) ltac:(lia) ltac:(lia)).
  unfold sector_position. rewrite (u32_id (lba * _)), u32_id by lia. done.
Qed.

(** The sectors of a raw file as cells. *)
Section Cells.
Context (f : memfile) (fileoffset : Z) (i : info) (lba : Z) (buffer : list Z).
Context (Hb : 0 < sectorbytes i) (Hr : in_reach fileoffset lba i)
  (Hbuf : sectorbytes i <= Z.of_nat (length buffer)).
Let bytes := take (Z.to_nat (sectorbytes i)) buffer.
Let f' := mem_write f (Z.to_nat (sector_position fileoffset lba i)) bytes.

Lemma cell_length : length bytes = Z.to_nat (sectorbytes i).
Proof. subst bytes. rewrite length_take. lia. Qed.

Lemma cell_written : take (Z.to_nat (sectorbytes i)) (drop (Z.to_nat (sector_position fileoffset lba i)) f') = bytes.
Proof. rewrite <- cell_length. apply mem_write_read. Qed.

Lemma cell_other lba' : lba' <> lba -> in_reach fileoffset lba' i ->
  fileoffset + (lba' + 1) * sectorbytes i <= Z.of_nat (length f) ->
  take (Z.to_nat (sectorbytes i)) (drop (Z.to_nat (sector_position fileoffset lba' i)) f') =
    take (Z.to_nat (sectorbytes i)) (drop (Z.to_nat (sector_position fileoffset lba' i)) f).
Proof.
  intros Hne Hr' Hin. subst f'. rewrite !sector_position_exact by done.
  destruct Hr as (? & ? & ?), Hr' as (? & ? & ?). pose proof cell_length as Hlen.
  set (b := sectorbytes i) in *. apply take_drop_ext. intros k Hk. apply mem_write_other; [nia|]. rewrite Hlen.
  assert (lba' < lba \/ lba < lba') as [Hlt|Hlt] by lia; nia.
Qed.

(** A write does not shorten the file. *)
Lemma mem_write_length : (length f <= length f')%nat.
Proof.
  subst f'. unfold mem_write. rewrite !length_app, length_take, length_replicate, length_drop. lia.
Qed.
End Cells.

(** A raw image in a list of bytes keeps its blocks apart. *)
Definition file_holds (d : option memdisk) (n total : Z) (disk : Z -> list Z) : Prop :=
  exists f off i, d = Some (mk_hard_disk (backed_by_file f off) i) /\ sectorbytes i = n /\ 0 < n /\ 0 <= off /\
    off + total * n <= Z.min (Z.of_nat (length f)) 4294967296 /\
    forall lba, 0 <= lba < total -> disk lba = take (Z.to_nat n) (drop (Z.to_nat (sector_position off lba i)) f).

Lemma file_holds_reach off total n lba i : sectorbytes i = n -> 0 < n -> 0 <= off -> off + total * n <= 4294967296 ->
  0 <= lba < total -> in_reach off lba i /\ off + (lba + 1) * n <= off + total * n.
Proof. intros <- Hn Ho Ht Hl. split; [split; [done|split; [lia|nia]]|nia]. Qed.

Lemma file_holds_exists (d : option memdisk) n total disk : file_holds d n total disk -> image_exists d = true.
Proof. by intros (f & off & i & -> & _). Qed.

Lemma file_holds_read (d : option memdisk) n total disk lba : file_holds d n total disk -> 0 <= lba < total ->
  image_read d lba = Some (true, disk lba) /\ Z.of_nat (length (disk lba)) = n.
Proof.
  intros (f & off & i & -> & Es & Hn & Ho & Ht & Hd) Hlba.
  destruct (file_holds_reach off total n lba i) as [Hr Hle]; [done|done|done|lia|done|].
  assert (length (disk lba) = Z.to_nat n) as Hl.
  { rewrite Hd by done. rewrite length_take, length_drop, sector_position_exact by (by rewrite ?Es). rewrite Es. nia. }
  split; [|lia]. cbn -[Z.to_nat]. unfold hd_read. cbn [store hdinfo rw_read_at memfile_rw].
  rewrite Es, <- Hd by done. rewrite Hl, Z2Nat.id, Z.eqb_refl by lia. done.
Qed.

Lemma file_holds_write (d : option memdisk) n total disk lba buffer : file_holds d n total disk -> 0 <= lba < total ->
  n <= Z.of_nat (length buffer) ->
  exists d', image_write d lba buffer = Some (true, d') /\
    file_holds d' n total (fun b => if b =? lba then take (Z.to_nat n) buffer else disk b).
Proof.
  intros (f & off & i & -> & <- & Hn & Ho & Ht & Hd) Hlba Hbuf.
  destruct (file_holds_reach off total (sectorbytes i) lba i) as [Hr Hle]; [done|done|done|lia|done|].
  eexists. split; [reflexivity|]. eexists _, off, i. split; [reflexivity|]. split; [done|]. split; [done|].
  split; [done|]. split.
  + pose proof (mem_write_length f off i lba buffer) as Hlen. cbn [hdinfo]. lia.
  + intros b Hb'. destruct (Z.eqb_spec b lba) as [->|Hne].
    * symmetry. by apply cell_written.
    * rewrite Hd by done. symmetry.
      destruct (file_holds_reach off total (sectorbytes i) b i) as [Hr' Hle']; [done|done|done|lia|done|].
      apply cell_other; [done..|]. lia.
Qed.

#[export] Instance memdisk_laws : BlockImageLaws (option memdisk) := {
  holds := file_holds;
  holds_exists := file_holds_exists;
  holds_read := file_holds_read;
  holds_write := file_holds_write
}.

(** ** Properties *)

(** C27: The constructor's search for a geometry always ends, after at most three
    increments of the sector count; the product of the geometry is the count
    it stopped at, so it may promise up to three sectors more than there are.
    Sectors are whole ones of 512 bytes, so a ragged tail of the file is not
    covered, and the file is shorter than 2 TiB. *)
Theorem geometry_guess_terminates {C F} `{RandomReadWrite F} (f : F) skipoffs n :
  rw_length f = Some n -> 0 <= skipoffs <= n -> n - skipoffs < 512 * 4294967292 ->
  exists d : hard_disk_file C F, open_file f skipoffs = Some d /\
    store d = backed_by_file f skipoffs /\ sectorbytes (hdinfo d) = 512 /\
    2 <= heads (hdinfo d) <= 16 /\ 2 <= sectors (hdinfo d) <= 63 /\
    let total := (n - skipoffs) / 512 in
    total <= cylinders (hdinfo d) * heads (hdinfo d) * sectors (hdinfo d) <= total + 3.
Proof.
  intros Hn Hs Hmax. set (t := (n - skipoffs) / 512).
  assert (0 <= t < 4294967292) as Ht
    by (split; [apply Z.div_pos; lia|apply Z.div_lt_upper_bound; lia]).
  set (k := Z.to_nat ((4 - t mod 4) mod 4)).
  assert ((t + Z.of_nat k) mod 4 = 0 /\ (k <= 3)%nat) as [Hk Hk3].
  { subst k. pose proof (Z.mod_pos_bound (4 - t mod 4) 4). rewrite Z2Nat.id by lia.
    pose proof (Z.div_mod t 4). pose proof (Z.div_mod (4 - t mod 4) 4).
    pose proof (Z.mod_pos_bound t 4). split; [|lia].
    assert (t mod 4 = 0 \/ t mod 4 = 1 \/ t mod 4 = 2 \/ t mod 4 = 3) as [E|[E|[E|E]]] by lia;
      rewrite E in *; change ((4 - 0) mod 4) with 0; change ((4 - 1) mod 4) with 3;
      change ((4 - 2) mod 4) with 2; change ((4 - 3) mod 4) with 1;
      pose proof (Z.mod_pos_bound (t + 0) 4); rewrite Zplus_mod, E; reflexivity. }
  destruct (guess_geometry_spec k t) as (c & h & s & j & Hg & Hj & E & Hh & Hsc); [by split; lia|done|].
  apply (guess_geometry_mono k 4) in Hg; [|lia].
  unfold open_file. rewrite Hn, u64_id, u32_id by (fold t; lia). fold t. rewrite Hg.
  eexists. split; [reflexivity|]. split; [done|]. split; [done|]. cbn [heads sectors cylinders hdinfo].
  split; [done|]. split; [done|]. cbv zeta. rewrite E, u32_id by lia. lia.
Qed.

(** C39: On a raw image the sectors below four gigabytes are independent cells:
    a written sector reads back, every other one keeps its contents. *)
Theorem raw_sectors_are_cells (f : memfile) fileoffset i lba buffer :
  let d : memdisk := mk_hard_disk (backed_by_file f fileoffset) i in
  0 < sectorbytes i -> in_reach fileoffset lba i -> sectorbytes i <= Z.of_nat (length buffer) ->
  let '(ok, d') := hd_write d lba buffer in
  ok = true /\ hd_read d' lba = (true, take (Z.to_nat (sectorbytes i)) buffer) /\
  forall lba', lba' ≠ lba -> in_reach fileoffset lba' i ->
    fileoffset + (lba' + 1) * sectorbytes i <= Z.of_nat (length f) ->
    hd_read d' lba' = hd_read d lba'.
Proof.
  intros d Hb Hr Hbuf. unfold hd_write. cbn [store hdinfo d rw_write_at memfile_rw].
  split; [done|]. split.
  - unfold hd_read. cbn [store hdinfo rw_read_at memfile_rw]. rewrite (cell_written f fileoffset i lba buffer) by done.
    rewrite (cell_length i buffer) by done. rewrite Z2Nat.id, Z.eqb_refl by lia. done.
  - intros lba' Hne Hr' Hin. unfold hd_read. cbn [store hdinfo d rw_read_at memfile_rw].
    by rewrite (cell_other f fileoffset i lba buffer).
Qed.

(** Beyond four gigabytes the 32-bit position wraps: with 512-byte sectors,
    sectors 2^23 apart are one and the same. *)
Theorem raw_sectors_alias {C F} `{ChdFile C} `{RandomReadWrite F} (f : F) fileoffset i lba buffer :
  sectorbytes i = 512 ->
  let d : hard_disk_file C F := mk_hard_disk (backed_by_file f fileoffset) i in
  hd_read d (lba + 8388608) = hd_read d lba /\
  hd_write d (lba + 8388608) buffer = hd_write d lba buffer.
Proof.
  intros Hb d.
  assert (sector_position fileoffset (lba + 8388608) i = sector_position fileoffset lba i) as E.
  { unfold sector_position. rewrite Hb. do 2 f_equal. unfold u32.
    replace ((lba + 8388608) * 512) with (lba * 512 + 1 * 4294967296) by lia. by rewrite Z.mod_add. }
  unfold hd_read, hd_write. cbn [store hdinfo d]. by rewrite E.
Qed.

(** ** Witnesses *)

Lemma geometry_guess_terminates_witness :
  exists d : memdisk, open_file (replicate 4096 0 : memfile) 0 = Some d /\
    cylinders (hdinfo d) * heads (hdinfo d) * sectors (hdinfo d) = 8.
Proof.
  destruct (geometry_guess_terminates (C := Empty_set) (replicate 4096 0 : memfile) 0 4096)
    as (d & Hd & _); [vm_compute; reflexivity|lia|lia|].
  exists d. split; [exact Hd|]. 
  assert (option_map (fun d : memdisk => cylinders (hdinfo d) * heads (hdinfo d) * sectors (hdinfo d))
    (open_file (replicate 4096 0 : memfile) 0) = Some 8) as E by (vm_compute; reflexivity).
  rewrite Hd in E. cbn [option_map] in E. congruence.
Defined.

Definition small_info : info := mk_info 1 1 4 2.

Lemma raw_sectors_are_cells_witness :
  let d : memdisk := mk_hard_disk (backed_by_file [0; 1; 2; 3; 4; 5; 6; 7] 0) small_info in
  hd_read (hd_write d 2 [8; 9; 10]).2 2 = (true, [8; 9]).
Proof.
  intros d. destruct (raw_sectors_are_cells [0; 1; 2; 3; 4; 5; 6; 7] 0 small_info 2 [8; 9; 10])
    as (_ & H & _); [cbn; lia|unfold in_reach; cbn; lia|cbn; lia|exact H].
Defined.

Lemma raw_sectors_alias_witness :
  let d : memdisk := mk_hard_disk (backed_by_file (replicate 1024 7) 0) (mk_info 1 1 2 512) in
  hd_read d 8388609 = hd_read d 1.
Proof.
  intros d. destruct (raw_sectors_alias (C := Empty_set) (replicate 1024 7 : memfile) 0
    (mk_info 1 1 2 512) 1 []) as [E _]; [reflexivity|exact E].
Defined.
