(* ===== verification/SdCard.v ===== *)
(** * SdCard: the SD card on SPI (src/src/devices/machine/spi_sdcard.h, spi_sdcard.cpp)

    The card latches a bit on a rising clock edge and shifts one out on a
    falling edge; every eighth bit is a byte of a command or of data.  The disk
    image is behind the interface [BlockImage] of Harddisk; the data-out line
    is a callback that gets and returns the whole state, since the board may
    drive the card's inputs from inside it.  [None] is a run that dereferences
    the null disk image. *)

From stdpp Require Import base tactics numbers option list.
From Stdlib Require Import ZArith Lia Bool.
From S2P Require Import Prelude Crc16 Harddisk.

(** ** Data *)

Definition DATA_RESPONSE_OK : Z := 0x05.
Definition DATA_RESPONSE_IO_ERROR : Z := 0x0d.

Definition CSD_STRUCTURE_V10 : Z := 0x0.
Definition CSD_STRUCTURE_V20 : Z := 0x1.
Definition TAAC_UNIT_1MS : Z := 0x06.
Definition TAAC_VALUE_1_0 : Z := 0x08.
Definition TAAC_VALUE_1_5 : Z := 0x20.
Definition TRAN_SPEED_UNIT_10M : Z := 0x02.
Definition TRAN_SPEED_VALUE_2_5 : Z := 0x30.
Definition VDD_CURR_MIN_100MA : Z := 0x07.
Definition VDD_CURR_MAX_80MA : Z := 0x06.

Inductive sd_type := SD_TYPE_V2 | SD_TYPE_HC.
Inductive sd_state :=
  | SD_STATE_IDLE | SD_STATE_READY | SD_STATE_IDENT | SD_STATE_STBY | SD_STATE_TRAN
  | SD_STATE_DATA | SD_STATE_DATA_MULTI | SD_STATE_RCV | SD_STATE_PRG | SD_STATE_DIS
  | SD_STATE_INA | SD_STATE_WRITE_WAITFE | SD_STATE_WRITE_DATA.

#[export] Instance sd_type_eq_dec : EqDecision sd_type.
Proof. solve_decision. Defined.
#[export] Instance sd_state_eq_dec : EqDecision sd_state.
Proof. solve_decision. Defined.

Definition SPI_DELAY_RESPONSE : Z := 1.

Record sdcard (I : Type) := mk_sdcard {
  m_preferred_type : sd_type;
  m_sectorbuf : list Z;
  m_blksize : Z;
  m_type : sd_type;
  m_csd : list Z;
  m_data : list Z;
  m_cmd : list Z;
  m_state : sd_state;
  m_ss : Z;
  m_in_bit : Z;
  m_clk_state : Z;
  m_in_latch : Z;
  m_out_latch : Z;
  m_cur_bit : Z;
  m_out_delay : Z;
  m_out_count : Z;
  m_out_ptr : Z;
  m_write_ptr : Z;
  m_xferblk : Z;
  m_blknext : Z;
  m_crc_off : bool;
  m_bACMD : bool;
  m_image : I
}.
Arguments mk_sdcard {I}. Arguments m_preferred_type {I}. Arguments m_sectorbuf {I}.
Arguments m_blksize {I}. Arguments m_type {I}. Arguments m_csd {I}. Arguments m_data {I}.
Arguments m_cmd {I}. Arguments m_state {I}. Arguments m_ss {I}. Arguments m_in_bit {I}.
Arguments m_clk_state {I}. Arguments m_in_latch {I}. Arguments m_out_latch {I}.
Arguments m_cur_bit {I}. Arguments m_out_delay {I}. Arguments m_out_count {I}.
Arguments m_out_ptr {I}. Arguments m_write_ptr {I}. Arguments m_xferblk {I}.
Arguments m_blknext {I}. Arguments m_crc_off {I}. Arguments m_bACMD {I}. Arguments m_image {I}.

#[export] Instance sdcard_eta I : Eta (sdcard I) := fun c =>
  mk_sdcard (m_preferred_type c) (m_sectorbuf c) (m_blksize c) (m_type c) (m_csd c) (m_data c)
    (m_cmd c) (m_state c) (m_ss c) (m_in_bit c) (m_clk_state c) (m_in_latch c) (m_out_latch c)
    (m_cur_bit c) (m_out_delay c) (m_out_count c) (m_out_ptr c) (m_write_ptr c) (m_xferblk c)
    (m_blknext c) (m_crc_off c) (m_bACMD c) (m_image c).

(** The size of [m_data]. *)
Definition DATA_SIZE : nat := 2048 + 8.

(** The constructor followed by [device_start]. *)
Definition new_sdcard {I} (image : I) : sdcard I :=
  mk_sdcard SD_TYPE_V2 [] 512 SD_TYPE_V2 (replicate 16 0) (replicate DATA_SIZE 0) (replicate 6 0xff)
    SD_STATE_IDLE 0 0 0 0 0xff 0 0 0 0 0 512 0 true false image.

(** ** Buffers *)

Definition at_ (l : list Z) (i : Z) : Z := nth (Z.to_nat i) l 0.
Definition poke (i v : Z) (l : list Z) : list Z := <[Z.to_nat i := v]> l.
(** [m |= v] at an index. *)
Definition poke_or (i v : Z) (l : list Z) : list Z := poke i (u8 (Z.lor (at_ l i) v)) l.
(** Consecutive bytes. *)
Definition poke_all (i : Z) (vs : list Z) (l : list Z) : list Z := list_inserts (Z.to_nat i) vs l.
(** A pointer into a buffer, to read from. *)
Definition from (i : Z) (l : list Z) : list Z := drop (Z.to_nat i) l.
(** The [n] bytes from [i] on. *)
Definition slice (i n : Z) (l : list Z) : list Z := take (Z.to_nat n) (from i l).

(** ** Mounting an image *)

(** The number of trailing zero bits, by the loop of the source. *)
Fixpoint trailing_zeros (fuel : nat) (x : Z) : Z * Z :=
  match fuel with
  | O => (x, 0)
  | S fuel => if BIT x 0 =? 0
              then let '(m, e) := trailing_zeros fuel (Z.shiftr x 1) in (m, u8 (1 + e))
              else (x, 0)
  end.

Definition has_single_bit (x : Z) : bool := (0 <? x) && (Z.land x (x - 1) =? 0).

Definition total_blocks (i : info) : Z := u64 (u64 (cylinders i * heads i) * sectors i).

Definition sd_ok (total_mant total_exp : Z) : bool :=
  (2 <=? total_exp)
  && (u64 (Z.shiftl total_mant (if 9 <? total_exp then total_exp - 9 else 0)) <=? Z.shiftl 1 12).
Definition sdhc_ok (sectorbytes total_mant total_exp : Z) : bool :=
  (512 =? sectorbytes) && (10 <=? total_exp)
  && (u64 (Z.shiftl total_mant (total_exp - 10)) <=? Z.shiftl 1 16).

Definition csd_common (block_size_exp : Z) (csd : list Z) : list Z :=
  let csd := poke 0 0x00 csd in
  let csd := poke 1 0x00 csd in
  let csd := poke 2 0x00 csd in
  let csd := poke 3 (Z.lor TRAN_SPEED_UNIT_10M TRAN_SPEED_VALUE_2_5) csd in
  let csd := poke 4 0x5b csd in
  let csd := poke 5 0x50 csd in
  let csd := poke_or 5 block_size_exp csd in
  let csd := poke 6 0x00 csd in
  let csd := poke 7 0x00 csd in
  let csd := poke 8 0x00 csd in
  let csd := poke 9 0x00 csd in
  let csd := poke 10 0x3f csd in
  let csd := poke 11 0x80 csd in
  let csd := poke 12 0x04 csd in
  let csd := poke_or 12 (BITw block_size_exp 2 2) csd in
  let csd := poke 13 0x00 csd in
  let csd := poke_or 13 (Z.shiftl (BITw block_size_exp 0 2) 6) csd in
  let csd := poke 14 0x00 csd in
  poke 15 0x01 csd.

Definition csd_sdhc (c_size : Z) (csd : list Z) : list Z :=
  let csd := poke_or 0 (Z.shiftl CSD_STRUCTURE_V20 6) csd in
  let csd := poke 1 (Z.lor TAAC_UNIT_1MS TAAC_VALUE_1_0) csd in
  let csd := poke_or 7 (BITw c_size 16 6) csd in
  let csd := poke_or 8 (BITw c_size 8 8) csd in
  poke_or 9 (BITw c_size 0 8) csd.

Definition csd_sd (c_size c_size_mult : Z) (csd : list Z) : list Z :=
  let csd := poke_or 0 (Z.shiftl CSD_STRUCTURE_V10 6) csd in
  let csd := poke 1 (Z.lor TAAC_UNIT_1MS TAAC_VALUE_1_5) csd in
  let csd := poke_or 6 0x80 csd in
  let csd := poke_or 6 (BITw c_size 10 2) csd in
  let csd := poke_or 7 (BITw c_size 2 8) csd in
  let csd := poke_or 8 (Z.shiftl (BITw c_size 0 2) 6) csd in
  let csd := poke_or 8 (Z.shiftl VDD_CURR_MIN_100MA 3) csd in
  let csd := poke_or 8 VDD_CURR_MAX_80MA csd in
  let csd := poke_or 9 (Z.shiftl VDD_CURR_MIN_100MA 5) csd in
  let csd := poke_or 9 (Z.shiftl VDD_CURR_MAX_80MA 2) csd in
  let csd := poke_or 9 (BITw c_size_mult 1 2) csd in
  let csd := poke_or 10 (Z.shiftl (BITw c_size_mult 0 1) 7) csd in
  poke_or 11 0x3f csd.

Section Card.
Context {I : Type} `{BlockImage I}.

(** [image_loaded]: true when the image is accepted. *)
Definition image_loaded (c : sdcard I) : option (bool * sdcard I) :=
  match image_info (m_image c) with
  | None => None
  | Some i =>
      let total_blocks := total_blocks i in
      if total_blocks =? 0 then Some (false, c)
      else if negb (has_single_bit (sectorbytes i)) || (sectorbytes i <? 512) || (2048 <? sectorbytes i)
      then Some (false, c)
      else
        let block_size_exp := (trailing_zeros 32 (sectorbytes i)).2 in
        let '(total_mant, total_exp) := trailing_zeros 64 total_blocks in
        let sd := sd_ok total_mant total_exp in
        let sdhc := sdhc_ok (sectorbytes i) total_mant total_exp in
        if negb sd && negb sdhc then Some (false, c)
        else
          let n := Z.to_nat (sectorbytes i) in
          let c := c <| m_sectorbuf ::= fun l => take n l ++ replicate (n - length l) 0 |> in
          let c := c <| m_xferblk := u16 (sectorbytes i) |> <| m_blksize := u16 (sectorbytes i) |> in
          let c := c <| m_crc_off := true |> <| m_csd ::= csd_common block_size_exp |> in
          if sdhc && (bool_decide (m_preferred_type c = SD_TYPE_HC) || negb sd) then
            let c_size := u32 (Z.shiftr total_blocks 10 - 1) in
            Some (true, c <| m_type := SD_TYPE_HC |> <| m_csd ::= csd_sdhc c_size |>)
          else
            let c_size_mult := u8 (Z.min total_exp 9 - 2) in
            let c_size := u16 (Z.shiftr total_blocks (c_size_mult + 2) - 1) in
            Some (true, c <| m_type := SD_TYPE_V2 |> <| m_csd ::= csd_sd c_size c_size_mult |>)
  end.

Definition image_unloaded (c : sdcard I) : sdcard I := c <| m_csd := replicate 16 0 |>.

(** ** Commands *)

Definition change_state (new_state : sd_state) (c : sdcard I) : sdcard I :=
  c <| m_state := new_state |>.

Definition send_data (count : Z) (new_state : sd_state) (delay : Z) (c : sdcard I) : sdcard I :=
  change_state new_state
    (c <| m_out_delay := u8 delay |> <| m_out_ptr := 0 |> <| m_out_count := u16 count |>).

(** The usual reply: bytes at the start of [m_data], sent after the delay. *)
Definition reply (bytes : list Z) (count : Z) (new_state : sd_state) (c : sdcard I) : sdcard I :=
  send_data count new_state SPI_DELAY_RESPONSE (c <| m_data ::= poke_all 0 bytes |>).

(** [m_image->read(lba, &m_data[pos])] and [m_image->write]. *)
Definition read_image (lba pos : Z) (c : sdcard I) : option (sdcard I) :=
  match image_read (m_image c) lba with
  | Some (_, bytes) => Some (c <| m_data ::= poke_all pos bytes |>)
  | None => None
  end.

(** The CRC of [n] bytes of [m_data] from [pos], stored behind them. *)
Definition store_crc (pos n : Z) (c : sdcard I) : sdcard I :=
  c <| m_data ::= poke_all (pos + n) (put_u16be (crc16_simple (slice pos n (m_data c)))) |>.

Definition cmd_go_idle (c : sdcard I) : sdcard I :=
  if image_exists (m_image c) then reply [0x01] 1 SD_STATE_IDLE c else reply [0x00] 1 SD_STATE_INA c.

Definition cmd_send_csd (c : sdcard I) : sdcard I :=
  reply ([0x00; 0xff; 0xfe] ++ m_csd c) (3 + 16) SD_STATE_STBY c.

(** CID: MM D MCARD, revision 1.0, the serial number, the date. *)
Definition cid : list Z :=
  [0x4d; 0x4d; 0x44; 0x4d; 0x43; 0x41; 0x52; 0x44; 0x10] ++ put_u32be 0x12345678 ++ [0x01; 0x59; 0x00].

Definition cmd_send_cid (c : sdcard I) : sdcard I :=
  let c := c <| m_data ::= poke_all 0 ([0x00; 0xff; 0xfe] ++ cid) |> in
  send_data (3 + 16 + 2) SD_STATE_STBY SPI_DELAY_RESPONSE (store_crc 3 16 c).

Definition cmd_set_blocklen (c : sdcard I) : sdcard I :=
  if image_exists (m_image c) then
    let blocklen := get_u16be (from 3 (m_cmd c)) in
    if negb (blocklen =? 0) && (bool_decide (m_type c = SD_TYPE_V2) || (blocklen =? m_blksize c))
       && (blocklen <=? m_blksize c)
    then reply [0x00] 1 SD_STATE_TRAN (c <| m_xferblk := blocklen |>)
    else reply [0x40] 1 SD_STATE_TRAN c
  else reply [0xff] 1 SD_STATE_TRAN c.

(** The range a byte address covers leaves its block. *)
Definition crosses_block (blk : Z) (c : sdcard I) : bool :=
  negb (blk / m_blksize c =? u32 (blk + (m_xferblk c - 1)) / m_blksize c).

Definition cmd_read_single (c : sdcard I) : option (sdcard I) :=
  if image_exists (m_image c) then
    let c := c <| m_data ::= poke_all 0 [0x00; 0xff; 0xfe] |> in
    let blk := get_u32be (from 1 (m_cmd c)) in
    if bool_decide (m_type c = SD_TYPE_V2) && crosses_block blk c then
      Some (reply [0x40] 1 SD_STATE_TRAN c)
    else if m_xferblk c =? m_blksize c then
      let blk := if bool_decide (m_type c = SD_TYPE_V2) then blk / m_blksize c else blk in
      match read_image blk 3 c with
      | Some c => Some (send_data (3 + m_xferblk c + 2) SD_STATE_DATA SPI_DELAY_RESPONSE
                          (store_crc 3 (m_xferblk c) c))
      | None => None
      end
    else
      match image_read (m_image c) (blk / m_blksize c) with
      | Some (_, bytes) =>
          let c := c <| m_sectorbuf ::= poke_all 0 bytes |> in
          let c := c <| m_data ::= poke_all 3 (slice (blk mod m_blksize c) (m_xferblk c) (m_sectorbuf c)) |> in
          Some (send_data (3 + m_xferblk c + 2) SD_STATE_DATA SPI_DELAY_RESPONSE
                  (store_crc 3 (m_xferblk c) c))
      | None => None
      end
  else Some (reply [0xff] 1 SD_STATE_TRAN c).

Definition cmd_read_multiple (c : sdcard I) : sdcard I :=
  if image_exists (m_image c) then
    if m_xferblk c =? m_blksize c then
      let blknext := get_u32be (from 1 (m_cmd c)) in
      let blknext := if bool_decide (m_type c = SD_TYPE_V2) then blknext / m_xferblk c else blknext in
      reply [0x00] 1 SD_STATE_DATA_MULTI (c <| m_blknext := blknext |>)
    else reply [0x40] 1 SD_STATE_TRAN c
  else reply [0xff] 1 SD_STATE_TRAN c.

Definition cmd_write_block (c : sdcard I) : sdcard I :=
  if negb (m_xferblk c =? m_blksize c) then reply [0x40] 1 SD_STATE_TRAN c
  else
    let c := c <| m_blknext := get_u32be (from 1 (m_cmd c)) |> in
    if bool_decide (m_type c = SD_TYPE_V2) && negb (m_blknext c mod m_blksize c =? 0)
    then reply [0x40] 1 SD_STATE_TRAN c
    else
      let c := if bool_decide (m_type c = SD_TYPE_V2)
               then c <| m_blknext ::= fun b => b / m_xferblk c |> else c in
      reply [0] 1 SD_STATE_WRITE_WAITFE c.

Definition cmd_read_ocr (c : sdcard I) : sdcard I :=
  reply [0; Z.lor 0x80 (if bool_decide (m_type c = SD_TYPE_V2) then 0 else 0x40); 0; 0; 0] 5 SD_STATE_DATA c.

(** The switch of [do_command]: whether the command is known, and its effect. *)
Definition run_command (c : sdcard I) : bool * option (sdcard I) :=
  let cmd := Z.land (at_ (m_cmd c) 0) 0x3f in
  if cmd =? 0 then (true, Some (cmd_go_idle c))
  else if cmd =? 1 then (true, Some (reply [0x00] 1 SD_STATE_READY c))
  else if cmd =? 8 then (true, Some (reply [0x01; 0; 0; 0x01; 0xaa] 5 SD_STATE_IDLE c))
  else if cmd =? 9 then (true, Some (cmd_send_csd c))
  else if cmd =? 10 then (true, Some (cmd_send_cid c))
  else if cmd =? 12 then
    (true, Some (reply [0] 1 (if bool_decide (m_state c = SD_STATE_RCV) then SD_STATE_PRG
                              else SD_STATE_TRAN) c))
  else if cmd =? 13 then (true, Some (reply [0; 0] 2 SD_STATE_STBY c))
  else if cmd =? 16 then (true, Some (cmd_set_blocklen c))
  else if cmd =? 17 then (true, cmd_read_single c)
  else if cmd =? 18 then (true, Some (cmd_read_multiple c))
  else if cmd =? 24 then (true, Some (cmd_write_block c))
  else if cmd =? 41 then
    (true, Some (if m_bACMD c then reply [0] 1 SD_STATE_READY c else reply [0xff] 1 SD_STATE_INA c))
  else if cmd =? 55 then (true, Some (reply [0x01] 1 SD_STATE_IDLE c))
  else if cmd =? 58 then (true, Some (cmd_read_ocr c))
  else if cmd =? 59 then
    (true, Some (reply [0] 1 SD_STATE_STBY (c <| m_crc_off := BIT (at_ (m_cmd c) 4) 0 =? 0 |>)))
  else (false, Some c).

Definition do_command (c : sdcard I) : option (sdcard I) :=
  if (Z.land (at_ (m_cmd c) 0) 0xc0 =? 0x40) && (test (at_ (m_cmd c) 5) 1 || m_crc_off c) then
    let '(clean_cmd, r) := run_command c in
    match r with
    | None => None
    | Some c =>
        let c := c <| m_bACMD := Z.land (at_ (m_cmd c) 0) 0x3f =? 55 |> in
        Some (if clean_cmd then c <| m_cmd := replicate 6 0xff |> else c)
    end
  else Some c.

(** ** Bytes from the host *)

(** A byte of a block being written. *)
Definition receive_data (c : sdcard I) : option (sdcard I) :=
  let c := c <| m_data ::= poke (m_write_ptr c) (m_in_latch c) |>
             <| m_write_ptr ::= fun p => u16 (p + 1) |> in
  if m_write_ptr c =? m_xferblk c + 2 then
    match image_write (m_image c) (m_blknext c) (m_data c) with
    | None => None
    | Some (ok, image) =>
        let c := c <| m_image := image |> in
        let response := if ok : bool then DATA_RESPONSE_OK else DATA_RESPONSE_IO_ERROR in
        Some (send_data 2 SD_STATE_IDLE 0 (c <| m_data ::= poke_all 0 [response; 0x01] |>))
    end
  else Some c.

(** The next block of a multiple-block read. *)
Definition next_block (c : sdcard I) : option (sdcard I) :=
  let c := c <| m_data ::= poke 0 0xfe |> in
  let blk := m_blknext c in
  let c := c <| m_blknext ::= fun b => u32 (b + 1) |> in
  match read_image blk 1 c with
  | None => None
  | Some c => Some (send_data (1 + m_blksize c + 2) SD_STATE_DATA_MULTI SPI_DELAY_RESPONSE
                      (store_crc 1 (m_blksize c) c))
  end.

(** A byte of a command. *)
Definition receive_command (c : sdcard I) : option (sdcard I) :=
  let c := c <| m_cmd ::= fun l => drop 1 l ++ [m_in_latch c] |> in
  if bool_decide (m_state c = SD_STATE_DATA_MULTI) then
    match do_command c with
    | None => None
    | Some c =>
        if bool_decide (m_state c = SD_STATE_DATA_MULTI) && (m_out_count c =? 0)
        then next_block c else Some c
    end
  else if bool_decide (m_state c = SD_STATE_IDLE)
          || ((Z.land (at_ (m_cmd c) 0) 0x70 =? 0x40) || (m_out_count c =? 0))
  then do_command c
  else Some c.

Definition receive_byte (c : sdcard I) : option (sdcard I) :=
  match m_state c with
  | SD_STATE_WRITE_WAITFE =>
      Some (if m_in_latch c =? 0xfe
            then c <| m_state := SD_STATE_WRITE_DATA |> <| m_out_latch := 0xff |> <| m_write_ptr := 0 |>
            else c)
  | SD_STATE_WRITE_DATA => receive_data c
  | _ => receive_command c
  end.

Definition latch_in (c : sdcard I) : option (sdcard I) :=
  let c := c <| m_in_latch ::= clear_bits 0x01 |> in
  let c := c <| m_in_latch ::= set_bits (m_in_bit c) |> in
  let c := c <| m_cur_bit ::= fun b => u8 (b + 1) |> in
  if m_cur_bit c =? 8 then receive_byte c else Some c.

(** [shift_out] up to the write of the data-out line. *)
Definition shift (c : sdcard I) : sdcard I :=
  let c := c <| m_in_latch ::= fun l => u8 (Z.shiftl l 1) |> in
  let c := c <| m_out_latch ::= fun l => u8 (Z.shiftl l 1) |> <| m_out_latch ::= set_bits 1 |> in
  let c := c <| m_cur_bit ::= fun b => Z.land b 0x07 |> in
  if m_cur_bit c =? 0 then
    if m_out_ptr c <? m_out_delay c then c <| m_out_ptr ::= fun p => u16 (p + 1) |>
    else if 0 <? m_out_count c then
      c <| m_out_latch := at_ (m_data c) (m_out_ptr c - m_out_delay c) |>
        <| m_out_ptr ::= fun p => u16 (p + 1) |> <| m_out_count ::= fun n => n - 1 |>
    else c
  else c.

(** ** The pins *)

Definition spi_ss_w (state : Z) (c : sdcard I) : sdcard I :=
  let c :=
    if (m_ss c =? 0) && negb (state =? 0) then
      c <| m_cmd := replicate 6 0xff |> <| m_state := SD_STATE_IDLE |> <| m_in_latch := 0 |>
        <| m_cur_bit := 0 |> <| m_out_latch := 0xff |> <| m_out_delay := 0 |> <| m_out_count := 0 |>
    else c in
  c <| m_ss := u8 state |>.

Definition spi_mosi_w (state : Z) (c : sdcard I) : sdcard I := c <| m_in_bit := u8 state |>.

Section Clock.
Context {W : Type} (write_miso : Z -> sdcard I * W -> option (sdcard I * W)).

Definition shift_out (cw : sdcard I * W) : option (sdcard I * W) :=
  let '(c, w) := cw in
  let c := shift c in
  write_miso (BIT (m_out_latch c) 7) (c, w).

Definition spi_clock_w (state : Z) (cw : sdcard I * W) : option (sdcard I * W) :=
  let '(c, w) := cw in
  let r :=
    if negb (m_ss c =? 0) && negb (state =? m_clk_state c) then
      if negb (state =? 0)
      then match latch_in c with Some c => Some (c, w) | None => None end
      else shift_out (c, w)
    else Some (c, w) in
  match r with
  | Some (c, w) => Some (c <| m_clk_state := u8 state |>, w)
  | None => None
  end.
End Clock.
End Card.
