(* ===== verification/SdCsd.v ===== *)
(** * SdCsd: mounting an image on the SD card

    What an accepted image looks like, and the capacity a host computes from
    the CSD register [image_loaded] builds. *)

From stdpp Require Import base tactics numbers option list.
From Stdlib Require Import ZArith Lia Bool.
From S2P Require Import Prelude Crc16 Harddisk SdCard.

(** ** What a host reads in the CSD *)

(** [csd_field csd msb lsb]: bits of the 128-bit register, sent first byte
    first. *)
Definition csd_value (csd : list Z) : Z := fold_left (fun x b => x * 256 + b) csd 0.
Definition csd_field (csd : list Z) (msb lsb : Z) : Z := csd_value csd / 2 ^ lsb mod 2 ^ (msb - lsb + 1).

(** The memory capacity by the formulas of the SD specification, for the two
    versions of the register. *)
Definition csd_capacity (csd : list Z) : Z :=
  if csd_field csd 127 126 =? 0
  then (csd_field csd 73 62 + 1) * 2 ^ (csd_field csd 49 47 + 2) * 2 ^ csd_field csd 83 80
  else (csd_field csd 69 48 + 1) * 2 ^ 19.

(** ** The loops of [image_loaded] *)

Lemma trailing_zeros_spec fuel x m e :
  (fuel <= 64)%nat -> 0 < x < 2 ^ Z.of_nat fuel -> trailing_zeros fuel x = (m, e) ->
  x = m * 2 ^ e /\ 0 < m /\ 0 <= e <= Z.of_nat fuel.
Proof.
  revert x m e. induction fuel as [|fuel IH]; intros x m e Hf Hx; [lia|].
  cbn [trailing_zeros]. rewrite BIT_testbit by lia. destruct (Z.testbit x 0) eqn:Eb; cbn [b2z Z.eqb].
  - intros [= <- <-]. rewrite Z.mul_1_r. lia.
  - destruct (trailing_zeros fuel (Z.shiftr x 1)) as [m' e'] eqn:E. intros [= <- <-].
    rewrite Z.shiftr_div_pow2 in E by lia. change (2 ^ 1) with 2 in E.
    assert (x mod 2 = 0) as Hm by (rewrite <- Z.bit0_mod, Eb; done).
    pose proof (Z.div_mod x 2 ltac:(lia)) as Hd. rewrite Hm in Hd.
    rewrite Nat2Z.inj_succ, Z.pow_succ_r in Hx by lia.
    destruct (IH (x / 2) m' e') as (E1 & Hm' & He'); [lia|lia|done|]. rewrite u8_id by lia.
    rewrite Z.pow_add_r by lia. change (2 ^ 1) with 2. lia.
Qed.

(** A single bit among the sector sizes a card may have. *)
Lemma single_bit_spec x : has_single_bit x = true -> exists k, 0 <= k /\ x = 2 ^ k.
Proof.
  unfold has_single_bit. rewrite andb_true_iff, Z.ltb_lt, Z.eqb_eq. intros [Hx E].
  exists (Z.log2 x). pose proof (Z.log2_spec x Hx) as Hl. pose proof (Z.log2_nonneg x) as Hk. split; [done|].
  destruct (Z.eq_dec x (2 ^ Z.log2 x)) as [|Hne]; [done|]. exfalso.
  assert (Z.testbit (Z.land x (x - 1)) (Z.log2 x) = true) as Hb; [|by rewrite E, Z.bits_0 in Hb].
  rewrite Z.land_spec, Z.bit_log2 by done.
  assert (Z.log2 (x - 1) = Z.log2 x) as <- by (apply Z.log2_unique; lia). apply Z.bit_log2.
  pose proof (Z.pow_pos_nonneg 2 (Z.log2 x)). lia.
Qed.

Lemma sector_size_spec x : has_single_bit x = true -> 512 <= x <= 2048 ->
  exists k, 9 <= k <= 11 /\ x = 2 ^ k /\ (trailing_zeros 32 x).2 = k.
Proof.
  intros Hs Hx. destruct (single_bit_spec x Hs) as (k & Hk & ->). exists k.
  assert (9 <= k <= 11) as Hk'.
  { split; apply Z.nlt_ge; intros Hlt.
    - assert (2 ^ k <= 2 ^ 8) by (apply Z.pow_le_mono_r; lia). change (2 ^ 8) with 256 in *. lia.
    - assert (2 ^ 12 <= 2 ^ k) by (apply Z.pow_le_mono_r; lia). change (2 ^ 12) with 4096 in *. lia. }
  split; [done|]. split; [done|].
  assert (k = 9 \/ k = 10 \/ k = 11) as [-> | [-> | ->]] by lia; vm_compute; reflexivity.
Qed.

(** The sizes an SD card of version 1 can express. *)
Lemma sd_ok_spec m e : 0 < m -> 0 <= e -> m * 2 ^ e < 2 ^ 64 -> sd_ok m e = true ->
  2 <= e /\ m * 2 ^ (e - Z.min e 9) <= 4096.
Proof.
  intros Hm He Hb. unfold sd_ok. rewrite andb_true_iff, !Z.leb_le. intros [H2 H3]. split; [done|].
  set (s := if 9 <? e then e - 9 else 0) in H3. change (Z.shiftl 1 12) with 4096 in H3.
  assert (s = e - Z.min e 9) as Es by (subst s; destruct (Z.ltb_spec 9 e); lia). rewrite Es in *. clear s Es.
  rewrite Z.shiftl_mul_pow2 in H3 by lia. rewrite u64_id in H3; [done|].
  split; [apply Z.mul_nonneg_nonneg; [lia|apply Z.pow_nonneg; lia]|].
  change 18446744073709551616 with (2 ^ 64). eapply Z.le_lt_trans; [|exact Hb].
  apply Z.mul_le_mono_nonneg_l; [lia|]. apply Z.pow_le_mono_r; lia.
Qed.

(** The sizes of a high-capacity card. *)
Lemma sdhc_ok_spec n m e : 0 < m -> 0 <= e -> m * 2 ^ e < 2 ^ 64 -> sdhc_ok n m e = true ->
  n = 512 /\ 10 <= e /\ m * 2 ^ (e - 10) <= 65536.
Proof.
  intros Hm He Hb. unfold sdhc_ok. rewrite !andb_true_iff, Z.eqb_eq, !Z.leb_le. intros [[H1 H2] H3].
  split; [done|]. split; [done|]. change (Z.shiftl 1 16) with 65536 in H3.
  rewrite Z.shiftl_mul_pow2 in H3 by lia. rewrite u64_id in H3; [done|].
  split; [apply Z.mul_nonneg_nonneg; [lia|apply Z.pow_nonneg; lia]|].
  change 18446744073709551616 with (2 ^ 64). eapply Z.le_lt_trans; [|exact Hb].
  apply Z.mul_le_mono_nonneg_l; [lia|]. apply Z.pow_le_mono_r; lia.
Qed.

Section Mount.
Context {I : Type} `{BlockImage I}.

(** How an accepted image is mounted: [k] is the exponent of the block size;
    a standard card counts [t * 2 ^ j] blocks, a high-capacity one [t * 2 ^ 10]. *)
Inductive mounted (i : info) (c c' : sdcard I) : Prop :=
  | mounted_sd k j t : sectorbytes i = 2 ^ k -> 9 <= k <= 11 -> 2 <= j <= 9 -> 0 < t <= 4096 ->
      total_blocks i = t * 2 ^ j -> m_type c' = SD_TYPE_V2 ->
      m_csd c' = csd_sd (t - 1) (j - 2) (csd_common k (m_csd c)) -> mounted i c c'
  | mounted_hc t : sectorbytes i = 512 -> 0 < t <= 65536 -> total_blocks i = t * 2 ^ 10 ->
      m_type c' = SD_TYPE_HC -> m_csd c' = csd_sdhc (t - 1) (csd_common 9 (m_csd c)) -> mounted i c c'.

(** What mounting leaves of a card. *)
Definition unmounted (c : sdcard I) :=
  (m_ss c, (m_preferred_type c, m_data c, m_cmd c, m_state c, m_in_bit c, m_clk_state c),
   (m_in_latch c, m_out_latch c, m_cur_bit c, m_out_delay c, m_out_count c, m_out_ptr c),
   (m_write_ptr c, m_blknext c, m_bACMD c, m_image c)).

Lemma split_exponent m e j : 0 < m -> 0 <= j <= e ->
  m * 2 ^ e = m * 2 ^ (e - j) * 2 ^ j /\ 0 < m * 2 ^ (e - j).
Proof.
  intros Hm Hj. pose proof (Z.pow_pos_nonneg 2 (e - j)). split; [|nia].
  rewrite <- Z.mul_assoc, <- Z.pow_add_r by lia. do 2 f_equal. lia.
Qed.

Lemma shiftr_exact t e : 0 <= e -> Z.shiftr (t * 2 ^ e) e = t.
Proof. intros He. rewrite Z.shiftr_div_pow2 by done. apply Z.div_mul. pose proof (Z.pow_pos_nonneg 2 e). lia. Qed.

Lemma image_loaded_mounts (c c' : sdcard I) : image_loaded c = Some (true, c') ->
  exists i, image_info (m_image c) = Some i /\ mounted i c c' /\ unmounted c' = unmounted c /\
    m_xferblk c' = sectorbytes i /\ m_blksize c' = sectorbytes i /\ m_crc_off c' = true.
Proof.
  unfold image_loaded. destruct (image_info (m_image c)) as [i|]; [|done].
  destruct (Z.eqb_spec (total_blocks i) 0) as [|Hne]; [done|].
  destruct (has_single_bit (sectorbytes i)) eqn:Hs; [|done].
  destruct (Z.ltb_spec (sectorbytes i) 512); [done|]. destruct (Z.ltb_spec 2048 (sectorbytes i)); [done|].
  cbn [negb orb]. destruct (sector_size_spec _ Hs) as (k & Hk & Esb & Ek); [lia|]. rewrite Ek.
  assert (0 <= total_blocks i < 2 ^ 64) as Ht by (apply Z.mod_pos_bound; lia).
  destruct (trailing_zeros 64 (total_blocks i)) as [m e] eqn:Etz.
  destruct (trailing_zeros_spec 64 (total_blocks i) m e) as (Em & Hm & He); [lia|change (Z.of_nat 64) with 64; lia|done|].
  rewrite Em in Ht.
  assert (u16 (sectorbytes i) = sectorbytes i) as -> by (apply u16_id; lia).
  destruct (negb (sd_ok m e) && negb _) eqn:Hok; [done|].
  destruct (sdhc_ok (sectorbytes i) m e && _) eqn:Hhc.
  - apply andb_true_iff in Hhc as [Hhc _].
    destruct (sdhc_ok_spec (sectorbytes i) m e) as (E512 & H10 & Hmax); [lia..|done|].
    destruct (split_exponent m e 10 ltac:(lia) ltac:(lia)) as (Et & Hpos).
    intros [= <-]. exists i. split; [done|]. split; [|by split_and!].
    apply (mounted_hc i _ _ (m * 2 ^ (e - 10))); [done|lia|congruence|done|].
    assert (k = 9) as -> by (apply (Z.pow_inj_r 2); lia).
    assert (u32 (Z.shiftr (total_blocks i) 10 - 1) = m * 2 ^ (e - 10) - 1) as <-; [|done].
    rewrite Em, Et, shiftr_exact by lia. apply u32_id. lia.
  - destruct (sd_ok m e) eqn:Hsd.
    2: { cbn [negb andb] in Hok. apply negb_false_iff in Hok. rewrite Hok, orb_true_r in Hhc. done. }
    destruct (sd_ok_spec m e) as (H2 & Hmax); [lia..|done|].
    destruct (split_exponent m e (Z.min e 9) ltac:(lia) ltac:(lia)) as (Et & Hpos).
    intros [= <-]. exists i. split; [done|]. split; [|by split_and!].
    apply (mounted_sd i _ _ k (Z.min e 9) (m * 2 ^ (e - Z.min e 9))); [done|done|lia|lia|congruence|done|].
    assert (u8 (Z.min e 9 - 2) = Z.min e 9 - 2) as Eu by (apply u8_id; lia). rewrite Eu.
    assert (u16 (Z.shiftr (total_blocks i) (Z.min e 9 - 2 + 2) - 1) = m * 2 ^ (e - Z.min e 9) - 1) as <-; [|done].
    rewrite Em, Et, Z.sub_add, shiftr_exact by lia. apply u16_id. lia.
Qed.
End Mount.

(** ** The register *)

Lemma csd_field_spec csd msb lsb high field low :
  0 <= lsb <= msb -> csd_value csd = high * 2 ^ (msb + 1) + field * 2 ^ lsb + low ->
  0 <= field < 2 ^ (msb - lsb + 1) -> 0 <= low < 2 ^ lsb -> csd_field csd msb lsb = field.
Proof.
  intros Hb E Hf Hl. unfold csd_field. rewrite E.
  replace (msb + 1) with (msb - lsb + 1 + lsb) by lia. rewrite Z.pow_add_r by lia.
  replace (high * (2 ^ (msb - lsb + 1) * 2 ^ lsb) + field * 2 ^ lsb + low)
    with ((high * 2 ^ (msb - lsb + 1) + field) * 2 ^ lsb + low) by lia.
  rewrite Z.div_add_l, Z.div_small, Z.add_0_r by lia.
  rewrite Z.add_comm, Z.mod_add by lia. by apply Z.mod_small.
Qed.

Lemma BITw_div x n w : 0 <= n -> 0 <= w -> BITw x n w = x / 2 ^ n mod 2 ^ w.
Proof. intros Hn Hw. unfold BITw. by rewrite Z.land_ones, Z.shiftr_div_pow2 by done. Qed.

Lemma or_two_bits v : 0 <= v < 4 ->
  u8 (Z.lor (u8 (Z.lor 0 128)) v) = 128 + v /\
  u8 (Z.lor (u8 (Z.lor (u8 (Z.lor 0 (Z.shiftl v 6))) 56)) 6) = 64 * v + 62 /\
  u8 (Z.lor (u8 (Z.lor (u8 (Z.lor 0 224)) 24)) v) = 248 + v /\
  u8 (Z.lor 4 v) = 4 + v /\ u8 (Z.lor 0 (Z.shiftl v 6)) = 64 * v.
Proof. intros Hv. assert (v = 0 \/ v = 1 \/ v = 2 \/ v = 3) as [-> | [-> | [-> | ->]]] by lia; done. Qed.

Lemma csd_sd_bytes k t j csd : length csd = 16%nat -> 9 <= k <= 11 -> 0 <= t < 4096 -> 0 <= j < 8 ->
  csd_sd t j (csd_common k csd) =
    [0x00; 0x26; 0x00; 0x32; 0x5b; 0x50 + k; 0x80 + t / 1024; t / 4 mod 256; 64 * (t mod 4) + 62;
     248 + j / 2; 0x3f + 128 * (j mod 2); 0xbf; 4 + k / 4; 64 * (k mod 4); 0x00; 0x01].
Proof.
  intros Hl Hk Ht Hj. do 16 (destruct csd as [|? csd]; [done|]). destruct csd; [|done].
  unfold csd_sd, csd_common. rewrite !BITw_div by lia.
  change (2 ^ 0) with 1. change (2 ^ 1) with 2. change (2 ^ 2) with 4. change (2 ^ 8) with 256. change (2 ^ 10) with 1024.
  rewrite !Z.div_1_r. 
  pose proof (Z.mod_pos_bound (t / 1024) 4 ltac:(lia)) as B1. pose proof (Z.mod_pos_bound t 4 ltac:(lia)) as B2.
  pose proof (Z.mod_pos_bound (j / 2) 4 ltac:(lia)) as B3. pose proof (Z.mod_pos_bound k 4 ltac:(lia)) as B4.
  pose proof (Z.mod_pos_bound (k / 4) 4 ltac:(lia)) as B5. pose proof (Z.mod_pos_bound (t / 4) 256 ltac:(lia)) as B6.
  destruct (or_two_bits _ B1) as (E1 & _). destruct (or_two_bits _ B2) as (_ & E2 & _).
  destruct (or_two_bits _ B3) as (_ & _ & E3 & _). destruct (or_two_bits _ B4) as (_ & _ & _ & _ & E4).
  destruct (or_two_bits _ B5) as (_ & _ & _ & E5 & _).
  unfold poke_or, poke, at_.
  cbv -[u8 Z.lor Z.shiftl Z.modulo Z.div Z.add Z.mul].
  change (Z.shiftl 7 3) with 56. change (Z.shiftl 7 5) with 224. change (Z.shiftl 6 2) with 24.
  rewrite E1, E2, E3, E4, E5.
  assert ((t / 1024) mod 4 = t / 1024) as ->
    by (apply Z.mod_small; split; [apply Z.div_pos|apply Z.div_lt_upper_bound]; lia).
  assert ((j / 2) mod 4 = j / 2) as ->
    by (apply Z.mod_small; split; [apply Z.div_pos|apply Z.div_lt_upper_bound]; lia).
  assert (u8 (Z.lor 0 ((t / 4) mod 256)) = (t / 4) mod 256) as -> by (rewrite Z.lor_0_l; by apply u8_id).
  assert (u8 (Z.lor 63 (Z.shiftl (j mod 2) 7)) = 63 + 128 * (j mod 2)) as ->
    by (pose proof (Z.mod_pos_bound j 2 ltac:(lia)); assert (j mod 2 = 0 \/ j mod 2 = 1) as [-> | ->] by lia; done).
  assert (u8 (Z.lor 80 k) = 80 + k /\ (k / 4) mod 4 = k / 4) as [-> ->]
    by (assert (k = 9 \/ k = 10 \/ k = 11) as [-> | [-> | ->]] by lia; done).
  reflexivity.
Qed.

Lemma csd_sdhc_bytes t csd : length csd = 16%nat -> 0 <= t < 65536 ->
  csd_sdhc t (csd_common 9 csd) =
    [0x40; 0x0e; 0x00; 0x32; 0x5b; 0x59; 0x00; 0x00; t / 256; t mod 256; 0x3f; 0x80; 0x06; 0x40; 0x00; 0x01].
Proof.
  intros Hl Ht. do 16 (destruct csd as [|? csd]; [done|]). destruct csd; [|done].
  unfold csd_sdhc. rewrite !BITw_div by lia.
  change (2 ^ 0) with 1. change (2 ^ 6) with 64. change (2 ^ 8) with 256. change (2 ^ 16) with 65536.
  rewrite Z.div_1_r, (Z.div_small t 65536), (Z.mod_small (t / 256) 256)
    by (lia || (split; [apply Z.div_pos|apply Z.div_lt_upper_bound]; lia)).
  assert (0 <= t / 256 < 256) as B1 by (split; [apply Z.div_pos|apply Z.div_lt_upper_bound]; lia).
  pose proof (Z.mod_pos_bound t 256 ltac:(lia)) as B2.
  unfold poke_or, poke, at_, csd_common.
  cbv -[u8 Z.lor Z.shiftl Z.modulo Z.div Z.add Z.mul].
  rewrite !Z.lor_0_l, (u8_id (t / 256)), (u8_id (t mod 256)) by done. reflexivity.
Qed.

(** *** The fields *)

Lemma div_mod_bounds x y : 0 <= x -> 0 < y -> x = y * (x / y) + x mod y /\ 0 <= x mod y < y /\ 0 <= x / y.
Proof.
  intros Hx Hy. split; [apply Z.div_mod; lia|]. split; [by apply Z.mod_pos_bound|by apply Z.div_pos; lia].
Qed.

(** The fields in terms of the sixteen bytes. *)
Section Fields.
Context (b0 b1 b2 b3 b4 b5 b6 b7 b8 b9 b10 b11 b12 b13 b14 b15 : Z).
Let csd := [b0; b1; b2; b3; b4; b5; b6; b7; b8; b9; b10; b11; b12; b13; b14; b15].
Context (Hb : Forall (fun b => 0 <= b < 256) csd).

Ltac field high low :=
  unfold csd in Hb; repeat match goal with H : Forall _ (_ :: _) |- _ => apply Forall_cons in H as [? H] end;
  apply (csd_field_spec csd _ _ high _ low); unfold csd, csd_value; cbn [fold_left];
  repeat match goal with |- context [2 ^ ?e] => let v := eval vm_compute in (2 ^ e) in change (2 ^ e) with v end;
  Z.to_euclidean_division_equations; lia.

Lemma field_structure : csd_field csd 127 126 = b0 / 64.
Proof. field 0 (csd_value [b0 mod 64; b1; b2; b3; b4; b5; b6; b7; b8; b9; b10; b11; b12; b13; b14; b15]). Qed.
Lemma field_block_length : csd_field csd 83 80 = b5 mod 16.
Proof.
  field (csd_value [b0; b1; b2; b3; b4] * 16 + b5 / 16) (csd_value [b6; b7; b8; b9; b10; b11; b12; b13; b14; b15]).
Qed.
Lemma field_size : csd_field csd 73 62 = (b6 mod 4) * 1024 + b7 * 4 + b8 / 64.
Proof.
  field (csd_value [b0; b1; b2; b3; b4; b5] * 64 + b6 / 4)
    (csd_value [b8 mod 64; b9; b10; b11; b12; b13; b14; b15]).
Qed.
Lemma field_multiplier : csd_field csd 49 47 = (b9 mod 4) * 2 + b10 / 128.
Proof.
  field (csd_value [b0; b1; b2; b3; b4; b5; b6; b7; b8] * 64 + b9 / 4)
    (csd_value [b10 mod 128; b11; b12; b13; b14; b15]).
Qed.
Lemma field_size_2 : csd_field csd 69 48 = (b7 mod 64) * 65536 + b8 * 256 + b9.
Proof.
  field (csd_value [b0; b1; b2; b3; b4; b5; b6] * 4 + b7 / 64) (csd_value [b10; b11; b12; b13; b14; b15]).
Qed.
End Fields.

Ltac bytes := repeat apply Forall_cons_2; [Z.to_euclidean_division_equations; lia..|apply Forall_nil_2].

Lemma csd_sd_capacity k t j csd : length csd = 16%nat -> 9 <= k <= 11 -> 0 <= t < 4096 -> 0 <= j < 8 ->
  csd_capacity (csd_sd t j (csd_common k csd)) = (t + 1) * 2 ^ (j + 2) * 2 ^ k.
Proof.
  intros Hl Hk Ht Hj. rewrite (csd_sd_bytes k t j csd) by done. unfold csd_capacity.
  rewrite field_structure, field_block_length, field_size, field_multiplier by bytes.
  change (0 / 64 =? 0) with true. cbv iota.
  assert ((128 + t / 1024) mod 4 * 1024 + (t / 4) mod 256 * 4 + (64 * (t mod 4) + 62) / 64 = t) as ->
    by (Z.to_euclidean_division_equations; lia).
  assert ((248 + j / 2) mod 4 * 2 + (63 + 128 * (j mod 2)) / 128 = j) as ->
    by (Z.to_euclidean_division_equations; lia).
  assert ((80 + k) mod 16 = k) as -> by (Z.to_euclidean_division_equations; lia).
  reflexivity.
Qed.

Lemma csd_sdhc_capacity t csd : length csd = 16%nat -> 0 <= t < 65536 ->
  csd_capacity (csd_sdhc t (csd_common 9 csd)) = (t + 1) * 2 ^ 19.
Proof.
  intros Hl Ht. rewrite (csd_sdhc_bytes t csd) by done. unfold csd_capacity.
  rewrite field_structure, field_size_2 by bytes.
  change (64 / 64 =? 0) with false. cbv iota. change (0 mod 64) with 0.
  assert (0 * 65536 + t / 256 * 256 + t mod 256 = t) as -> by (Z.to_euclidean_division_equations; lia). reflexivity.
Qed.

Section Capacity.
Context {I : Type} `{BlockImage I}.

(** C28: The card that accepts an image announces exactly the image's size: the
    capacity a host computes from the CSD register, by the formulas of the SD
    specification for either version, is the image's [total_blocks] times its
    [sectorbytes], and the block size is the one the transfers use. *)
Theorem csd_announces_capacity (c c' : sdcard I) :
  length (m_csd c) = 16%nat -> image_loaded c = Some (true, c') ->
  exists i, image_info (m_image c) = Some i /\
    csd_capacity (m_csd c') = total_blocks i * sectorbytes i /\
    csd_field (m_csd c') 83 80 = Z.log2 (m_blksize c') /\ m_xferblk c' = m_blksize c' /\
    (csd_field (m_csd c') 127 126 = 0 <-> m_type c' = SD_TYPE_V2).
Proof.
  intros Hl E. destruct (image_loaded_mounts c c' E) as (i & Ei & M & _ & Ex & Eb & _).
  exists i. split; [done|]. rewrite Ex, Eb.
  destruct M as [k j t Es Hk Hj Ht Et Ety ->|t Es Ht Et Ety ->].
  - rewrite csd_sd_capacity, Et, Es, Ety, Z.log2_pow2 by (done || lia).
    split; [by replace (t - 1 + 1) with t by lia; replace (j - 2 + 2) with j by lia|].
    rewrite csd_sd_bytes by (done || lia). 
    rewrite field_structure, field_block_length by bytes.
    split; [Z.to_euclidean_division_equations; lia|done].
  - rewrite csd_sdhc_capacity, Et, Es, Ety by (done || lia).
    split; [change 512 with (2 ^ 9); change (2 ^ 19) with (2 ^ 10 * 2 ^ 9); lia|].
    rewrite csd_sdhc_bytes by (done || lia).
    rewrite field_structure, field_block_length by bytes.
    done.
Qed.
End Capacity.

(** Thirty-two blocks of 512 bytes. *)
Lemma csd_announces_capacity_witness :
  let disk : option memdisk := Some (mk_hard_disk (backed_by_file [] 0) (mk_info 4 2 4 512)) in
  match image_loaded (new_sdcard disk) with
  | Some (true, c') => csd_capacity (m_csd c') = 16384
  | _ => False
  end.
Proof.
  intros disk. assert (match image_loaded (new_sdcard disk) with Some (true, _) => True | _ => False end) as A
    by (vm_compute; exact I).
  destruct (image_loaded (new_sdcard disk)) as [[[] c']|] eqn:E; [|destruct A..].
  destruct (csd_announces_capacity (new_sdcard disk) c' eq_refl E) as (i & Hi & Ec & _).
  injection Hi as <-. exact Ec.
Defined.
