(* ===== verification/SdSpi.v ===== *)
(** * SdSpi: the SD card seen through its pins, byte by byte

    Eight clock cycles with the card selected are one exchange: the byte in the
    output latch goes to the host, most significant bit first, the byte on the
    input is handed to [receive_byte], and the next byte to send is loaded.  On
    top of the exchange the card's output is a queue of bytes. *)

From stdpp Require Import base tactics numbers option list.
From Stdlib Require Import ZArith Lia Bool.
From S2P Require Import Prelude Crc16 Harddisk SdCard.

(** ** One byte *)

Section Exchange.
Context {I : Type} `{BlockImage I}.

(** The board, reduced to a record of the levels of the data-out line. *)
Definition record_miso (level : Z) (cw : sdcard I * list Z) : option (sdcard I * list Z) :=
  Some (cw.1, cw.2 ++ [level]).

(** One bit: the host sets its data line and pulses the clock. *)
Definition bit_cycle (bit : Z) (cw : sdcard I * list Z) : option (sdcard I * list Z) :=
  match spi_clock_w record_miso 1 (spi_mosi_w bit cw.1, cw.2) with
  | Some cw => spi_clock_w record_miso 0 cw
  | None => None
  end.

(** One byte, most significant bit first. *)
Fixpoint bit_cycles (k : nat) (byte : Z) (cw : sdcard I * list Z) : option (sdcard I * list Z) :=
  match k with
  | O => Some cw
  | S k => match bit_cycle (BIT byte (Z.of_nat k)) cw with
           | Some cw => bit_cycles k byte cw
           | None => None
           end
  end.

(** The exchange of a byte. *)
Definition exchange (byte : Z) (c : sdcard I) : option (Z * sdcard I) :=
  let latched := c <| m_in_bit := BIT byte 0 |> <| m_in_latch := byte |> <| m_cur_bit := 8 |>
                   <| m_out_latch := Z.lor (Z.shiftl (BIT (m_out_latch c) 0) 7) 0x7f |> in
  match receive_byte latched with
  | Some c' => Some (m_out_latch c, shift c' <| m_clk_state := 0 |>)
  | None => None
  end.

(** The card between two bytes, selected. *)
Record aligned (c : sdcard I) : Prop := mk_aligned {
  al_ss : m_ss c <> 0;
  al_clk : m_clk_state c = 0;
  al_bit : m_cur_bit c = 0;
  al_in : is_u8 (m_in_latch c);
  al_out : is_u8 (m_out_latch c)
}.

Lemma shiftl1_bit x n : 1 <= n < 8 -> Z.testbit (u8 (Z.shiftl x 1)) n = Z.testbit x (n - 1).
Proof. intros Hn. by rewrite testbit_u8, Z.shiftl_spec by lia. Qed.
Lemma shiftl1_bit0 x : Z.testbit (u8 (Z.shiftl x 1)) 0 = false.
Proof. rewrite testbit_u8, Z.shiftl_spec by lia. by apply Z.testbit_neg_r. Qed.

(** The input latch after the rising edge. *)
Definition latch_bit (b l : Z) : Z := set_bits b (clear_bits 1 l).
Lemma latch_bit_spec b l n : 0 <= n < 8 -> b = 0 \/ b = 1 ->
  Z.testbit (latch_bit b l) n = if n =? 0 then b =? 1 else Z.testbit l n.
Proof.
  intros Hn Hb. unfold latch_bit. rewrite testbit_set_bits, testbit_clear_bits by done.
  destruct (Z.eqb_spec n 0) as [->|Hne].
  - rewrite andb_false_r. by destruct Hb as [-> | ->].
  - assert (Z.testbit 1 n = false) as E by (apply (Z.pow2_bits_false 0); lia).
    rewrite E, andb_true_r. destruct Hb as [-> | ->]; by rewrite ?Z.bits_0, ?E, orb_false_r.
Qed.

(** A bit that is not the last one of its byte. *)
Lemma bit_cycle_inner b l o k x (c0 : sdcard I) w :
  m_ss c0 <> 0 -> 0 <= k < 7 -> x = 0 \/ x = 1 ->
  let o' := set_bits 1 (u8 (Z.shiftl o 1)) in
  bit_cycle x (c0 <| m_in_bit := b |> <| m_in_latch := l |> <| m_cur_bit := k |> <| m_out_latch := o |>
                  <| m_clk_state := 0 |>, w) =
    Some (c0 <| m_in_bit := x |> <| m_in_latch := u8 (Z.shiftl (latch_bit x l) 1) |>
             <| m_cur_bit := k + 1 |> <| m_out_latch := o' |> <| m_clk_state := 0 |>, w ++ [BIT o' 7]).
Proof.
  intros Hs Hk Hx o'. subst o'. unfold bit_cycle, spi_clock_w, spi_mosi_w, latch_in.
  assert (u8 x = x) as -> by (destruct Hx as [-> | ->]; done).
  assert (k = 0 \/ k = 1 \/ k = 2 \/ k = 3 \/ k = 4 \/ k = 5 \/ k = 6) as Hc by lia.
  repeat destruct Hc as [-> | Hc]; [..|subst k];
    cbn -[Z.eqb Z.add u8 Z.shiftl set_bits clear_bits BIT Z.land];
    (destruct (Z.eqb_spec (m_ss c0) 0); [done|]);
    change (0 =? 0) with true; change (1 =? 0) with false; cbn [negb andb];
    match goal with |- context [?y =? 8] => change (y =? 8) with false end; cbv iota;
    cbn -[Z.eqb Z.add u8 Z.shiftl set_bits clear_bits BIT Z.land shift_out];
    (destruct (Z.eqb_spec (m_ss c0) 0); [done|]);
    change (0 =? u8 1) with false; cbn [negb andb];
    reflexivity.
Qed.

(** The loading part of [shift]. *)
Definition load (c : sdcard I) : sdcard I :=
  if m_cur_bit c =? 0 then
    if m_out_ptr c <? m_out_delay c then c <| m_out_ptr ::= fun p => u16 (p + 1) |>
    else if 0 <? m_out_count c then
      c <| m_out_latch := at_ (m_data c) (m_out_ptr c - m_out_delay c) |>
        <| m_out_ptr ::= fun p => u16 (p + 1) |> <| m_out_count ::= fun n => n - 1 |>
    else c
  else c.
Definition shift_regs (c : sdcard I) : sdcard I :=
  c <| m_in_latch ::= fun l => u8 (Z.shiftl l 1) |>
    <| m_out_latch ::= fun l => u8 (Z.shiftl l 1) |> <| m_out_latch ::= set_bits 1 |>
    <| m_cur_bit ::= fun b => Z.land b 0x07 |>.
Lemma shift_load (c : sdcard I) : shift c = load (shift_regs c).
Proof. reflexivity. Qed.

Lemma load_clk (c : sdcard I) v : load (c <| m_clk_state := v |>) = load c <| m_clk_state := v |>.
Proof.
  unfold load. change (m_cur_bit (c <| m_clk_state := v |>)) with (m_cur_bit c).
  change (m_out_ptr (c <| m_clk_state := v |>)) with (m_out_ptr c).
  change (m_out_delay (c <| m_clk_state := v |>)) with (m_out_delay c).
  change (m_out_count (c <| m_clk_state := v |>)) with (m_out_count c).
  by destruct (m_cur_bit c =? 0), (m_out_ptr c <? m_out_delay c), (0 <? m_out_count c).
Qed.
Lemma shift_clk (c : sdcard I) v : shift (c <| m_clk_state := v |>) = shift c <| m_clk_state := v |>.
Proof. rewrite !shift_load, <- load_clk. done. Qed.

(** The part of [latch_in] before a byte is complete. *)
Definition latch_regs (c : sdcard I) : sdcard I :=
  c <| m_in_latch ::= clear_bits 0x01 |> <| m_in_latch ::= set_bits (m_in_bit c) |>
    <| m_cur_bit ::= fun b => u8 (b + 1) |>.
Lemma latch_in_regs (c : sdcard I) :
  latch_in c = if m_cur_bit (latch_regs c) =? 8 then receive_byte (latch_regs c) else Some (latch_regs c).
Proof. reflexivity. Qed.

(** The two edges. *)
Lemma clock_rise (c : sdcard I) w : m_ss c <> 0 -> m_clk_state c = 0 ->
  spi_clock_w record_miso 1 (c, w) =
    match latch_in c with Some c' => Some (c' <| m_clk_state := 1 |>, w) | None => None end.
Proof.
  intros Hs Hc. unfold spi_clock_w. rewrite Hc. destruct (Z.eqb_spec (m_ss c) 0); [done|].
  cbn [Z.eqb negb andb]. by destruct (latch_in c).
Qed.
Lemma clock_fall (c : sdcard I) w : m_ss c <> 0 -> m_clk_state c = 1 ->
  spi_clock_w record_miso 0 (c, w) =
    Some (shift c <| m_clk_state := 0 |>, w ++ [BIT (m_out_latch (shift c)) 7]).
Proof.
  intros Hs Hc. unfold spi_clock_w. rewrite Hc. destruct (Z.eqb_spec (m_ss c) 0); [done|].
  cbn [Z.eqb negb andb]. reflexivity.
Qed.

(** The last bit of a byte: the byte is received and the next one loaded. *)
Lemma latch_regs_last b l o x (c0 : sdcard I) : x = 0 \/ x = 1 ->
  latch_regs (spi_mosi_w x (c0 <| m_in_bit := b |> <| m_in_latch := l |> <| m_cur_bit := 7 |> <| m_out_latch := o |>
                  <| m_clk_state := 0 |>)) =
  c0 <| m_in_bit := x |> <| m_in_latch := latch_bit x l |> <| m_cur_bit := 8 |> <| m_out_latch := o |> <| m_clk_state := 0 |>.
Proof. intros [-> | ->]; reflexivity. Qed.

Lemma clk_twice (c : sdcard I) : c <| m_clk_state := 1 |> <| m_clk_state := 0 |> = c <| m_clk_state := 0 |>.
Proof. reflexivity. Qed.

Lemma bit_cycle_last x (c : sdcard I) w :
  m_ss c <> 0 -> m_clk_state c = 0 -> m_cur_bit c = 7 ->
  (forall c c', receive_byte c = Some c' -> m_ss c' = m_ss c) ->
  bit_cycle x (c, w) =
    match receive_byte (latch_regs (spi_mosi_w x c)) with
    | Some c' => Some (shift c' <| m_clk_state := 0 |>, w ++ [BIT (m_out_latch (shift c')) 7])
    | None => None
    end.
Proof.
  intros Hs Hk Hb Hr. unfold bit_cycle. cbn [fst snd]. rewrite clock_rise by done.
  rewrite latch_in_regs.
  assert (m_cur_bit (latch_regs (spi_mosi_w x c)) = 8) as E8
    by (change (u8 (m_cur_bit c + 1) = 8); by rewrite Hb).
  rewrite E8. cbn [Z.eqb Pos.eqb]. 
  assert (m_ss (latch_regs (spi_mosi_w x c)) = m_ss c) as Ess by done. clear E8.
  generalize dependent (latch_regs (spi_mosi_w x c)). intros c2 Ess.
  destruct (receive_byte c2) as [c'|] eqn:E; [|done]. apply Hr in E.
  rewrite clock_fall; [|change (m_ss c' <> 0); congruence|done]. rewrite shift_clk.
  generalize (shift c'). intros c3. by rewrite clk_twice.
Qed.

(** The card [k] bits into a byte. *)
Definition midway (c0 : sdcard I) (k b l o : Z) : sdcard I :=
  c0 <| m_in_bit := b |> <| m_in_latch := l |> <| m_cur_bit := k |> <| m_out_latch := o |> <| m_clk_state := 0 |>.

(** What the latches hold then. *)
Record latches (byte out0 k l o : Z) : Prop := mk_latches {
  latches_in_u8 : is_u8 l;
  latches_out_u8 : is_u8 o;
  latches_in : forall j, 1 <= j <= k -> Z.testbit l j = Z.testbit byte (7 - k + j);
  latches_out : forall j, 0 <= j < 8 -> Z.testbit o j = if j <? k then true else Z.testbit out0 (j - k)
}.

Lemma BIT_01 x n : 0 <= n -> BIT x n = 0 \/ BIT x n = 1.
Proof. intros Hn. rewrite BIT_testbit by done. destruct (Z.testbit x n); auto. Qed.
Lemma BIT_is_1 x n : 0 <= n -> (BIT x n =? 1) = Z.testbit x n.
Proof. intros Hn. rewrite BIT_testbit by done. by destruct (Z.testbit x n). Qed.

Lemma latches_step byte out0 k l o :
  0 <= k < 7 -> latches byte out0 k l o ->
  latches byte out0 (k + 1) (u8 (Z.shiftl (latch_bit (BIT byte (7 - k)) l) 1)) (set_bits 1 (u8 (Z.shiftl o 1))).
Proof.
  intros Hk [Hl Ho Li Lo]. split; [apply u8_range|apply u8_range| |].
  - intros j Hj. rewrite shiftl1_bit, latch_bit_spec by (lia || (apply BIT_01; lia)).
    destruct (Z.eqb_spec (j - 1) 0) as [E|].
    + rewrite BIT_is_1 by lia. f_equal. lia.
    + rewrite Li by lia. f_equal. lia.
  - intros j Hj. rewrite testbit_set_bits by done. destruct (Z.eq_dec j 0) as [->|].
    + rewrite orb_true_r. destruct (Z.ltb_spec 0 (k + 1)); [done|lia].
    + assert (Z.testbit 1 j = false) as -> by (apply (Z.pow2_bits_false 0); lia).
      rewrite orb_false_r, shiftl1_bit, Lo by lia.
      destruct (Z.ltb_spec (j - 1) k), (Z.ltb_spec j (k + 1)); try lia; first [done|f_equal; lia].
Qed.

(** The levels of the data-out line while a byte goes out, after its first bit. *)
Definition levels (k : nat) (out : Z) : list Z := map (fun i => BIT out (7 - Z.of_nat i)) (seq 1 k).

Lemma cycles_inner byte (c0 : sdcard I) w k :
  aligned c0 -> (k <= 7)%nat ->
  exists b l o, latches byte (m_out_latch c0) (Z.of_nat k) l o /\
    bit_cycles 8 byte (c0, w) = bit_cycles (8 - k) byte (midway c0 (Z.of_nat k) b l o, w ++ levels k (m_out_latch c0)).
Proof.
  intros A. destruct A as [As Ac Ab Ai Ao]. induction k as [|k IH]; intros Hk.
  - exists (m_in_bit c0), (m_in_latch c0), (m_out_latch c0). split.
    + split; [done|done|intros; lia|]. intros j Hj. destruct (Z.ltb_spec j (Z.of_nat 0)); [lia|]. f_equal. lia.
    + rewrite app_nil_r. assert (midway c0 (Z.of_nat 0) (m_in_bit c0) (m_in_latch c0) (m_out_latch c0) = c0) as E;
        [|by rewrite E]. destruct c0. cbn in *. by subst.
  - destruct IH as (b & l & o & L & ->); [lia|].
    replace (8 - k)%nat with (S (8 - S k)) by lia. cbn [bit_cycles].
    replace (Z.of_nat (8 - S k)) with (7 - Z.of_nat k) by lia.
    unfold midway at 1. rewrite bit_cycle_inner by (done || lia || (apply BIT_01; lia)).
    pose proof (latches_step byte (m_out_latch c0) (Z.of_nat k) l o ltac:(lia) L) as L'.
    replace (Z.of_nat k + 1) with (Z.of_nat (S k)) in * by lia.
    do 3 eexists. split; [exact L'|]. unfold midway. do 2 f_equal. rewrite <- app_assoc. f_equal.
    unfold levels. rewrite seq_S, map_app. cbn [map]. do 2 f_equal.
    rewrite !BIT_testbit by lia. f_equal. rewrite (latches_out _ _ _ _ _ L') by lia.
    destruct (Z.ltb_spec 7 (Z.of_nat (S k))); [lia|done].
Qed.

(** ** What receiving a byte leaves alone *)

Definition fixed (c : sdcard I) :=
  (m_ss c, m_cur_bit c, m_in_latch c, m_clk_state c, (m_type c, m_csd c, m_blksize c, m_preferred_type c, m_in_bit c)).

Lemma fixed_if (b : bool) (x y c : sdcard I) :
  fixed x = fixed c -> fixed y = fixed c -> fixed (if b then x else y) = fixed c.
Proof. by destruct b. Qed.

(** [r] is a state with the fixed part of [c], or a fault. *)
Definition keeps_fixed (c : sdcard I) (r : option (sdcard I)) : Prop :=
  forall c', r = Some c' -> fixed c' = fixed c.

Lemma keeps_fixed_some (c c' : sdcard I) : fixed c' = fixed c -> keeps_fixed c (Some c').
Proof. intros E c'' [= <-]. done. Qed.
Lemma keeps_fixed_none (c : sdcard I) : keeps_fixed c None.
Proof. by intros c'. Qed.
Lemma keeps_fixed_if (b : bool) (c : sdcard I) x y :
  keeps_fixed c x -> keeps_fixed c y -> keeps_fixed c (if b then x else y).
Proof. by destruct b. Qed.

Lemma reply_fixed bytes n st (c : sdcard I) : fixed (reply bytes n st c) = fixed c.
Proof. reflexivity. Qed.

Ltac fixed_auto :=
  repeat match goal with
  | |- keeps_fixed _ (if _ then _ else _) => apply keeps_fixed_if
  | |- keeps_fixed _ None => apply keeps_fixed_none
  | |- keeps_fixed _ (Some _) => apply keeps_fixed_some
  | |- fixed (if _ then _ else _) = _ => apply fixed_if
  end; try reflexivity.

Lemma read_image_fixed lba pos (c : sdcard I) : keeps_fixed c (read_image lba pos c).
Proof. unfold read_image. case_match; [|fixed_auto]. case_match. fixed_auto. Qed.

Lemma read_single_fixed (c : sdcard I) : keeps_fixed c (cmd_read_single c).
Proof.
  unfold cmd_read_single. cbv zeta. fixed_auto.
  - match goal with |- context [read_image ?l ?p ?x] =>
      pose proof (read_image_fixed l p x) as H'; destruct (read_image l p x) as [c'|]; [|fixed_auto] end.
    apply keeps_fixed_some. exact (H' _ eq_refl).
  - case_match; [|fixed_auto]. case_match. fixed_auto.
Qed.

Lemma run_command_fixed (c : sdcard I) : keeps_fixed c (run_command c).2.
Proof.
  unfold run_command.
  repeat match goal with |- keeps_fixed _ (if ?b then _ else _).2 => destruct b; cbn [snd] end;
    first [apply read_single_fixed|apply keeps_fixed_some];
    unfold cmd_go_idle, cmd_set_blocklen, cmd_read_multiple, cmd_write_block; cbv zeta; fixed_auto.
  by destruct (bool_decide _).
Qed.

Lemma do_command_fixed (c : sdcard I) : keeps_fixed c (do_command c).
Proof.
  unfold do_command. fixed_auto. pose proof (run_command_fixed c) as Hr.
  destruct (run_command c) as [clean [c'|]]; [|fixed_auto]. specialize (Hr _ eq_refl).
  apply keeps_fixed_some. by destruct clean.
Qed.

Lemma receive_byte_fixed (c : sdcard I) : keeps_fixed c (receive_byte c).
Proof.
  unfold receive_byte. assert (keeps_fixed c (receive_command c)) as Hc.
  { unfold receive_command. cbv zeta. set (c1 := c <| m_cmd ::= _ |>).
    pose proof (do_command_fixed c1) as Hd. fixed_auto; try exact Hd.
    destruct (do_command c1) as [c2|]; [|fixed_auto]. specialize (Hd _ eq_refl). fixed_auto; [|exact Hd].
    unfold next_block. cbv zeta.
    match goal with |- context [read_image ?l ?p ?x] =>
      pose proof (read_image_fixed l p x) as H'; destruct (read_image l p x) as [c'|]; [|fixed_auto] end.
    apply keeps_fixed_some. etrans; [exact (H' _ eq_refl)|exact Hd]. }
  destruct (m_state c); try exact Hc; [fixed_auto|].
  unfold receive_data. cbv zeta. fixed_auto. case_match; [|fixed_auto]. case_match. fixed_auto.
Qed.

Lemma load_fixed (c : sdcard I) : fixed (load c) = fixed c.
Proof. unfold load. by repeat case_match. Qed.

(** *** Eight cycles are one exchange *)

Lemma latched_byte byte l : is_u8 byte -> is_u8 l ->
  (forall j, 1 <= j <= 7 -> Z.testbit l j = Z.testbit byte (7 - 7 + j)) -> latch_bit (BIT byte 0) l = byte.
Proof.
  intros Hb Hl L. apply u8_ext; [apply u8_range|done|]. intros j Hj.
  rewrite latch_bit_spec by (lia || (apply BIT_01; lia)).
  destruct (Z.eqb_spec j 0) as [->|]; [by rewrite BIT_is_1|]. by rewrite L by lia.
Qed.

Lemma sent_latch out o : is_u8 o ->
  (forall j, 0 <= j < 8 -> Z.testbit o j = if j <? 7 then true else Z.testbit out (j - 7)) ->
  o = Z.lor (Z.shiftl (BIT out 0) 7) 0x7f.
Proof.
  intros Ho L. apply u8_ext; [done| |].
  - rewrite BIT_testbit by lia. by destruct (Z.testbit out 0).
  - intros j Hj. rewrite L, BIT_testbit, Z.lor_spec, Z.shiftl_spec by lia.
    destruct (Z.ltb_spec j 7).
    + assert (Z.testbit 0x7f j = true) as -> by (change 0x7f with (Z.ones 7); apply Z.ones_spec_low; lia).
      by rewrite orb_true_r.
    + replace j with 7 by lia. change (7 - 7) with 0. by destruct (Z.testbit out 0).
Qed.

Lemma bit_cycles_exchange byte (c : sdcard I) w :
  is_u8 byte -> aligned c ->
  bit_cycles 8 byte (c, w) =
    match exchange byte c with
    | Some (out, c') => Some (c', w ++ levels 7 out ++ [BIT (m_out_latch c') 7])
    | None => None
    end.
Proof.
  intros Hb A. destruct (cycles_inner byte c w 7 A ltac:(lia)) as (b & l & o & L & ->).
  destruct L as [Ll Lo Lin Lout]. change (Z.of_nat 7) with 7 in *. cbn [bit_cycles Nat.sub].
  change (Z.of_nat 0) with 0. destruct A as [As Ac Ab Ai Ao].
  rewrite bit_cycle_last; [|done|done|done|].
  2: { intros x x' E. exact (f_equal (fun f => f.1.1.1.1) (receive_byte_fixed x x' E)). }
  unfold midway. rewrite latch_regs_last by (apply BIT_01; lia).
  rewrite (latched_byte _ _ Hb Ll Lin), (sent_latch _ _ Lo Lout). unfold exchange. cbv zeta.
  set (x := c <| m_in_bit := BIT byte 0 |> <| m_in_latch := byte |> <| m_cur_bit := 8 |>
    <| m_out_latch := Z.lor (Z.shiftl (BIT (m_out_latch c) 0) 7) 127 |>).
  assert (x <| m_clk_state := 0 |> = x) as E by (subst x; destruct c; cbn in *; by subst).
  rewrite E. destruct (receive_byte x) as [c'|]; [|done].
  by rewrite <- app_assoc.
Qed.

(** After an exchange the card is again between two bytes. *)
Lemma exchange_aligned byte (c c' : sdcard I) out :
  aligned c -> exchange byte c = Some (out, c') -> is_u8 (m_out_latch c') -> aligned c' /\ out = m_out_latch c.
Proof.
  intros [As Ac Ab Ai Ao] E Ho. unfold exchange in E. cbv zeta in E.
  set (x := c <| m_in_bit := BIT byte 0 |> <| m_in_latch := byte |> <| m_cur_bit := 8 |>
    <| m_out_latch := Z.lor (Z.shiftl (BIT (m_out_latch c) 0) 7) 127 |>) in E.
  pose proof (receive_byte_fixed x) as F. destruct (receive_byte x) as [c1|]; [|done].
  specialize (F c1 eq_refl). injection E as <- <-. split; [|done].
  assert (m_ss c1 = m_ss c /\ m_cur_bit c1 = 8) as [E1 E2]
    by exact (conj (f_equal (fun f => f.1.1.1.1) F) (f_equal (fun f => f.1.1.1.2) F)).
  rewrite shift_load in *. pose proof (load_fixed (shift_regs c1)) as Fl.
  assert (m_cur_bit (shift_regs c1) = 0) as E0 by (change (Z.land (m_cur_bit c1) 7 = 0); by rewrite E2).
  assert (is_u8 (m_in_latch (shift_regs c1))) as E3 by apply u8_range.
  assert (m_ss (shift_regs c1) = m_ss c) as E4 by done.
  generalize dependent (load (shift_regs c1)). intros c2 Ho Fl. revert E0 E3 E4 Fl.
  generalize (shift_regs c1). intros c3 E0 E3 E4 Fl.
  assert (m_ss c2 = m_ss c3 /\ m_cur_bit c2 = m_cur_bit c3 /\ m_in_latch c2 = m_in_latch c3) as (G1 & G2 & G3)
    by exact (conj (f_equal (fun f => f.1.1.1.1) Fl) (conj (f_equal (fun f => f.1.1.1.2) Fl)
               (f_equal (fun f => f.1.1.2) Fl))).
  split; [|done| | |done].
  - change (m_ss c2 <> 0). congruence.
  - change (m_cur_bit c2 = 0). congruence.
  - change (is_u8 (m_in_latch c2)). by rewrite G3.
Qed.
(** C29: The pins and the byte: eight clock cycles on a selected card between two
    bytes ([aligned]) do what one exchange does, and the data-out line shows the byte
    that was in the output latch, most significant bit first (its top bit was
    on the line already), and then the top bit of the next one. *)
Theorem eight_cycles_are_an_exchange byte (c : sdcard I) w :
  is_u8 byte -> aligned c ->
  bit_cycles 8 byte (c, w) =
    match exchange byte c with
    | Some (out, c') => Some (c', w ++ levels 7 out ++ [BIT (m_out_latch c') 7])
    | None => None
    end.
Proof. exact (bit_cycles_exchange byte c w). Qed.
End Exchange.

(** ** Witness *)

(** CMD0's first byte sent to a selected, empty card. *)
Lemma eight_cycles_are_an_exchange_witness :
  let c := spi_ss_w 1 (new_sdcard (None : option memdisk)) in
  exists c', bit_cycles 8 0x40 (c, []) = Some (c', repeat 1 8) /\ m_cmd c' = [0xff; 0xff; 0xff; 0xff; 0xff; 0x40].
Proof.
  intros c. eexists. split.
  - assert (aligned c) as A by (split; [done|done|done|by split|by split]).
    rewrite (eight_cycles_are_an_exchange 0x40 c []) by (by split || exact A). vm_compute. reflexivity.
  - reflexivity.
Defined.
