(* ===== verification/SdSession.v ===== *)
(** * SdSession: transfers with the SD card

    What a host sees that exchanges bytes with the card: the card's output as a
    queue, command frames, and the reading and writing of whole blocks on any
    image that keeps its blocks apart ([BlockImageLaws] of Harddisk). *)

From stdpp Require Import base tactics numbers option list.
From Stdlib Require Import ZArith Lia Bool.
From S2P Require Import Prelude Crc16 Harddisk SdCard SdSpi.

Section Session.
Context {I : Type} `{BlockImage I}.

(** ** The output queue *)

(** The bytes the card has still to send: the fill bytes of the delay, then
    the rest of the reply. *)
Definition output (c : sdcard I) : list Z :=
  replicate (Z.to_nat (m_out_delay c - m_out_ptr c)) 0xff ++
  take (Z.to_nat (m_out_count c)) (drop (Z.to_nat (m_out_ptr c - m_out_delay c)) (m_data c)).

Definition out_ok (c : sdcard I) : Prop :=
  0 <= m_out_delay c /\ 0 <= m_out_ptr c /\ 0 <= m_out_count c /\
  Z.max (m_out_ptr c) (m_out_delay c) + m_out_count c < 65536 /\
  Z.max 0 (m_out_ptr c - m_out_delay c) + m_out_count c <= Z.of_nat (length (m_data c)).

(** Nothing left to send. *)
Definition drained (c : sdcard I) : Prop := m_out_count c = 0 /\ m_out_delay c <= m_out_ptr c < 65536 /\ 0 <= m_out_delay c.

(** What the exchange of a byte does not touch by itself. *)
Definition rest (c : sdcard I) :=
  (m_ss c, (m_type c, m_csd c, m_blksize c, m_preferred_type c, m_sectorbuf c),
   (m_data c, m_cmd c, m_state c, m_write_ptr c, m_xferblk c, m_blknext c),
   (m_crc_off c, m_bACMD c, m_image c)).

Lemma load_output (c : sdcard I) : m_cur_bit c = 0 -> m_out_latch c = 0xff -> out_ok c ->
  m_out_latch (load c) = default 0xff (head (output c)) /\
  output (load c) = tail (output c) /\ out_ok (load c) /\ rest (load c) = rest c.
Proof.
  intros Hb Hl (D & P & N & B & L). unfold load. rewrite Hb. cbn [Z.eqb].
  destruct (Z.ltb_spec (m_out_ptr c) (m_out_delay c)) as [Hlt|Hge].
  - assert (Z.to_nat (m_out_delay c - m_out_ptr c) = S (Z.to_nat (m_out_delay c - (m_out_ptr c + 1)))) as E1 by lia.
    assert (Z.to_nat (m_out_ptr c - m_out_delay c) = 0%nat) as E2 by lia.
    assert (Z.to_nat (m_out_ptr c + 1 - m_out_delay c) = 0%nat) as E3 by lia.
    unfold output, out_ok. cbn -[Z.sub Z.max Z.of_nat Z.to_nat u16 replicate]. rewrite u16_id by lia.
    rewrite E1, E2, E3. split; [done|]. split; [done|]. split; [lia|done].
  - assert (Z.to_nat (m_out_delay c - m_out_ptr c) = 0%nat) as E1 by lia.
    destruct (Z.ltb_spec 0 (m_out_count c)) as [Hc|Hc].
    + unfold output, out_ok, at_. cbn -[Z.sub Z.max Z.of_nat Z.to_nat u16 replicate]. rewrite u16_id by lia.
      rewrite E1. assert (Z.to_nat (m_out_delay c - (m_out_ptr c + 1)) = 0%nat) as -> by lia. cbn [replicate app].
      assert (Z.to_nat (m_out_count c) = S (Z.to_nat (m_out_count c - 1))) as -> by lia.
      assert (Z.to_nat (m_out_ptr c + 1 - m_out_delay c) = S (Z.to_nat (m_out_ptr c - m_out_delay c))) as -> by lia.
      set (k := Z.to_nat (m_out_ptr c - m_out_delay c)).
      assert (k < length (m_data c))%nat as Hk by lia.
      destruct (lookup_lt_is_Some_2 (m_data c) k Hk) as [x Hx].
      rewrite (drop_S _ x k Hx), (nth_lookup_Some _ _ _ x Hx). cbn [take head tail default].
      split; [done|]. split; [done|]. split; [lia|done].
    + unfold output. rewrite E1. assert (Z.to_nat (m_out_count c) = 0%nat) as -> by lia. cbn [replicate app take].
      split; [done|]. split; [done|]. done.
Qed.

(** The card when the last bit of [byte] has been latched. *)
Definition latched (byte : Z) (c : sdcard I) : sdcard I :=
  c <| m_in_bit := BIT byte 0 |> <| m_in_latch := byte |> <| m_cur_bit := 8 |>
    <| m_out_latch := Z.lor (Z.shiftl (BIT (m_out_latch c) 0) 7) 0x7f |>.

Lemma latched_rest byte (c : sdcard I) : rest (latched byte c) = rest c /\ output (latched byte c) = output c.
Proof. by split. Qed.

Lemma sent_out_latch x : set_bits 1 (u8 (Z.shiftl (Z.lor (Z.shiftl (BIT x 0) 7) 0x7f) 1)) = 0xff.
Proof. rewrite BIT_testbit by lia. by destruct (Z.testbit x 0). Qed.

(** One exchange, given what the card does with the byte. *)
Lemma exchange_step byte (c c1 : sdcard I) :
  receive_byte (latched byte c) = Some c1 ->
  m_out_latch c1 = m_out_latch (latched byte c) \/ m_out_latch c1 = 0xff -> out_ok c1 ->
  exists c', exchange byte c = Some (m_out_latch c, c') /\
    m_out_latch c' = default 0xff (head (output c1)) /\ output c' = tail (output c1) /\
    out_ok c' /\ rest c' = rest c1.
Proof.
  intros E Ho Ok. pose proof (receive_byte_fixed _ _ E) as F.
  assert (m_cur_bit c1 = 8) as Eb by exact (f_equal (fun f => f.1.1.1.2) F).
  unfold exchange. cbv zeta. fold (latched byte c). rewrite E.
  exists (shift c1 <| m_clk_state := 0 |>). split; [done|]. rewrite shift_load.
  assert (m_cur_bit (shift_regs c1) = 0) as E0 by (change (Z.land (m_cur_bit c1) 7 = 0); by rewrite Eb).
  assert (m_out_latch (shift_regs c1) = 0xff) as El.
  { change (set_bits 1 (u8 (Z.shiftl (m_out_latch c1) 1)) = 0xff).
    destruct Ho as [-> | ->]; [apply sent_out_latch|done]. }
  exact (load_output (shift_regs c1) E0 El Ok).
Qed.

(** ** Bytes that are not the end of a command *)

(** A state in which bytes are taken for commands, one at a time. *)
Definition listening (st : sd_state) : bool :=
  match st with SD_STATE_DATA_MULTI | SD_STATE_WRITE_WAITFE | SD_STATE_WRITE_DATA => false | _ => true end.

Definition shift_cmd (b : Z) (c : sdcard I) : sdcard I := c <| m_cmd ::= fun l => drop 1 l ++ [b] |>.

Lemma receive_no_command b (c : sdcard I) :
  listening (m_state c) = true -> Z.land (at_ (drop 1 (m_cmd c) ++ [b]) 0) 0xc0 <> 0x40 ->
  receive_byte (latched b c) = Some (shift_cmd b (latched b c)).
Proof.
  intros Hl Hc. set (c1 := shift_cmd b (latched b c)).
  assert (do_command c1 = Some c1) as Ed.
  { unfold do_command. change (m_cmd c1) with (drop 1 (m_cmd c) ++ [b]).
    destruct (Z.eqb_spec (Z.land (at_ (drop 1 (m_cmd c) ++ [b]) 0) 0xc0) 0x40); done. }
  assert (receive_command (latched b c) = Some c1) as Er.
  { unfold receive_command. cbv zeta. fold (shift_cmd b (latched b c)).
    change (latched b c <| m_cmd ::= λ l, drop 1 l ++ [m_in_latch (latched b c)] |>) with c1.
    change (m_state c1) with (m_state c). rewrite (bool_decide_false (m_state c = _)) by (by intros E; rewrite E in Hl).
    rewrite Ed. by case_match. }
  unfold receive_byte. change (m_state (latched b c)) with (m_state c). by destruct (m_state c).
Qed.

Definition idle_cmd : list Z := replicate 6 0xff.

(** The exchanges of a session, and what the host sees. *)
Fixpoint session (bs : list Z) (c : sdcard I) : option (list Z * sdcard I) :=
  match bs with
  | [] => Some ([], c)
  | b :: bs => match exchange b c with
               | Some (x, c') => match session bs c' with
                                 | Some (xs, c'') => Some (x :: xs, c'')
                                 | None => None
                                 end
               | None => None
               end
  end.

Lemma session_app bs bs' (c c' c'' : sdcard I) xs xs' :
  session bs c = Some (xs, c') -> session bs' c' = Some (xs', c'') ->
  session (bs ++ bs') c = Some (xs ++ xs', c'').
Proof.
  revert c xs. induction bs as [|b bs IH]; intros c xs; cbn [session app].
  - intros [= <- <-]. done.
  - destruct (exchange b c) as [[x c1]|]; [|done]. destruct (session bs c1) as [[ys c2]|] eqn:E; [|done].
    intros [= <- <-] E'. by rewrite (IH c1 ys E E').
Qed.

Lemma session_cons b bs (c c1 c2 : sdcard I) x xs :
  exchange b c = Some (x, c1) -> session bs c1 = Some (xs, c2) -> session (b :: bs) c = Some (x :: xs, c2).
Proof. cbn [session]. by intros -> ->. Qed.
(** *** Fillers *)

Lemma length_nil_of_output (c : sdcard I) : out_ok c -> output c = [] -> m_out_count c = 0.
Proof.
  intros (D & P & N & B & L) E. apply (f_equal length) in E. unfold output in E.
  rewrite length_app, length_take, length_drop, length_replicate in E. cbn [length] in E. lia.
Qed.

(** A byte that ends no command pops the output queue. *)
Lemma exchange_listening b (c : sdcard I) :
  listening (m_state c) = true -> out_ok c -> Z.land (at_ (drop 1 (m_cmd c) ++ [b]) 0) 0xc0 <> 0x40 ->
  exists c', exchange b c = Some (m_out_latch c, c') /\
    m_out_latch c' = default 0xff (head (output c)) /\ output c' = tail (output c) /\ out_ok c' /\
    rest c' = rest (shift_cmd b c).
Proof.
  intros Hs Ho Hc. pose proof (receive_no_command b c Hs Hc) as E.
  exact (exchange_step b c _ E (or_introl eq_refl) Ho).
Qed.

Lemma shift_idle (c : sdcard I) : m_cmd c = idle_cmd -> shift_cmd 0xff c = c.
Proof. intros E. unfold shift_cmd. destruct c. cbn in *. by subst. Qed.

Lemma rest_state (c c' : sdcard I) : rest c' = rest c -> m_state c' = m_state c.
Proof. intros E. exact (f_equal (fun f => f.1.2.1.1.1.2) E). Qed.
Lemma rest_cmd (c c' : sdcard I) : rest c' = rest c -> m_cmd c' = m_cmd c.
Proof. intros E. exact (f_equal (fun f => f.1.2.1.1.1.1.2) E). Qed.

(** States that ignore fill bytes. *)
Definition ignores_fill (c : sdcard I) : Prop :=
  listening (m_state c) = true /\ m_cmd c = idle_cmd \/ m_state c = SD_STATE_WRITE_WAITFE.

Lemma ignores_fill_rest (c c' : sdcard I) : rest c' = rest c -> ignores_fill c -> ignores_fill c'.
Proof. intros E. unfold ignores_fill. by rewrite (rest_state _ _ E), (rest_cmd _ _ E). Qed.

Lemma exchange_fill (c : sdcard I) : ignores_fill c -> out_ok c ->
  exists c', exchange 0xff c = Some (m_out_latch c, c') /\
    m_out_latch c' = default 0xff (head (output c)) /\ output c' = tail (output c) /\ out_ok c' /\
    rest c' = rest c.
Proof.
  intros [[Hs Hc]|Hs] Ho.
  - destruct (exchange_listening 0xff c Hs Ho) as (c' & R); [by rewrite Hc|].
    exists c'. by rewrite shift_idle in R.
  - assert (receive_byte (latched 0xff c) = Some (latched 0xff c)) as E
      by (unfold receive_byte; change (m_state (latched 0xff c)) with (m_state c); by rewrite Hs).
    exact (exchange_step 0xff c _ E (or_introl eq_refl) Ho).
Qed.

(** Fillers read the queue to its end, and fill bytes after it. *)
Lemma fill_all q k (c : sdcard I) :
  ignores_fill c -> out_ok c -> output c = q ->
  exists c', session (replicate (S (length q) + k) 0xff) c = Some (m_out_latch c :: q ++ replicate k 0xff, c') /\
    m_out_latch c' = 0xff /\ output c' = [] /\ out_ok c' /\ rest c' = rest c.
Proof.
  remember (length q + k)%nat as m eqn:Em. revert q k Em c.
  induction m as [|m IH]; intros q k Em c Hs Ho Hq;
    destruct (exchange_fill c Hs Ho) as (c1 & E & El & Eq & Ho1 & Er).
  - destruct q; [|done]. destruct k; [|done]. exists c1. cbn [length Nat.add replicate session app].
    rewrite E. rewrite Hq in *. done.
  - assert (exists q1 k1, m = (length q1 + k1)%nat /\ output c1 = q1 /\
      m_out_latch c1 :: q1 ++ replicate k1 0xff = q ++ replicate k 0xff) as (q1 & k1 & Em1 & Eq1 & Es).
    { rewrite Hq in *. destruct q as [|x q].
      - destruct k as [|k]; [done|]. exists [], k. cbn [length] in Em. split; [cbn; lia|]. split; [done|]. by rewrite El.
      - exists q, k. cbn [length] in Em. split; [lia|]. split; [done|]. by rewrite El. }
    destruct (IH q1 k1 Em1 c1) as (c2 & E2 & R2); [by apply (ignores_fill_rest c)|done|done|].
    exists c2. replace (S (length q) + k)%nat with (S (S (length q1) + k1)) by lia. cbn [replicate].
    split; [|destruct R2 as (? & ? & ? & R2); rewrite <- Er; done].
    rewrite (session_cons _ _ _ _ _ _ _ E E2). by rewrite Es.
Qed.

(** *** A command frame *)

Definition frame (cmd arg crc : Z) : list Z := Z.lor 0x40 cmd :: put_u32be arg ++ [crc].

Lemma frame_cmd cmd arg crc : 0 <= cmd < 64 ->
  Z.land (at_ (frame cmd arg crc) 0) 0xc0 = 0x40 /\ Z.land (at_ (frame cmd arg crc) 0) 0x3f = cmd.
Proof.
  intros Hc. change (at_ (frame cmd arg crc) 0) with (Z.lor 0x40 cmd).
  assert (Forall (fun cmd => Z.land (Z.lor 0x40 cmd) 0xc0 = 0x40 /\ Z.land (Z.lor 0x40 cmd) 0x3f = cmd)
            (seqZ 0 64)) as F by (cbn; repeat constructor).
  rewrite Forall_forall in F. apply F, elem_of_seqZ. lia.
Qed.

Lemma shift_cmd_eq b l (c : sdcard I) : drop 1 (m_cmd c) ++ [b] = l -> shift_cmd b c = c <| m_cmd := l |>.
Proof. by intros <-. Qed.

Lemma rest_set_cmd l (c c' : sdcard I) : rest c' = rest c -> rest (c' <| m_cmd := l |>) = rest (c <| m_cmd := l |>).
Proof. intros E. unfold rest in *. destruct c, c'. cbn in *. by simplify_eq. Qed.

(** The bytes of a frame before the last: no command is complete. *)
Lemma feed bs b pre (c : sdcard I) :
  m_cmd c = 0xff :: replicate (S (length bs)) 0xff ++ pre ->
  listening (m_state c) = true -> out_ok c -> output c = [] ->
  exists c', session (b :: bs) c = Some (m_out_latch c :: replicate (length bs) 0xff, c') /\
    m_out_latch c' = 0xff /\ output c' = [] /\ out_ok c' /\
    rest c' = rest (c <| m_cmd := 0xff :: pre ++ b :: bs |>).
Proof.
  revert b pre c. induction bs as [|b' bs IH]; intros b pre c Hc Hs Ho Hq;
    (destruct (exchange_listening b c Hs Ho) as (c1 & E & El & Eq & Ho1 & Er); [by rewrite Hc|]);
    rewrite Hq in El, Eq; cbn [length] in *;
    (match type of Hc with _ = 0xff :: replicate ?n 0xff ++ _ =>
       rewrite (shift_cmd_eq b (replicate n 0xff ++ pre ++ [b])) in Er by (rewrite Hc; symmetry; apply app_assoc) end).
  - exists c1. cbn [session]. rewrite E. split; [done|]. split; [done|]. split; [done|]. by split.
  - destruct (IH b' (pre ++ [b]) c1) as (c2 & E2 & El2 & Eq2 & Ho2 & Er2);
      [by rewrite (rest_cmd _ _ Er)|by rewrite (rest_state _ _ Er)|done|done|].
    exists c2. split; [rewrite (session_cons _ _ _ _ _ _ _ E E2); by rewrite El|].
    split; [done|]. split; [done|]. split; [done|]. rewrite Er2, <- app_assoc. exact (rest_set_cmd _ _ _ Er).
Qed.

(** The state in which a command runs, given the one before its frame. *)
Definition at_command (cmd arg crc : Z) (c x : sdcard I) : Prop :=
  rest x = rest (c <| m_cmd := frame cmd arg crc |>) /\ output x = [] /\ out_ok x.

(** A frame runs its command; its reply is then in the output queue. *)
Lemma command_frame cmd arg crc (c : sdcard I) :
  0 <= cmd < 64 -> listening (m_state c) = true -> m_cmd c = idle_cmd ->
  out_ok c -> output c = [] -> m_crc_off c = true ->
  exists x, at_command cmd arg crc c x /\ forall r, run_command x = (true, Some r) ->
    m_out_latch r = m_out_latch x -> m_cmd r = m_cmd x -> out_ok r ->
    exists c', session (frame cmd arg crc) c = Some (m_out_latch c :: replicate 5 0xff, c') /\
      m_out_latch c' = default 0xff (head (output r)) /\ output c' = tail (output r) /\ out_ok c' /\
      rest c' = rest (r <| m_bACMD := cmd =? 55 |> <| m_cmd := idle_cmd |>).
Proof.
  intros Hcmd Hs Hc Ho Hq Hoff.
  destruct (feed (take 4 (put_u32be arg)) (Z.lor 0x40 cmd) [] c) as (c5 & E5 & El5 & Eq5 & Ho5 & Er5);
    [by rewrite Hc|done..|].
  cbn [take put_u32be length replicate app] in E5, Er5.
  set (x := shift_cmd crc (latched crc c5)).
  assert (rest x = rest (c <| m_cmd := frame cmd arg crc |>)) as Ex.
  { change (rest (shift_cmd crc c5) = rest (c <| m_cmd := frame cmd arg crc |>)).
    rewrite (shift_cmd_eq _ (frame cmd arg crc)) by (by rewrite (rest_cmd _ _ Er5)).
    exact (rest_set_cmd _ _ _ Er5). }
  exists x. split; [by split|]. intros r Er Elr Ecr Hor. destruct (frame_cmd cmd arg crc Hcmd) as [F1 F2].
  assert (m_cmd x = frame cmd arg crc) as Exc by exact (rest_cmd _ _ Ex).
  assert (do_command x = Some (r <| m_bACMD := cmd =? 55 |> <| m_cmd := idle_cmd |>)) as Ed.
  { unfold do_command. rewrite Exc, F1, Z.eqb_refl.
    assert (m_crc_off x = true) as -> by (rewrite <- Hoff; exact (f_equal (fun f => f.2.1.1) Ex)).
    rewrite orb_true_r. cbn [andb]. rewrite Er.
    change (m_cmd (r <| m_bACMD := Z.land (at_ (m_cmd r) 0) 0x3f =? 55 |>)) with (m_cmd r).
    by rewrite Ecr, Exc, F2. }
  assert (receive_byte (latched crc c5) = do_command x) as Eb.
  { assert (listening (m_state (latched crc c5)) = true) as Hl
      by (change (listening (m_state c5) = true); by rewrite (rest_state _ _ Er5)).
    assert (receive_command (latched crc c5) = do_command x) as Ec.
    { unfold receive_command. cbv zeta. fold (shift_cmd crc (latched crc c5)).
      change (latched crc c5 <| m_cmd ::= λ l, drop 1 l ++ [m_in_latch (latched crc c5)] |>) with x.
      change (m_state x) with (m_state (latched crc c5)).
      rewrite (bool_decide_false (_ = SD_STATE_DATA_MULTI)) by (by intros E; rewrite E in Hl).
      change (m_out_count x) with (m_out_count c5). rewrite (length_nil_of_output c5 Ho5 Eq5).
      by rewrite Z.eqb_refl, !orb_true_r. }
    unfold receive_byte. by destruct (m_state (latched crc c5)). }
  rewrite Ed in Eb.
  destruct (exchange_step crc c5 _ Eb) as (c' & E & R); [left; exact Elr|exact Hor|].
  exists c'. split; [|exact R]. unfold frame. rewrite El5 in E.
  exact (session_app _ [crc] _ _ _ _ _ E5 (session_cons _ [] _ _ _ _ _ E eq_refl)).
Qed.

(** ** Between two commands *)

Lemma poke_all_split i vs (l : list Z) : 0 <= i -> i + Z.of_nat (length vs) <= Z.of_nat (length l) ->
  poke_all i vs l = take (Z.to_nat i) l ++ vs ++ drop (Z.to_nat i + length vs) l.
Proof.
  intros Hi Hl. unfold poke_all. assert (Z.to_nat i + length vs <= length l)%nat as Hn by lia.
  clear Hl. generalize dependent (Z.to_nat i). clear. intros n Hn.
  rewrite <- (take_drop n l) at 1. assert (length (take n l) = n) as El by (rewrite length_take; lia).
  rewrite <- El at 1. rewrite <- (Nat.add_0_r (length (take n l))), list_inserts_app_r. f_equal.
  rewrite <- (take_drop (length vs) (drop n l)) at 1.
  rewrite list_inserts_0_r by (rewrite length_take, length_drop; lia). by rewrite drop_drop.
Qed.

Lemma length_poke_all i vs (l : list Z) : length (poke_all i vs l) = length l.
Proof. apply length_inserts. Qed.

(** The card has answered everything and waits for a command. *)
Record ready (n : Z) (ty : sd_type) (image : I) (c : sdcard I) : Prop := mk_ready {
  ready_listening : listening (m_state c) = true;
  ready_cmd : m_cmd c = idle_cmd;
  ready_type : m_type c = ty;
  ready_blksize : m_blksize c = n;
  ready_xferblk : m_xferblk c = n;
  ready_crc : m_crc_off c = true;
  ready_data : length (m_data c) = DATA_SIZE;
  ready_image : m_image c = image
}.

(** Nothing is being sent. *)
Definition quiet (c : sdcard I) : Prop := m_out_latch c = 0xff /\ output c = [] /\ out_ok c.

Lemma ready_rest n ty image (c c' : sdcard I) : rest c' = rest c -> ready n ty image c -> ready n ty image c'.
Proof. intros E [H1 H2 H3 H4 H5 H6 H7 H8]. unfold rest in E. simplify_eq. by split; congruence. Qed.

(** A command, and fillers until its reply is out. *)
Lemma command_reply n ty image cmd arg crc (c : sdcard I) :
  0 <= cmd < 64 -> ready n ty image c -> quiet c ->
  exists x, at_command cmd arg crc c x /\ forall r q, run_command x = (true, Some r) ->
    m_out_latch r = m_out_latch x -> m_cmd r = m_cmd x -> out_ok r -> output r = 0xff :: q ->
    listening (m_state r) = true \/ m_state r = SD_STATE_WRITE_WAITFE ->
    exists c', session (frame cmd arg crc ++ replicate (S (length q)) 0xff) c =
        Some (replicate 6 0xff ++ 0xff :: q, c') /\ quiet c' /\
      rest c' = rest (r <| m_bACMD := cmd =? 55 |> <| m_cmd := idle_cmd |>).
Proof.
  intros Hcmd R (Hl & Hq & Ho). destruct R as [Rs Rc _ _ _ Ro _ _].
  destruct (command_frame cmd arg crc c) as (x & Ax & Hr); [done..|].
  exists x. split; [done|]. intros r q Er El Ec Hor Eor Hs.
  destruct (Hr r Er El Ec Hor) as (c1 & E1 & El1 & Eq1 & Ho1 & Er1). rewrite Eor in El1, Eq1.
  destruct (fill_all q 0 c1) as (c' & E & El' & Eq' & Ho' & Er'); [|done|done|].
  - apply (ignores_fill_rest _ _ Er1). destruct Hs as [Hs|Hs]; [by left|by right].
  - exists c'. rewrite app_nil_r, Nat.add_0_r in E. rewrite El1 in E. rewrite Hl in E1.
    split; [exact (session_app _ _ _ _ _ _ _ E1 E)|]. split; [by split|]. by rewrite Er'.
Qed.
End Session.
