(* ===== verification/SdTransfer.v ===== *)
(** * SdTransfer: reading and writing blocks of the SD card

    The two single-block commands as whole transactions of a session, on any
    image that keeps its blocks apart, and the pins they happen on. *)

From stdpp Require Import base tactics numbers option list.
From Stdlib Require Import ZArith Lia Bool.
From S2P Require Import Prelude Crc16 Harddisk SdCard SdCsd SdSpi SdSession.

(** Lists of bytes. *)
Ltac u8_list :=
  repeat match goal with
  | |- Forall _ (_ ++ _) => apply Forall_app_2
  | |- Forall _ (_ :: _) => apply Forall_cons_2
  | |- Forall _ [] => apply Forall_nil_2
  | |- Forall _ (replicate _ _) => apply Forall_replicate
  | |- is_u8 (u8 _) => apply u8_range
  | |- is_u8 _ => first [assumption | by split]
  | |- _ => assumption
  end.

Section Transfer.
Context {I : Type} `{BlockImage I}.

(** ** Addresses *)

(** How a host names block [lba]: by its first byte, or by its number on a
    high-capacity card. *)
Definition address (n : Z) (ty : sd_type) (lba : Z) : Z :=
  match ty with SD_TYPE_V2 => lba * n | SD_TYPE_HC => lba end.

Definition addressable (n : Z) (ty : sd_type) (lba : Z) : Prop :=
  0 <= lba /\ match ty with SD_TYPE_V2 => (lba + 1) * n <= 4294967296 | SD_TYPE_HC => lba < 4294967296 end.

Lemma address_u32 n ty lba : 0 < n -> addressable n ty lba -> 0 <= address n ty lba < 4294967296.
Proof. intros Hn [Hl Ha]. destruct ty; cbn in *; nia. Qed.

Lemma frame_argument cmd arg crc : 0 <= arg < 4294967296 -> get_u32be (from 1 (frame cmd arg crc)) = arg.
Proof. intros Ha. rewrite <- (get_put_u32be arg Ha) at 2. reflexivity. Qed.

Lemma at_command_ready n ty image cmd arg crc (c x : sdcard I) :
  at_command cmd arg crc c x -> ready n ty image c ->
  m_cmd x = frame cmd arg crc /\ ready n ty image (x <| m_cmd := idle_cmd |>) /\ m_data x = m_data c.
Proof.
  intros (Ex & _ & _) R. split; [exact (rest_cmd _ _ Ex)|]. split.
  - apply (ready_rest _ _ _ c); [|done]. etrans; [exact (rest_set_cmd idle_cmd _ _ Ex)|].
    destruct R. unfold rest. destruct c. cbn in *. by subst.
  - exact (f_equal (fun f => f.1.2.1.1.1.1.1) Ex).
Qed.

Lemma same_block n lba : 0 < n -> (lba + 1) * n <= 4294967296 -> 0 <= lba ->
  lba * n / n = lba /\ u32 (lba * n + (n - 1)) / n = lba.
Proof.
  intros Hn Hl H0. split; [by apply Z.div_mul; lia|]. rewrite u32_id by nia.
  rewrite Z.div_add_l, Z.div_small by lia. lia.
Qed.

(** ** Reading a block *)

(** The bytes sent for a block: token, block, CRC. *)
Definition block_reply (block : list Z) : list Z :=
  [0x00; 0xff; 0xfe] ++ block ++ put_u16be (crc16_simple block).

Lemma length_block_reply block : length (block_reply block) = (5 + length block)%nat.
Proof. unfold block_reply. rewrite !length_app. cbn [length put_u16be]. lia. Qed.

(** [m_data] while a block is prepared. *)
Lemma prepared_data d block n : length d = DATA_SIZE -> Z.of_nat (length block) = n -> n <= 2048 ->
  let d1 := poke_all 3 block (poke_all 0 [0x00; 0xff; 0xfe] d) in
  slice 3 n d1 = block /\
  poke_all (3 + n) (put_u16be (crc16_simple block)) d1 = block_reply block ++ drop (5 + length block) d.
Proof.
  intros Hd Hb Hn d1. unfold DATA_SIZE in Hd. assert (d1 = [0x00; 0xff; 0xfe] ++ block ++ drop (3 + length block) d) as ->.
  { subst d1. rewrite (poke_all_split 0) by (cbn [length]; lia). cbn [length take drop app Z.to_nat Nat.add].
    change (Z.to_nat 0) with 0%nat. rewrite take_0. cbn [app Nat.add].
    rewrite poke_all_split; cbn [length]; rewrite ?length_drop; [|lia..].
    change (Z.to_nat 3) with 3%nat. cbn [take drop Nat.add app]. by rewrite drop_drop. }
  split.
  - unfold slice, from. change (Z.to_nat 3) with 3%nat. cbn [drop app]. rewrite drop_0.
    replace (Z.to_nat n) with (length block) by lia. by rewrite take_app_length.
  - rewrite poke_all_split; [|lia|rewrite !length_app, length_drop; cbn [length put_u16be]; lia].
    replace (Z.to_nat (3 + n)) with (3 + length block)%nat by lia. unfold block_reply.
    cbn [take drop Nat.add app]. rewrite take_app_length, <- app_assoc. do 4 f_equal. f_equal.
    cbn [length put_u16be]. rewrite drop_app_ge by lia. rewrite drop_drop. f_equal. lia.
Qed.

(** The state in which a reply of [count] bytes is about to go out. *)
Lemma send_data_output count st (c : sdcard I) : 0 <= count < 65535 -> count <= Z.of_nat (length (m_data c)) ->
  let c' := send_data count st SPI_DELAY_RESPONSE c in
  out_ok c' /\ output c' = 0xff :: take (Z.to_nat count) (m_data c).
Proof.
  intros Hc Hl c'. subst c'. unfold out_ok, output, send_data, change_state, SPI_DELAY_RESPONSE.
  cbn -[Z.sub Z.max Z.of_nat Z.to_nat u16 u8 replicate Z.le Z.lt Z.add]. change (u8 1) with 1.
  rewrite u16_id by lia. split; [lia|].
  change (Z.to_nat (1 - 0)) with 1%nat. change (Z.to_nat (0 - 1)) with 0%nat. reflexivity.
Qed.

Context `{!BlockImageLaws I}.

(** CMD17 on a card that holds the block. *)
Lemma read_single_runs n ty image total disk lba crc (x : sdcard I) :
  ready n ty image (x <| m_cmd := idle_cmd |>) -> m_cmd x = frame 17 (address n ty lba) crc ->
  holds image n total disk -> 0 <= lba < total -> addressable n ty lba -> 0 < n <= 2048 ->
  exists r, run_command x = (true, Some r) /\ m_out_latch r = m_out_latch x /\ m_cmd r = m_cmd x /\
    out_ok r /\ output r = 0xff :: block_reply (disk lba) /\ m_state r = SD_STATE_DATA /\
    forall b, ready n ty image (r <| m_bACMD := b |> <| m_cmd := idle_cmd |>).
Proof.
  intros [_ _ Rt Rb Rx Ro Rd Ri] Ec Hh Hlba Ha Hn.
  change (m_type x = ty) in Rt. change (m_blksize x = n) in Rb. change (m_xferblk x = n) in Rx.
  change (m_crc_off x = true) in Ro. change (length (m_data x) = DATA_SIZE) in Rd. change (m_image x = image) in Ri.
  assert (run_command x = (true, cmd_read_single x)) as ->.
  { unfold run_command. rewrite Ec. by rewrite (proj2 (frame_cmd 17 _ crc ltac:(lia))). }
  destruct (holds_read image n total disk lba Hh Hlba) as [Er Hlen].
  destruct (prepared_data (m_data x) (disk lba) n Rd Hlen ltac:(lia)) as [Es Ep].
  pose proof (address_u32 n ty lba ltac:(lia) Ha) as Hadr.
  unfold cmd_read_single. cbv zeta. rewrite Ri, (holds_exists _ _ _ _ Hh).
  change (m_type (x <| m_data ::= poke_all 0 [0; 255; 254] |>)) with (m_type x).
  change (m_cmd (x <| m_data ::= poke_all 0 [0; 255; 254] |>)) with (m_cmd x).
  change (m_xferblk (x <| m_data ::= poke_all 0 [0; 255; 254] |>)) with (m_xferblk x).
  change (m_blksize (x <| m_data ::= poke_all 0 [0; 255; 254] |>)) with (m_blksize x).
  rewrite Ec, frame_argument by done. rewrite Rx, Rb, Z.eqb_refl, Rt.
  assert (bool_decide (ty = SD_TYPE_V2) && crosses_block (address n ty lba)
     (x <| m_data ::= poke_all 0 [0; 255; 254] |>) = false) as ->.
  { unfold crosses_block. change (m_blksize (x <| m_data ::= _ |>)) with (m_blksize x).
    change (m_xferblk (x <| m_data ::= _ |>)) with (m_xferblk x). rewrite Rx, Rb.
    destruct ty; [|done]. destruct Ha as [H0 H1]. destruct (same_block n lba) as [E1 E2]; [lia..|].
    cbn [address]. by rewrite E1, E2, Z.eqb_refl. }
  assert ((if bool_decide (ty = SD_TYPE_V2) then address n ty lba / n else address n ty lba) = lba) as ->.
  { destruct ty; [|done]. destruct Ha as [H0 H1]. apply (same_block n lba); lia. }
  unfold read_image. change (m_image (x <| m_data ::= _ |>)) with (m_image x). rewrite Ri, Er.
  set (y := x <| m_data ::= poke_all 0 [0; 255; 254] |> <| m_data ::= poke_all 3 (disk lba) |>).
  assert (m_xferblk y = n) as -> by done.
  assert (m_data (store_crc 3 n y) = block_reply (disk lba) ++ drop (5 + length (disk lba)) (m_data x)) as Ed.
  { rewrite <- Ep, <- Es at 1. reflexivity. }
  assert (length (m_data (store_crc 3 n y)) = DATA_SIZE) as El.
  { rewrite Ed, length_app, length_block_reply, length_drop, Rd. unfold DATA_SIZE. lia. }
  destruct (send_data_output (3 + n + 2) SD_STATE_DATA (store_crc 3 n y)) as [Ho Hq];
    [lia|rewrite El; unfold DATA_SIZE; lia|].
  eexists. split; [reflexivity|]. split; [done|]. split; [done|]. split; [exact Ho|]. split.
  - rewrite Hq, Ed. do 2 f_equal.
    replace (Z.to_nat (3 + n + 2)) with (length (block_reply (disk lba))) by (rewrite length_block_reply; lia).
    by rewrite take_app_length.
  - split; [done|]. intros b. by split.
Qed.

(** The host reads block [lba]: it sends the command and fillers. *)
Definition host_read (n : Z) (ty : sd_type) (lba crc : Z) : list Z :=
  frame 17 (address n ty lba) crc ++ replicate (Z.to_nat n + 6) 0xff.

Lemma read_block n ty image total disk lba crc (c : sdcard I) :
  ready n ty image c -> quiet c -> holds image n total disk -> 0 <= lba < total ->
  addressable n ty lba -> 0 < n <= 2048 ->
  exists c', session (host_read n ty lba crc) c = Some (replicate 7 0xff ++ block_reply (disk lba), c') /\
    ready n ty image c' /\ quiet c'.
Proof.
  intros R Q Hh Hlba Ha Hn.
  destruct (command_reply n ty image 17 (address n ty lba) crc c) as (x & Ax & Hx); [lia|done..|].
  destruct (at_command_ready _ _ _ _ _ _ _ _ Ax R) as (Ec & Rx & _).
  destruct (read_single_runs n ty image total disk lba crc x) as (r & Er & El & Ecr & Hor & Eo & Est & Rr); [done..|].
  destruct (Hx r (block_reply (disk lba)) Er El Ecr Hor Eo) as (c' & E & Q' & Er'); [left; by rewrite Est|].
  exists c'. destruct (holds_read image n total disk lba Hh Hlba) as [_ Hlen].
  split; [|split; [exact (ready_rest _ _ _ _ _ Er' (Rr _))|done]].
  rewrite length_block_reply in E. unfold host_read. replace (Z.to_nat n + 6)%nat with (S (5 + length (disk lba))) by lia.
  exact E.
Qed.


(** ** Writing a block *)

(** A write of block [lba] in progress, in state [st]: [pre] has arrived. *)
Record writing (st : sd_state) (n : Z) (ty : sd_type) (image : I) (lba : Z) (pre : list Z)
    (c : sdcard I) : Prop := mk_writing {
  wr_state : m_state c = st;
  wr_cmd : m_cmd c = idle_cmd;
  wr_type : m_type c = ty;
  wr_blksize : m_blksize c = n;
  wr_xferblk : m_xferblk c = n;
  wr_crc : m_crc_off c = true;
  wr_length : length (m_data c) = DATA_SIZE;
  wr_data : take (length pre) (m_data c) = pre;
  wr_ptr : st = SD_STATE_WRITE_DATA -> m_write_ptr c = Z.of_nat (length pre);
  wr_blknext : m_blknext c = lba;
  wr_image : m_image c = image
}.

Lemma writing_rest st n ty image lba pre (c c' : sdcard I) :
  rest c' = rest c -> writing st n ty image lba pre c -> writing st n ty image lba pre c'.
Proof.
  intros E [H1 H2 H3 H4 H5 H6 H7 H8 H9 H10 H11]. unfold rest in E. simplify_eq.
  split; try congruence. intros Hp. rewrite <- H9 by done. done.
Qed.

(** CMD24 on a card with an image. *)
Lemma write_block_runs n ty image lba crc (x : sdcard I) :
  ready n ty image (x <| m_cmd := idle_cmd |>) -> m_cmd x = frame 24 (address n ty lba) crc ->
  addressable n ty lba -> 0 < n ->
  exists r, run_command x = (true, Some r) /\ m_out_latch r = m_out_latch x /\ m_cmd r = m_cmd x /\
    out_ok r /\ output r = [0xff; 0x00] /\
    forall b, writing SD_STATE_WRITE_WAITFE n ty image lba [] (r <| m_bACMD := b |> <| m_cmd := idle_cmd |>).
Proof.
  intros [_ _ Rt Rb Rx Ro Rd Ri] Ec Ha Hn.
  change (m_type x = ty) in Rt. change (m_blksize x = n) in Rb. change (m_xferblk x = n) in Rx.
  change (m_crc_off x = true) in Ro. change (length (m_data x) = DATA_SIZE) in Rd. change (m_image x = image) in Ri.
  pose proof (address_u32 n ty lba Hn Ha) as Hadr.
  set (y := x <| m_blknext := lba |>).
  assert (run_command x = (true, Some (reply [0] 1 SD_STATE_WRITE_WAITFE y))) as ->.
  { unfold run_command. rewrite Ec, (proj2 (frame_cmd 24 _ crc ltac:(lia))). cbn [Z.eqb Pos.eqb]. do 2 f_equal.
    unfold cmd_write_block. cbv zeta. rewrite Ec, frame_argument by done.
    rewrite Rx, Rb, Z.eqb_refl. cbn [negb].
    change (m_type (x <| m_blknext := ?a |>)) with (m_type x). rewrite Rt.
    destruct ty; cbn [address].
    - rewrite bool_decide_true by done. cbn [andb].
      change (m_blknext (x <| m_blknext := ?a |>)) with a.
      change (m_blksize (x <| m_blknext := ?a |>)) with (m_blksize x).
      rewrite Rb, Z.mod_mul by lia. cbn [Z.eqb negb]. f_equal.
      assert (m_xferblk x = n) as Rx' by done. subst y.
      transitivity (x <| m_blknext := lba * n / m_xferblk x |>); [done|].
      by rewrite Rx', Z.div_mul by lia.
    - rewrite bool_decide_false by done. done. }
  assert (length (m_data y) = DATA_SIZE) as Ly by done.
  destruct (send_data_output 1 SD_STATE_WRITE_WAITFE (y <| m_data ::= poke_all 0 [0] |>)) as [Ho Hq];
    [lia|change (1 <= Z.of_nat (length (poke_all 0 [0] (m_data y)))); rewrite length_poke_all, Ly; unfold DATA_SIZE; lia|].
  eexists. split; [reflexivity|]. split; [done|]. split; [done|]. split; [exact Ho|]. split.
  - etrans; [exact Hq|]. change (0xff :: take 1 (poke_all 0 [0] (m_data y)) = [0xff; 0x00]).
    rewrite poke_all_split by (rewrite ?Ly; unfold DATA_SIZE; cbn; lia). done.
  - intros b. split; try done.
    change (length (poke_all 0 [0] (m_data y)) = DATA_SIZE). by rewrite length_poke_all.
Qed.

(** The start token. *)
Lemma start_token n ty image lba (c : sdcard I) :
  writing SD_STATE_WRITE_WAITFE n ty image lba [] c -> quiet c ->
  exists c', exchange 0xfe c = Some (0xff, c') /\
    writing SD_STATE_WRITE_DATA n ty image lba [] c' /\ quiet c'.
Proof.
  intros W (Hl & Hq & Ho). set (y := latched 0xfe c <| m_state := SD_STATE_WRITE_DATA |> <| m_out_latch := 0xff |>
    <| m_write_ptr := 0 |>).
  assert (receive_byte (latched 0xfe c) = Some y) as E
    by (unfold receive_byte; change (m_state (latched 0xfe c)) with (m_state c); by rewrite (wr_state _ _ _ _ _ _ _ W)).
  destruct (exchange_step 0xfe c y E) as (c' & E' & El & Eq & Ho' & Er); [by right|done|].
  change (output y) with (output c) in El, Eq. rewrite Hq in El, Eq. rewrite Hl in E'.
  exists c'. split; [done|]. split; [|by split].
  apply (writing_rest _ _ _ _ _ _ _ _ Er). by destruct W.
Qed.

(** The output is empty whatever [m_data] holds. *)
Lemma quiet_output_empty (c : sdcard I) d p : quiet c -> length d = length (m_data c) ->
  output (c <| m_data := d |> <| m_write_ptr := p |>) = [] /\ out_ok (c <| m_data := d |> <| m_write_ptr := p |>).
Proof.
  intros (_ & Hq & Ho) Hd. pose proof (length_nil_of_output c Ho Hq) as Hn. split.
  - unfold output in *. change (m_out_count (c <| m_data := d |> <| m_write_ptr := p |>)) with (m_out_count c).
    rewrite Hn in *. exact Hq.
  - unfold out_ok in *. change (m_data (c <| m_data := d |> <| m_write_ptr := p |>)) with d. by rewrite Hd.
Qed.

Lemma take_insert_end {A} k (x : A) l : (k < length l)%nat -> take (S k) (<[k := x]> l) = take k l ++ [x].
Proof.
  intros Hk. rewrite (take_S_r _ _ x) by (by apply list_lookup_insert_eq). f_equal.
  by rewrite take_insert, decide_False by lia.
Qed.

(** A byte of the block that is not the last. *)
Lemma receive_data_inner k n (c : sdcard I) :
  m_write_ptr c = Z.of_nat k -> m_xferblk c = n -> Z.of_nat k < n + 1 -> n <= 2048 ->
  receive_data c = Some (c <| m_data := <[k := m_in_latch c]> (m_data c) |> <| m_write_ptr := Z.of_nat (S k) |>).
Proof.
  intros Hp Hx Hk Hn. unfold receive_data.
  assert (c <| m_data ::= poke (m_write_ptr c) (m_in_latch c) |> <| m_write_ptr ::= fun p => u16 (p + 1) |> =
    c <| m_data := <[k := m_in_latch c]> (m_data c) |> <| m_write_ptr := Z.of_nat (S k) |>) as ->.
  { transitivity (c <| m_data := poke (m_write_ptr c) (m_in_latch c) (m_data c) |>
        <| m_write_ptr := u16 (m_write_ptr c + 1) |>); [reflexivity|].
    rewrite Hp. unfold poke. rewrite Nat2Z.id, u16_id by lia.
    by replace (Z.of_nat k + 1) with (Z.of_nat (S k)) by lia. }
  cbv zeta. destruct (Z.eqb_spec (Z.of_nat (S k)) (n + 2)); [lia|].
  change (m_write_ptr (c <| m_data := ?d |> <| m_write_ptr := ?p |>)) with p.
  change (m_xferblk (c <| m_data := ?d |> <| m_write_ptr := ?p |>)) with (m_xferblk c). rewrite Hx.
  by destruct (Z.eqb_spec (Z.of_nat (S k)) (n + 2)).
Qed.

Lemma writing_store b n ty image lba pre (c : sdcard I) :
  writing SD_STATE_WRITE_DATA n ty image lba pre c -> Z.of_nat (length pre) < n + 1 -> n <= 2048 ->
  writing SD_STATE_WRITE_DATA n ty image lba (pre ++ [b])
    (c <| m_data := <[length pre := b]> (m_data c) |> <| m_write_ptr := Z.of_nat (S (length pre)) |>).
Proof.
  intros [Ws Wc Wt Wb Wx Wo Wl Wd Wp Wn Wi] Hp Hn. unfold DATA_SIZE in Wl.
  split; [exact Ws|exact Wc|exact Wt|exact Wb|exact Wx|exact Wo| | | |exact Wn|exact Wi].
  - change (length (<[length pre := b]> (m_data c)) = DATA_SIZE). by rewrite length_insert.
  - change (take (length (pre ++ [b])) (<[length pre := b]> (m_data c)) = pre ++ [b]).
    rewrite length_app, Nat.add_1_r, take_insert_end by lia. by rewrite Wd.
  - intros _. change (Z.of_nat (S (length pre)) = Z.of_nat (length (pre ++ [b]))).
    rewrite length_app. cbn [length]. lia.
Qed.

Lemma latched_store b d p (c : sdcard I) :
  let c1 := latched b c <| m_data := d |> <| m_write_ptr := p |> in
  let c2 := c <| m_data := d |> <| m_write_ptr := p |> in
  output c1 = output c2 /\ (out_ok c2 -> out_ok c1) /\ rest c1 = rest c2 /\ m_out_latch c1 = m_out_latch (latched b c).
Proof. by destruct c. Qed.

Lemma exchange_store b d p (c : sdcard I) :
  receive_byte (latched b c) = Some (latched b c <| m_data := d |> <| m_write_ptr := p |>) ->
  length d = length (m_data c) -> quiet c ->
  exists c', exchange b c = Some (0xff, c') /\ quiet c' /\
    rest c' = rest (c <| m_data := d |> <| m_write_ptr := p |>).
Proof.
  intros E Hd Q. destruct (quiet_output_empty c d p Q Hd) as [Eo Ok].
  pose proof (latched_store b d p c) as L. cbv zeta in L. destruct L as (L1 & L2 & L3 & L4).
  rewrite <- L1 in Eo. apply L2 in Ok. rewrite <- L3. destruct Q as (Hl & _). rewrite <- Hl. clear L1 L2 L3 Hd.
  revert E Eo Ok L4. generalize (latched b c <| m_data := d |> <| m_write_ptr := p |>). intros y E Eo Ok L4.
  destruct (exchange_step b c y E (or_introl L4) Ok) as (c' & E' & El & Eq & Ho' & Er).
  rewrite Eo in El, Eq. exists c'. by split.
Qed.

Lemma data_byte b n ty image lba pre (c : sdcard I) :
  writing SD_STATE_WRITE_DATA n ty image lba pre c -> quiet c -> Z.of_nat (length pre) < n + 1 -> n <= 2048 ->
  exists c', exchange b c = Some (0xff, c') /\
    writing SD_STATE_WRITE_DATA n ty image lba (pre ++ [b]) c' /\ quiet c'.
Proof.
  intros W Q Hp Hn. pose proof Q as (Hl & Hq & Ho).
  pose proof (receive_data_inner (length pre) n (latched b c) (wr_ptr _ _ _ _ _ _ _ W eq_refl)
    (wr_xferblk _ _ _ _ _ _ _ W) Hp Hn) as E.
  assert (receive_byte (latched b c) = receive_data (latched b c)) as Er
    by (unfold receive_byte; change (m_state (latched b c)) with (m_state c); by rewrite (wr_state _ _ _ _ _ _ _ W)).
  rewrite E in Er. clear E.
  destruct (exchange_store b _ _ c Er (length_insert _ _ _) Q) as (c' & E & Q' & Ers).
  exists c'. split; [exact E|]. split; [|exact Q'].
  exact (writing_rest _ _ _ _ _ _ _ _ Ers (writing_store b _ _ _ _ _ _ W Hp Hn)).
Qed.

Lemma data_bytes bs n ty image lba pre (c : sdcard I) :
  writing SD_STATE_WRITE_DATA n ty image lba pre c -> quiet c ->
  Z.of_nat (length pre + length bs) <= n + 1 -> n <= 2048 ->
  exists c', session bs c = Some (replicate (length bs) 0xff, c') /\
    writing SD_STATE_WRITE_DATA n ty image lba (pre ++ bs) c' /\ quiet c'.
Proof.
  revert pre c. induction bs as [|b bs IH]; intros pre c W Q Hl Hn; cbn [length] in Hl.
  - exists c. by rewrite app_nil_r.
  - destruct (data_byte b _ _ _ _ _ _ W Q) as (c1 & E1 & W1 & Q1); [lia|done|].
    destruct (IH (pre ++ [b]) c1 W1 Q1) as (c2 & E2 & W2 & Q2); [rewrite length_app; cbn [length]; lia|done|].
    exists c2. split; [exact (session_cons _ _ _ _ _ _ _ E1 E2)|]. by rewrite <- app_assoc in W2.
Qed.

(** The last byte: the block goes to the image and the answer is prepared. *)
Definition written (image : I) (d : list Z) (p : Z) (c : sdcard I) : sdcard I :=
  send_data 2 SD_STATE_IDLE 0
    (c <| m_data := d |> <| m_write_ptr := p |> <| m_image := image |>
       <| m_data := poke_all 0 [DATA_RESPONSE_OK; 0x01] d |>).

Lemma receive_data_last k n image' (c : sdcard I) :
  m_write_ptr c = Z.of_nat k -> m_xferblk c = n -> Z.of_nat k = n + 1 -> n <= 2048 ->
  image_write (m_image c) (m_blknext c) (<[k := m_in_latch c]> (m_data c)) = Some (true, image') ->
  receive_data c = Some (written image' (<[k := m_in_latch c]> (m_data c)) (n + 2) c).
Proof.
  intros Hp Hx Hk Hn Ew. unfold receive_data.
  assert (c <| m_data ::= poke (m_write_ptr c) (m_in_latch c) |> <| m_write_ptr ::= fun p => u16 (p + 1) |> =
    c <| m_data := <[k := m_in_latch c]> (m_data c) |> <| m_write_ptr := n + 2 |>) as ->.
  { transitivity (c <| m_data := poke (m_write_ptr c) (m_in_latch c) (m_data c) |>
        <| m_write_ptr := u16 (m_write_ptr c + 1) |>); [reflexivity|].
    rewrite Hp. unfold poke. rewrite Nat2Z.id, u16_id by lia.
    by replace (Z.of_nat k + 1) with (n + 2) by lia. }
  cbv zeta. unfold written. revert Ew. generalize (<[k := m_in_latch c]> (m_data c)). intros d Ew.
  change (m_write_ptr (c <| m_data := d |> <| m_write_ptr := n + 2 |>)) with (n + 2).
  change (m_xferblk (c <| m_data := d |> <| m_write_ptr := n + 2 |>)) with (m_xferblk c).
  change (m_image (c <| m_data := d |> <| m_write_ptr := n + 2 |>)) with (m_image c).
  change (m_blknext (c <| m_data := d |> <| m_write_ptr := n + 2 |>)) with (m_blknext c).
  change (m_data (c <| m_data := d |> <| m_write_ptr := n + 2 |>)) with d.
  rewrite Ew, Hx, Z.eqb_refl. reflexivity.
Qed.

Lemma written_output image d p (c : sdcard I) : (2 <= length d)%nat ->
  output (written image d p c) = [DATA_RESPONSE_OK; 0x01] /\ out_ok (written image d p c).
Proof.
  intros Hd. assert (m_data (written image d p c) = poke_all 0 [DATA_RESPONSE_OK; 0x01] d) as Ed by done.
  pose proof (length_poke_all 0 [DATA_RESPONSE_OK; 0x01] d) as Ld. split.
  - change (take 2 (poke_all 0 [DATA_RESPONSE_OK; 0x01] d) = [DATA_RESPONSE_OK; 0x01]).
    rewrite poke_all_split by (cbn [length]; lia). reflexivity.
  - unfold out_ok. rewrite Ed, Ld. change (m_out_count (written image d p c)) with 2.
    change (m_out_ptr (written image d p c)) with 0. change (m_out_delay (written image d p c)) with 0. lia.
Qed.

Lemma written_rest b image d p (c : sdcard I) :
  rest (written image d p (latched b c)) = rest (written image d p c) /\
  output (written image d p (latched b c)) = output (written image d p c) /\
  (out_ok (written image d p c) -> out_ok (written image d p (latched b c))) /\
  m_out_latch (written image d p (latched b c)) = m_out_latch (latched b c).
Proof. by destruct c. Qed.

Lemma written_ready n ty image image' lba pre d p (c : sdcard I) :
  writing SD_STATE_WRITE_DATA n ty image lba pre c -> length d = DATA_SIZE ->
  ready n ty image' (written image' d p c).
Proof.
  intros [Ws Wc Wt Wb Wx Wo Wl Wd Wp Wn Wi] Hd.
  split; [reflexivity|exact Wc|exact Wt|exact Wb|exact Wx|exact Wo| |reflexivity].
  change (length (poke_all 0 [DATA_RESPONSE_OK; 0x01] d) = DATA_SIZE). by rewrite length_poke_all.
Qed.

Lemma last_byte b n ty image total disk lba pre (c : sdcard I) :
  writing SD_STATE_WRITE_DATA n ty image lba pre c -> quiet c ->
  Z.of_nat (length pre) = n + 1 -> 0 < n <= 2048 -> holds image n total disk -> 0 <= lba < total ->
  exists image' c', exchange b c = Some (0xff, c') /\
    holds image' n total (fun i => if i =? lba then take (Z.to_nat n) pre else disk i) /\
    ready n ty image' c' /\ m_out_latch c' = DATA_RESPONSE_OK /\ output c' = [0x01] /\ out_ok c'.
Proof.
  intros W (Hl & Hq & Ho) Hp Hn Hh Hlba. set (d := <[length pre := b]> (m_data c)).
  assert (length d = DATA_SIZE) as Ld by (subst d; rewrite length_insert; exact (wr_length _ _ _ _ _ _ _ W)).
  destruct (holds_write image n total disk lba d Hh Hlba) as (image' & Ew & Hh');
    [rewrite Ld; unfold DATA_SIZE; lia|].
  assert (take (Z.to_nat n) d = take (Z.to_nat n) pre) as Et.
  { subst d. rewrite take_insert, decide_False by lia.
    transitivity (take (Z.to_nat n) (take (length pre) (m_data c))); [|by rewrite (wr_data _ _ _ _ _ _ _ W)].
    rewrite take_take. f_equal. lia. }
  rewrite Et in Hh'. exists image'.
  assert (receive_byte (latched b c) = Some (written image' d (n + 2) (latched b c))) as Er.
  { unfold receive_byte. change (m_state (latched b c)) with (m_state c). rewrite (wr_state _ _ _ _ _ _ _ W).
    apply (receive_data_last (length pre) n image' (latched b c));
      [exact (wr_ptr _ _ _ _ _ _ _ W eq_refl)|exact (wr_xferblk _ _ _ _ _ _ _ W)|exact Hp|lia|].
    change (image_write (m_image c) (m_blknext c) d = Some (true, image')).
    by rewrite (wr_image _ _ _ _ _ _ _ W), (wr_blknext _ _ _ _ _ _ _ W). }
  pose proof (written_ready n ty image image' lba pre d (n + 2) c W Ld) as R.
  destruct (written_output image' d (n + 2) c) as [Eo Ok]; [rewrite Ld; unfold DATA_SIZE; lia|].
  destruct (written_rest b image' d (n + 2) c) as (L1 & L2 & L3 & L4). apply L3 in Ok. rewrite <- L2 in Eo.
  apply (ready_rest _ _ _ _ _ L1) in R. clear L1 L2 L3. revert Er R Eo Ok L4.
  generalize (written image' d (n + 2) (latched b c)). intros y Er R Eo Ok L4.
  destruct (exchange_step b c y Er (or_introl L4) Ok) as (c' & E' & El & Eq & Ho' & Ers).
  rewrite Eo in El, Eq. rewrite Hl in E'. exists c'. split; [done|]. split; [done|].
  split; [exact (ready_rest _ _ _ _ _ Ers R)|]. by split.
Qed.

(** The host writes block [lba]: command, fillers, token, block, two CRC bytes
    (which the card stores and ignores) and fillers for the answer. *)
Definition host_write (n : Z) (ty : sd_type) (lba crc : Z) (block : list Z) (x y : Z) : list Z :=
  (frame 24 (address n ty lba) crc ++ [0xff; 0xff]) ++ 0xfe :: (block ++ [x]) ++ y :: [0xff; 0xff].

(** Everything up to the first CRC byte. *)
Lemma write_all_but_last n ty image lba crc block x (c : sdcard I) :
  ready n ty image c -> quiet c -> addressable n ty lba -> 0 < n <= 2048 -> Z.of_nat (length block) = n ->
  exists c', session ((frame 24 (address n ty lba) crc ++ [0xff; 0xff]) ++ 0xfe :: (block ++ [x])) c =
      Some (replicate 7 0xff ++ [0x00] ++ replicate (Z.to_nat n + 2) 0xff, c') /\
    writing SD_STATE_WRITE_DATA n ty image lba (block ++ [x]) c' /\ quiet c'.
Proof.
  intros R Q Ha Hn Hb.
  destruct (command_reply n ty image 24 (address n ty lba) crc c) as (z & Az & Hz); [lia|done..|].
  destruct (at_command_ready _ _ _ _ _ _ _ _ Az R) as (Ec & Rz & _).
  destruct (write_block_runs n ty image lba crc z) as (r & Er & El & Ecr & Hor & Eo & Wr); [done|done|done|lia|].
  destruct (Hz r [0x00] Er El Ecr Hor Eo) as (c1 & E1 & Q1 & Er1); [right; exact (wr_state _ _ _ _ _ _ _ (Wr false))|].
  pose proof (writing_rest _ _ _ _ _ _ _ _ Er1 (Wr _)) as W1.
  destruct (start_token _ _ _ _ _ W1 Q1) as (c2 & E2 & W2 & Q2).
  destruct (data_bytes (block ++ [x]) _ _ _ _ _ _ W2 Q2) as (c3 & E3 & W3 & Q3);
    [rewrite length_app; cbn [length]; lia|lia|].
  exists c3. split; [|by split].
  etrans; [exact (session_app _ _ _ _ _ _ _ E1 (session_cons _ _ _ _ _ _ _ E2 E3))|].
  rewrite length_app. cbn [length]. replace (Z.to_nat n + 2)%nat with (S (length block + 1)) by lia. reflexivity.
Qed.

Lemma write_block n ty image total disk lba crc block x y (c : sdcard I) :
  ready n ty image c -> quiet c -> holds image n total disk -> 0 <= lba < total ->
  addressable n ty lba -> 0 < n <= 2048 -> Z.of_nat (length block) = n ->
  exists image' c', session (host_write n ty lba crc block x y) c =
      Some (replicate 7 0xff ++ [0x00] ++ replicate (Z.to_nat n + 3) 0xff ++ [DATA_RESPONSE_OK; 0x01], c') /\
    holds image' n total (fun i => if i =? lba then block else disk i) /\
    ready n ty image' c' /\ quiet c'.
Proof.
  intros R Q Hh Hlba Ha Hn Hb.
  destruct (write_all_but_last n ty image lba crc block x c) as (c3 & E3 & W3 & Q3); [done..|].
  destruct (last_byte y n ty image total disk lba _ c3 W3 Q3) as (image' & c4 & E4 & Hh' & R4 & El4 & Eq4 & Ho4);
    [rewrite length_app; cbn [length]; lia|done..|].
  destruct (fill_all [0x01] 0 c4) as (c5 & E5 & El5 & Eq5 & Ho5 & Er5);
    [left; split; [exact (ready_listening _ _ _ _ R4)|exact (ready_cmd _ _ _ _ R4)]|done|done|].
  exists image', c5. split.
  - rewrite El4 in E5. pose proof (session_app _ _ _ _ _ _ _ E3 (session_cons _ _ _ _ _ _ _ E4 E5)) as E.
    unfold host_write. rewrite <- app_assoc in E. etrans; [exact E|].
    replace (Z.to_nat n + 3)%nat with (Z.to_nat n + 2 + 1)%nat by lia.
    rewrite (replicate_add (Z.to_nat n + 2) 1). by rewrite <- !app_assoc.
  - replace (Z.to_nat n) with (length block) in Hh' by lia. rewrite take_app_length in Hh'.
    split; [exact Hh'|]. split; [exact (ready_rest _ _ _ _ _ Er5 R4)|by split].
Qed.

(** ** On the pins *)

(** The clock cycles of a session. *)
Fixpoint pin_session (bs : list Z) (cw : sdcard I * list Z) : option (sdcard I * list Z) :=
  match bs with
  | [] => Some cw
  | b :: bs => match bit_cycles 8 b cw with Some cw => pin_session bs cw | None => None end
  end.

(** The levels of the line while bytes go out, most significant bit first. *)
Definition byte_levels (x : Z) : list Z := map (fun i => BIT x (7 - Z.of_nat i)) (seq 0 8).
Definition on_wire (xs : list Z) : list Z := concat (map byte_levels xs).

(** The output latch is the next byte of the session. *)
Lemma session_latch bs (c c' : sdcard I) xs :
  session bs c = Some (xs, c') -> Forall is_u8 (xs ++ [m_out_latch c']) -> is_u8 (m_out_latch c).
Proof.
  destruct bs as [|b bs]; cbn [session].
  - intros [= <- <-] Hx. by apply Forall_cons in Hx as [? _].
  - destruct (exchange b c) as [[x c1]|] eqn:E; [|done]. destruct (session bs c1) as [[ys c2]|]; [|done].
    intros [= <- <-] Hx. cbn [app] in Hx. apply Forall_cons in Hx as [Hx _].
    assert (x = m_out_latch c) as <-; [|done].
    unfold exchange in E. cbv zeta in E. destruct (receive_byte _); [|done]. by injection E as <- _.
Qed.

Lemma pins_session bs : forall (c c' : sdcard I) w xs,
  aligned c -> Forall is_u8 bs -> session bs c = Some (xs, c') -> Forall is_u8 (xs ++ [m_out_latch c']) ->
  exists lv, pin_session bs (c, w) = Some (c', w ++ lv) /\
    BIT (m_out_latch c) 7 :: lv = on_wire xs ++ [BIT (m_out_latch c') 7] /\ aligned c'.
Proof.
  induction bs as [|b bs IH]; intros c c' w xs A Hb.
  - intros [= <- <-] _. exists []. by rewrite app_nil_r.
  - apply Forall_cons in Hb as [Hb Hbs]. cbn [session].
    destruct (exchange b c) as [[x c1]|] eqn:E; [|done].
    destruct (session bs c1) as [[ys c2]|] eqn:E2; [|done]. intros [= <- <-] Hx.
    cbn [app] in Hx. apply Forall_cons in Hx as [Hx Hys].
    pose proof (session_latch bs c1 c2 ys E2 Hys) as Hl.
    destruct (exchange_aligned b c c1 x A E Hl) as [A1 ->].
    destruct (IH c1 c2 (w ++ levels 7 (m_out_latch c) ++ [BIT (m_out_latch c1) 7]) ys A1 Hbs E2 Hys) as (lv & Ep & El & A2).
    exists (levels 7 (m_out_latch c) ++ [BIT (m_out_latch c1) 7] ++ lv). split.
    + cbn [pin_session]. rewrite bit_cycles_exchange, E by done. rewrite Ep. by rewrite <- !app_assoc.
    + unfold on_wire. cbn [map concat]. rewrite <- app_assoc. fold (on_wire ys). rewrite <- El. by split.
Qed.

(** *** After power-up *)

(** Selecting a card. *)
Definition selected (c : sdcard I) : sdcard I :=
  c <| m_cmd := replicate 6 0xff |> <| m_state := SD_STATE_IDLE |> <| m_in_latch := 0 |>
    <| m_cur_bit := 0 |> <| m_out_latch := 0xff |> <| m_out_delay := 0 |> <| m_out_count := 0 |> <| m_ss := 1 |>.

Lemma select_card (c : sdcard I) : m_ss c = 0 -> spi_ss_w 1 c = selected c.
Proof. intros E. unfold spi_ss_w. rewrite E. reflexivity. Qed.

Lemma mounted_addressable i (c c' : sdcard I) : mounted i c c' ->
  512 <= sectorbytes i <= 2048 /\
  forall lba, 0 <= lba < total_blocks i -> addressable (sectorbytes i) (m_type c') lba.
Proof.
  intros [k j t Es Hk Hj Ht Et Ety _|t Es Ht Et Ety _]; rewrite Es, Ety; unfold addressable.
  - assert (2 ^ 9 <= 2 ^ k <= 2 ^ 11) as Hs by (split; apply Z.pow_le_mono_r; lia).
    assert (2 ^ j <= 2 ^ 9) as Hs' by (apply Z.pow_le_mono_r; lia).
    assert (0 < 2 ^ j) by (apply Z.pow_pos_nonneg; lia).
    change (2 ^ 9) with 512 in *. change (2 ^ 11) with 2048 in *.
    split; [done|]. intros lba Hlba. split; [lia|]. rewrite Et in Hlba. nia.
  - split; [lia|]. intros lba Hlba. rewrite Et in Hlba. change (2 ^ 10) with 1024 in *. lia.
Qed.

(** A fresh card that has accepted an image, selected. *)
Lemma power_up image (c : sdcard I) : image_loaded (new_sdcard image) = Some (true, c) ->
  exists i, image_info image = Some i /\ aligned (spi_ss_w 1 c) /\ quiet (spi_ss_w 1 c) /\
    ready (sectorbytes i) (m_type c) image (spi_ss_w 1 c) /\ 512 <= sectorbytes i <= 2048 /\
    forall lba, 0 <= lba < total_blocks i -> addressable (sectorbytes i) (m_type c) lba.
Proof.
  intros E. destruct (image_loaded_mounts _ _ E) as (i & Ei & M & Eu & Ex & Eb & Eo). exists i.
  destruct (mounted_addressable i _ _ M) as [Hs Ha]. unfold unmounted in Eu. clear E M. simplify_eq.
  match goal with E : m_ss c = _ |- _ => rewrite (select_card c E) end.
  match goal with E : m_clk_state c = _ |- _ => rename E into Hclk end.
  match goal with E : m_out_ptr c = _ |- _ => rename E into Hptr end.
  match goal with E : m_data c = _ |- _ => rename E into Hdata end.
  split; [done|]. split; [by split; [done|exact Hclk|done|split; done|split; done]|].
  split; [|split; [split; try done; change (length (m_data c) = DATA_SIZE); by rewrite Hdata|by split]].
  split; [done|]. unfold output, out_ok.
  change (m_out_ptr (selected c)) with (m_out_ptr c). change (m_out_delay (selected c)) with 0.
  change (m_out_count (selected c)) with 0. rewrite Hptr. split; [done|]. cbn. lia.
Qed.

Lemma frame_u8 cmd arg crc : 0 <= cmd < 64 -> is_u8 crc -> Forall is_u8 (frame cmd arg crc).
Proof.
  intros Hc Hcrc. unfold frame, put_u32be. u8_list.
  assert (Forall (fun cmd => is_u8 (Z.lor 0x40 cmd)) (seqZ 0 64)) as F
    by (cbn; repeat (apply Forall_cons_2; [by split|]); apply Forall_nil_2).
  rewrite Forall_forall in F. apply F, elem_of_seqZ. lia.
Qed.

Lemma host_write_u8 n ty lba crc block x y :
  is_u8 crc -> is_u8 x -> is_u8 y -> Forall is_u8 block -> Forall is_u8 (host_write n ty lba crc block x y).
Proof. intros. unfold host_write. u8_list. by apply frame_u8. Qed.
Lemma host_read_u8 n ty lba crc : is_u8 crc -> Forall is_u8 (host_read n ty lba crc).
Proof. intros. unfold host_read. u8_list. by apply frame_u8. Qed.
Lemma block_reply_u8 block : Forall is_u8 block -> Forall is_u8 (block_reply block).
Proof. intros. unfold block_reply, put_u16be. u8_list. Qed.

(** *** Without an image *)




(** C1: The card from power-up on: select a fresh card that has accepted an image,
    clock in a CMD24 frame, two fillers, the start token, a block, two CRC
    bytes and two fillers, then a CMD17 frame and fillers.  The data-out line
    shows exactly: fill bytes, the write's R1, fill bytes through the block,
    the data response, fill bytes, the read's R1, the start token, the block
    just written and its CRC-16; and every other block of the image is as
    before. *)
Theorem write_then_read image (c : sdcard I) i disk lba block crc crc' x y :
  image_loaded (new_sdcard image) = Some (true, c) -> image_info image = Some i ->
  holds image (sectorbytes i) (total_blocks i) disk -> 0 <= lba < total_blocks i ->
  Z.of_nat (length block) = sectorbytes i -> Forall is_u8 (crc :: crc' :: x :: y :: block) ->
  let n := sectorbytes i in
  exists c' lv,
    pin_session (host_write n (m_type c) lba crc block x y ++ host_read n (m_type c) lba crc')
      (spi_ss_w 1 c, []) = Some (c', lv) /\
    1 :: lv = on_wire (replicate 7 0xff ++ [0x00] ++ replicate (Z.to_nat n + 3) 0xff ++
                [DATA_RESPONSE_OK; 0x01] ++ replicate 7 0xff ++
                [0x00; 0xff; 0xfe] ++ block ++ put_u16be (crc16_simple block)) ++ [1] /\
    holds (m_image c') n (total_blocks i) (fun b => if b =? lba then block else disk b).
Proof.
  intros E Ei Hh Hlba Hb Hu n. destruct (power_up image c E) as (i' & Ei' & A & Q & R & Hn & Ha).
  assert (i' = i) as -> by congruence. fold n in R, Hn, Ha, Hh, Hb. specialize (Ha lba Hlba).
  repeat (apply Forall_cons in Hu as [? Hu]).
  destruct (write_block n (m_type c) image _ disk lba crc block x y _ R Q Hh Hlba Ha) as
    (image' & c1 & E1 & Hh' & R1 & Q1); [lia|done|].
  destruct (read_block n (m_type c) image' _ _ lba crc' c1 R1 Q1 Hh' Hlba Ha) as (c2 & E2 & R2 & Q2); [lia|].
  rewrite Z.eqb_refl in E2. pose proof (session_app _ _ _ _ _ _ _ E1 E2) as E12.
  destruct Q as (Hl & _), Q2 as (El2 & _).
  pose proof (host_write_u8 n (m_type c) lba crc block x y) as U1.
  pose proof (host_read_u8 n (m_type c) lba crc') as U2. pose proof (block_reply_u8 block Hu) as U3.
  destruct (pins_session _ _ _ [] _ A (Forall_app_2 _ _ _ (U1 ltac:(done) ltac:(done) ltac:(done) Hu) (U2 ltac:(done)))
    E12) as (lv & Ep & Ew & _); [rewrite El2; clear - U3; u8_list|].
  exists c2, lv. split; [exact Ep|]. rewrite El2, Hl in Ew.
  split; [|by rewrite (ready_image _ _ _ _ R2)].
  etrans; [exact Ew|]. unfold block_reply. by rewrite <- !app_assoc.
Qed.
End Transfer.



(** ** Witness *)

(** Four blocks of zeros; block 2 is written. *)
Definition four_blocks : info := mk_info 1 2 2 512.
Definition zero_disk : option memdisk := Some (mk_hard_disk (backed_by_file (replicate 2048 0) 0) four_blocks).

Lemma zero_disk_holds : holds zero_disk 512 4
  (fun b => take 512 (drop (Z.to_nat (sector_position 0 b four_blocks)) (replicate 2048 0))).
Proof.
  cbn [holds memdisk_laws]. unfold file_holds. exists (replicate 2048 0), 0, four_blocks. do 4 (split; [done|]). split; [|done].
  rewrite length_replicate. cbn. lia.
Qed.

Lemma write_then_read_witness :
  match image_loaded (new_sdcard zero_disk) with
  | Some (true, c) => exists c' lv,
      pin_session (host_write 512 (m_type c) 2 0xff (replicate 512 0xa5) 0 0 ++ host_read 512 (m_type c) 2 0xff)
        (spi_ss_w 1 c, []) = Some (c', lv) /\
      1 :: lv = on_wire (replicate 7 0xff ++ [0x00] ++ replicate 515 0xff ++ [0x05; 0x01] ++ replicate 7 0xff ++
                  [0x00; 0xff; 0xfe] ++ replicate 512 0xa5 ++ put_u16be (crc16_simple (replicate 512 0xa5))) ++ [1]
  | _ => False
  end.
Proof.
  assert (match image_loaded (new_sdcard zero_disk) with Some (true, _) => True | _ => False end) as A
    by (vm_compute; constructor).
  destruct (image_loaded (new_sdcard zero_disk)) as [[[] c]|] eqn:E; [|destruct A..].
  destruct (write_then_read zero_disk c four_blocks _ 2 (replicate 512 0xa5) 0xff 0xff 0 0 E eq_refl
    zero_disk_holds) as (c' & lv & Ep & Ew & _).
  - split; [lia|vm_compute; reflexivity].
  - rewrite length_replicate. reflexivity.
  - u8_list.
  - exists c', lv. split; [exact Ep|exact Ew].
Defined.

