(* ===== verification/M6502.v ===== *)
(** * M6502: arithmetic and interrupt inputs of the 6502 family
    (src/src/devices/cpu/m6502/m6502.h, m6502.cpp, w65c02.cpp)

    The helper functions the generated opcode bodies call, on the registers
    they use: binary and decimal addition and subtraction, comparison, shifts
    and rotations, and the latching and sampling of the interrupt inputs
    around an opcode fetch. *)

From stdpp Require Import base tactics numbers option list.
From Stdlib Require Import ZArith Lia Bool.
From S2P Require Import Prelude.

(** ** Data *)

Definition F_N : Z := 0x80.
Definition F_V : Z := 0x40.
Definition F_E : Z := 0x20.
Definition F_B : Z := 0x10.
Definition F_D : Z := 0x08.
Definition F_I : Z := 0x04.
Definition F_Z : Z := 0x02.
Definition F_C : Z := 0x01.

Definition STATE_RESET : Z := 0xff00.

Inductive input_line := IRQ_LINE | APU_IRQ_LINE | NMI_LINE | V_LINE | RDY_LINE.

(** [m_sync_w] holds the levels written to the line, [None] when it is unset. *)
Record m6502 := mk_m6502 {
  m_PPC : Z; m_NPC : Z; m_PC : Z; m_SP : Z; m_TMP : Z; m_TMP2 : Z;
  m_A : Z; m_X : Z; m_Y : Z; m_P : Z; m_IR : Z;
  m_inst_state_base : Z; m_inst_state : Z; m_inst_substate : Z; m_count_before_instruction_step : Z;
  m_nmi_state : bool; m_irq_state : bool; m_apu_irq_state : bool; m_v_state : bool; m_rdy_state : bool;
  m_nmi_pending : bool; m_irq_taken : bool; m_sync : bool; m_inhibit_interrupts : bool;
  m_XPC : Z; m_sync_w : option (list Z)
}.

#[export] Instance m6502_eta : Eta m6502 := fun c =>
  mk_m6502 (m_PPC c) (m_NPC c) (m_PC c) (m_SP c) (m_TMP c) (m_TMP2 c) (m_A c) (m_X c) (m_Y c) (m_P c) (m_IR c)
    (m_inst_state_base c) (m_inst_state c) (m_inst_substate c) (m_count_before_instruction_step c)
    (m_nmi_state c) (m_irq_state c) (m_apu_irq_state c) (m_v_state c) (m_rdy_state c)
    (m_nmi_pending c) (m_irq_taken c) (m_sync c) (m_inhibit_interrupts c) (m_XPC c) (m_sync_w c).

(** [init], for a sync line that is connected or not. *)
Definition init (connected : bool) : m6502 :=
  mk_m6502 0 0 0 0x0100 0 0 0 0x80 0 0x36 0 0 STATE_RESET 0 0
    false false false false true false false false false 0 (if connected then Some [] else None).

Definition sync_write (level : Z) (c : m6502) : m6502 :=
  c <| m_sync_w ::= option_map (fun l => l ++ [level]) |>.

Definition device_reset (c : m6502) : m6502 :=
  let c := c <| m_inst_state := STATE_RESET |> <| m_inst_substate := 0 |> <| m_inst_state_base := 0 |>
             <| m_nmi_pending := false |> <| m_irq_taken := false |> <| m_sync := false |> in
  (sync_write 0 c) <| m_inhibit_interrupts := false |>.

(** ** Flags *)

Definition flag (f : Z) (b : bool) (p : Z) : Z := if b then set_bits f p else p.

(** The zero flag, or else the negative flag. *)
Definition flag_zn (zero negative : bool) (p : Z) : Z :=
  if zero then set_bits F_Z p else flag F_N negative p.

Definition set_nz (v : Z) (c : m6502) : m6502 :=
  c <| m_P ::= fun p => flag F_Z (v =? 0) (flag F_N (test v 0x80) (clear_bits (Z.lor F_Z F_N) p)) |>.

(** ** Arithmetic *)

Definition carry (c : m6502) : Z := if test (m_P c) F_C then 1 else 0.
Definition borrow (c : m6502) : Z := if test (m_P c) F_C then 0 else 1.
Definition NVZC : Z := 0xc3.
Definition NZC : Z := 0x83.

Definition do_adc_d (val : Z) (c : m6502) : m6502 :=
  let A := m_A c in
  let cy := carry c in
  let p := clear_bits NVZC (m_P c) in
  let al := u8 (Z.land A 15 + Z.land val 15 + cy) in
  let al := if 9 <? al then u8 (al + 6) else al in
  let ah := u8 (Z.shiftr A 4 + Z.shiftr val 4 + b2z (15 <? al)) in
  let p := flag_zn (u8 (A + val + cy) =? 0) (test ah 8) p in
  let p := flag F_V (test (Z.land (Z.lnot (Z.lxor A val)) (Z.lxor A (Z.shiftl ah 4))) 0x80) p in
  let ah := if 9 <? ah then u8 (ah + 6) else ah in
  let p := flag F_C (15 <? ah) p in
  c <| m_P := p |> <| m_A := u8 (Z.lor (Z.shiftl ah 4) (Z.land al 15)) |>.

Definition do_adc_nd (val : Z) (c : m6502) : m6502 :=
  let sum := u16 (m_A c + val + carry c) in
  let p := clear_bits NVZC (m_P c) in
  let p := flag_zn (u8 sum =? 0) (s8 sum <? 0) p in
  let p := flag F_V (test (Z.land (Z.lnot (Z.lxor (m_A c) val)) (Z.lxor (m_A c) sum)) 0x80) p in
  let p := flag F_C (test sum 0xff00) p in
  c <| m_P := p |> <| m_A := u8 sum |>.

Definition do_adc (val : Z) (c : m6502) : m6502 :=
  if test (m_P c) F_D then do_adc_d val c else do_adc_nd val c.

Definition do_arr_nd (c : m6502) : m6502 :=
  let cy := test (m_P c) F_C in
  let p := clear_bits NVZC (m_P c) in
  let A := Z.shiftr (m_A c) 1 in
  let A := if cy then set_bits 0x80 A else A in
  let p := flag_zn (A =? 0) (s8 A <? 0) p in
  let p := flag (Z.lor F_V F_C) (test A 0x40) p in
  let p := if test A 0x20 then u8 (Z.lxor p F_V) else p in
  c <| m_P := p |> <| m_A := A |>.

Definition do_arr_d (c : m6502) : m6502 :=
  let A := m_A c in
  let cy := test (m_P c) F_C in
  let p := clear_bits NVZC (m_P c) in
  let a := u8 (Z.shiftr A 1) in
  let a := if cy then set_bits 0x80 a else a in
  let p := flag_zn (a =? 0) (s8 a <? 0) p in
  let p := flag F_V (test (Z.lxor a A) 0x40) p in
  let a := if 0x05 <=? Z.land A 0x0f
           then u8 (Z.lor (Z.land (a + 6) 0x0f) (Z.land a 0xf0)) else a in
  let '(a, p) := if 0x50 <=? Z.land A 0xf0 then (u8 (a + 0x60), set_bits F_C p) else (a, p) in
  c <| m_P := p |> <| m_A := a |>.

Definition do_arr (c : m6502) : m6502 :=
  if test (m_P c) F_D then do_arr_d c else do_arr_nd c.

Definition do_cmp (val1 val2 : Z) (c : m6502) : m6502 :=
  let p := clear_bits NZC (m_P c) in
  let r := u16 (val1 - val2) in
  let p := flag_zn (r =? 0) (s8 r <? 0) p in
  c <| m_P := flag F_C (negb (test r 0xff00)) p |>.

Definition do_sbc_d (val : Z) (c : m6502) : m6502 :=
  let A := m_A c in
  let b := borrow c in
  let p := clear_bits NVZC (m_P c) in
  let diff := u16 (A - val - b) in
  let al := u8 (Z.land A 15 - Z.land val 15 - b) in
  let ah := u8 (Z.shiftr A 4 - Z.shiftr val 4 - b2z (s8 al <? 0)) in
  let p := flag_zn (u8 diff =? 0) (test diff 0x80) p in
  let p := flag F_V (test (Z.land (Z.lxor A val) (Z.lxor A diff)) 0x80) p in
  let p := flag F_C (negb (test diff 0xff00)) p in
  let al := if s8 al <? 0 then u8 (al - 6) else al in
  let ah := if s8 ah <? 0 then u8 (ah - 6) else ah in
  c <| m_P := p |> <| m_A := u8 (Z.lor (Z.shiftl ah 4) (Z.land al 15)) |>.

Definition do_sbc_nd (val : Z) (c : m6502) : m6502 :=
  let diff := u16 (m_A c - val - borrow c) in
  let p := clear_bits NVZC (m_P c) in
  let p := flag_zn (u8 diff =? 0) (s8 diff <? 0) p in
  let p := flag F_V (test (Z.land (Z.lxor (m_A c) val) (Z.lxor (m_A c) diff)) 0x80) p in
  let p := flag F_C (negb (test diff 0xff00)) p in
  c <| m_P := p |> <| m_A := u8 diff |>.

Definition do_sbc (val : Z) (c : m6502) : m6502 :=
  if test (m_P c) F_D then do_sbc_d val c else do_sbc_nd val c.

(** The 65C02's decimal subtraction; N and Z are set by the opcode. *)
Definition do_sbc_cd (val : Z) (c : m6502) : m6502 :=
  let A := m_A c in
  let b := borrow c in
  let p := clear_bits NVZC (m_P c) in
  let diff := u16 (A - val - b) in
  let al := u8 (Z.land A 15 - Z.land val 15 - b) in
  let ah := u8 (Z.shiftr A 4 - Z.shiftr val 4 - b2z (s8 al <? 0)) in
  let p := flag F_V (test (Z.land (Z.lxor A val) (Z.lxor A diff)) 0x80) p in
  let p := flag F_C (negb (test diff 0xff00)) p in
  let A := u8 (Z.lor (Z.shiftl ah 4) (Z.land al 15)) in
  let A := if s8 al <? 0 then u8 (A - 6) else A in
  let A := if s8 ah <? 0 then u8 (A - 0x60) else A in
  c <| m_P := p |> <| m_A := A |>.

Definition do_sbc_c (val : Z) (c : m6502) : m6502 :=
  if test (m_P c) F_D then do_sbc_cd val c else do_sbc_nd val c.

Definition do_bit (val : Z) (c : m6502) : m6502 :=
  let p := clear_bits 0xc2 (m_P c) in
  let r := Z.land (m_A c) val in
  let p := flag F_Z (r =? 0) p in
  let p := flag F_N (test val 0x80) p in
  c <| m_P := flag F_V (test val 0x40) p |>.

(** ** Shifts: the result, and the flags *)

Definition do_asl (v : Z) (c : m6502) : Z * m6502 :=
  let p := clear_bits NZC (m_P c) in
  let r := u8 (Z.shiftl v 1) in
  let p := flag_zn (r =? 0) (s8 r <? 0) p in
  (r, c <| m_P := flag F_C (test v 0x80) p |>).

Definition do_lsr (v : Z) (c : m6502) : Z * m6502 :=
  let p := flag F_C (test v 1) (clear_bits NZC (m_P c)) in
  let v := Z.shiftr v 1 in
  (v, c <| m_P := flag F_Z (v =? 0) p |>).

Definition do_ror (v : Z) (c : m6502) : Z * m6502 :=
  let cy := test (m_P c) F_C in
  let p := flag F_C (test v 1) (clear_bits NZC (m_P c)) in
  let v := Z.shiftr v 1 in
  let v := if cy then set_bits 0x80 v else v in
  (v, c <| m_P := flag_zn (v =? 0) (s8 v <? 0) p |>).

Definition do_rol (v : Z) (c : m6502) : Z * m6502 :=
  let cy := test (m_P c) F_C in
  let p := flag F_C (test v 0x80) (clear_bits NZC (m_P c)) in
  let v := u8 (Z.shiftl v 1) in
  let v := if cy then set_bits 0x01 v else v in
  (v, c <| m_P := flag_zn (v =? 0) (s8 v <? 0) p |>).

Definition do_asr (v : Z) (c : m6502) : Z * m6502 :=
  let p := flag F_C (test v 1) (clear_bits NZC (m_P c)) in
  let v := Z.shiftr v 1 in
  if v =? 0 then (v, c <| m_P := set_bits F_Z p |>)
  else if test v 0x40 then (set_bits 0x80 v, c <| m_P := set_bits F_N p |>)
  else (v, c <| m_P := p |>).

(** ** Addresses *)

Definition page_changing (base delta : Z) : bool := test (Z.lxor (base + delta) base) 0xff00.
Definition set_l (base val : Z) : Z := Z.lor (Z.land base 0xff00) (u8 val).
Definition set_h (base val : Z) : Z := Z.lor (Z.land base 0x00ff) (Z.shiftl (u8 val) 8).
Definition dec_SP (c : m6502) : m6502 := c <| m_SP ::= fun sp => set_l sp (sp - 1) |>.
Definition inc_SP (c : m6502) : m6502 := c <| m_SP ::= fun sp => set_l sp (sp + 1) |>.

(** ** Interrupt inputs *)

(** [execute_set_input]; [total_cycles] is the time since the reset. *)
Definition execute_set_input (total_cycles : Z) (inputnum : input_line) (state : bool) (c : m6502) : m6502 :=
  match inputnum with
  | IRQ_LINE => c <| m_irq_state := state |>
  | APU_IRQ_LINE => c <| m_apu_irq_state := state |>
  | NMI_LINE =>
      let c := if negb (m_nmi_state c) && state && negb (total_cycles =? 0)
               then c <| m_nmi_pending := true |> else c in
      c <| m_nmi_state := state |>
  | V_LINE =>
      let c := if negb (m_v_state c) && state && negb (total_cycles =? 0)
               then c <| m_P ::= set_bits F_V |> else c in
      c <| m_v_state := state |>
  | RDY_LINE => c <| m_rdy_state := state |>
  end.

Definition prefetch_start (c : m6502) : m6502 :=
  let c := sync_write 1 (c <| m_sync := true |>) in
  c <| m_NPC := m_PC c |>.

(** An interrupt is due at this fetch. *)
Definition interrupt_due (c : m6502) : bool :=
  (m_nmi_pending c || ((m_irq_state c || m_apu_irq_state c) && negb (test (m_P c) F_I)))
  && negb (m_inhibit_interrupts c).

Definition prefetch_end (c : m6502) : m6502 :=
  let c := sync_write 0 (c <| m_sync := false |>) in
  if interrupt_due c then c <| m_irq_taken := true |> <| m_IR := 0x00 |>
  else c <| m_PC ::= fun pc => u16 (pc + 1) |>.

Definition prefetch_end_noirq (c : m6502) : m6502 :=
  let c := sync_write 0 (c <| m_sync := false |>) in
  c <| m_PC ::= fun pc => u16 (pc + 1) |>.

(** [state_import] of the flags and of the program counter; [read_sync] is the
    opcode fetch. *)
Definition state_import_P (c : m6502) : m6502 := c <| m_P ::= set_bits (Z.lor F_B F_E) |>.

Definition state_import_PC {W} (read_sync : Z -> W -> Z * W) (cw : m6502 * W) : m6502 * W :=
  let '(c, w) := cw in
  let c := c <| m_PC := m_NPC c |> <| m_irq_taken := false |> in
  let c := prefetch_start c in
  let '(ir, w) := read_sync (m_PC c) w in
  let c := prefetch_end (c <| m_IR := ir |>) in
  let c := c <| m_PPC := m_NPC c |> in
  (c <| m_inst_state := Z.lor (m_IR c) (m_inst_state_base c) |> <| m_inst_substate := 0 |>, w).

(** ** Lemmas *)

Lemma testbit_flag f b p n : 0 <= n < 8 -> Z.testbit (flag f b p) n = Z.testbit p n || b && Z.testbit f n.
Proof. intros Hn. destruct b; cbn [flag andb]; [by apply testbit_set_bits|by rewrite orb_false_r]. Qed.

Lemma testbit_flag_zn z m p n : 0 <= n < 8 ->
  Z.testbit (flag_zn z m p) n = Z.testbit p n || (z && Z.testbit F_Z n) || (negb z && m && Z.testbit F_N n).
Proof.
  intros Hn. unfold flag_zn. destruct z; cbn [negb andb].
  - by rewrite testbit_set_bits, orb_false_r.
  - by rewrite testbit_flag, orb_false_r.
Qed.

Lemma flag_u8 f b p : is_u8 p -> is_u8 (flag f b p).
Proof. destruct b; [intros _; apply u8_range|done]. Qed.
Lemma flag_zn_u8 z m p : is_u8 p -> is_u8 (flag_zn z m p).
Proof. intros Hp. destruct z; [apply u8_range|by apply flag_u8]. Qed.
#[export] Hint Resolve flag_u8 flag_zn_u8 : mame.
#[export] Hint Rewrite testbit_flag testbit_flag_zn using lia : bits.

Lemma bit7 x : is_u8 x -> Z.testbit x 7 = (128 <=? x).
Proof.
  intros [H0 H1]. rewrite Z.testbit_odd, Z.shiftr_div_pow2 by lia. change (2 ^ 7) with 128.
  destruct (Z.leb_spec 128 x).
  - by replace (x / 128) with 1 by (Z.to_euclidean_division_equations; lia).
  - by replace (x / 128) with 0 by (Z.to_euclidean_division_equations; lia).
Qed.
Lemma bit7_u8 x : Z.testbit x 7 = (128 <=? u8 x).
Proof. rewrite <- bit7 by apply u8_range. by rewrite testbit_u8. Qed.

Lemma s8_negative x : (s8 x <? 0) = (128 <=? u8 x).
Proof.
  unfold s8, u8. destruct (Z.ltb_spec ((x + 128) mod 256 - 128) 0), (Z.leb_spec 128 (x mod 256));
    try done; Z.to_euclidean_division_equations; lia.
Qed.

Lemma s8_of_u8 x : is_u8 x -> s8 x = if 128 <=? x then x - 256 else x.
Proof.
  intros Hx. unfold s8, is_u8 in *. destruct (Z.leb_spec 128 x); Z.to_euclidean_division_equations; lia.
Qed.

(** The overflow flag: operands of one sign, sum of the other. *)
Lemma signed_overflow a b cy : is_u8 a -> is_u8 b -> cy = 0 \/ cy = 1 ->
  negb (xorb (128 <=? a) (128 <=? b)) && xorb (128 <=? a) (128 <=? u8 (a + b + cy)) =
  negb ((-128 <=? s8 a + s8 b + cy) && (s8 a + s8 b + cy <? 128)).
Proof.
  intros Ha Hb Hc. rewrite !s8_of_u8 by done. unfold is_u8 in *.
  assert (u8 (a + b + cy) = if 256 <=? a + b + cy then a + b + cy - 256 else a + b + cy) as ->.
  { unfold u8. destruct (Z.leb_spec 256 (a + b + cy)); Z.to_euclidean_division_equations; lia. }
  destruct (Z.leb_spec 128 a), (Z.leb_spec 128 b), (Z.leb_spec 256 (a + b + cy));
    match goal with |- context [xorb _ (128 <=? ?x)] => destruct (Z.leb_spec 128 x) end;
    match goal with |- context [-128 <=? ?y] => destruct (Z.leb_spec (-128) y), (Z.ltb_spec y 128) end;
    try done; lia.
Qed.

(** The high byte of a 16-bit value is not zero. *)
Lemma test_high x : is_u16 x -> test x 0xff00 = (256 <=? x).
Proof.
  intros Hx. unfold test. assert (x = Z.lor (Z.land x 0xff00) (Z.land x 0xff)) as E.
  { rewrite <- Z.land_lor_distr_r. change (Z.lor 0xff00 0xff) with (Z.ones 16).
    rewrite Z.land_ones by lia. symmetry. apply Z.mod_small. unfold is_u16 in Hx. lia. }
  assert (Z.land x 0xff = x mod 256) as El by (change 0xff with (Z.ones 8); by rewrite Z.land_ones).
  destruct (Z.leb_spec 256 x) as [Hge|Hlt].
  - destruct (Z.eqb_spec (Z.land x 0xff00) 0) as [E0|]; [|done]. exfalso.
    rewrite E0, Z.lor_0_l, El in E. pose proof (Z.mod_pos_bound x 256). lia.
  - destruct (Z.eqb_spec (Z.land x 0xff00) 0) as [|Hne]; [done|]. exfalso. apply Hne.
    apply Z.bits_inj'. intros n Hn. rewrite Z.land_spec, Z.bits_0. destruct (Z.lt_ge_cases n 8).
    + assert (Z.testbit 0xff00 n = false) as ->; [|by rewrite andb_false_r].
      change 0xff00 with (Z.shiftl 0xff 8). by apply Z.shiftl_spec_low.
    + assert (Z.testbit x n = false) as ->; [|done].
      apply (bits_below 8 x); [lia|change (2 ^ 8) with 256; unfold is_u16 in Hx; lia|done].
Qed.

Lemma low_nibble x : Z.land x 15 = x mod 16.
Proof. change 15 with (Z.ones 4). by rewrite Z.land_ones. Qed.
Lemma high_nibble x : Z.shiftr x 4 = x / 16.
Proof. by rewrite Z.shiftr_div_pow2. Qed.

Lemma pack_nibbles h l : u8 (Z.lor (Z.shiftl h 4) (Z.land l 15)) = 16 * (h mod 16) + l mod 16.
Proof.
  assert (Z.land (Z.shiftl h 4) (Z.land l 15) = 0) as E0.
  { apply Z.bits_inj'. intros n Hn. rewrite Z.land_spec, Z.bits_0, low_nibble.
    destruct (Z.lt_ge_cases n 4); [by rewrite Z.shiftl_spec_low|].
    assert (Z.testbit (l mod 16) n = false) as ->; [|by rewrite andb_false_r].
    apply (bits_below 4 (l mod 16)); [lia|change (2 ^ 4) with 16; apply Z.mod_pos_bound; lia|done]. }
  pose proof (Z.add_lor_land (Z.shiftl h 4) (Z.land l 15)) as E. rewrite E0, Z.add_0_r in E.
  rewrite E, Z.shiftl_mul_pow2, low_nibble by lia. change (2 ^ 4) with 16. unfold u8.
  Z.to_euclidean_division_equations; lia.
Qed.

(** ** Binary arithmetic *)

Ltac flag_bits := rewrite ?test_01, ?test_02, ?test_40, ?test_80; autorewrite with bits; unfold F_C, F_Z, F_N, F_V, NVZC, NZC; eval_bits;
  rewrite ?andb_true_r, ?andb_false_r, ?orb_true_r, ?orb_false_r; cbn [negb andb orb];
  rewrite ?andb_true_r, ?andb_false_r, ?orb_true_r, ?orb_false_r.

Lemma carry_01 c : carry c = 0 \/ carry c = 1.
Proof. unfold carry. destruct (test (m_P c) F_C); [by right|by left]. Qed.
Lemma borrow_carry c : borrow c = 1 - carry c.
Proof. unfold borrow, carry. by destruct (test (m_P c) F_C). Qed.

(** The flags an operation leaves alone. *)
Lemma kept_bits p q : (forall n, In n [2; 3; 4; 5] -> Z.testbit p n = Z.testbit q n) ->
  Z.land p 0x3c = Z.land q 0x3c.
Proof.
  intros Hp. apply Z.bits_inj'. intros n Hn. rewrite !Z.land_spec.
  destruct (Z.lt_ge_cases n 6) as [Hlt|].
  - assert (n = 0 \/ n = 1 \/ In n [2; 3; 4; 5]) as [-> | [-> | Hin]] by (cbn; lia); [by rewrite !andb_false_r..|].
    by rewrite Hp.
  - assert (Z.testbit 0x3c n = false) as ->; [|by rewrite !andb_false_r].
    apply (bits_below 6 0x3c); [lia|split; [lia|done]|done].
Qed.

(** The flag word of an arithmetic operation. *)
Lemma flags_word cy v z n p :
  let w := flag F_C cy (flag F_V v (flag_zn z n (clear_bits NVZC p))) in
  test w F_C = cy /\ test w F_Z = z /\ test w F_N = negb z && n /\ test w F_V = v /\
  Z.land w 0x3c = Z.land p 0x3c.
Proof.
  cbv zeta. repeat split; [by flag_bits|by flag_bits|by flag_bits|by flag_bits|].
  apply kept_bits; intros i Hi; repeat destruct Hi as [<- | Hi]; [..|destruct Hi]; by flag_bits.
Qed.
Lemma flags_word_cmos cy v p : test (flag F_C cy (flag F_V v (clear_bits NVZC p))) F_C = cy.
Proof. by flag_bits. Qed.

(** The flag words of a comparison and of ARR. *)
Lemma cmp_word cy z n p :
  let w := flag F_C cy (flag_zn z n (clear_bits NZC p)) in
  test w F_C = cy /\ test w F_Z = z /\ test w F_N = negb z && n /\ Z.land w 0x7c = Z.land p 0x7c.
Proof.
  cbv zeta. repeat split; [by flag_bits|by flag_bits|by flag_bits|].
  apply Z.bits_inj'. intros i Hi. rewrite !Z.land_spec.
  destruct (Z.lt_ge_cases i 7) as [Hlt|].
  - assert (i = 0 \/ i = 1 \/ i = 2 \/ i = 3 \/ i = 4 \/ i = 5 \/ i = 6) as Hc by lia.
    repeat destruct Hc as [-> | Hc]; [..|subst i]; by flag_bits.
  - assert (Z.testbit 0x7c i = false) as ->; [|by rewrite !andb_false_r].
    apply (bits_below 7 0x7c); [lia|split; [lia|done]|done].
Qed.
Lemma arr_word r z n p :
  let w := flag (Z.lor F_V F_C) (test r 0x40) (flag_zn z n (clear_bits NVZC p)) in
  let w := if test r 0x20 then u8 (Z.lxor w F_V) else w in
  test w F_C = Z.testbit r 6 /\ test w F_V = xorb (Z.testbit r 6) (Z.testbit r 5) /\
  test w F_Z = z /\ test w F_N = negb z && n /\ Z.land w 0x3c = Z.land p 0x3c.
Proof.
  cbv zeta. change 0x20 with (2 ^ 5). rewrite (test_pow2 r 5), (test_40 r) by lia.
  assert (forall q k, 0 <= k < 8 -> Z.testbit (u8 (Z.lxor q F_V)) k = xorb (Z.testbit q k) (Z.testbit F_V k)) as Hx
    by (intros; by rewrite testbit_u8, Z.lxor_spec by lia).
  repeat split; [..|apply kept_bits; intros i Hi; repeat destruct Hi as [<- | Hi]; [..|destruct Hi]];
    destruct (Z.testbit r 5), (Z.testbit r 6); unfold F_C, F_Z, F_N; rewrite ?test_01, ?test_02, ?test_40, ?test_80, ?Hx by lia;
    flag_bits; rewrite ?xorb_false_r; try reflexivity; by destruct z, n.
Qed.

(** The overflow bit of a sum and of a difference. *)
Lemma overflow_sum a b s : test (Z.land (Z.lnot (Z.lxor a b)) (Z.lxor a s)) 0x80 =
  negb (xorb (Z.testbit a 7) (Z.testbit b 7)) && xorb (Z.testbit a 7) (Z.testbit s 7).
Proof. by rewrite test_80, Z.land_spec, lnot_testbit, !Z.lxor_spec. Qed.
Lemma overflow_difference a b s : test (Z.land (Z.lxor a b) (Z.lxor a s)) 0x80 =
  xorb (Z.testbit a 7) (Z.testbit b 7) && xorb (Z.testbit a 7) (Z.testbit s 7).
Proof. by rewrite test_80, Z.land_spec, !Z.lxor_spec. Qed.

(** The flags and the result of a binary operation: [s] with carry out, [v]
    the signed value. *)
Definition binary_result (s v : Z) (cy : bool) (c c' : m6502) : Prop :=
  m_A c' = s mod 256 /\
  test (m_P c') F_C = cy /\
  test (m_P c') F_Z = (s mod 256 =? 0) /\
  test (m_P c') F_N = (128 <=? s mod 256) /\
  test (m_P c') F_V = negb ((-128 <=? v) && (v <? 128)) /\
  Z.land (m_P c') 0x3c = Z.land (m_P c) 0x3c.

Lemma adc_binary val (c : m6502) :
  is_u8 (m_A c) -> is_u8 val ->
  let s := m_A c + val + carry c in
  binary_result s (s8 (m_A c) + s8 val + carry c) (256 <=? s) c (do_adc_nd val c).
Proof.
  intros HA Hv s. unfold binary_result, do_adc_nd. cbv zeta. fold s.
  pose proof (carry_01 c) as Hc.
  assert (u16 s = s) as -> by (apply u16_id; unfold is_u8 in *; subst s; lia).
  cbn [m_A m_P]. set (p := m_P c). set (A := m_A c) in *. set (cy := carry c) in *.
  change (m_P (c <| m_P := ?p |> <| m_A := ?a |>)) with p.
  change (m_A (c <| m_P := ?p |> <| m_A := ?a |>)) with a.
  split; [reflexivity|].
  rewrite test_high by (unfold is_u8, is_u16 in *; subst s; lia).
  rewrite s8_negative. change (s mod 256) with (u8 s).
  pose proof (signed_overflow A val cy HA Hv Hc) as Ov. fold s in Ov.
  rewrite overflow_sum, (bit7_u8 s), !bit7, Ov by done.
  destruct (flags_word (256 <=? s) (negb ((-128 <=? s8 A + s8 val + cy) && (s8 A + s8 val + cy <? 128)))
    (u8 s =? 0) (128 <=? u8 s) p) as (-> & -> & -> & -> & ->).
  do 2 (split; [done|]). split; [|done]. by destruct (Z.eqb_spec (u8 s) 0) as [->|].
Qed.

Lemma carry_flag c : test (m_P c) F_C = (carry c =? 1).
Proof. unfold carry. by destruct (test (m_P c) F_C). Qed.

(** Binary subtraction is the addition of the complement, borrow being the
    absence of carry: the two functions agree on the accumulator and on
    every flag. *)
Lemma sbc_is_adc_of_complement val (c : m6502) :
  is_u8 (m_A c) -> is_u8 val -> do_sbc_nd val c = do_adc_nd (255 - val) c.
Proof.
  intros HA Hv. unfold do_sbc_nd, do_adc_nd. cbv zeta. rewrite borrow_carry. pose proof (carry_01 c) as Hc.
  set (diff := u16 (m_A c - val - (1 - carry c))). set (sum := u16 (m_A c + (255 - val) + carry c)).
  assert (u8 diff = u8 sum) as E8.
  { subst diff sum. unfold u8, u16, is_u8 in *. Z.to_euclidean_division_equations; lia. }
  assert (test (Z.land (Z.lxor (m_A c) val) (Z.lxor (m_A c) diff)) 0x80 =
    test (Z.land (Z.lnot (Z.lxor (m_A c) (255 - val))) (Z.lxor (m_A c) sum)) 0x80) as ->.
  { rewrite overflow_sum, overflow_difference.
    rewrite (bit7_u8 diff), (bit7_u8 sum), E8, (bit7 val), (bit7 (255 - val)) by (unfold is_u8 in *; lia).
    f_equal. destruct (Z.testbit (m_A c) 7), (Z.leb_spec 128 val), (Z.leb_spec 128 (255 - val)); done || lia. }
  assert (negb (test diff 0xff00) = test sum 0xff00) as ->.
  { rewrite !test_high by apply u16_range. subst diff sum. unfold u16, is_u8 in *.
    destruct (Z.leb_spec 256 ((m_A c - val - (1 - carry c)) mod 65536)),
      (Z.leb_spec 256 ((m_A c + (255 - val) + carry c) mod 65536)); try done;
      Z.to_euclidean_division_equations; lia. }
  by rewrite !s8_negative, E8.
Qed.

(** ** Decimal arithmetic *)

(** Two decimal digits in a byte, and their value. *)
Definition is_bcd (x : Z) : Prop := 0 <= x / 16 <= 9 /\ 0 <= x mod 16 <= 9.
Definition bcd (x : Z) : Z := 10 * (x / 16) + x mod 16.

Lemma bcd_pack h l : 0 <= h <= 9 -> 0 <= l <= 9 -> is_bcd (16 * h + l) /\ bcd (16 * h + l) = 10 * h + l.
Proof. intros Hh Hl. unfold is_bcd, bcd. split; Z.to_euclidean_division_equations; lia. Qed.

Lemma is_bcd_u8 x : is_bcd x -> is_u8 x.
Proof. unfold is_bcd, is_u8. intros [H1 H2]. Z.to_euclidean_division_equations; lia. Qed.

Lemma adc_decimal val (c : m6502) :
  is_bcd (m_A c) -> is_bcd val ->
  let s := bcd (m_A c) + bcd val + carry c in
  let c' := do_adc_d val c in
  is_bcd (m_A c') /\ bcd (m_A c') = s mod 100 /\ test (m_P c') F_C = (100 <=? s).
Proof.
  intros HA Hv s c'. pose proof (carry_01 c) as Hc. subst c'. unfold do_adc_d. cbv zeta.
  set (al := u8 (Z.land (m_A c) 15 + Z.land val 15 + carry c)).
  set (al' := if 9 <? al then u8 (al + 6) else al).
  set (ah := u8 (Z.shiftr (m_A c) 4 + Z.shiftr val 4 + b2z (15 <? al'))).
  set (ah' := if 9 <? ah then u8 (ah + 6) else ah).
  change (m_A (c <| m_P := ?p |> <| m_A := ?a |>)) with a.
  change (m_P (c <| m_P := ?p |> <| m_A := ?a |>)) with p. rewrite pack_nibbles.
  assert (al = m_A c mod 16 + val mod 16 + carry c) as El.
  { subst al. rewrite !low_nibble. apply u8_id. unfold is_bcd in *. lia. }
  set (l := m_A c mod 16 + val mod 16 + carry c) in *. unfold is_bcd in HA, Hv.
  assert (al' = if 9 <? l then l + 6 else l) as El'.
  { subst al'. rewrite El. destruct (Z.ltb_spec 9 l); [apply u8_id|]; lia. }
  set (k := if 9 <? l then 1 else 0).
  assert (ah = m_A c / 16 + val / 16 + k) as Eh.
  { subst ah k. rewrite !high_nibble, El'. destruct (Z.ltb_spec 9 l).
    - destruct (Z.ltb_spec 15 (l + 6)); [cbn [b2z]; apply u8_id|]; lia.
    - destruct (Z.ltb_spec 15 l); [lia|cbn [b2z]; apply u8_id]; lia. }
  set (h := m_A c / 16 + val / 16 + k) in *.
  assert (ah' = if 9 <? h then h + 6 else h) as Eh'.
  { subst ah' k. rewrite Eh. destruct (Z.ltb_spec 9 h); [apply u8_id; destruct (9 <? l)|]; lia. }
  assert (al' mod 16 = l - 10 * k /\ 0 <= l - 10 * k <= 9) as [-> Hl].
  { subst k. rewrite El'. destruct (Z.ltb_spec 9 l); split; Z.to_euclidean_division_equations; lia. }
  set (k' := if 9 <? h then 1 else 0).
  assert (ah' mod 16 = h - 10 * k' /\ 0 <= h - 10 * k' <= 9) as [-> Hh].
  { subst k'. rewrite Eh'. destruct (Z.ltb_spec 9 h); split; subst k; destruct (9 <? l); Z.to_euclidean_division_equations; lia. }
  destruct (bcd_pack (h - 10 * k') (l - 10 * k) Hh Hl) as [Hb ->]. split; [done|].
  assert (s = 10 * h + l - 10 * k) as -> by (subst s h l; unfold bcd; lia).
  split.
  - subst k'. destruct (Z.ltb_spec 9 h); Z.to_euclidean_division_equations; lia.
  - rewrite (proj1 (flags_word _ _ _ _ _)), Eh'. destruct (Z.ltb_spec 9 h).
    + destruct (Z.ltb_spec 15 (h + 6)), (Z.leb_spec 100 (10 * h + l - 10 * k)); done || lia.
    + destruct (Z.ltb_spec 15 h), (Z.leb_spec 100 (10 * h + l - 10 * k)); done || lia.
Qed.

(** The digits of a decimal subtraction. *)
Record sbc_digits (A val b al ah l h : Z) : Prop := mk_sbc_digits {
  sd_l : -10 <= l <= 9;
  sd_h : -10 <= h <= 9;
  sd_al : al = u8 l;
  sd_ah : ah = u8 h;
  sd_al_neg : (s8 al <? 0) = (l <? 0);
  sd_ah_neg : (s8 ah <? 0) = (h <? 0);
  sd_value : bcd A - bcd val - b = 10 * (if l <? 0 then h + 1 else h) + l;
  sd_carry : negb (test (u16 (A - val - b)) 0xff00) = negb (h <? 0)
}.

Lemma u8_small_negative x : -128 <= x < 128 -> (s8 (u8 x) <? 0) = (x <? 0).
Proof.
  intros Hx. rewrite s8_negative. unfold u8.
  destruct (Z.leb_spec 128 ((x mod 256) mod 256)), (Z.ltb_spec x 0); try done;
    Z.to_euclidean_division_equations; lia.
Qed.

Lemma sbc_digits_ok A val b : is_bcd A -> is_bcd val -> b = 0 \/ b = 1 ->
  let al := u8 (Z.land A 15 - Z.land val 15 - b) in
  let ah := u8 (Z.shiftr A 4 - Z.shiftr val 4 - b2z (s8 al <? 0)) in
  let l := A mod 16 - val mod 16 - b in
  let h := A / 16 - val / 16 - b2z (l <? 0) in
  sbc_digits A val b al ah l h.
Proof.
  intros HA Hv Hb al ah l h. unfold is_bcd in *.
  assert (-10 <= l <= 9) as Hl by (subst l; lia).
  assert (al = u8 l) as El by (subst al l; by rewrite !low_nibble).
  assert ((s8 al <? 0) = (l <? 0)) as En by (rewrite El; apply u8_small_negative; lia).
  assert (ah = u8 h) as Eh by (subst ah h; by rewrite !high_nibble, En).
  assert (-10 <= h <= 9) as Hh by (subst h; destruct (l <? 0); cbn [b2z]; lia).
  assert ((s8 ah <? 0) = (h <? 0)) as En' by (rewrite Eh; apply u8_small_negative; lia).
  assert (h = A / 16 - val / 16 - b2z (l <? 0)) as Dh by done.
  assert (l = A mod 16 - val mod 16 - b) as Dl by done. clearbody h l.
  split; [done..| |].
  - unfold bcd. destruct (l <? 0); cbn [b2z] in *; lia.
  - f_equal. rewrite test_high by apply u16_range.
    pose proof (Z.div_mod A 16 ltac:(lia)) as DA. pose proof (Z.div_mod val 16 ltac:(lia)) as Dv.
    assert (A - val - b = 16 * (if l <? 0 then h + 1 else h) + l) as Ed
      by (destruct (l <? 0); cbn [b2z] in *; lia).
    rewrite Ed. unfold u16. clear - Hl Hh.
    destruct (Z.ltb_spec l 0), (Z.ltb_spec h 0);
      match goal with |- (256 <=? ?x) = _ => destruct (Z.leb_spec 256 x) end; try done;
      Z.to_euclidean_division_equations; lia.
Qed.

(** Both variants take ten off a negative digit. *)
Lemma sbc_result A val b al ah l h : sbc_digits A val b al ah l h ->
  let r := 16 * (if h <? 0 then h + 10 else h) + (if l <? 0 then l + 10 else l) in
  (is_bcd r /\ bcd r = (bcd A - bcd val - b) mod 100) /\
  u8 (Z.lor (Z.shiftl (if s8 ah <? 0 then u8 (ah - 6) else ah) 4)
            (Z.land (if s8 al <? 0 then u8 (al - 6) else al) 15)) = r /\
  (let a := u8 (Z.lor (Z.shiftl ah 4) (Z.land al 15)) in
   let a := if s8 al <? 0 then u8 (a - 6) else a in
   if s8 ah <? 0 then u8 (a - 0x60) else a) = r.
Proof.
  intros [Hl Hh -> -> Nl Nh Ev _] r. cbv zeta. rewrite Nl, Nh, Ev, !pack_nibbles. subst r.
  clear - Hl Hh. set (l' := if l <? 0 then l + 10 else l). set (h' := if h <? 0 then h + 10 else h).
  set (h1 := if l <? 0 then h + 1 else h).
  assert (0 <= l' <= 9 /\ 10 * h1 + l = 10 * h + l') as [Hl' Ev]
    by (subst l' h1; destruct (Z.ltb_spec l 0); lia).
  assert (0 <= h' <= 9 /\ (10 * h + l') mod 100 = 10 * h' + l') as [Hh' Em].
  { subst h'. destruct (Z.ltb_spec h 0); (split; [lia|]); Z.to_euclidean_division_equations; lia. }
  destruct (bcd_pack h' l' Hh' Hl') as [Hr ->]. rewrite Ev, Em. split; [done|].
  assert ((if l <? 0 then u8 (u8 l - 6) else u8 l) mod 16 = l') as ->.
  { subst l'. unfold u8. destruct (Z.ltb_spec l 0); Z.to_euclidean_division_equations; lia. }
  assert ((if h <? 0 then u8 (u8 h - 6) else u8 h) mod 16 = h') as ->.
  { subst h'. unfold u8. destruct (Z.ltb_spec h 0); Z.to_euclidean_division_equations; lia. }
  split; [done|]. subst h' l'. unfold u8.
  destruct (Z.ltb_spec l 0), (Z.ltb_spec h 0); Z.to_euclidean_division_equations; lia.
Qed.

(** C30: Decimal mode on packed decimal operands: addition and both subtractions
    (the 6502's and the 65C02's) give the two-digit decimal result and the
    decimal carry or absence of borrow. *)
Theorem decimal_arithmetic val (c : m6502) :
  is_bcd (m_A c) -> is_bcd val -> test (m_P c) F_D = true ->
  (let s := bcd (m_A c) + bcd val + carry c in
   let c' := do_adc val c in
   is_bcd (m_A c') /\ bcd (m_A c') = s mod 100 /\ test (m_P c') F_C = (100 <=? s)) /\
  (let d := bcd (m_A c) - bcd val - borrow c in
   (let c' := do_sbc val c in
    is_bcd (m_A c') /\ bcd (m_A c') = d mod 100 /\ test (m_P c') F_C = (0 <=? d)) /\
   (let c' := do_sbc_c val c in
    is_bcd (m_A c') /\ bcd (m_A c') = d mod 100 /\ test (m_P c') F_C = (0 <=? d))).
Proof.
  intros HA Hv HD. unfold do_adc, do_sbc, do_sbc_c. rewrite HD. split; [by apply adc_decimal|].
  cbv zeta. assert (borrow c = 0 \/ borrow c = 1) as Hb by (rewrite borrow_carry; pose proof (carry_01 c); lia).
  pose proof (sbc_digits_ok (m_A c) val (borrow c) HA Hv Hb) as D. cbv zeta in D.
  unfold do_sbc_d, do_sbc_cd. cbv zeta.
  set (al := u8 (Z.land (m_A c) 15 - Z.land val 15 - borrow c)) in *.
  set (ah := u8 (Z.shiftr (m_A c) 4 - Z.shiftr val 4 - b2z (s8 al <? 0))) in *.
  set (l := m_A c mod 16 - val mod 16 - borrow c) in *.
  set (h := m_A c / 16 - val / 16 - b2z (l <? 0)) in *. clearbody l h.
  pose proof (sbc_result _ _ _ _ _ _ _ D) as R. cbv zeta in R. destruct R as ([R1 R2] & R3 & R4).
  repeat match goal with
  | |- context [m_A (c <| m_P := ?p |> <| m_A := ?a |>)] => change (m_A (c <| m_P := p |> <| m_A := a |>)) with a
  | |- context [m_P (c <| m_P := ?p |> <| m_A := ?a |>)] => change (m_P (c <| m_P := p |> <| m_A := a |>)) with p
  end.
  assert (negb (h <? 0) = (0 <=? bcd (m_A c) - bcd val - borrow c)) as Eh.
  { destruct D as [Hl Hh _ _ _ _ Ev _]. rewrite Ev.
    destruct (Z.ltb_spec l 0), (Z.ltb_spec h 0); match goal with |- _ = (0 <=? ?x) => destruct (Z.leb_spec 0 x) end;
      done || lia. }
  rewrite R3, R4, (proj1 (flags_word _ _ _ _ _)), flags_word_cmos, (sd_carry _ _ _ _ _ _ _ D), Eh.
  by split.
Qed.

(** ** Rotations *)

Lemma set_bits_add m x : is_u8 x -> 0 <= m < 256 -> Z.land x m = 0 -> x + m < 256 -> set_bits m x = x + m.
Proof.
  intros Hx Hm E Hs. unfold set_bits. pose proof (Z.add_lor_land x m) as A. rewrite E, Z.add_0_r in A.
  rewrite A. apply u8_id. unfold is_u8 in Hx. lia.
Qed.

Lemma carry_rotated z n cy p c : carry (c <| m_P := flag_zn z n (flag F_C cy (clear_bits NZC p)) |>) = b2z cy.
Proof.
  unfold carry. change (m_P (c <| m_P := ?q |>)) with q.
  assert (test (flag_zn z n (flag F_C cy (clear_bits NZC p))) F_C = cy) as -> by by flag_bits. done.
Qed.

Lemma rol_value v c : is_u8 v ->
  (do_rol v c).1 = u8 (2 * v + carry c) /\ carry (do_rol v c).2 = b2z (128 <=? v).
Proof.
  intros Hv. unfold do_rol. cbv zeta. cbn [fst snd]. rewrite carry_rotated, test_80, bit7 by done. split; [|done].
  rewrite Z.shiftl_mul_pow2, (Z.mul_comm v) by lia. change (2 ^ 1) with 2.
  unfold carry. destruct (test (m_P c) F_C); [|by rewrite Z.add_0_r].
  assert (u8 (2 * v + 1) = u8 (2 * v) + 1 /\ u8 (2 * v) mod 2 = 0 /\ u8 (2 * v) + 1 < 256) as (-> & Em & Hb)
    by (unfold u8; split_and!; Z.to_euclidean_division_equations; lia).
  apply set_bits_add; [apply u8_range|lia| |done].
  change 1 with (Z.ones 1). by rewrite Z.land_ones by lia.
Qed.

Lemma ror_value v c : is_u8 v ->
  (do_ror v c).1 = 128 * carry c + v / 2 /\ carry (do_ror v c).2 = v mod 2.
Proof.
  intros Hv. unfold do_ror. cbv zeta. cbn [fst snd]. rewrite carry_rotated, Z.shiftr_div_pow2 by lia.
  change (2 ^ 1) with 2. split.
  - assert (0 <= v / 2 < 128) as Hh by (unfold is_u8 in Hv; Z.to_euclidean_division_equations; lia).
    unfold carry. destruct (test (m_P c) F_C); [|done].
    replace (128 * 1 + v / 2) with (v / 2 + 128) by lia.
    apply set_bits_add; [unfold is_u8; lia|lia| |lia].
    pose proof (land_pow2 (v / 2) 7 ltac:(lia)) as El. change (2 ^ 7) with 128 in El. rewrite El.
    assert (Z.testbit (v / 2) 7 = false) as ->; [|done].
    apply (bits_below 7 (v / 2)); [lia|change (2 ^ 7) with 128; lia|lia].
  - rewrite test_01, Z.bit0_odd, Zmod_odd. by destruct (Z.odd v).
Qed.

Lemma sbc_binary val (c : m6502) :
  is_u8 (m_A c) -> is_u8 val ->
  let d := m_A c - val - borrow c in
  binary_result d (s8 (m_A c) - s8 val - borrow c) (0 <=? d) c (do_sbc_nd val c).
Proof.
  intros HA Hv d. rewrite sbc_is_adc_of_complement by done.
  pose proof (adc_binary (255 - val) c HA ltac:(unfold is_u8 in *; lia)) as B. cbv zeta in B.
  assert (s8 (255 - val) = -1 - s8 val) as E1.
  { rewrite !s8_of_u8 by (unfold is_u8 in *; lia). unfold is_u8 in *.
    destruct (Z.leb_spec 128 val), (Z.leb_spec 128 (255 - val)); lia. }
  assert (m_A c + (255 - val) + carry c = d + 1 * 256) as E2 by (subst d; rewrite borrow_carry; lia).
  rewrite E1, E2 in B. unfold binary_result in *. rewrite Z.mod_add in B by lia.
  replace (s8 (m_A c) + (-1 - s8 val) + carry c) with (s8 (m_A c) - s8 val - borrow c) in B by (rewrite borrow_carry; lia).
  replace (256 <=? d + 1 * 256) with (0 <=? d) in B; [exact B|].
  destruct (Z.leb_spec 0 d), (Z.leb_spec 256 (d + 1 * 256)); lia.
Qed.

(** Comparison: the flags of the difference, without overflow. *)
Lemma cmp_binary r val (c : m6502) : is_u8 r -> is_u8 val ->
  let c' := do_cmp r val c in
  m_A c' = m_A c /\ test (m_P c') F_C = (val <=? r) /\ test (m_P c') F_Z = (r =? val) /\
  test (m_P c') F_N = (128 <=? (r - val) mod 256) /\ Z.land (m_P c') 0x7c = Z.land (m_P c) 0x7c.
Proof.
  intros Hr Hv c'. subst c'. unfold do_cmp. cbv zeta.
  change (m_P (c <| m_P := ?p |>)) with p.
  rewrite test_high by apply u16_range. rewrite s8_negative.
  assert ((256 <=? u16 (r - val)) = negb (val <=? r)) as ->.
  { unfold u16, is_u8 in *. destruct (Z.leb_spec val r), (Z.leb_spec 256 ((r - val) mod 65536)); try done;
      Z.to_euclidean_division_equations; lia. }
  assert ((u16 (r - val) =? 0) = (r =? val)) as ->.
  { unfold u16, is_u8 in *. destruct (Z.eqb_spec r val), (Z.eqb_spec ((r - val) mod 65536) 0); try done;
      Z.to_euclidean_division_equations; lia. }
  assert (u8 (u16 (r - val)) = (r - val) mod 256) as ->.
  { unfold u8, u16. Z.to_euclidean_division_equations; lia. }
  split; [done|]. rewrite negb_involutive. set (n := 128 <=? _). 
  assert (r = val -> n = false) as Hn by (subst n; intros ->; by rewrite Z.sub_diag).
  destruct (cmp_word (val <=? r) (r =? val) n (m_P c)) as (-> & -> & -> & ->).
  split; [done|]. split; [done|]. split; [|done]. destruct (Z.eqb_spec r val); [by rewrite Hn|done].
Qed.

(** ARR: rotation through the carry, with the carry from bit 6 of the result
    and the overflow from bits 6 and 5. *)
Lemma arr_binary (c : m6502) : is_u8 (m_A c) ->
  let r := 128 * carry c + m_A c / 2 in
  let c' := do_arr_nd c in
  m_A c' = r /\ test (m_P c') F_C = Z.testbit r 6 /\ test (m_P c') F_V = xorb (Z.testbit r 6) (Z.testbit r 5) /\
  test (m_P c') F_Z = (r =? 0) /\ test (m_P c') F_N = (128 <=? r) /\ Z.land (m_P c') 0x3c = Z.land (m_P c) 0x3c.
Proof.
  intros HA r c'. subst c'. unfold do_arr_nd. cbv zeta.
  change (m_A (c <| m_P := ?p |> <| m_A := ?a |>)) with a. change (m_P (c <| m_P := ?p |> <| m_A := ?a |>)) with p.
  assert ((if test (m_P c) F_C then set_bits 0x80 (Z.shiftr (m_A c) 1) else Z.shiftr (m_A c) 1) = r) as ->
    by (exact (proj1 (ror_value (m_A c) c HA))).
  assert (is_u8 r) as Hr.
  { subst r. unfold is_u8 in *. pose proof (carry_01 c). Z.to_euclidean_division_equations; lia. }
  split; [done|]. rewrite s8_negative, (u8_id r) by done. clearbody r.
  assert (r = 0 -> (128 <=? r) = false) as Hn by (by intros ->).
  destruct (arr_word r (r =? 0) (128 <=? r) (m_P c)) as (-> & -> & -> & -> & ->).
  do 3 (split; [done|]). split; [|done]. destruct (Z.eqb_spec r 0); [by rewrite Hn|done].
Qed.

(** C33: Binary arithmetic, decimal mode off, for all operands.  ADC gives the
    sum with carry and SBC (the two versions) the difference with borrow,
    modulo 256, with the carry out, zero, sign and signed overflow; a
    comparison sets the flags of the difference and writes nothing else;
    ARR rotates the accumulator through the carry.  The other flags stay. *)
Theorem binary_arithmetic val (c : m6502) :
  is_u8 (m_A c) -> is_u8 val -> test (m_P c) F_D = false ->
  (let s := m_A c + val + carry c in
   binary_result s (s8 (m_A c) + s8 val + carry c) (256 <=? s) c (do_adc val c)) /\
  (let d := m_A c - val - borrow c in
   binary_result d (s8 (m_A c) - s8 val - borrow c) (0 <=? d) c (do_sbc val c)) /\
  do_sbc_c val c = do_sbc val c /\
  (let c' := do_cmp (m_A c) val c in
   m_A c' = m_A c /\ test (m_P c') F_C = (val <=? m_A c) /\ test (m_P c') F_Z = (m_A c =? val) /\
   test (m_P c') F_N = (128 <=? (m_A c - val) mod 256) /\ Z.land (m_P c') 0x7c = Z.land (m_P c) 0x7c) /\
  (let r := 128 * carry c + m_A c / 2 in
   let c' := do_arr c in
   m_A c' = r /\ test (m_P c') F_C = Z.testbit r 6 /\ test (m_P c') F_V = xorb (Z.testbit r 6) (Z.testbit r 5) /\
   test (m_P c') F_Z = (r =? 0) /\ test (m_P c') F_N = (128 <=? r) /\ Z.land (m_P c') 0x3c = Z.land (m_P c) 0x3c).
Proof.
  intros HA Hv HD. unfold do_adc, do_sbc, do_sbc_c, do_arr. rewrite HD.
  split; [by apply adc_binary|]. split; [by apply sbc_binary|]. split; [done|].
  split; [by apply cmp_binary|by apply arr_binary].
Qed.

(** The rotations turn the nine bits made of carry and operand, one place
    each way, and undo each other. *)
Theorem rotations_turn_nine_bits v (c : m6502) : is_u8 v ->
  (let '(r, c') := do_rol v c in
   256 * carry c' + r = 2 * v + carry c /\ (do_ror r c').1 = v /\ carry (do_ror r c').2 = carry c) /\
  (let '(r, c') := do_ror v c in
   2 * r + carry c' = 256 * carry c + v /\ (do_rol r c').1 = v /\ carry (do_rol r c').2 = carry c).
Proof.
  intros Hv. pose proof (carry_01 c) as Hc.
  destruct (rol_value v c Hv) as [L1 L2], (ror_value v c Hv) as [R1 R2].
  destruct (do_rol v c) as [r1 c1], (do_ror v c) as [r2 c2]. cbn [fst snd] in *. unfold is_u8 in Hv.
  assert (is_u8 r1) as H1 by (subst r1; apply u8_range).
  assert (is_u8 r2) as H2 by (subst r2; unfold is_u8; Z.to_euclidean_division_equations; lia).
  destruct (ror_value r1 c1 H1) as [-> ->], (rol_value r2 c2 H2) as [-> ->].
  rewrite L2, R2, L1, R1. unfold u8.
  assert (b2z (128 <=? v) = v / 128) as -> by (destruct (Z.leb_spec 128 v); cbn [b2z]; Z.to_euclidean_division_equations; lia).
  assert (b2z (128 <=? 128 * carry c + v / 2) = carry c) as ->
    by (destruct Hc as [E|E]; rewrite E; [destruct (Z.leb_spec 128 (128 * 0 + v / 2))|
          destruct (Z.leb_spec 128 (128 * 1 + v / 2))]; cbn [b2z]; Z.to_euclidean_division_equations; lia).
  clear L1 L2 R1 R2. revert Hc. generalize (carry c). intros cy Hc.
  split_and!; destruct Hc as [-> | ->]; Z.to_euclidean_division_equations; lia.
Qed.

(** ** Interrupts *)

(** A rising edge in a sequence of levels that starts from [prev]. *)
Fixpoint rises (prev : bool) (levels : list bool) : bool :=
  match levels with
  | [] => false
  | l :: levels => (negb prev && l) || rises l levels
  end.

Definition nmi_levels (cycles : Z) (levels : list bool) (c : m6502) : m6502 :=
  fold_left (fun c l => execute_set_input cycles NMI_LINE l c) levels c.

(** What the NMI input does not touch. *)
Definition not_nmi (c : m6502) :=
  (m_PC c, m_IR c, m_P c, m_irq_state c, m_apu_irq_state c, m_inhibit_interrupts c, m_irq_taken c).

Lemma nmi_levels_spec cycles levels : cycles <> 0 -> forall c,
  m_nmi_pending (nmi_levels cycles levels c) = m_nmi_pending c || rises (m_nmi_state c) levels /\
  not_nmi (nmi_levels cycles levels c) = not_nmi c.
Proof.
  intros Hc. induction levels as [|l levels IH]; intros c; cbn [nmi_levels fold_left rises].
  - by rewrite orb_false_r.
  - destruct (IH (execute_set_input cycles NMI_LINE l c)) as [E1 E2].
    change (fold_left _ levels _) with (nmi_levels cycles levels (execute_set_input cycles NMI_LINE l c)).
    rewrite E1, E2. unfold execute_set_input. destruct (Z.eqb_spec cycles 0) as [|_]; [done|].
    by destruct (m_nmi_state c) eqn:Es, l; cbn [negb andb orb]; rewrite ?orb_true_r.
Qed.

(** C31: The interrupt inputs around an opcode fetch: any rising edge the NMI line
    has had since the last acknowledge is remembered, however the line
    moves afterwards, and takes the fetch whatever the I flag; the two IRQ
    lines count by their level and only while I is clear; without either
    the opcode stays and the program counter moves on.  The edges come after
    the first cycle since the processor started ([total_cycles] not zero),
    and the instruction before does not inhibit interrupts. *)
Theorem interrupt_sampling cycles levels (c : m6502) :
  cycles <> 0 -> m_inhibit_interrupts c = false ->
  let due := m_nmi_pending c || rises (m_nmi_state c) levels ||
             ((m_irq_state c || m_apu_irq_state c) && negb (test (m_P c) F_I)) in
  let c' := prefetch_end (nmi_levels cycles levels c) in
  m_irq_taken c' = (due || m_irq_taken c) /\
  m_IR c' = (if due then 0 else m_IR c) /\
  m_PC c' = (if due then m_PC c else u16 (m_PC c + 1)) /\
  m_P c' = m_P c.
Proof.
  intros Hc Hi due c'. destruct (nmi_levels_spec cycles levels Hc c) as [E1 E2].
  subst c'. generalize dependent (nmi_levels cycles levels c). intros d E1 E2.
  unfold not_nmi in E2. injection E2 as Epc Eir Ep Eirq Eapu Einh Etk.
  unfold prefetch_end. cbv zeta.
  assert (interrupt_due (sync_write 0 (d <| m_sync := false |>)) = due) as ->.
  { unfold interrupt_due. change (m_nmi_pending (sync_write 0 (d <| m_sync := false |>))) with (m_nmi_pending d).
    change (m_irq_state (sync_write 0 (d <| m_sync := false |>))) with (m_irq_state d).
    change (m_apu_irq_state (sync_write 0 (d <| m_sync := false |>))) with (m_apu_irq_state d).
    change (m_P (sync_write 0 (d <| m_sync := false |>))) with (m_P d).
    change (m_inhibit_interrupts (sync_write 0 (d <| m_sync := false |>))) with (m_inhibit_interrupts d).
    by rewrite E1, Ep, Eirq, Eapu, Einh, Hi, andb_true_r. }
  destruct due; split_and!; first [exact Epc|exact Eir|exact Ep|exact Etk|done|idtac].
  exact (f_equal (fun pc => u16 (pc + 1)) Epc).
Qed.

(** ** Witnesses *)

Definition example_cpu (A P : Z) : m6502 := init false <| m_A := A |> <| m_P := P |>.

Lemma binary_arithmetic_witness :
  (m_A (do_adc 0x50 (example_cpu 0x50 0x31)) = 0xa1 /\ test (m_P (do_adc 0x50 (example_cpu 0x50 0x31))) F_V = true) /\
  m_A (do_sbc 0xf0 (example_cpu 0x50 0x31)) = 0x60 /\ m_A (do_arr (example_cpu 0x80 0x31)) = 0xc0.
Proof.
  destruct (binary_arithmetic 0x50 (example_cpu 0x50 0x31)) as ((EA & _ & _ & _ & EV & _) & _); [by split|by split|done|].
  destruct (binary_arithmetic 0xf0 (example_cpu 0x50 0x31)) as (_ & (ES & _) & _); [by split|by split|done|].
  destruct (binary_arithmetic 0 (example_cpu 0x80 0x31)) as (_ & _ & _ & _ & (ER & _)); [by split|by split|done|].
  split; [split; [exact EA|exact EV]|]. split; [exact ES|exact ER].
Defined.

Lemma decimal_arithmetic_witness : bcd (m_A (do_adc 0x27 (example_cpu 0x58 0x38))) = 85 /\
  bcd (m_A (do_sbc_c 0x27 (example_cpu 0x13 0x39))) = 86.
Proof.
  split.
  - destruct (decimal_arithmetic 0x27 (example_cpu 0x58 0x38)) as [(_ & E & _) _]; [done|done|done|exact E].
  - destruct (decimal_arithmetic 0x27 (example_cpu 0x13 0x39)) as (_ & _ & _ & E & _); [done|done|done|exact E].
Defined.

Lemma rotations_turn_nine_bits_witness : (do_ror (do_rol 0x96 (init false)).1 (do_rol 0x96 (init false)).2).1 = 0x96.
Proof. destruct (rotations_turn_nine_bits 0x96 (init false)) as [(_ & E & _) _]; [by split|exact E]. Defined.

(** A pulse on the NMI line. *)
Lemma interrupt_sampling_witness :
  m_irq_taken (prefetch_end (nmi_levels 1 [true; false] (init false))) = true.
Proof. destruct (interrupt_sampling 1 [true; false] (init false)) as [E _]; [done|done|exact E]. Defined.
