(* ===== verification/Memory.v ===== *)
(** * Memory: address spaces (src/src/emu/emumem.h, emumem_hem.cpp,
    emumem_hedp.cpp, emumem.cpp, emumem_mview.cpp)

    How an access of any width at any address is carried out by accesses of
    the width of the bus, what the RAM handlers do with one, and the memory
    banks and views the rosco drivers switch.  The dispatch tables between an
    access and its handler are not modelled: a bus is a pair of native
    operations, here the interface [NativeBus]. *)

From stdpp Require Import base tactics numbers option list.
From Stdlib Require Import ZArith Lia Bool.
From S2P Require Import Prelude.

(** ** Widths *)

Inductive endianness_t := ENDIANNESS_LITTLE | ENDIANNESS_BIG.

Definition little (en : endianness_t) : bool := match en with ENDIANNESS_LITTLE => true | ENDIANNESS_BIG => false end.

(** The unsigned integer of [8 << w] bits; [w] is 0 to 3. *)
Definition width_bytes (w : Z) : Z := Z.shiftl 1 w.
Definition width_bits (w : Z) : Z := 8 * width_bytes w.
Definition handler_entry_size_t (w x : Z) : Z := Z.land x (Z.ones (width_bits w)).

Definition memory_offset_to_byte (offset AddrShift : Z) : Z :=
  if AddrShift <? 0 then u32 (Z.shiftl offset (Z.abs AddrShift)) else Z.shiftr offset (Z.abs AddrShift).

Definition NATIVE_STEP (Width AddrShift : Z) : Z :=
  if 0 <=? AddrShift then Z.shiftl (width_bytes Width) (Z.abs AddrShift)
  else Z.shiftr (width_bytes Width) (Z.abs AddrShift).
Definition NATIVE_MASK (Width AddrShift : Z) : Z :=
  if 0 <=? Width + AddrShift then Z.ones (Width + AddrShift) else 0.

(** [address & ~NATIVE_MASK] *)
Definition native_address (Width AddrShift address : Z) : Z := Z.ldiff address (NATIVE_MASK Width AddrShift).

(** ** The bus: native accesses under a mask *)

Class NativeBus (W : Type) := {
  rop : Z -> Z -> W -> Z * W;
  wop : Z -> Z -> Z -> W -> W
}.

Section Generic.
Context {W : Type} `{NativeBus W}.

(** A step of a read: nothing if no bit of the mask falls in this word, else
    the word is read and its bits moved into the result. *)
Definition read_step (address curmask : Z) (place : Z -> Z) (rw : Z * W) : Z * W :=
  let '(result, w) := rw in
  if negb (curmask =? 0) then let '(v, w) := rop address curmask w in (Z.lor result (place v), w) else (result, w).

Definition write_step (address data curmask : Z) (w : W) : W :=
  if negb (curmask =? 0) then wop address data curmask w else w.

Section Widths.
Context (Width AddrShift : Z) (Endian : endianness_t) (TargetWidth : Z) (Aligned : bool).

#[local] Abbreviation native := (handler_entry_size_t Width).
#[local] Abbreviation target := (handler_entry_size_t TargetWidth).
#[local] Abbreviation TARGET_BYTES := (width_bytes TargetWidth).
#[local] Abbreviation TARGET_BITS := (width_bits TargetWidth).
#[local] Abbreviation NATIVE_BYTES := (width_bytes Width).
#[local] Abbreviation NATIVE_BITS := (width_bits Width).
#[local] Abbreviation STEP := (NATIVE_STEP Width AddrShift).

Definition MAX_SPLITS_MINUS_ONE : nat := Z.to_nat (TARGET_BYTES / NATIVE_BYTES - 1).

(** Equal widths and aligned: one access passed through. *)
Definition pass_through (address : Z) : bool :=
  (NATIVE_BYTES =? TARGET_BYTES) && (Aligned || (Z.land address (NATIVE_MASK Width AddrShift) =? 0)).

(** The target fits in one native word: where its bits are, if so. *)
Definition single_access (address : Z) : option Z :=
  if TARGET_BYTES <? NATIVE_BYTES then
    let offsbits := 8 * Z.land (memory_offset_to_byte address AddrShift)
                              (NATIVE_BYTES - (if Aligned then TARGET_BYTES else 1)) in
    if Aligned || (offsbits + TARGET_BITS <=? NATIVE_BITS)
    then Some (if little Endian then offsbits else NATIVE_BITS - TARGET_BITS - offsbits)
    else None
  else None.

(** The position of the address in its native word, in bits. *)
Definition native_offsbits (address : Z) : Z := 8 * Z.land (memory_offset_to_byte address AddrShift) (NATIVE_BYTES - 1).

Definition LEFT_JUSTIFY_TARGET_TO_NATIVE_SHIFT : Z :=
  if TARGET_BITS <=? NATIVE_BITS then NATIVE_BITS - TARGET_BITS else 0.

(** The loops over the middle words. *)
Fixpoint read_middle_le (k : nat) (mask address offsbits : Z) (rw : Z * W) : Z * Z * (Z * W) :=
  match k with
  | O => (address, offsbits, rw)
  | S k => let address := u32 (address + STEP) in
           let rw := read_step address (native (Z.shiftr mask offsbits)) (fun v => target (Z.shiftl v offsbits)) rw in
           read_middle_le k mask address (offsbits + NATIVE_BITS) rw
  end.

Fixpoint read_middle_be (k : nat) (mask address offsbits : Z) (rw : Z * W) : Z * Z * (Z * W) :=
  match k with
  | O => (address, offsbits, rw)
  | S k => let offsbits := offsbits - NATIVE_BITS in
           let address := u32 (address + STEP) in
           let rw := read_step address (native (Z.shiftr mask offsbits)) (fun v => target (Z.shiftl v offsbits)) rw in
           read_middle_be k mask address offsbits rw
  end.

Definition memory_read_generic (address mask : Z) (w : W) : Z * W :=
  if pass_through address then
    let '(v, w) := rop (native_address Width AddrShift address) mask w in (target v, w)
  else match single_access address with
  | Some offsbits =>
      let '(v, w) := rop (native_address Width AddrShift address) (native (Z.shiftl mask offsbits)) w in
      (target (Z.shiftr v offsbits), w)
  | None =>
  let offsbits := native_offsbits address in
  let address := native_address Width AddrShift address in
  if TARGET_BYTES <=? NATIVE_BYTES then
    if little Endian then
      let rw := read_step address (native (Z.shiftl mask offsbits)) (fun v => target (Z.shiftr v offsbits)) (0, w) in
      let offsbits := NATIVE_BITS - offsbits in
      read_step (u32 (address + STEP)) (native (Z.shiftr mask offsbits)) (fun v => target (Z.shiftl v offsbits)) rw
    else
      let ljmask := native (Z.shiftl mask LEFT_JUSTIFY_TARGET_TO_NATIVE_SHIFT) in
      let rw := read_step address (native (Z.shiftr ljmask offsbits)) (fun v => native (Z.shiftl v offsbits)) (0, w) in
      let offsbits := NATIVE_BITS - offsbits in
      let '(result, w) := read_step (u32 (address + STEP)) (native (Z.shiftl ljmask offsbits))
                            (fun v => native (Z.shiftr v offsbits)) rw in
      (target (Z.shiftr result LEFT_JUSTIFY_TARGET_TO_NATIVE_SHIFT), w)
  else
    if little Endian then
      let rw := read_step address (native (Z.shiftl mask offsbits)) (fun v => target (Z.shiftr v offsbits)) (0, w) in
      let '(address, offsbits, rw) := read_middle_le MAX_SPLITS_MINUS_ONE mask address (NATIVE_BITS - offsbits) rw in
      if negb Aligned && (offsbits <? TARGET_BITS)
      then read_step (u32 (address + STEP)) (native (Z.shiftr mask offsbits)) (fun v => target (Z.shiftl v offsbits)) rw
      else rw
    else
      let offsbits := TARGET_BITS - (NATIVE_BITS - offsbits) in
      let rw := read_step address (native (Z.shiftr mask offsbits)) (fun v => target (Z.shiftl v offsbits)) (0, w) in
      let '(address, offsbits, rw) := read_middle_be MAX_SPLITS_MINUS_ONE mask address offsbits rw in
      if negb Aligned && negb (offsbits =? 0)
      then let offsbits := NATIVE_BITS - offsbits in
           read_step (u32 (address + STEP)) (native (Z.shiftl mask offsbits)) (fun v => target (Z.shiftr v offsbits)) rw
      else rw
  end.

Fixpoint write_middle_le (k : nat) (data mask address offsbits : Z) (w : W) : Z * Z * W :=
  match k with
  | O => (address, offsbits, w)
  | S k => let address := u32 (address + STEP) in
           let w := write_step address (native (Z.shiftr data offsbits)) (native (Z.shiftr mask offsbits)) w in
           write_middle_le k data mask address (offsbits + NATIVE_BITS) w
  end.

Fixpoint write_middle_be (k : nat) (data mask address offsbits : Z) (w : W) : Z * Z * W :=
  match k with
  | O => (address, offsbits, w)
  | S k => let offsbits := offsbits - NATIVE_BITS in
           let address := u32 (address + STEP) in
           let w := write_step address (native (Z.shiftr data offsbits)) (native (Z.shiftr mask offsbits)) w in
           write_middle_be k data mask address offsbits w
  end.

Definition memory_write_generic (address data mask : Z) (w : W) : W :=
  if pass_through address then wop (native_address Width AddrShift address) data mask w
  else match single_access address with
  | Some offsbits =>
      wop (native_address Width AddrShift address) (native (Z.shiftl data offsbits)) (native (Z.shiftl mask offsbits)) w
  | None =>
  let offsbits := native_offsbits address in
  let address := native_address Width AddrShift address in
  if TARGET_BYTES <=? NATIVE_BYTES then
    if little Endian then
      let w := write_step address (native (Z.shiftl data offsbits)) (native (Z.shiftl mask offsbits)) w in
      let offsbits := NATIVE_BITS - offsbits in
      write_step (u32 (address + STEP)) (native (Z.shiftr data offsbits)) (native (Z.shiftr mask offsbits)) w
    else
      let ljdata := native (Z.shiftl data LEFT_JUSTIFY_TARGET_TO_NATIVE_SHIFT) in
      let ljmask := native (Z.shiftl mask LEFT_JUSTIFY_TARGET_TO_NATIVE_SHIFT) in
      let w := write_step address (native (Z.shiftr ljdata offsbits)) (native (Z.shiftr ljmask offsbits)) w in
      let offsbits := NATIVE_BITS - offsbits in
      write_step (u32 (address + STEP)) (native (Z.shiftl ljdata offsbits)) (native (Z.shiftl ljmask offsbits)) w
  else
    if little Endian then
      let w := write_step address (native (Z.shiftl data offsbits)) (native (Z.shiftl mask offsbits)) w in
      let '(address, offsbits, w) := write_middle_le MAX_SPLITS_MINUS_ONE data mask address (NATIVE_BITS - offsbits) w in
      if negb Aligned && (offsbits <? TARGET_BITS)
      then write_step (u32 (address + STEP)) (native (Z.shiftr data offsbits)) (native (Z.shiftr mask offsbits)) w
      else w
    else
      let offsbits := TARGET_BITS - (NATIVE_BITS - offsbits) in
      let w := write_step address (native (Z.shiftr data offsbits)) (native (Z.shiftr mask offsbits)) w in
      let '(address, offsbits, w) := write_middle_be MAX_SPLITS_MINUS_ONE data mask address offsbits w in
      if negb Aligned && negb (offsbits =? 0)
      then let offsbits := NATIVE_BITS - offsbits in
           write_step (u32 (address + STEP)) (native (Z.shiftl data offsbits)) (native (Z.shiftl mask offsbits)) w
      else w
  end.
End Widths.
End Generic.

(** ** Memory behind the bus

    The bits of memory in one sequence: byte after byte, and within a byte
    from the lowest bit up on a little-endian bus, from the highest bit down
    on a big-endian one.  A word of any width at any byte address is then a
    run of consecutive positions. *)

Definition bit_position (en : endianness_t) (n address i : Z) : Z :=
  if little en then 8 * address + i else 8 * address + (n - 1 - i).

(** A mask of whole bytes. *)
Definition whole_bytes (mask : Z) : Prop := forall i, 0 <= i -> Z.testbit mask i = Z.testbit mask (8 * (i / 8)).

(** The byte addresses [first] to [last - 1] of the bus behave as memory: an
    aligned native access reads and writes the bits its mask selects, and
    nothing else. *)
Class BusMemory (W : Type) `{NativeBus W} (Width : Z) (en : endianness_t) (first last : Z) := {
  memory_bit : W -> Z -> bool;
  memory_range : 0 <= first /\ last <= 4294967296 /\ first mod 8 = 0 /\ last mod 8 = 0;
  rop_range address mask w :
    address mod width_bytes Width = 0 -> first <= address -> address + width_bytes Width <= last ->
    0 <= (rop address mask w).1 < 2 ^ width_bits Width;
  rop_bit address mask w i :
    address mod width_bytes Width = 0 -> first <= address -> address + width_bytes Width <= last ->
    0 <= i < width_bits Width -> Z.testbit mask i = true ->
    Z.testbit (rop address mask w).1 i = memory_bit w (bit_position en (width_bits Width) address i);
  rop_kept address mask w p :
    address mod width_bytes Width = 0 -> first <= address -> address + width_bytes Width <= last ->
    memory_bit (rop address mask w).2 p = memory_bit w p;
  wop_bit address data mask w i :
    address mod width_bytes Width = 0 -> first <= address -> address + width_bytes Width <= last ->
    whole_bytes mask -> 0 <= i < width_bits Width -> Z.testbit mask i = true ->
    memory_bit (wop address data mask w) (bit_position en (width_bits Width) address i) = Z.testbit data i;
  wop_kept address data mask w p :
    address mod width_bytes Width = 0 -> first <= address -> address + width_bytes Width <= last ->
    whole_bytes mask -> 0 < mask < 2 ^ width_bits Width -> 8 * first <= p < 8 * last ->
    (forall i, 0 <= i < width_bits Width -> Z.testbit mask i = true ->
       p <> bit_position en (width_bits Width) address i) ->
    memory_bit (wop address data mask w) p = memory_bit w p
}.

(** ** Lemmas on widths *)

Lemma width_cases w : 0 <= w <= 3 -> exists b, width_bytes w = b /\ width_bits w = 8 * b /\ (b = 1 \/ b = 2 \/ b = 4 \/ b = 8).
Proof.
  intros Hw. exists (width_bytes w). split; [done|]. split; [done|].
  assert (w = 0 \/ w = 1 \/ w = 2 \/ w = 3) as [-> | [-> | [-> | ->]]] by lia; vm_compute; auto.
Qed.

Lemma testbit_size w x i : 0 <= w -> 0 <= i ->
  Z.testbit (handler_entry_size_t w x) i = (i <? width_bits w) && Z.testbit x i.
Proof.
  intros Hw Hi. unfold handler_entry_size_t. rewrite Z.land_spec, andb_comm. f_equal.
  apply Z.testbit_ones_nonneg; [|done]. unfold width_bits, width_bytes. rewrite Z.shiftl_mul_pow2 by lia. lia.
Qed.

Lemma testbit_below n x i : 0 <= n -> 0 <= x < 2 ^ n -> n <= i -> Z.testbit x i = false.
Proof. intros Hn Hx Hi. apply (bits_below n) in Hx as [_ Hx]; auto. Qed.

Lemma size_range w x : 0 <= w -> 0 <= handler_entry_size_t w x < 2 ^ width_bits w.
Proof.
  intros Hw. unfold handler_entry_size_t.
  assert (0 <= width_bits w) by (unfold width_bits, width_bytes; rewrite Z.shiftl_mul_pow2 by lia; lia).
  rewrite Z.land_ones by done. apply Z.mod_pos_bound. lia.
Qed.

(** The bits of a word moved by [s] places, up or down. *)
Lemma testbit_moved s x i : 0 <= i -> Z.testbit (Z.shiftl x s) i = Z.testbit x (i - s).
Proof. intros Hi. by apply Z.shiftl_spec. Qed.

Lemma shiftl_opp x s : Z.shiftr x s = Z.shiftl x (- s).
Proof. reflexivity. Qed.

Lemma nonzero_bit m i : Z.testbit m i = true -> negb (m =? 0) = true.
Proof. intros Hm. destruct (Z.eqb_spec m 0) as [->|]; [by rewrite Z.bits_0 in Hm|done]. Qed.

(** ** One word of a larger access

    The target is [T] bits at byte address [A]; the native word at [a] holds
    its bits [s] to [s + N - 1], as far as they are below [T]. *)

Section Steps.
Context {W : Type} {Width : Z} {en : endianness_t} {first last : Z} `{BusMemory W Width en first last}.
Context (HW : 0 <= Width <= 3) (T A mask : Z) (HT : 0 <= T).

#[local] Abbreviation N := (width_bits Width).
#[local] Abbreviation NB := (width_bytes Width).

Definition holds_from (a s : Z) : Prop := if little en then 8 * a = 8 * A + s else 8 * a + N = 8 * A + T - s.

Lemma word_position a s j : holds_from a s -> bit_position en N a j = bit_position en T A (s + j).
Proof. unfold holds_from, bit_position. destruct (little en); lia. Qed.

Lemma position_inj i j : bit_position en T A i = bit_position en T A j -> i = j.
Proof. unfold bit_position. destruct (little en); lia. Qed.

(** The word is inside the memory. *)
Definition in_memory (a : Z) : Prop := a mod NB = 0 /\ first <= a /\ a + NB <= last.

(** The bits of the mask, or of the data, that fall in the word. *)
Definition part_of (x s y : Z) : Prop := forall j, 0 <= j < N -> 0 <= s + j < T -> Z.testbit y j = Z.testbit x (s + j).
Definition mask_part (s curmask : Z) : Prop :=
  part_of mask s curmask /\ forall j, 0 <= j < N -> Z.testbit curmask j = true -> 0 <= s + j < T.

(** What has been read: bits [lo] to [hi - 1] of the target. *)
Record read_so_far (w0 : W) (lo hi : Z) (rw : Z * W) : Prop := mk_read_so_far {
  so_far_in i : 0 <= i < T -> lo <= i < hi -> Z.testbit mask i = true ->
    Z.testbit rw.1 i = memory_bit w0 (bit_position en T A i);
  so_far_out i : 0 <= i -> i < lo \/ hi <= i \/ T <= i -> Z.testbit rw.1 i = false;
  so_far_kept p : memory_bit rw.2 p = memory_bit w0 p
}.

Lemma nothing_read w x : read_so_far w x x (0, w).
Proof. split; cbn [fst snd]; intros; [lia|by rewrite Z.bits_0|done]. Qed.

(** The next word is next to what has been read. *)
Definition next_part (lo hi s lo' hi' : Z) : Prop := (s = hi /\ lo' = lo /\ hi' = s + N) \/ (s + N = lo /\ lo' = s /\ hi' = hi).

Lemma read_step_ok w0 lo hi s lo' hi' a curmask place (rw : Z * W) :
  read_so_far w0 lo hi rw -> lo <= hi -> next_part lo hi s lo' hi' -> holds_from a s -> in_memory a -> mask_part s curmask ->
  (forall v i, 0 <= v < 2 ^ N -> 0 <= i -> Z.testbit (place v) i = (i <? T) && Z.testbit v (i - s)) ->
  read_so_far w0 lo' hi' (read_step a curmask place rw).
Proof.
  intros [Rin Rout Rk] Hlh Hn Hs (Ha & Hf & Hl) [Mp Mt] Hp. destruct rw as [result w]. cbn [fst snd] in *.
  assert (0 <= N) as HN by (destruct (width_cases Width HW) as (b & _ & -> & Hb); lia).
  assert (forall i, 0 <= i < T -> s <= i < s + N -> Z.testbit curmask (i - s) = Z.testbit mask i) as Hm.
  { intros i Hi Hi'. rewrite Mp by lia. f_equal. lia. }
  unfold read_step. destruct (Z.eqb_spec curmask 0) as [->|_]; cbn [negb].
  - split; cbn [fst snd]; [|intros i Hi Ho; apply Rout; unfold next_part in Hn; lia|done].
    intros i Hi Hi' Hb. destruct (decide (lo <= i < hi)); [by apply Rin|].
    rewrite <- (Hm i), Z.bits_0 in Hb; [done|lia|unfold next_part in Hn; lia].
  - destruct (rop a curmask w) as [v w'] eqn:E.
    pose proof (rop_range a curmask w Ha Hf Hl) as Vr. pose proof (fun i => rop_bit a curmask w i Ha Hf Hl) as Vb.
    pose proof (fun p => rop_kept a curmask w p Ha Hf Hl) as Vk. rewrite E in Vr, Vb, Vk. cbn [fst snd] in Vr, Vb, Vk.
    assert (forall i, 0 <= i -> ~ s <= i < s + N \/ T <= i -> Z.testbit (place v) i = false) as Po.
    { intros i Hi Ho. rewrite Hp by done. destruct (Z.ltb_spec i T); [|done]. cbn [andb].
      destruct (Z.lt_ge_cases i s); [by apply Z.testbit_neg_r; lia|]. apply (testbit_below N); [done..|lia]. }
    split; cbn [fst snd].
    + intros i Hi Hi' Hb. rewrite Z.lor_spec. destruct (decide (s <= i < s + N)) as [Hin|Hin].
      * rewrite Rout by (unfold next_part in Hn; lia). rewrite Hp by lia.
        destruct (Z.ltb_spec i T); [|lia]. cbn [andb orb]. rewrite Vb by (rewrite ?Hm; lia || done).
        rewrite Rk, (word_position a s) by done. do 2 f_equal. lia.
      * rewrite Po by lia. rewrite orb_false_r. apply Rin; [done| |done]. unfold next_part in Hn. lia.
    + intros i Hi Ho. rewrite Z.lor_spec, Rout, Po; [done|done|unfold next_part in Hn; lia|done|unfold next_part in Hn; lia].
    + intros p. by rewrite Vk, Rk.
Qed.

(** What has been written. *)
Context (data : Z).

Record written_so_far (w0 : W) (lo hi : Z) (w : W) : Prop := mk_written_so_far {
  written_in i : 0 <= i < T -> lo <= i < hi -> Z.testbit mask i = true ->
    memory_bit w (bit_position en T A i) = Z.testbit data i;
  written_kept p : 8 * first <= p < 8 * last ->
    (forall i, 0 <= i < T -> lo <= i < hi -> Z.testbit mask i = true -> p <> bit_position en T A i) ->
    memory_bit w p = memory_bit w0 p
}.

Lemma nothing_written w x : written_so_far w x x w.
Proof. split; intros; [lia|done]. Qed.

Lemma write_step_ok w0 lo hi s lo' hi' a curdata curmask (w : W) :
  (forall i, 0 <= i < T -> Z.testbit mask i = true -> 8 * first <= bit_position en T A i < 8 * last) ->
  written_so_far w0 lo hi w -> lo <= hi -> next_part lo hi s lo' hi' -> holds_from a s -> in_memory a ->
  mask_part s curmask -> whole_bytes curmask -> 0 <= curmask < 2 ^ N -> part_of data s curdata ->
  written_so_far w0 lo' hi' (write_step a curdata curmask w).
Proof.
  intros Hr [Win Wk] Hlh Hn Hs (Ha & Hf & Hl) [Mp Mt] Hw Hcr Hd.
  assert (0 <= N) as HN by (destruct (width_cases Width HW) as (b & _ & -> & Hb); lia).
  assert (forall i, 0 <= i < T -> s <= i < s + N -> Z.testbit curmask (i - s) = Z.testbit mask i) as Hm.
  { intros i Hi Hi'. rewrite Mp by lia. f_equal. lia. }
  unfold write_step. destruct (Z.eqb_spec curmask 0) as [->|Hnz]; cbn [negb].
  - split.
    + intros i Hi Hi' Hb. destruct (decide (lo <= i < hi)); [by apply Win|].
      rewrite <- (Hm i), Z.bits_0 in Hb; [done|lia|unfold next_part in Hn; lia].
    + intros p Hp Ho. apply Wk; [done|]. intros i Hi Hi'. apply Ho; [done|]. unfold next_part in Hn. lia.
  - split.
    + intros i Hi Hi' Hb. destruct (decide (s <= i < s + N)) as [Hin|Hin].
      * replace (bit_position en T A i) with (bit_position en N a (i - s))
          by (rewrite (word_position a s) by done; f_equal; lia).
        rewrite wop_bit; [|done..|lia|by rewrite Hm]. rewrite Hd by lia. f_equal. lia.
      * rewrite wop_kept; [|done..|lia|by apply Hr|].
        { apply Win; [done| |done]. unfold next_part in Hn. lia. }
        intros j Hj _. rewrite (word_position a s) by done. intros E. apply position_inj in E. lia.
    + intros p Hp Ho. rewrite wop_kept; [|done..|lia|done|].
      * apply Wk; [done|]. intros i Hi Hi'. apply Ho; [done|]. unfold next_part in Hn. lia.
      * intros j Hj Hb. pose proof (Mt j Hj Hb). rewrite (word_position a s) by done.
        apply Ho; [done|unfold next_part in Hn; lia|]. rewrite <- Hm; [|lia..]. rewrite <- Hb. f_equal. lia.
Qed.
End Steps.

(** ** Addresses *)

Lemma land_high_low a n k : 0 <= k <= n -> Z.land a (2 ^ n - 2 ^ k) = a mod 2 ^ n - a mod 2 ^ k.
Proof.
  intros Hk. assert (2 ^ n = 2 ^ k * 2 ^ (n - k)) as En by (rewrite <- Z.pow_add_r by lia; f_equal; lia).
  assert (2 ^ n - 2 ^ k = Z.shiftl (Z.ones (n - k)) k) as ->.
  { rewrite Z.shiftl_mul_pow2, Z.ones_equiv by lia. lia. }
  assert (Z.land a (Z.shiftl (Z.ones (n - k)) k) = Z.shiftl (Z.land (Z.shiftr a k) (Z.ones (n - k))) k) as ->.
  { apply Z.bits_inj'. intros i Hi. rewrite Z.land_spec, !Z.shiftl_spec, Z.land_spec by lia.
    destruct (Z.lt_ge_cases i k); [rewrite !(Z.testbit_neg_r _ (i - k)) by lia; by rewrite andb_false_r|].
    rewrite Z.shiftr_spec by lia. f_equal. f_equal. lia. }
  rewrite Z.land_ones, Z.shiftl_mul_pow2, Z.shiftr_div_pow2 by lia.
  rewrite En, Z.rem_mul_r by (pose proof (Z.pow_pos_nonneg 2 k); pose proof (Z.pow_pos_nonneg 2 (n - k)); lia). lia.
Qed.

Lemma width_pow w : 0 <= w -> width_bytes w = 2 ^ w.
Proof. intros Hw. unfold width_bytes. rewrite Z.shiftl_mul_pow2 by done. lia. Qed.

Lemma native_mask_0 w : 0 <= w -> NATIVE_MASK w 0 = width_bytes w - 1.
Proof.
  intros Hw. unfold NATIVE_MASK. rewrite Z.add_0_r. destruct (Z.leb_spec 0 w); [|lia].
  rewrite Z.ones_equiv, width_pow by done. lia.
Qed.

Lemma native_offsbits_0 w a : 0 <= w -> native_offsbits w 0 a = 8 * (a mod width_bytes w).
Proof.
  intros Hw. unfold native_offsbits, memory_offset_to_byte. cbn [Z.abs Z.ltb Z.compare]. rewrite Z.shiftr_0_r.
  rewrite width_pow by done. pose proof (land_high_low a w 0 ltac:(lia)) as E. change (2 ^ 0) with 1 in E.
  rewrite E, Z.mod_1_r. lia.
Qed.

Lemma native_address_0 w a : 0 <= w -> native_address w 0 a = a - a mod width_bytes w.
Proof.
  intros Hw. unfold native_address. pose proof (Z.land_ones a w Hw) as E. rewrite width_pow by done.
  unfold NATIVE_MASK. rewrite Z.add_0_r. destruct (Z.leb_spec 0 w); [|lia].
  rewrite <- E. pose proof (Z.sub_nocarry_ldiff a (Z.land a (Z.ones w))) as S.
  rewrite S.
  - apply Z.bits_inj'. intros i Hi. rewrite !Z.ldiff_spec, Z.land_spec. by destruct (Z.testbit a i), (Z.testbit (Z.ones w) i).
  - apply Z.bits_inj'. intros i Hi. rewrite Z.ldiff_spec, Z.land_spec, Z.bits_0. by destruct (Z.testbit a i), (Z.testbit (Z.ones w) i).
Qed.

Lemma native_step_0 w : NATIVE_STEP w 0 = width_bytes w.
Proof. unfold NATIVE_STEP. cbn [Z.leb Z.compare Z.abs]. apply Z.shiftl_0_r. Qed.

Lemma pass_through_0 w tw al a : 0 <= w -> 0 <= tw -> (al = true -> a mod width_bytes tw = 0) ->
  pass_through w 0 tw al a = (w =? tw) && (a mod width_bytes w =? 0).
Proof.
  intros Hw Ht Ha. unfold pass_through. rewrite native_mask_0 by done.
  pose proof (land_high_low a w 0 ltac:(lia)) as E. change (2 ^ 0) with 1 in E. rewrite <- width_pow in E by done.
  rewrite E, Z.mod_1_r, Z.sub_0_r. destruct (Z.eqb_spec w tw) as [->|Hne].
  - rewrite Z.eqb_refl. cbn [andb]. destruct al; [|done]. rewrite Ha by done. done.
  - cbn [andb]. rewrite !width_pow by done. destruct (Z.eqb_spec (2 ^ w) (2 ^ tw)) as [E2|]; [|done].
    apply Z.pow_inj_r in E2; lia.
Qed.

(** One access is enough when the target does not cross the native word. *)
Lemma single_access_0 w en tw al a : 0 <= w -> 0 <= tw -> (al = true -> a mod width_bytes tw = 0) ->
  let r := 8 * (a mod width_bytes w) in
  single_access w 0 en tw al a =
    if (tw <? w) && (r + width_bits tw <=? width_bits w)
    then Some (if little en then r else width_bits w - width_bits tw - r) else None.
Proof.
  intros Hw Ht Ha r. unfold single_access.
  assert ((width_bytes tw <? width_bytes w) = (tw <? w)) as ->.
  { rewrite !width_pow by done. destruct (Z.ltb_spec tw w) as [Hl|Hl].
    - apply Z.ltb_lt. apply Z.pow_lt_mono_r; lia.
    - apply Z.ltb_ge. apply Z.pow_le_mono_r; lia. }
  destruct (Z.ltb_spec tw w) as [Hl|Hl]; [|done]. cbn [andb].
  unfold memory_offset_to_byte. cbn [Z.abs Z.ltb Z.compare]. rewrite Z.shiftr_0_r.
  assert (Z.land a (width_bytes w - (if al then width_bytes tw else 1)) = a mod width_bytes w) as ->.
  { destruct al.
    - pose proof (land_high_low a w tw ltac:(lia)) as E. rewrite <- !width_pow in E by done. rewrite E, Ha by done. lia.
    - pose proof (land_high_low a w 0 ltac:(lia)) as E. change (2 ^ 0) with 1 in E. rewrite <- width_pow in E by done.
      rewrite E, Z.mod_1_r. lia. }
  fold r. destruct al; [|done]. cbn [orb]. specialize (Ha eq_refl).
  destruct (Z.leb_spec (r + width_bits tw) (width_bits w)) as [|Hgt]; [done|exfalso].
  unfold width_bits in Hgt. subst r. rewrite !width_pow in * by done.
  assert (2 ^ w = 2 ^ tw * 2 ^ (w - tw)) as Ew by (rewrite <- Z.pow_add_r by lia; f_equal; lia).
  assert (0 < 2 ^ (w - tw)) by (apply Z.pow_pos_nonneg; lia). assert (0 < 2 ^ tw) by (apply Z.pow_pos_nonneg; lia).
  rewrite Ew, Z.rem_mul_r, Ha in Hgt by lia.
  pose proof (Z.mod_pos_bound (a / 2 ^ tw) (2 ^ (w - tw)) ltac:(lia)). nia.
Qed.

(** ** The decomposition is right *)

Section Parts.
Context {W : Type} {Width : Z} {en : endianness_t} {first last : Z} `{BusMemory W Width en first last}.
Context (TargetWidth : Z).
Context (HW : 0 <= Width <= 3) (HT : 0 <= TargetWidth <= 3).

#[local] Abbreviation N := (width_bits Width).
#[local] Abbreviation NB := (width_bytes Width).
#[local] Abbreviation T := (width_bits TargetWidth).
#[local] Abbreviation TB := (width_bytes TargetWidth).

(** The words an access at [A] touches are in memory when the access is. *)
Lemma touched_in_memory A a : first <= A -> A + TB <= last -> a mod NB = 0 -> A < a + NB -> a < A + TB ->
  in_memory (Width := Width) (first := first) (last := last) a.
Proof.
  intros Hf Hl Ha H1 H2. pose proof memory_range as (R1 & R2 & R3 & R4). unfold in_memory.
  destruct (width_cases Width HW) as (b & Eb & _ & Hb). rewrite Eb in *.
  split; [done|]. destruct Hb as [-> | [-> | [-> | ->]]]; Z.to_euclidean_division_equations; lia.
Qed.

Lemma target_in_memory A : first <= A -> A + TB <= last ->
  forall i, 0 <= i < T -> 8 * first <= bit_position en T A i < 8 * last.
Proof. intros Hf Hl i Hi. unfold bit_position, width_bits in *. destruct (little en); lia. Qed.

(** The masks and the data of the code, moved by [s]. *)
Lemma part_of_moved x s : part_of (Width := Width) T x s (handler_entry_size_t Width (Z.shiftl x (- s))).
Proof.
  intros j Hj Hs. rewrite testbit_size, testbit_moved by lia. destruct (Z.ltb_spec j N); [|lia]. cbn [andb].
  f_equal. lia.
Qed.

Lemma mask_part_moved mask s : 0 <= mask < 2 ^ T ->
  mask_part (Width := Width) T mask s (handler_entry_size_t Width (Z.shiftl mask (- s))).
Proof.
  intros Hm. split; [apply part_of_moved|]. intros j Hj Hb.
  rewrite testbit_size, testbit_moved in Hb by lia. apply andb_prop in Hb as [_ Hb].
  replace (j - - s) with (s + j) in Hb by lia.
  destruct (Z.lt_ge_cases (s + j) 0); [rewrite Z.testbit_neg_r in Hb by lia; done|].
  destruct (Z.lt_ge_cases (s + j) T); [lia|]. rewrite (testbit_below T) in Hb; [done| |done|done].
  destruct (width_cases TargetWidth HT) as (? & _ & -> & ?). lia.
Qed.

Lemma whole_bytes_moved mask s : s mod 8 = 0 -> whole_bytes mask ->
  whole_bytes (handler_entry_size_t Width (Z.shiftl mask (- s))).
Proof.
  intros Hs Hm i Hi. rewrite !testbit_size, !testbit_moved by (Z.to_euclidean_division_equations; lia).
  assert ((i <? N) = (8 * (i / 8) <? N)) as ->.
  { unfold width_bits. destruct (Z.ltb_spec i (8 * NB)), (Z.ltb_spec (8 * (i / 8)) (8 * NB)); try done;
      Z.to_euclidean_division_equations; lia. }
  f_equal. destruct (Z.lt_ge_cases (i + s) 0).
  - rewrite !Z.testbit_neg_r by (Z.to_euclidean_division_equations; lia). done.
  - rewrite (Hm (i - - s)) by lia. f_equal. Z.to_euclidean_division_equations; lia.
Qed.

Lemma placed_moved s v i : 0 <= v < 2 ^ N -> 0 <= i ->
  Z.testbit (handler_entry_size_t TargetWidth (Z.shiftl v s)) i = (i <? T) && Z.testbit v (i - s).
Proof. intros Hv Hi. by rewrite testbit_size, testbit_moved by lia. Qed.

End Parts.

Section Decomposition.
Context {W : Type} {Width : Z} {en : endianness_t} {first last : Z} `{BusMemory W Width en first last}.
Context (TargetWidth : Z) (Aligned : bool).
Context (HW : 0 <= Width <= 3) (HT : 0 <= TargetWidth <= 3).

#[local] Abbreviation N := (width_bits Width).
#[local] Abbreviation NB := (width_bytes Width).
#[local] Abbreviation T := (width_bits TargetWidth).
#[local] Abbreviation TB := (width_bytes TargetWidth).
#[local] Abbreviation so_far := (read_so_far (en := en) (first := first) (last := last)).

Context (A mask : Z) (Hf : first <= A) (Hl : A + TB <= last) (Hm : 0 <= mask < 2 ^ T).

(** The middle words. *)
Lemma next_word a : a mod NB = 0 -> (a + NB) mod NB = 0.
Proof.
  intros Ha. destruct (width_cases Width HW) as (b & Eb & _ & Hb). rewrite Eb in *.
  destruct Hb as [-> | [-> | [-> | ->]]]; Z.to_euclidean_division_equations; lia.
Qed.

Lemma step_no_wrap a : a mod NB = 0 -> A < a + NB + NB -> a + NB < A + TB -> u32 (a + NATIVE_STEP Width 0) = a + NB.
Proof.
  intros Ha H1 H2. rewrite native_step_0. apply u32_id. pose proof memory_range as (R1 & R2 & _).
  destruct (touched_in_memory TargetWidth HW A (a + NB) Hf Hl (next_word a Ha)) as (_ & ? & ?); [lia..|].
  destruct (width_cases Width HW) as (b & Eb & _ & Hb). lia.
Qed.

Lemma read_middle_le_ok w0 lo k : forall a o rw, little en = true -> lo <= o -> 0 < o ->
  so_far T A mask w0 lo o rw -> a mod NB = 0 ->
  8 * (a + NB) = 8 * A + o -> o + Z.of_nat k * N <= T ->
  let '(a', o', rw') := read_middle_le Width 0 TargetWidth k mask a o rw in
  a' = a + Z.of_nat k * NB /\ o' = o + Z.of_nat k * N /\
  so_far T A mask w0 lo o' rw' /\ a' mod NB = 0.
Proof.
  induction k as [|k IH]; intros a o rw He Hlo Ho R Ha Hs Hk; cbn [read_middle_le].
  - replace (Z.of_nat 0) with 0 by lia. split; [lia|]. split; [lia|done].
  - assert (N = 8 * NB) as EN by done. assert (T = 8 * TB) as ET by done.
    assert (0 < NB) as HN by (destruct (width_cases Width HW) as (b & -> & _ & Hb); lia).
    rewrite Nat2Z.inj_succ, <- Z.add_1_l, Z.mul_add_distr_r, Z.mul_1_l in Hk.
    assert (0 <= Z.of_nat k * N) by (apply Z.mul_nonneg_nonneg; lia).
    rewrite step_no_wrap by (done || lia).
    assert (so_far T A mask w0 lo (o + N)
      (read_step (a + NB) (handler_entry_size_t Width (Z.shiftr mask o))
         (fun v => handler_entry_size_t TargetWidth (Z.shiftl v o)) rw)) as R'.
    { apply (read_step_ok HW T A mask w0 lo o o); [exact R|done|left; lia| | |by apply (mask_part_moved TargetWidth HW HT mask o)|].
      - unfold holds_from. rewrite He. lia.
      - apply (touched_in_memory TargetWidth HW A); [done..|by apply next_word|lia|lia].
      - intros v i. by apply placed_moved. }
    specialize (IH (a + NB) (o + N) _ He ltac:(lia) ltac:(lia) R' (next_word a Ha) ltac:(lia) ltac:(lia)).
    destruct (read_middle_le Width 0 TargetWidth k mask (a + NB) (o + N) _) as [[a' o'] rw'].
    destruct IH as (-> & -> & R'' & Ha'). rewrite Nat2Z.inj_succ, <- Z.add_1_l. split; [lia|]. split; [lia|done].
Qed.

Lemma read_middle_be_ok w0 hi k : forall a o rw, little en = false -> o <= hi -> o < T ->
  so_far T A mask w0 o hi rw -> a mod NB = 0 ->
  8 * a + N = 8 * A + T - o -> 0 <= o - Z.of_nat k * N ->
  let '(a', o', rw') := read_middle_be Width 0 TargetWidth k mask a o rw in
  a' = a + Z.of_nat k * NB /\ o' = o - Z.of_nat k * N /\ so_far T A mask w0 o' hi rw' /\ a' mod NB = 0.
Proof.
  induction k as [|k IH]; intros a o rw He Hhi Ho R Ha Hs Hk; cbn [read_middle_be].
  - replace (Z.of_nat 0) with 0 by lia. split; [lia|]. split; [lia|]. split; [|done]. by replace (o - 0 * N) with o by lia.
  - assert (N = 8 * NB) as EN by done. assert (T = 8 * TB) as ET by done.
    assert (0 < NB) as HN by (destruct (width_cases Width HW) as (b & -> & _ & Hb); lia).
    rewrite Nat2Z.inj_succ, <- Z.add_1_l, Z.mul_add_distr_r, Z.mul_1_l in Hk.
    assert (0 <= Z.of_nat k * N) by (apply Z.mul_nonneg_nonneg; lia).
    rewrite step_no_wrap by (done || lia).
    assert (so_far T A mask w0 (o - N) hi
      (read_step (a + NB) (handler_entry_size_t Width (Z.shiftr mask (o - N)))
         (fun v => handler_entry_size_t TargetWidth (Z.shiftl v (o - N))) rw)) as R'.
    { apply (read_step_ok HW T A mask w0 o hi (o - N)); [exact R|done|right; lia| | |
        by apply (mask_part_moved TargetWidth HW HT mask (o - N))|].
      - unfold holds_from. rewrite He. lia.
      - apply (touched_in_memory TargetWidth HW A); [done..|by apply next_word|lia|lia].
      - intros v i. by apply placed_moved. }
    specialize (IH (a + NB) (o - N) _ He ltac:(lia) ltac:(lia) R' (next_word a Ha) ltac:(lia) ltac:(lia)).
    destruct (read_middle_be Width 0 TargetWidth k mask (a + NB) (o - N) _) as [[a' o'] rw'].
    destruct IH as (-> & -> & R'' & Ha'). rewrite Nat2Z.inj_succ, <- Z.add_1_l. split; [lia|]. split; [lia|].
    split; [|done]. by replace (o - (1 + Z.of_nat k) * N) with (o - N - Z.of_nat k * N) by lia.
Qed.

(** The first word, and what there is after it. *)
Lemma first_word_le w : little en = true -> A + TB > A - A mod NB ->
  let o := 8 * (A mod NB) in
  so_far T A mask w (- o) (N - o)
    (read_step (A - A mod NB) (handler_entry_size_t Width (Z.shiftl mask o))
       (fun v => handler_entry_size_t TargetWidth (Z.shiftr v o)) (0, w)).
Proof.
  intros He Ht o. assert (0 < NB) as HN by (destruct (width_cases Width HW) as (b & -> & _ & Hb); lia).
  pose proof (Z.mod_pos_bound A NB HN). replace o with (- - o) at 3 by lia.
  apply (read_step_ok HW T A mask w (- o) (- o) (- o)); [apply nothing_read|done|left; lia| | |
    by apply (mask_part_moved TargetWidth HW HT mask (- o))|].
  - unfold holds_from. rewrite He. lia.
  - apply (touched_in_memory TargetWidth HW A); [done..| |lia|lia]. rewrite Zminus_mod_idemp_r, Z.sub_diag. apply Z.mod_0_l. lia.
  - intros v i. by apply placed_moved.
Qed.

Lemma first_word_be w : little en = false -> A + TB > A - A mod NB ->
  let o := T - (N - 8 * (A mod NB)) in
  so_far T A mask w o (o + N)
    (read_step (A - A mod NB) (handler_entry_size_t Width (Z.shiftr mask o))
       (fun v => handler_entry_size_t TargetWidth (Z.shiftl v o)) (0, w)).
Proof.
  intros He Ht o. assert (0 < NB) as HN by (destruct (width_cases Width HW) as (b & -> & _ & Hb); lia).
  pose proof (Z.mod_pos_bound A NB HN).
  apply (read_step_ok HW T A mask w (o + N) (o + N) o); [apply nothing_read|done|right; lia| | |
    by apply (mask_part_moved TargetWidth HW HT mask o)|].
  - unfold holds_from. rewrite He. unfold width_bits in *. lia.
  - apply (touched_in_memory TargetWidth HW A); [done..| |lia|lia]. rewrite Zminus_mod_idemp_r, Z.sub_diag. apply Z.mod_0_l. lia.
  - intros v i. by apply placed_moved.
Qed.

(** The whole target has been read. *)
Record target_read (w : W) (rw : Z * W) : Prop := mk_target_read {
  read_range : 0 <= rw.1 < 2 ^ T;
  read_bits i : 0 <= i < T -> Z.testbit mask i = true -> Z.testbit rw.1 i = memory_bit w (bit_position en T A i);
  read_kept p : memory_bit rw.2 p = memory_bit w p
}.

Lemma T_range : 8 <= T.
Proof. destruct (width_cases TargetWidth HT) as (b & _ & -> & Hb). lia. Qed.

Lemma below_bits n x : 0 <= n -> (forall i, n <= i -> Z.testbit x i = false) -> 0 <= x < 2 ^ n.
Proof. intros Hn Hx. apply bits_below; [done|]. split; [|done]. apply Z.bits_iff_nonneg_ex. exists n. intros k Hk. apply Hx. lia. Qed.

Lemma all_read w lo hi rw : so_far T A mask w lo hi rw -> lo <= 0 -> T <= hi -> target_read w rw.
Proof.
  intros [Ri Ro Rk] Hlo Hhi. pose proof T_range. split; [apply below_bits; [lia|]| |done].
  - intros i Hi. apply Ro; lia.
  - intros i Hi. apply Ri; [done|lia].
Qed.

Lemma one_word_read a s w : holds_from (Width := Width) (en := en) T A a s ->
  in_memory (Width := Width) (first := first) (last := last) a -> s <= 0 -> T <= s + N ->
  let '(v, w') := rop a (handler_entry_size_t Width (Z.shiftl mask (- s))) w in
  target_read w (handler_entry_size_t TargetWidth (Z.shiftl v s), w').
Proof.
  intros Hs (Ha & Hfa & Hla) H1 H2. set (cm := handler_entry_size_t _ _).
  pose proof (rop_range a cm w Ha Hfa Hla) as Vr. pose proof (fun i => rop_bit a cm w i Ha Hfa Hla) as Vb.
  pose proof (fun p => rop_kept a cm w p Ha Hfa Hla) as Vk. destruct (rop a cm w) as [v w']. cbn [fst snd] in *.
  split; cbn [fst snd]; [apply size_range; lia| |exact Vk].
  intros i Hi Hb. rewrite testbit_size, testbit_moved by lia. destruct (Z.ltb_spec i T); [|lia]. cbn [andb].
  rewrite Vb; [|lia|].
  - rewrite (word_position T A a s) by done. do 2 f_equal. lia.
  - subst cm. rewrite testbit_size, testbit_moved by lia. destruct (Z.ltb_spec (i - s) N); [|lia]. cbn [andb].
    rewrite <- Hb. f_equal. lia.
Qed.

Lemma two_words_le w : little en = true -> TB <= NB -> NB < A mod NB + TB ->
  let o := 8 * (A mod NB) in let a := A - A mod NB in
  let rw := read_step a (handler_entry_size_t Width (Z.shiftl mask o))
              (fun v => handler_entry_size_t TargetWidth (Z.shiftr v o)) (0, w) in
  target_read w (read_step (u32 (a + NATIVE_STEP Width 0)) (handler_entry_size_t Width (Z.shiftr mask (N - o)))
    (fun v => handler_entry_size_t TargetWidth (Z.shiftl v (N - o))) rw).
Proof.
  intros He Ht Hc o a rw. assert (0 < NB) as HN by (destruct (width_cases Width HW) as (b & -> & _ & Hb); lia).
  pose proof (Z.mod_pos_bound A NB HN). pose proof T_range. unfold width_bits in *.
  assert (a mod NB = 0) as Ha by (subst a; rewrite Zminus_mod_idemp_r, Z.sub_diag; apply Z.mod_0_l; lia).
  rewrite step_no_wrap by (done || lia). pose proof (first_word_le w He ltac:(lia)) as R. fold o a rw in R.
  apply (all_read w (- o) (N - o + N)); [|lia|unfold width_bits in *; lia].
  apply (read_step_ok HW T A mask w (- o) (N - o) (N - o)); [exact R|unfold width_bits; lia|left; lia| | |
    by apply (mask_part_moved TargetWidth HW HT mask (N - o))|].
  - unfold holds_from, width_bits. rewrite He. lia.
  - apply (touched_in_memory TargetWidth HW A); [done..|by apply next_word|lia|lia].
  - intros v i. by apply placed_moved.
Qed.

(** On a big-endian bus at least as wide as the target, the two words are
    gathered at the top of a native word. *)
Lemma two_words_be w : little en = false -> TB <= NB -> NB < A mod NB + TB ->
  let o := 8 * (A mod NB) in let a := A - A mod NB in let up := N - T in
  let lj := handler_entry_size_t Width (Z.shiftl mask up) in
  let rw := read_step a (handler_entry_size_t Width (Z.shiftr lj o))
              (fun v => handler_entry_size_t Width (Z.shiftl v o)) (0, w) in
  let '(result, w') := read_step (u32 (a + NATIVE_STEP Width 0)) (handler_entry_size_t Width (Z.shiftl lj (N - o)))
    (fun v => handler_entry_size_t Width (Z.shiftr v (N - o))) rw in
  target_read w (handler_entry_size_t TargetWidth (Z.shiftr result up), w').
Proof.
  intros He Ht Hc o a up lj rw. assert (0 < NB) as HN by (destruct (width_cases Width HW) as (b & -> & _ & Hb); lia).
  pose proof (Z.mod_pos_bound A NB HN) as Hr. pose proof T_range as HT8.
  assert (N = 8 * NB) as EN by done. assert (T = 8 * TB) as ET by done.
  assert (a mod NB = 0) as Ha by (subst a; rewrite Zminus_mod_idemp_r, Z.sub_diag; apply Z.mod_0_l; lia).
  assert (0 <= lj < 2 ^ N) as Hlj by (apply size_range; lia).
  rewrite step_no_wrap by (done || lia).
  assert (so_far N A lj w o (o + N) rw) as R.
  { apply (read_step_ok HW N A lj w (o + N) (o + N) o); [apply nothing_read|done|right; lia| | |
      by apply (mask_part_moved Width HW HW lj o)|].
    - unfold holds_from. rewrite He. lia.
    - apply (touched_in_memory TargetWidth HW A); [done..|lia|lia].
    - intros v i. by apply placed_moved. }
  assert (so_far N A lj w (o - N) (o + N) (read_step (a + NB) (handler_entry_size_t Width (Z.shiftl lj (N - o)))
    (fun v => handler_entry_size_t Width (Z.shiftr v (N - o))) rw)) as R2.
  { replace (N - o) with (- (o - N)) by lia.
    apply (read_step_ok HW N A lj w o (o + N) (o - N)); [exact R|lia|right; lia| | |
      by apply (mask_part_moved Width HW HW lj (o - N))|].
    - unfold holds_from. rewrite He. lia.
    - apply (touched_in_memory TargetWidth HW A); [done..|by apply next_word|lia|lia].
    - intros v i. rewrite shiftl_opp, Z.opp_involutive. by apply placed_moved. }
  destruct (read_step (a + NB) _ _ rw) as [result w']. destruct R2 as [Ri _ Rk]. cbn [fst snd] in *.
  split; cbn [fst snd]; [apply size_range; lia| |exact Rk].
  intros i Hi Hb. rewrite testbit_size, Z.shiftr_spec by lia. destruct (Z.ltb_spec i T); [|lia]. cbn [andb].
  rewrite Ri; [|lia|lia|].
  - f_equal. unfold bit_position. rewrite He. lia.
  - subst lj. rewrite testbit_size, testbit_moved by lia. destruct (Z.ltb_spec (i + up) N); [|lia]. cbn [andb].
    rewrite <- Hb. f_equal. lia.
Qed.

(** More words than one, the target being wider than the bus. *)
Lemma splits : Width < TargetWidth -> Z.of_nat (MAX_SPLITS_MINUS_ONE Width TargetWidth) * N = T - N /\
  Z.of_nat (MAX_SPLITS_MINUS_ONE Width TargetWidth) * NB = TB - NB /\ (A mod TB = 0 -> A mod NB = 0).
Proof.
  intros Hw. unfold MAX_SPLITS_MINUS_ONE, width_bits. rewrite !width_pow by lia.
  assert (2 ^ TargetWidth = 2 ^ Width * 2 ^ (TargetWidth - Width)) as E by (rewrite <- Z.pow_add_r by lia; f_equal; lia).
  pose proof (Z.pow_pos_nonneg 2 Width). pose proof (Z.pow_pos_nonneg 2 (TargetWidth - Width)).
  assert (2 ^ TargetWidth / 2 ^ Width = 2 ^ (TargetWidth - Width)) as -> by (rewrite E, Z.mul_comm; apply Z.div_mul; lia).
  rewrite Z2Nat.id by lia. split; [lia|]. split; [lia|]. rewrite E, Z.rem_mul_r by lia. pose proof (Z.mod_pos_bound A (2 ^ Width)).
  pose proof (Z.mod_pos_bound (A / 2 ^ Width) (2 ^ (TargetWidth - Width))). nia.
Qed.

Lemma many_words_le w : little en = true -> Width < TargetWidth -> (Aligned = true -> A mod TB = 0) ->
  let o := 8 * (A mod NB) in let a := A - A mod NB in
  let rw := read_step a (handler_entry_size_t Width (Z.shiftl mask o))
              (fun v => handler_entry_size_t TargetWidth (Z.shiftr v o)) (0, w) in
  target_read w
    (let '(address, offsbits, rw) :=
       read_middle_le Width 0 TargetWidth (MAX_SPLITS_MINUS_ONE Width TargetWidth) mask a (N - o) rw in
     if negb Aligned && (offsbits <? T)
     then read_step (u32 (address + NATIVE_STEP Width 0)) (handler_entry_size_t Width (Z.shiftr mask offsbits))
            (fun v => handler_entry_size_t TargetWidth (Z.shiftl v offsbits)) rw
     else rw).
Proof.
  intros He Hw Hal o a rw. assert (0 < NB) as HN by (destruct (width_cases Width HW) as (b & -> & _ & Hb); lia).
  pose proof (Z.mod_pos_bound A NB HN) as Hr. destruct (splits Hw) as (K1 & K2 & K3).
  assert (N = 8 * NB) as EN by done. assert (T = 8 * TB) as ET by done.
  assert (0 <= Z.of_nat (MAX_SPLITS_MINUS_ONE Width TargetWidth) * NB) by (apply Z.mul_nonneg_nonneg; lia).
  assert (a mod NB = 0) as Ha by (subst a; rewrite Zminus_mod_idemp_r, Z.sub_diag; apply Z.mod_0_l; lia).
  pose proof (first_word_le w He ltac:(lia)) as R. fold o a rw in R.
  pose proof (read_middle_le_ok w (- o) (MAX_SPLITS_MINUS_ONE Width TargetWidth) a (N - o) rw He
    ltac:(lia) ltac:(lia) R Ha ltac:(lia) ltac:(lia)) as M.
  destruct (read_middle_le _ _ _ _ _ _ _ _) as [[a' o'] rw']. destruct M as (Ea & Eo & R' & Ha').
  destruct (Z.ltb_spec o' T) as [Hlt|Hge]; [|rewrite andb_false_r; apply (all_read w (- o) o'); [done|lia|lia]].
  destruct Aligned; [specialize (Hal eq_refl); specialize (K3 Hal); lia|]. cbn [negb andb].
  rewrite step_no_wrap by (done || lia). apply (all_read w (- o) (o' + N)); [|lia|lia].
  apply (read_step_ok HW T A mask w (- o) o' o'); [exact R'|lia|left; lia| | |
    by apply (mask_part_moved TargetWidth HW HT mask o')|].
  - unfold holds_from. rewrite He. lia.
  - apply (touched_in_memory TargetWidth HW A); [done..|by apply next_word|lia|lia].
  - intros v i. by apply placed_moved.
Qed.

Lemma many_words_be w : little en = false -> Width < TargetWidth -> (Aligned = true -> A mod TB = 0) ->
  let o := T - (N - 8 * (A mod NB)) in let a := A - A mod NB in
  let rw := read_step a (handler_entry_size_t Width (Z.shiftr mask o))
              (fun v => handler_entry_size_t TargetWidth (Z.shiftl v o)) (0, w) in
  target_read w
    (let '(address, offsbits, rw) :=
       read_middle_be Width 0 TargetWidth (MAX_SPLITS_MINUS_ONE Width TargetWidth) mask a o rw in
     if negb Aligned && negb (offsbits =? 0)
     then let offsbits := N - offsbits in
          read_step (u32 (address + NATIVE_STEP Width 0)) (handler_entry_size_t Width (Z.shiftl mask offsbits))
            (fun v => handler_entry_size_t TargetWidth (Z.shiftr v offsbits)) rw
     else rw).
Proof.
  intros He Hw Hal o a rw. assert (0 < NB) as HN by (destruct (width_cases Width HW) as (b & -> & _ & Hb); lia).
  pose proof (Z.mod_pos_bound A NB HN) as Hr. destruct (splits Hw) as (K1 & K2 & K3).
  assert (N = 8 * NB) as EN by done. assert (T = 8 * TB) as ET by done.
  assert (0 <= Z.of_nat (MAX_SPLITS_MINUS_ONE Width TargetWidth) * NB) by (apply Z.mul_nonneg_nonneg; lia).
  assert (a mod NB = 0) as Ha by (subst a; rewrite Zminus_mod_idemp_r, Z.sub_diag; apply Z.mod_0_l; lia).
  pose proof (first_word_be w He ltac:(lia)) as R. fold o a rw in R.
  pose proof (read_middle_be_ok w (o + N) (MAX_SPLITS_MINUS_ONE Width TargetWidth) a o rw He
    ltac:(lia) ltac:(lia) R Ha ltac:(lia) ltac:(lia)) as M.
  destruct (read_middle_be _ _ _ _ _ _ _ _) as [[a' o'] rw']. destruct M as (Ea & Eo & R' & Ha').
  destruct (Z.eqb_spec o' 0) as [Hz|Hne]; [rewrite andb_false_r; apply (all_read w o' (o + N)); [done|lia|lia]|].
  destruct Aligned; [specialize (Hal eq_refl); specialize (K3 Hal); lia|]. cbn [negb andb]. cbv zeta.
  rewrite step_no_wrap by (done || lia). apply (all_read w (o' - N) (o + N)); [|lia|lia].
  replace (N - o') with (- (o' - N)) by lia.
  apply (read_step_ok HW T A mask w o' (o + N) (o' - N)); [exact R'|lia|right; lia| | |
    by apply (mask_part_moved TargetWidth HW HT mask (o' - N))|].
  - unfold holds_from. rewrite He. lia.
  - apply (touched_in_memory TargetWidth HW A); [done..|by apply next_word|lia|lia].
  - intros v i. rewrite shiftl_opp, Z.opp_involutive. by apply placed_moved.
Qed.

(** Which of the code's cases an access falls in. *)
Lemma width_order : (TargetWidth < Width <-> TB < NB) /\ (TargetWidth = Width <-> TB = NB).
Proof.
  rewrite !width_pow by lia. split; [apply Z.pow_lt_mono_r_iff; lia|]. split; intros E; [by rewrite E|].
  apply Z.pow_inj_r in E; lia.
Qed.

Lemma two_words : (Width =? TargetWidth) && (A mod NB =? 0) = false ->
  (TargetWidth <? Width) && (8 * (A mod NB) + T <=? N) = false -> TB <= NB -> NB < A mod NB + TB.
Proof.
  intros E1 E2 Hle. destruct width_order as [O1 O2]. assert (N = 8 * NB) as EN by done. assert (T = 8 * TB) as ET by done.
  assert (0 < NB) as HN by (destruct (width_cases Width HW) as (b & -> & _ & Hb); lia).
  pose proof (Z.mod_pos_bound A NB HN). apply andb_false_iff in E1, E2. destruct E1, E2; zbool; lia.
Qed.

Lemma base_aligned : (A - A mod NB) mod NB = 0.
Proof.
  assert (0 < NB) as HN by (destruct (width_cases Width HW) as (b & -> & _ & Hb); lia).
  rewrite Zminus_mod_idemp_r, Z.sub_diag. apply Z.mod_0_l. lia.
Qed.

Lemma base_in_memory : in_memory (Width := Width) (first := first) (last := last) (A - A mod NB).
Proof.
  assert (0 < NB) as HN by (destruct (width_cases Width HW) as (b & -> & _ & Hb); lia).
  assert (0 < TB) as HN' by (destruct (width_cases TargetWidth HT) as (b & -> & _ & Hb); lia).
  pose proof (Z.mod_pos_bound A NB HN). apply (touched_in_memory TargetWidth HW A); [done..|apply base_aligned|lia|lia].
Qed.

(** [memory_read_generic], case by case. *)
Lemma read_generic_ok w : (Aligned = true -> A mod TB = 0) ->
  target_read w (memory_read_generic Width 0 en TargetWidth Aligned A mask w).
Proof.
  intros Hal. unfold memory_read_generic.
  rewrite pass_through_0, native_address_0, native_offsbits_0, (single_access_0 Width en TargetWidth Aligned A) by (done || lia).
  pose proof (one_word_read (A - A mod NB)) as O. pose proof width_order as WO.
  assert (0 < NB) as HN by (destruct (width_cases Width HW) as (b & -> & _ & Hb); lia).
  pose proof (Z.mod_pos_bound A NB HN) as Hr.
  destruct (_ && (A mod NB =? 0)) eqn:Ep.
  - apply andb_prop in Ep as [Ew Hz]. apply Z.eqb_eq in Ew, Hz. specialize (O 0 w).
    assert (handler_entry_size_t Width (Z.shiftl mask (- 0)) = mask) as Em.
    { change (- 0) with 0. rewrite Z.shiftl_0_r. unfold handler_entry_size_t. rewrite Z.land_ones.
      - apply Z.mod_small. by rewrite Ew.
      - pose proof T_range. rewrite Ew. lia. }
    rewrite Em in O. destruct (rop _ mask w) as [v w']. rewrite Z.shiftl_0_r in O.
    apply O; [|apply base_in_memory|done|rewrite Ew; lia]. unfold holds_from. rewrite Hz, Ew. destruct (little en); lia.
  - destruct (_ && (_ <=? N)) eqn:Es.
    + apply andb_prop in Es as [Hw Hle]. apply Z.ltb_lt in Hw. apply Z.leb_le in Hle. destruct (little en) eqn:He.
      * specialize (O (- (8 * (A mod NB))) w). rewrite Z.opp_involutive in O.
        destruct (rop _ _ w) as [v w']. apply O; [|apply base_in_memory|lia|lia]. unfold holds_from. rewrite He. lia.
      * set (o := N - T - 8 * (A mod NB)). specialize (O (- o) w). rewrite Z.opp_involutive in O.
        destruct (rop _ _ w) as [v w']. unfold o. apply O; [|apply base_in_memory| |]; unfold holds_from; rewrite ?He; unfold o; lia.
    + destruct (Z.leb_spec TB NB) as [Hle|Hgt].
      * pose proof (two_words Ep Es Hle) as Hc. destruct (little en) eqn:He; [by apply two_words_le|].
        unfold LEFT_JUSTIFY_TARGET_TO_NATIVE_SHIFT. destruct (Z.leb_spec T N); [|unfold width_bits in *; lia].
        pose proof (two_words_be w He Hle Hc) as R. cbv zeta in R.
        destruct (read_step (u32 _) _ _ _) as [result w'] in R |- *. exact R.
      * destruct (little en) eqn:He; [apply many_words_le|apply many_words_be]; done || lia.
Qed.

(** ** Writes *)

Context (data : Z) (Hwb : whole_bytes mask) (Hnz : mask <> 0).
#[local] Abbreviation written := (written_so_far (en := en) (first := first) (last := last)).

(** A word of the write, moved by [s]. *)
Lemma write_word_ok w0 lo hi s lo' hi' a w : written T A mask data w0 lo hi w -> lo <= hi ->
  next_part (Width := Width) lo hi s lo' hi' -> s mod 8 = 0 -> holds_from (Width := Width) (en := en) T A a s ->
  a mod NB = 0 -> A < a + NB -> a < A + TB ->
  written T A mask data w0 lo' hi' (write_step a (handler_entry_size_t Width (Z.shiftl data (- s)))
    (handler_entry_size_t Width (Z.shiftl mask (- s))) w).
Proof.
  intros R Hle Hn Hs Hh Ha H1 H2. apply (write_step_ok HW T A mask data w0 lo hi s); [| exact R | done | done | done | | | | |].
  - intros i Hi _. by apply (target_in_memory TargetWidth).
  - by apply (touched_in_memory TargetWidth HW A).
  - by apply (mask_part_moved TargetWidth HW HT).
  - by apply whole_bytes_moved.
  - apply size_range. lia.
  - by apply (part_of_moved TargetWidth HW).
Qed.

Lemma width_8 : N mod 8 = 0 /\ T mod 8 = 0.
Proof. unfold width_bits. rewrite !(Z.mul_comm 8), !Z.mod_mul by lia. done. Qed.

Lemma write_middle_le_ok w0 lo k : forall a o w, little en = true -> lo <= o -> 0 < o -> o mod 8 = 0 ->
  written T A mask data w0 lo o w -> a mod NB = 0 -> 8 * (a + NB) = 8 * A + o -> o + Z.of_nat k * N <= T ->
  let '(a', o', w') := write_middle_le Width 0 k data mask a o w in
  a' = a + Z.of_nat k * NB /\ o' = o + Z.of_nat k * N /\ written T A mask data w0 lo o' w' /\ a' mod NB = 0.
Proof.
  induction k as [|k IH]; intros a o w He Hlo Ho Ho8 R Ha Hs Hk; cbn [write_middle_le].
  - replace (Z.of_nat 0) with 0 by lia. split; [lia|]. split; [lia|]. split; [|done]. by replace (o + 0 * N) with o by lia.
  - assert (N = 8 * NB) as EN by done. assert (T = 8 * TB) as ET by done.
    assert (0 < NB) as HN by (destruct (width_cases Width HW) as (b & -> & _ & Hb); lia).
    rewrite Nat2Z.inj_succ, <- Z.add_1_l, Z.mul_add_distr_r, Z.mul_1_l in Hk.
    assert (0 <= Z.of_nat k * N) by (apply Z.mul_nonneg_nonneg; lia).
    rewrite step_no_wrap by (done || lia). rewrite !shiftl_opp.
    pose proof (write_word_ok w0 lo o o lo (o + N) (a + NB) w R Hlo ltac:(left; lia) Ho8
      ltac:(unfold holds_from; rewrite He; lia) (next_word a Ha) ltac:(lia) ltac:(lia)) as R'.
    specialize (IH (a + NB) (o + N) _ He ltac:(lia) ltac:(lia)
      ltac:(rewrite EN, (Z.mul_comm 8), Z.mod_add by lia; exact Ho8) R' (next_word a Ha) ltac:(lia) ltac:(lia)).
    destruct (write_middle_le Width 0 k data mask (a + NB) (o + N) _) as [[a' o'] w'].
    destruct IH as (-> & -> & R'' & Ha'). rewrite Nat2Z.inj_succ, <- Z.add_1_l. split; [lia|]. split; [lia|].
    split; [|done]. by replace (o + (1 + Z.of_nat k) * N) with (o + N + Z.of_nat k * N) by lia.
Qed.

Lemma write_middle_be_ok w0 hi k : forall a o w, little en = false -> o <= hi -> o < T -> o mod 8 = 0 ->
  written T A mask data w0 o hi w -> a mod NB = 0 -> 8 * a + N = 8 * A + T - o -> 0 <= o - Z.of_nat k * N ->
  let '(a', o', w') := write_middle_be Width 0 k data mask a o w in
  a' = a + Z.of_nat k * NB /\ o' = o - Z.of_nat k * N /\ written T A mask data w0 o' hi w' /\ a' mod NB = 0.
Proof.
  induction k as [|k IH]; intros a o w He Hhi Ho Ho8 R Ha Hs Hk; cbn [write_middle_be].
  - replace (Z.of_nat 0) with 0 by lia. split; [lia|]. split; [lia|]. split; [|done]. by replace (o - 0 * N) with o by lia.
  - assert (N = 8 * NB) as EN by done. assert (T = 8 * TB) as ET by done.
    assert (0 < NB) as HN by (destruct (width_cases Width HW) as (b & -> & _ & Hb); lia).
    rewrite Nat2Z.inj_succ, <- Z.add_1_l, Z.mul_add_distr_r, Z.mul_1_l in Hk.
    assert (0 <= Z.of_nat k * N) by (apply Z.mul_nonneg_nonneg; lia).
    assert ((o - N) mod 8 = 0) as Ho8'.
    { destruct width_8 as [W8 _]. by rewrite Zminus_mod, Ho8, W8. }
    rewrite step_no_wrap by (done || lia). rewrite !shiftl_opp.
    pose proof (write_word_ok w0 o hi (o - N) (o - N) hi (a + NB) w R Hhi ltac:(right; lia) Ho8'
      ltac:(unfold holds_from; rewrite He; lia) (next_word a Ha) ltac:(lia) ltac:(lia)) as R'.
    specialize (IH (a + NB) (o - N) _ He ltac:(lia) ltac:(lia) Ho8' R' (next_word a Ha) ltac:(lia) ltac:(lia)).
    destruct (write_middle_be Width 0 k data mask (a + NB) (o - N) _) as [[a' o'] w'].
    destruct IH as (-> & -> & R'' & Ha'). rewrite Nat2Z.inj_succ, <- Z.add_1_l. split; [lia|]. split; [lia|].
    split; [|done]. by replace (o - (1 + Z.of_nat k) * N) with (o - N - Z.of_nat k * N) by lia.
Qed.

(** The whole target has been written, and nothing else. *)
Record target_written (w w' : W) : Prop := mk_target_written {
  written_bits i : 0 <= i < T -> Z.testbit mask i = true ->
    memory_bit w' (bit_position en T A i) = Z.testbit data i;
  others_kept p : 8 * first <= p < 8 * last ->
    (forall i, 0 <= i < T -> Z.testbit mask i = true -> p <> bit_position en T A i) ->
    memory_bit w' p = memory_bit w p
}.

Lemma all_written w0 lo hi w : written T A mask data w0 lo hi w -> lo <= 0 -> T <= hi -> target_written w0 w.
Proof.
  intros [Wi Wk] Hlo Hhi. split.
  - intros i Hi. apply Wi; [done|lia].
  - intros p Hp Ho. apply Wk; [done|]. intros i Hi _. by apply Ho.
Qed.

(** A write of one word that is not conditional on its mask. *)
Lemma one_word_write a s w : holds_from (Width := Width) (en := en) T A a s ->
  in_memory (Width := Width) (first := first) (last := last) a -> s mod 8 = 0 -> s <= 0 -> T <= s + N ->
  target_written w (wop a (handler_entry_size_t Width (Z.shiftl data (- s)))
                     (handler_entry_size_t Width (Z.shiftl mask (- s))) w).
Proof.
  intros Hs (Ha & Hfa & Hla) H8 H1 H2.
  pose proof (whole_bytes_moved (Width := Width) HW mask s H8 Hwb) as Hwb'.
  assert (forall j, 0 <= j < N -> Z.testbit (handler_entry_size_t Width (Z.shiftl mask (- s))) j = true ->
    0 <= s + j < T /\ Z.testbit mask (s + j) = true) as Hmask.
  { destruct (mask_part_moved TargetWidth HW HT mask s Hm) as [Mp Mt]. intros j Hj Hb.
    specialize (Mt j Hj Hb). split; [done|]. by rewrite <- Mp. }
  split.
  - intros i Hi Hb. replace (bit_position en T A i) with (bit_position en N a (i - s))
      by (rewrite (word_position T A a s) by done; f_equal; lia).
    rewrite wop_bit; [|done..|lia|].
    + rewrite testbit_size, testbit_moved by lia. destruct (Z.ltb_spec (i - s) N); [|lia]. cbn [andb]. f_equal. lia.
    + rewrite testbit_size, testbit_moved by lia. destruct (Z.ltb_spec (i - s) N); [|lia]. cbn [andb].
      rewrite <- Hb. f_equal. lia.
  - intros p Hp Ho. apply wop_kept; [done..| |done|].
    { pose proof (size_range Width (Z.shiftl mask (- s))) as Sr. split; [|lia].
      apply Z.le_neq. split; [lia|]. intros E. symmetry in E. apply Hnz. apply Z.bits_inj'. intros i Hi. rewrite Z.bits_0.
      destruct (Z.testbit mask i) eqn:Hb; [|done]. destruct (Z.lt_ge_cases i T).
      - rewrite <- (Z.bits_0 (i - s)), <- E, testbit_size, testbit_moved by lia.
        destruct (Z.ltb_spec (i - s) N); [|lia]. cbn [andb]. rewrite <- Hb. f_equal. lia.
      - rewrite (testbit_below T) in Hb; [done| |done|done]. pose proof T_range. lia. }
    intros j Hj Hb. destruct (Hmask j Hj Hb) as [Hr Hb'].
    rewrite (word_position T A a s) by done. by apply Ho.
Qed.

Lemma two_words_written_le w : little en = true -> TB <= NB -> NB < A mod NB + TB ->
  let o := 8 * (A mod NB) in let a := A - A mod NB in
  let w1 := write_step a (handler_entry_size_t Width (Z.shiftl data o)) (handler_entry_size_t Width (Z.shiftl mask o)) w in
  target_written w (write_step (u32 (a + NATIVE_STEP Width 0)) (handler_entry_size_t Width (Z.shiftr data (N - o)))
    (handler_entry_size_t Width (Z.shiftr mask (N - o))) w1).
Proof.
  intros He Ht Hc o a w1. assert (0 < NB) as HN by (destruct (width_cases Width HW) as (b & -> & _ & Hb); lia).
  pose proof (Z.mod_pos_bound A NB HN). assert (N = 8 * NB) as EN by done. assert (T = 8 * TB) as ET by done.
  assert (a mod NB = 0) as Ha by apply base_aligned. rewrite step_no_wrap by (done || lia). rewrite !shiftl_opp.
  assert (written T A mask data w (- o) (N - o) w1) as R.
  { subst w1. rewrite <- (Z.opp_involutive o) at 3 4.
    apply (write_word_ok w (- o) (- o)); [apply nothing_written|done|left; lia| | |done|lia|lia].
    - subst o. Z.to_euclidean_division_equations; lia.
    - unfold holds_from. rewrite He. lia. }
  apply (all_written w (- o) (N - o + N)); [|lia|lia].
  apply (write_word_ok w (- o) (N - o)); [exact R|lia|left; lia| | |by apply next_word|lia|lia].
  - subst o. rewrite EN. Z.to_euclidean_division_equations; lia.
  - unfold holds_from. rewrite He. lia.
Qed.

Lemma two_words_written_be w : little en = false -> TB <= NB -> NB < A mod NB + TB ->
  let o := 8 * (A mod NB) in let a := A - A mod NB in let up := N - T in
  let ljdata := handler_entry_size_t Width (Z.shiftl data up) in
  let ljmask := handler_entry_size_t Width (Z.shiftl mask up) in
  let w1 := write_step a (handler_entry_size_t Width (Z.shiftr ljdata o)) (handler_entry_size_t Width (Z.shiftr ljmask o)) w in
  target_written w (write_step (u32 (a + NATIVE_STEP Width 0)) (handler_entry_size_t Width (Z.shiftl ljdata (N - o)))
    (handler_entry_size_t Width (Z.shiftl ljmask (N - o))) w1).
Proof.
  intros He Ht Hc o a up ljdata ljmask w1.
  assert (0 < NB) as HN by (destruct (width_cases Width HW) as (b & -> & _ & Hb); lia).
  pose proof (Z.mod_pos_bound A NB HN). assert (N = 8 * NB) as EN by done. assert (T = 8 * TB) as ET by done.
  assert (a mod NB = 0) as Ha by apply base_aligned. rewrite step_no_wrap by (done || lia).
  assert (0 <= ljmask < 2 ^ N) as Hlj by (apply size_range; lia).
  assert (whole_bytes ljmask) as Hlw.
  { subst ljmask. rewrite <- (Z.opp_involutive up). apply (whole_bytes_moved HW); [|done].
    subst up. rewrite EN, ET. Z.to_euclidean_division_equations; lia. }
  assert (forall i, 0 <= i < N -> Z.testbit ljmask i = Z.testbit mask (i - up)) as Lm.
  { intros i Hi. subst ljmask. rewrite testbit_size, testbit_moved by lia. by destruct (Z.ltb_spec i N); [|lia]. }
  assert (forall i, 0 <= i < N -> Z.testbit ljmask i = true -> 0 <= i - up < T) as Lt.
  { intros i Hi Hb. rewrite Lm in Hb by done. destruct (Z.lt_ge_cases (i - up) 0); [|lia].
    by rewrite Z.testbit_neg_r in Hb by lia. }
  assert (forall i, bit_position en N A i = bit_position en T A (i - up)) as Lp.
  { intros i. unfold bit_position. rewrite He. lia. }
  assert (forall i, 0 <= i < N -> Z.testbit ljmask i = true -> 8 * first <= bit_position en N A i < 8 * last) as Lr.
  { intros i Hi Hb. rewrite Lp. apply (target_in_memory TargetWidth); [done..|by apply Lt]. }
  assert (forall s b lo hi lo' hi' v, written N A ljmask ljdata w lo hi v -> lo <= hi ->
    next_part (Width := Width) lo hi s lo' hi' -> s mod 8 = 0 -> 8 * b = 8 * A - s -> b mod NB = 0 ->
    A < b + NB -> b < A + TB ->
    written N A ljmask ljdata w lo' hi' (write_step b (handler_entry_size_t Width (Z.shiftl ljdata (- s)))
      (handler_entry_size_t Width (Z.shiftl ljmask (- s))) v)) as Step.
  { intros s b lo hi lo' hi' v R Hle Hn H8 Hb Hba Hb1 Hb2.
    apply (write_step_ok HW N A ljmask ljdata w lo hi s); [exact Lr|exact R|done|done| | | | | |].
    - unfold holds_from. rewrite He. lia.
    - by apply (touched_in_memory TargetWidth HW A).
    - by apply (mask_part_moved Width HW HW).
    - by apply (whole_bytes_moved HW).
    - apply size_range. lia.
    - by apply (part_of_moved Width HW). }
  pose proof (Step o a (o + N) (o + N) o (o + N) w (nothing_written N A ljmask ljdata w _) ltac:(lia)
    ltac:(right; lia) ltac:(subst o; Z.to_euclidean_division_equations; lia) ltac:(lia) Ha ltac:(lia) ltac:(lia)) as R1.
  pose proof (Step (o - N) (a + NB) o (o + N) (o - N) (o + N) _ R1 ltac:(lia) ltac:(right; lia)
    ltac:(subst o; rewrite EN; Z.to_euclidean_division_equations; lia) ltac:(lia) (next_word a Ha) ltac:(lia) ltac:(lia)) as [Wi Wk].
  rewrite <- (shiftl_opp _ o), <- (shiftl_opp _ o) in Wi, Wk. fold w1 in Wi, Wk.
  replace (- (o - N)) with (N - o) in Wi, Wk by lia. split.
  - intros i Hi Hb. replace (bit_position en T A i) with (bit_position en N A (i + up)) by (rewrite Lp; f_equal; lia).
    rewrite Wi; [|lia|lia|rewrite Lm by lia; rewrite <- Hb; f_equal; lia].
    subst ljdata. rewrite testbit_size, testbit_moved by lia. destruct (Z.ltb_spec (i + up) N); [|lia]. cbn [andb]. f_equal. lia.
  - intros p Hp Ho. apply Wk; [done|]. intros i Hi _ Hb. rewrite Lp. apply Ho; [by apply Lt|by rewrite <- Lm].
Qed.

Lemma many_words_written_le w : little en = true -> Width < TargetWidth -> (Aligned = true -> A mod TB = 0) ->
  let o := 8 * (A mod NB) in let a := A - A mod NB in
  let w1 := write_step a (handler_entry_size_t Width (Z.shiftl data o)) (handler_entry_size_t Width (Z.shiftl mask o)) w in
  target_written w
    (let '(address, offsbits, w) := write_middle_le Width 0 (MAX_SPLITS_MINUS_ONE Width TargetWidth) data mask a (N - o) w1 in
     if negb Aligned && (offsbits <? T)
     then write_step (u32 (address + NATIVE_STEP Width 0)) (handler_entry_size_t Width (Z.shiftr data offsbits))
            (handler_entry_size_t Width (Z.shiftr mask offsbits)) w
     else w).
Proof.
  intros He Hw Hal o a w1. assert (0 < NB) as HN by (destruct (width_cases Width HW) as (b & -> & _ & Hb); lia).
  pose proof (Z.mod_pos_bound A NB HN). destruct (splits Hw) as (K1 & K2 & K3). destruct width_8 as [W8 _].
  assert (N = 8 * NB) as EN by done. assert (T = 8 * TB) as ET by done.
  assert (0 <= Z.of_nat (MAX_SPLITS_MINUS_ONE Width TargetWidth) * NB) by (apply Z.mul_nonneg_nonneg; lia).
  assert (o mod 8 = 0) as O8 by (subst o; Z.to_euclidean_division_equations; lia).
  assert ((N - o) mod 8 = 0) as O8' by (by rewrite Zminus_mod, W8, O8).
  assert (a mod NB = 0) as Ha by apply base_aligned.
  assert (written T A mask data w (- o) (N - o) w1) as R.
  { subst w1. rewrite <- (Z.opp_involutive o) at 3 4.
    apply (write_word_ok w (- o) (- o)); [apply nothing_written|done|left; lia| | |done|lia|lia].
    - by rewrite <- (Z.sub_0_l o), Zminus_mod, O8.
    - unfold holds_from. rewrite He. lia. }
  pose proof (write_middle_le_ok w (- o) (MAX_SPLITS_MINUS_ONE Width TargetWidth) a (N - o) w1 He
    ltac:(lia) ltac:(lia) O8' R Ha ltac:(lia) ltac:(lia)) as M.
  destruct (write_middle_le _ _ _ _ _ _ _ _) as [[a' o'] w']. destruct M as (Ea & Eo & R' & Ha').
  destruct (Z.ltb_spec o' T) as [Hlt|Hge]; [|rewrite andb_false_r; apply (all_written w (- o) o'); [done|lia|lia]].
  destruct Aligned; [specialize (Hal eq_refl); specialize (K3 Hal); lia|]. cbn [negb andb].
  rewrite step_no_wrap by (done || lia). rewrite !shiftl_opp. apply (all_written w (- o) (o' + N)); [|lia|lia].
  apply (write_word_ok w (- o) o'); [exact R'|lia|left; lia| | |by apply next_word|lia|lia].
  - rewrite Eo, K1. destruct width_8 as [_ T8]. replace (N - o + (T - N)) with (T - o) by lia. by rewrite Zminus_mod, T8, O8.
  - unfold holds_from. rewrite He. lia.
Qed.

Lemma many_words_written_be w : little en = false -> Width < TargetWidth -> (Aligned = true -> A mod TB = 0) ->
  let o := T - (N - 8 * (A mod NB)) in let a := A - A mod NB in
  let w1 := write_step a (handler_entry_size_t Width (Z.shiftr data o)) (handler_entry_size_t Width (Z.shiftr mask o)) w in
  target_written w
    (let '(address, offsbits, w) := write_middle_be Width 0 (MAX_SPLITS_MINUS_ONE Width TargetWidth) data mask a o w1 in
     if negb Aligned && negb (offsbits =? 0)
     then let offsbits := N - offsbits in
          write_step (u32 (address + NATIVE_STEP Width 0)) (handler_entry_size_t Width (Z.shiftl data offsbits))
            (handler_entry_size_t Width (Z.shiftl mask offsbits)) w
     else w).
Proof.
  intros He Hw Hal o a w1. assert (0 < NB) as HN by (destruct (width_cases Width HW) as (b & -> & _ & Hb); lia).
  pose proof (Z.mod_pos_bound A NB HN). destruct (splits Hw) as (K1 & K2 & K3). destruct width_8 as [W8 T8].
  assert (N = 8 * NB) as EN by done. assert (T = 8 * TB) as ET by done.
  assert (0 <= Z.of_nat (MAX_SPLITS_MINUS_ONE Width TargetWidth) * NB) by (apply Z.mul_nonneg_nonneg; lia).
  assert (o mod 8 = 0) as O8.
  { subst o. rewrite EN, ET. Z.to_euclidean_division_equations; lia. }
  assert (a mod NB = 0) as Ha by apply base_aligned.
  assert (written T A mask data w o (o + N) w1) as R.
  { subst w1. rewrite !shiftl_opp.
    apply (write_word_ok w (o + N) (o + N)); [apply nothing_written|done|right; lia|done| |done|lia|lia].
    unfold holds_from. rewrite He. lia. }
  pose proof (write_middle_be_ok w (o + N) (MAX_SPLITS_MINUS_ONE Width TargetWidth) a o w1 He
    ltac:(lia) ltac:(lia) O8 R Ha ltac:(lia) ltac:(lia)) as M.
  destruct (write_middle_be _ _ _ _ _ _ _ _) as [[a' o'] w']. destruct M as (Ea & Eo & R' & Ha').
  destruct (Z.eqb_spec o' 0) as [Hz|Hne]; [rewrite andb_false_r; apply (all_written w o' (o + N)); [done|lia|lia]|].
  destruct Aligned; [specialize (Hal eq_refl); specialize (K3 Hal); lia|]. cbn [negb andb]. cbv zeta.
  rewrite step_no_wrap by (done || lia). replace (N - o') with (- (o' - N)) by lia.
  apply (all_written w (o' - N) (o + N)); [|lia|lia].
  apply (write_word_ok w o' (o + N)); [exact R'|lia|right; lia| | |by apply next_word|lia|lia].
  - rewrite Eo, K1. subst o. rewrite EN, ET. Z.to_euclidean_division_equations; lia.
  - unfold holds_from. rewrite He. lia.
Qed.

(** [memory_write_generic], case by case. *)
Lemma write_generic_ok w : (Aligned = true -> A mod TB = 0) -> 0 <= data < 2 ^ T ->
  target_written w (memory_write_generic Width 0 en TargetWidth Aligned A data mask w).
Proof.
  intros Hal Hd. unfold memory_write_generic.
  rewrite pass_through_0, native_address_0, native_offsbits_0, (single_access_0 Width en TargetWidth Aligned A) by (done || lia).
  pose proof (one_word_write (A - A mod NB)) as O. pose proof width_order as WO. destruct width_8 as [W8 T8].
  assert (0 < NB) as HN by (destruct (width_cases Width HW) as (b & -> & _ & Hb); lia).
  pose proof (Z.mod_pos_bound A NB HN) as Hr. pose proof T_range as HT8. assert (N = 8 * NB) as EN by done.
  destruct (_ && (A mod NB =? 0)) eqn:Ep.
  - apply andb_prop in Ep as [Ew Hz]. apply Z.eqb_eq in Ew, Hz. specialize (O 0 w).
    assert (forall x, 0 <= x < 2 ^ T -> handler_entry_size_t Width (Z.shiftl x (- 0)) = x) as Em.
    { intros x Hx. change (- 0) with 0. rewrite Z.shiftl_0_r. unfold handler_entry_size_t.
      rewrite Z.land_ones by (rewrite Ew; lia). apply Z.mod_small. by rewrite Ew. }
    rewrite !Em in O by done. apply O; [|apply base_in_memory|done|done|rewrite Ew; lia].
    unfold holds_from. rewrite Hz, Ew. destruct (little en); lia.
  - destruct (_ && (_ <=? N)) eqn:Es.
    + apply andb_prop in Es as [Hw Hle]. apply Z.ltb_lt in Hw. apply Z.leb_le in Hle. destruct (little en) eqn:He.
      * specialize (O (- (8 * (A mod NB))) w). rewrite Z.opp_involutive in O.
        apply O; [|apply base_in_memory| |lia|lia]; [unfold holds_from; rewrite He; lia|Z.to_euclidean_division_equations; lia].
      * specialize (O (- (N - T - 8 * (A mod NB))) w). rewrite Z.opp_involutive in O.
        apply O; [|apply base_in_memory| |lia|lia]; [unfold holds_from; rewrite He; lia|].
        unfold width_bits. Z.to_euclidean_division_equations; lia.
    + destruct (Z.leb_spec TB NB) as [Hle|Hgt].
      * pose proof (two_words Ep Es Hle) as Hc. destruct (little en) eqn:He; [by apply two_words_written_le|].
        unfold LEFT_JUSTIFY_TARGET_TO_NATIVE_SHIFT. destruct (Z.leb_spec T N); [|unfold width_bits in *; lia].
        by apply two_words_written_be.
      * destruct (little en) eqn:He; [apply many_words_written_le|apply many_words_written_be]; done || lia.
Qed.
End Decomposition.

(** C7: A read of any width at any address, aligned to the bus or not, on a
    bus of any width and either byte order, gives in the bits of its mask
    exactly the bits of memory at that address, and leaves memory alone.
    The address space is addressed by bytes. *)
Theorem reads_decompose {W} {Width en first last} `{BusMemory W Width en first last} TargetWidth Aligned A mask w :
  0 <= Width <= 3 -> 0 <= TargetWidth <= 3 -> first <= A -> A + width_bytes TargetWidth <= last ->
  0 <= mask < 2 ^ width_bits TargetWidth -> (Aligned = true -> A mod width_bytes TargetWidth = 0) ->
  let '(v, w') := memory_read_generic Width 0 en TargetWidth Aligned A mask w in
  0 <= v < 2 ^ width_bits TargetWidth /\
  (forall i, 0 <= i < width_bits TargetWidth -> Z.testbit mask i = true ->
     Z.testbit v i = memory_bit w (bit_position en (width_bits TargetWidth) A i)) /\
  forall p, memory_bit w' p = memory_bit w p.
Proof.
  intros HW HT Hf Hl Hm Hal. pose proof (read_generic_ok TargetWidth Aligned HW HT A mask Hf Hl Hm w Hal) as [R1 R2 R3].
  by destruct (memory_read_generic _ _ _ _ _ _ _ _).
Qed.

(** C8: A write of any width at any address changes exactly the bits of
    memory its mask selects, to the bits of the data.  The address space is
    addressed by bytes, and the mask is a nonzero one of whole bytes. *)
Theorem writes_decompose {W} {Width en first last} `{BusMemory W Width en first last} TargetWidth Aligned A data mask w :
  0 <= Width <= 3 -> 0 <= TargetWidth <= 3 -> first <= A -> A + width_bytes TargetWidth <= last ->
  0 <= mask < 2 ^ width_bits TargetWidth -> whole_bytes mask -> mask <> 0 -> 0 <= data < 2 ^ width_bits TargetWidth ->
  (Aligned = true -> A mod width_bytes TargetWidth = 0) ->
  let w' := memory_write_generic Width 0 en TargetWidth Aligned A data mask w in
  let written p i := 0 <= i < width_bits TargetWidth /\ Z.testbit mask i = true /\
                     p = bit_position en (width_bits TargetWidth) A i in
  (forall p i, written p i -> memory_bit w' p = Z.testbit data i) /\
  (forall p, 8 * first <= p < 8 * last -> (forall i, ~ written p i) -> memory_bit w' p = memory_bit w p).
Proof.
  intros HW HT Hf Hl Hm Hwb Hnz Hd Hal w' written.
  destruct (write_generic_ok TargetWidth Aligned HW HT A mask Hf Hl Hm data Hwb Hnz w Hal Hd) as [W1 W2]. split.
  - intros p i (Hi & Hb & ->). by apply W1.
  - intros p Hp Ho. apply W2; [done|]. intros i Hi Hb ->. apply (Ho i). split; [exact Hi|]. by split.
Qed.

(** ** RAM and ROM handlers

    [m_base], the array of bus words the handlers index; an element is an
    integer of the width of the bus. *)

Section Ram.
Context (Width : Z) (m_address_base m_address_mask : Z).

#[local] Abbreviation native := (handler_entry_size_t Width).

Definition element (offset : Z) : Z :=
  Z.shiftr (Z.land (u32 (offset - m_address_base)) m_address_mask) (Width + 0).

Definition memory_read (offset mem_mask : Z) (m_base : Z -> Z) : Z * (Z -> Z) := (native (m_base (element offset)), m_base).

(** On an 8-bit bus the mask is not looked at. *)
Definition memory_write (offset data mem_mask : Z) (m_base : Z -> Z) : Z -> Z :=
  let off := element offset in
  let value := if Width =? 0 then data
               else Z.lor (Z.land (m_base off) (Z.lnot mem_mask)) (Z.land data mem_mask) in
  fun i => if i =? off then native value else m_base i.

#[local] Instance ram_bus : NativeBus (Z -> Z) := { rop := memory_read; wop := memory_write }.
End Ram.

(** [m_address_mask] is [size - 1] for a size that is a power of two. *)
Section RamMemory.
Context (Width : Z) (en : endianness_t) (base n : Z).
Context (HW : 0 <= Width <= 3) (Hn : 3 <= n) (Hb : 0 <= base) (Hb8 : base mod 8 = 0) (He : base + 2 ^ n <= 4294967296).

#[local] Abbreviation N := (width_bits Width).
#[local] Abbreviation NB := (width_bytes Width).
#[local] Instance the_bus : NativeBus (Z -> Z) := ram_bus Width base (2 ^ n - 1).

Definition ram_bit (m : Z -> Z) (p : Z) : bool :=
  let q := p - 8 * base in
  Z.testbit (m (q / N)) (if little en then q mod N else N - 1 - q mod N).

Lemma element_ok a : base <= a -> a < base + 2 ^ n -> element Width base (2 ^ n - 1) a = (a - base) / NB.
Proof.
  intros H1 H2. unfold element. rewrite u32_id by lia. rewrite Z.add_0_r, Z.shiftr_div_pow2, width_pow by lia.
  replace (2 ^ n - 1) with (Z.ones n) by (rewrite Z.ones_equiv; lia). rewrite Z.land_ones by lia.
  by rewrite Z.mod_small by lia.
Qed.

Lemma ram_position a j m : a mod NB = 0 -> base <= a -> 0 <= j < N ->
  ram_bit m (bit_position en N a j) = Z.testbit (m ((a - base) / NB)) j.
Proof.
  intros Ha H1 Hj. unfold ram_bit, bit_position. destruct (width_cases Width HW) as (b & Eb & EN & Hbv).
  rewrite Eb, EN in *. assert ((a - base) mod b = 0) as Hab.
  { destruct Hbv as [-> | [-> | [-> | ->]]]; Z.to_euclidean_division_equations; lia. }
  assert (a - base = b * ((a - base) / b)) as Ea by (rewrite (Z.div_mod (a - base) b) at 1; lia).
  set (k := (a - base) / b) in *. assert (0 <= k) by (apply Z.div_pos; lia).
  destruct (little en).
  - replace (8 * a + j - 8 * base) with (j + k * (8 * b)) by lia.
    rewrite Z.div_add, Z.mod_add by lia. rewrite Z.div_small, Z.mod_small by lia. done.
  - replace (8 * a + (8 * b - 1 - j) - 8 * base) with ((8 * b - 1 - j) + k * (8 * b)) by lia.
    rewrite Z.div_add, Z.mod_add by lia. rewrite Z.div_small, Z.mod_small by lia. do 2 f_equal. lia.
Qed.

Lemma element_in_memory a : a mod NB = 0 -> base <= a -> a + NB <= base + 2 ^ n ->
  element Width base (2 ^ n - 1) a = (a - base) / NB.
Proof. intros _ H1 H2. apply element_ok; [done|]. destruct (width_cases Width HW) as (b & Eb & _ & Hbv). lia. Qed.

(** A position that is in no bit of the word is in another element. *)
Lemma other_element a p : a mod NB = 0 -> base <= a -> 8 * base <= p -> (p - 8 * base) / N = (a - base) / NB ->
  exists j, 0 <= j < N /\ p = bit_position en N a j.
Proof.
  intros Ha H1 H2 E. unfold bit_position. destruct (width_cases Width HW) as (b & Eb & EN & Hbv).
  rewrite Eb, EN in *. assert ((a - base) mod b = 0) as Hab.
  { destruct Hbv as [-> | [-> | [-> | ->]]]; Z.to_euclidean_division_equations; lia. }
  pose proof (Z.div_mod (a - base) b ltac:(lia)) as D1. pose proof (Z.div_mod (p - 8 * base) (8 * b) ltac:(lia)) as D2.
  pose proof (Z.mod_pos_bound (p - 8 * base) (8 * b) ltac:(lia)). rewrite E in D2.
  destruct (little en); [exists (p - 8 * a)|exists (8 * b - 1 - (p - 8 * a))]; split; lia.
Qed.

(** A byte-wide mask of whole bytes that is not empty is full. *)
Lemma byte_mask m : whole_bytes m -> 0 < m < 2 ^ 8 -> (forall i, 0 <= i < 8 -> Z.testbit m i = true) /\ m = 0xff.
Proof.
  intros Hw Hm. assert (Z.testbit m 0 = true) as H0.
  { destruct (Z.testbit m 0) eqn:E; [done|]. exfalso. assert (m = 0) as ->; [|lia].
    apply Z.bits_inj'. intros i Hi. rewrite Z.bits_0. destruct (Z.lt_ge_cases i 8).
    - rewrite Hw by done. replace (i / 8) with 0 by (symmetry; apply Z.div_small; lia). exact E.
    - apply (testbit_below 8); lia. }
  assert (forall i, 0 <= i < 8 -> Z.testbit m i = true) as Hall.
  { intros i Hi. rewrite Hw by lia. rewrite Z.div_small by lia. exact H0. }
  split; [exact Hall|]. apply Z.bits_inj'. intros i Hi. change 0xff with (Z.ones 8). destruct (Z.lt_ge_cases i 8).
  - rewrite Z.ones_spec_low, Hall by lia. done.
  - rewrite Z.ones_spec_high by lia. apply (testbit_below 8); lia.
Qed.

(** An array of bus words behaves as memory. *)
#[local] Instance ram_memory : BusMemory (Z -> Z) Width en base (base + 2 ^ n).
Proof.
  assert (2 ^ n = 2 ^ (n - 3) * 8) as En by (change 8 with (2 ^ 3); rewrite <- Z.pow_add_r by lia; f_equal; lia).
  refine {| memory_bit := ram_bit |}; cbn [rop wop the_bus ram_bus]; unfold memory_read; cbn [fst snd].
  - split; [done|]. split; [done|]. split; [done|]. by rewrite En, Z.mod_add by lia.
  - intros. apply size_range. lia.
  - intros a m w i Ha H1 H2 Hi _. rewrite element_in_memory, ram_position by done.
    rewrite testbit_size by lia. destruct (Z.ltb_spec i N); [done|lia].
  - done.
  - intros a d m w i Ha H1 H2 Hw Hi Hm. rewrite ram_position by done. unfold memory_write. cbv zeta.
    rewrite element_in_memory, Z.eqb_refl, testbit_size by done || lia. destruct (Z.ltb_spec i N); [|lia]. cbn [andb].
    destruct (Z.eqb_spec Width 0); [done|]. rewrite Z.lor_spec, !Z.land_spec, Z.lnot_spec, Hm by lia.
    by rewrite andb_false_r, andb_true_r.
  - intros a d m w p Ha H1 H2 Hw Hnz Hp Ho. destruct (Z.eq_dec ((p - 8 * base) / N) ((a - base) / NB)) as [E|Hne].
    + destruct (other_element a p Ha H1 ltac:(lia) E) as (j & Hj & ->). rewrite !ram_position by done.
      assert (Z.testbit m j = false) as Hm by (destruct (Z.testbit m j) eqn:Em; [by destruct (Ho j Hj Em)|done]).
      unfold memory_write. cbv zeta. rewrite element_in_memory, Z.eqb_refl, testbit_size by done || lia.
      destruct (Z.ltb_spec j N); [|lia]. cbn [andb]. destruct (Z.eqb_spec Width 0) as [E0|].
      * destruct (byte_mask m) as (Eb & _); [done| |]; [rewrite E0 in Hnz; exact Hnz|].
        rewrite Eb in Hm; [done|]. rewrite E0 in Hj. exact Hj.
      * rewrite Z.lor_spec, !Z.land_spec, Z.lnot_spec, Hm by lia. by rewrite andb_true_r, andb_false_r, orb_false_r.
    + unfold ram_bit, memory_write. cbv zeta. rewrite element_in_memory by done.
      destruct (Z.eqb_spec ((p - 8 * base) / N) ((a - base) / NB)); done.
Defined.

(** A bus that sends an interval of addresses to such an array. *)
Definition ram_window {W} (bus : NativeBus W) (get : W -> Z -> Z) first last :
  base <= first -> last <= base + 2 ^ n -> first mod 8 = 0 -> last mod 8 = 0 ->
  (forall a m w, a mod NB = 0 -> first <= a -> a + NB <= last ->
     (@rop W bus a m w).1 = (memory_read Width base (2 ^ n - 1) a m (get w)).1 /\ get (@rop W bus a m w).2 = get w) ->
  (forall a d m w, a mod NB = 0 -> first <= a -> a + NB <= last ->
     get (@wop W bus a d m w) = memory_write Width base (2 ^ n - 1) a d m (get w)) ->
  BusMemory W Width en first last.
Proof.
  intros Hf Hl Hf8 Hl8 Hr Hw.
  refine {| memory_bit w := ram_bit (get w) |}; [split; [lia|split; [lia|done]]| | | | |].
  - intros a m w Ha H1 H2. destruct (Hr a m w Ha H1 H2) as [-> _]. apply (@rop_range (Z -> Z) the_bus Width en base (base + 2 ^ n) ram_memory a m (get w)); lia || done.
  - intros a m w i Ha H1 H2 Hi Hb'. destruct (Hr a m w Ha H1 H2) as [-> _].
    apply (@rop_bit (Z -> Z) the_bus Width en base (base + 2 ^ n) ram_memory a m (get w)); lia || done.
  - intros a m w p Ha H1 H2. destruct (Hr a m w Ha H1 H2) as [_ E]. by rewrite E.
  - intros a d m w i Ha H1 H2 Hm Hi Hb'. rewrite Hw by done.
    apply (@wop_bit (Z -> Z) the_bus Width en base (base + 2 ^ n) ram_memory a d m (get w)); lia || done.
  - intros a d m w p Ha H1 H2 Hm Hnz Hp Ho. rewrite Hw by done.
    apply (@wop_kept (Z -> Z) the_bus Width en base (base + 2 ^ n) ram_memory a d m (get w)); lia || done.
Defined.
End RamMemory.

(** ** Installing a handler: its address mask *)

Definition changing_bits (addrstart addrend : Z) : Z :=
  let c := Z.lxor addrstart addrend in
  let c := Z.lor c (Z.shiftr c 1) in
  let c := Z.lor c (Z.shiftr c 2) in
  let c := Z.lor c (Z.shiftr c 4) in
  let c := Z.lor c (Z.shiftr c 8) in
  Z.lor c (Z.shiftr c 16).

(** The offset a handler installed at [addrstart, addrend] is called with, in
    units of the bus. *)
Definition handler_offset (Width addrstart addrend offset : Z) : Z :=
  element Width addrstart (changing_bits addrstart addrend) offset.

(** A 16-bit handler's offset, in bytes again, is the offset in its range. *)
Lemma offset_16 lo hi k a : changing_bits lo hi = Z.ones k -> 0 <= k <= 32 -> 0 <= lo -> lo mod 2 = 0 -> a mod 2 = 0 ->
  lo <= a <= hi -> hi < 0x100000000 -> hi - lo < 2 ^ k ->
  Z.shiftl (handler_offset 1 lo hi a) 1 = a - lo.
Proof.
  intros E Hk Hlo Hl2 Ha2 Ha Hhi Hs. unfold handler_offset, element. rewrite E, u32_id, Z.land_ones, Z.mod_small by lia.
  rewrite Z.shiftl_mul_pow2, Z.shiftr_div_pow2 by lia. change (2 ^ (1 + 0)) with 2. change (2 ^ 1) with 2.
  Z.to_euclidean_division_equations; lia.
Qed.

(** What a read of an unmapped address gives, [m_unmapval] being 0. *)
Definition unmap : Z := 0.

(** An entry of an address map answers for the addresses of its range. *)
Definition inside (lo hi a : Z) : bool := (lo <=? a) && (a <=? hi).

Lemma inside_true lo hi a : lo <= a <= hi -> inside lo hi a = true.
Proof. intros Ha. unfold inside. destruct (Z.leb_spec lo a), (Z.leb_spec a hi); lia || done. Qed.
Lemma inside_false lo hi a : a < lo \/ hi < a -> inside lo hi a = false.
Proof. intros Ha. unfold inside. destruct (Z.leb_spec lo a), (Z.leb_spec a hi); lia || done. Qed.

(** ** Banks

    An entry is a position in the memory the bank was configured with, or
    null; [None] is the fatal error. *)

Record memory_bank := mk_memory_bank { m_entries : list (option Z); m_curentry : Z }.

#[export] Instance memory_bank_eta : Eta memory_bank := fun b => mk_memory_bank (m_entries b) (m_curentry b).

Definition new_memory_bank : memory_bank := mk_memory_bank [] 0.

Definition resize (n : nat) (l : list (option Z)) : list (option Z) := take n (l ++ replicate n None).

Definition configure_entry (entrynum base : Z) (b : memory_bank) : option memory_bank :=
  if entrynum <? 0 then None
  else let b := if Z.of_nat (length (m_entries b)) <=? entrynum
                then b <| m_entries ::= resize (Z.to_nat (entrynum + 1)) |> else b in
       Some (b <| m_entries ::= <[Z.to_nat entrynum := Some base]> |>).

Fixpoint fill_entries (entrynum : nat) (n : nat) (startentry base stride : Z) (l : list (option Z)) : list (option Z) :=
  match n with
  | O => l
  | S n => fill_entries (S entrynum) n startentry base stride
             (<[(entrynum + Z.to_nat startentry)%nat := Some (base + Z.of_nat entrynum * stride)]> l)
  end.

Definition configure_entries (startentry numentries base stride : Z) (b : memory_bank) : memory_bank :=
  let b := if Z.of_nat (length (m_entries b)) <=? startentry + numentries
           then b <| m_entries ::= resize (Z.to_nat (startentry + numentries + 1)) |> else b in
  b <| m_entries ::= fill_entries 0 (Z.to_nat numentries) startentry base stride |>.

Definition set_entry (entrynum : Z) (b : memory_bank) : option memory_bank :=
  if (entrynum =? -1) && (Z.of_nat (length (m_entries b)) =? 0) then Some b
  else if (entrynum <? 0) || (Z.of_nat (length (m_entries b)) <=? entrynum) then None
  else match m_entries b !! Z.to_nat entrynum with
       | Some (Some _) => Some (b <| m_curentry := entrynum |>)
       | _ => None
       end.

(** [base]: null when there is no entry. *)
Definition bank_base (b : memory_bank) : option Z := mjoin (m_entries b !! Z.to_nat (m_curentry b)).

(** ** Views

    [m_entry_mapping], the slots that exist; [m_cur_id], the one the dispatch
    uses, -1 for none. *)

Record memory_view := mk_memory_view { m_entry_mapping : list (Z * Z); m_cur_id : Z; m_cur_slot : Z }.

#[export] Instance memory_view_eta : Eta memory_view := fun v =>
  mk_memory_view (m_entry_mapping v) (m_cur_id v) (m_cur_slot v).

Definition new_memory_view (slots : list (Z * Z)) : memory_view := mk_memory_view slots (-1) (-1).

Definition find_slot (slot : Z) (v : memory_view) : option Z :=
  snd <$> List.find (fun p => p.1 =? slot) (m_entry_mapping v).

Definition select (slot : Z) (v : memory_view) : option memory_view :=
  if negb (slot =? m_cur_slot v) || (m_cur_id v =? -1) then
    match find_slot slot v with
    | Some id => Some (v <| m_cur_slot := slot |> <| m_cur_id := id |>)
    | None => None
    end
  else Some v.

Definition disable (v : memory_view) : memory_view :=
  if negb (m_cur_id v =? -1) then v <| m_cur_slot := -1 |> <| m_cur_id := -1 |> else v.

Lemma whole_bytes_ones k : 0 <= k -> whole_bytes (Z.ones (8 * k)).
Proof.
  intros Hk i Hi. rewrite !Z.testbit_ones_nonneg by (Z.to_euclidean_division_equations; lia).
  destruct (Z.ltb_spec i (8 * k)), (Z.ltb_spec (8 * (i / 8)) (8 * k)); try done; Z.to_euclidean_division_equations; lia.
Qed.

(** ** Witnesses: a 16-bit big-endian RAM, as on the 68000 *)

Section Witness.
#[local] Instance bus68k : NativeBus (Z -> Z) := ram_bus 1 0 (2 ^ 20 - 1).
#[local] Instance memory68k : BusMemory (Z -> Z) 1 ENDIANNESS_BIG 0 (0 + 2 ^ 20).
Proof. apply ram_memory; [lia|lia|lia|done|by vm_compute]. Defined.

Definition counting (i : Z) : Z := 0x1234 + 0x1111 * i.

Lemma reads_decompose_witness :
  let v := (memory_read_generic 1 0 ENDIANNESS_BIG 2 false 3 0xffffffff counting).1 in
  v = 0x45345645 /\ forall i, 0 <= i < 32 -> Z.testbit v i = memory_bit counting (bit_position ENDIANNESS_BIG 32 3 i).
Proof.
  intros v. split; [vm_compute; reflexivity|].
  pose proof (reads_decompose (Width := 1) (en := ENDIANNESS_BIG) (first := 0) (last := 0 + 2 ^ 20) 2 false 3 0xffffffff counting
    ltac:(lia) ltac:(lia) ltac:(lia) ltac:(vm_compute; congruence) ltac:(vm_compute; intuition congruence) ltac:(done)) as R.
  subst v. destruct (memory_read_generic _ _ _ _ _ _ _ _) as [v w']. destruct R as (_ & R & _).
  intros i Hi. apply R; [exact Hi|]. change 0xffffffff with (Z.ones 32). apply Z.ones_spec_low. exact Hi.
Defined.

Lemma writes_decompose_witness :
  let m := memory_write_generic 1 0 ENDIANNESS_BIG 2 false 3 0xdeadbeef 0xffffffff counting in
  memory_bit m (bit_position ENDIANNESS_BIG 32 3 31) = true /\ map m [0; 1; 2; 3; 4] = [0x1234; 0x23de; 0xadbe; 0xef67; 0x5678].
Proof.
  intros m. split; [|vm_compute; reflexivity].
  destruct (writes_decompose (Width := 1) (en := ENDIANNESS_BIG) (first := 0) (last := 0 + 2 ^ 20) 2 false 3 0xdeadbeef 0xffffffff counting
    ltac:(lia) ltac:(lia) ltac:(lia) ltac:(vm_compute; congruence) ltac:(vm_compute; intuition congruence)
    (whole_bytes_ones 4 ltac:(lia)) ltac:(done) ltac:(vm_compute; intuition congruence) ltac:(done)) as [R _].
  apply (R _ 31). split; [split; vm_compute; congruence|]. split; reflexivity.
Defined.
End Witness.
