(* ===== verification/Units.v ===== *)
(** * Units: devices narrower than the bus (src/src/emu/emumem_mud.cpp,
    emumem_mud.h, emumem_heu.cpp, emumem_heu.h, emumem_aspace.cpp)

    A handler of 8 or 16 bits installed on a wider bus answers on some of its
    lanes: the descriptor computes from the unit mask which ones, and the
    units entry splits a native access over them; a later handler takes over
    the lanes of an earlier one in the words they share.  The buses of the
    model are byte-addressed ([AddrShift] 0).  The main theorem: a handler on
    all lanes of a wide bus sees the accesses it would see on a bus of its own
    width.  Not modelled: the accesses that carry flags. *)

From stdpp Require Import base tactics numbers option list.
From Stdlib Require Import ZArith Lia Bool.
From S2P Require Import Prelude Memory.

(** ** The descriptor *)

Record entry := mk_entry { m_amask : Z; m_dmask : Z; m_ashift : Z; m_dshift : Z; m_offset : Z }.

(** [make_bitmask] of [bits] bits. *)
Definition make_bitmask (bits n : Z) : Z := if n <? bits then Z.shiftl 1 n - 1 else Z.ones bits.

Definition START : Z := 1.
Definition END : Z := 2.

(** A bit for each byte of the mask with a bit set. *)
Fixpoint mask_to_ukey (bytes : nat) (mask : Z) : Z :=
  match bytes with
  | O => 0
  | S n => Z.lor (if test (Z.shiftr mask (8 * Z.of_nat n)) 0xff then Z.shiftl 1 (Z.of_nat n) else 0) (mask_to_ukey n mask)
  end.

Section Descriptor.
Context (Width : Z) (access_endian : endianness_t) (access_width : Z).
Context (addrstart addrend mask unitmask cswidth : Z).

#[local] Abbreviation uX_bits := (width_bits Width).

Definition bits_per_access : Z := Z.shiftl 8 access_width.
Definition m_addrstart : Z := native_address Width 0 addrstart.
Definition m_addrend : Z := native_address Width 0 addrend.

(** The lanes in use in the first and in the last word of the range. *)
Definition smask : Z :=
  let s := Z.shiftl (addrstart - m_addrstart) 3 in
  if little access_endian then Z.lxor (Z.ones uX_bits) (make_bitmask uX_bits s)
  else make_bitmask uX_bits (uX_bits - s).
Definition emask : Z :=
  let e := Z.shiftl (addrend - m_addrend + 1) 3 in
  if little access_endian then make_bitmask uX_bits e
  else Z.lxor (Z.ones uX_bits) (make_bitmask uX_bits (uX_bits - e)).

Definition umasks (rkey : Z) : Z :=
  let u := if test rkey START then Z.land unitmask smask else unitmask in
  if test rkey END then Z.land u emask else u.

Definition m_keymap (rkey : Z) : Z := mask_to_ukey (Z.to_nat (width_bytes Width)) (umasks rkey).

(** The positions of the lanes, from the lowest bits up. *)
Definition lanes : list Z :=
  map (fun k => Z.of_nat k * bits_per_access) (seq 0 (Z.to_nat (uX_bits / bits_per_access))).

Definition active_count : Z :=
  Z.of_nat (length (filter (fun i => test unitmask (Z.shiftl (Z.ones bits_per_access) i) = true) lanes)).
(** Above eight the code aborts; there are at most eight lanes. *)
Definition active_count_log : Z :=
  if active_count =? 1 then 0 else if active_count =? 2 then 1 else if active_count <=? 4 then 2 else 3.

Definition base_shift : Z := Width - access_width - active_count_log.
Definition shift : Z := base_shift + access_width.

Definition m_handler_start : Z := Z.shiftr addrstart shift.
Definition m_handler_mask : Z := Z.lor (Z.shiftr mask shift) (Z.shiftl 1 active_count_log - 1).

(** The loop of [generate]: [offset] counts the lanes of the whole unit mask. *)
Fixpoint generate_lanes (umask csmask cswidth : Z) (offset : Z) (l : list Z) : list entry :=
  match l with
  | [] => []
  | i :: l =>
      let numask := Z.shiftl (Z.ones bits_per_access) i in
      let amask := handler_entry_size_t Width (Z.shiftl csmask (Z.ldiff i (cswidth - 1))) in
      let next := generate_lanes umask csmask cswidth (if test unitmask numask then offset + 1 else offset) l in
      if test umask numask
      then mk_entry amask numask shift i (if little access_endian then offset else active_count - 1 - offset) :: next
      else next
  end.

Definition generate (umask : Z) : list entry :=
  let cswidth := if cswidth =? 0 then bits_per_access else cswidth in
  generate_lanes umask (make_bitmask uX_bits cswidth) cswidth 0 lanes.

(** The entries of a key are those of the first place of the range that has it. *)
Definition get_entries_for_key (ukey : Z) : list entry :=
  match filter (fun i => m_keymap i = ukey) [0; 1; 2; 3] with
  | i :: _ => generate (umasks i)
  | [] => []
  end.

(** Where in the range the word at [address] is. *)
Definition word_rkey (address : Z) : Z :=
  Z.lor (if address =? m_addrstart then START else 0) (if address =? m_addrend then END else 0).

Definition word_entries (address : Z) : list entry := get_entries_for_key (m_keymap (word_rkey address)).
End Descriptor.

(** ** The units entry *)

Record subunit_info (H : Type) := mk_subunit_info { m_handler : H; m_entry : entry; m_width : Z }.
Arguments mk_subunit_info {H}. Arguments m_handler {H}. Arguments m_entry {H}. Arguments m_width {H}.

Definition unit_offset {H} (si : subunit_info H) : Z := m_offset (m_entry si).

(** [std::sort] by offset; the offsets of a handler's units differ. *)
Fixpoint insert_unit {H} (si : subunit_info H) (l : list (subunit_info H)) : list (subunit_info H) :=
  match l with
  | [] => [si]
  | x :: l' => if unit_offset si <? unit_offset x then si :: l else x :: insert_unit si l'
  end.
Fixpoint sort_units {H} (l : list (subunit_info H)) : list (subunit_info H) :=
  match l with [] => [] | si :: l => insert_unit si (sort_units l) end.

Definition fill {H} (handler : H) (width : Z) (entries : list entry) : list (subunit_info H) :=
  map (fun e => mk_subunit_info handler e width) entries.

Definition m_unmap {H} (Width space_unmap : Z) (infos : list (subunit_info H)) : Z :=
  fold_left (fun u si => Z.ldiff u (m_dmask (m_entry si))) infos (handler_entry_size_t Width space_unmap).

Definition handler_entry_units {H} (handler : H) (width : Z) (entries : list entry) : list (subunit_info H) :=
  sort_units (fill handler width entries).

(** The entry made from another one: the lanes of the new handler are taken
    from the old ones. *)
Definition merged_units {H} (src : list (subunit_info H)) (handler : H) (width : Z) (entries : list entry) : list (subunit_info H) :=
  let fullmask := fold_left (fun m e => Z.lor m (m_dmask e)) entries 0 in
  sort_units (filter (fun si => test (m_dmask (m_entry si)) fullmask = false) src ++ fill handler width entries).

Definition mismatched_patch {H} (handler : H) (width : Z) (entries : list entry) (target : option (list (subunit_info H))) :
    list (subunit_info H) :=
  match target with
  | Some original => merged_units original handler width entries
  | None => handler_entry_units handler width entries
  end.

(** [handler_entry_read_delegate<AccessWidth, -AccessWidth>] and its twin: a
    handler addressed in its own units. *)
Definition delegate_offset (m_address_base m_address_mask offset : Z) : Z :=
  Z.land (u32 (offset - m_address_base)) m_address_mask.

Section Access.
Context {W : Type} (Width : Z).

Definition read_handler := Z -> Z -> W -> Z * W.
Definition write_handler := Z -> Z -> Z -> W -> W.

(** [offset << m_ashift] of a negative shift does not occur on these buses. *)
Definition unit_address (e : entry) (offset : Z) : Z := u32 (Z.shiftr offset (m_ashift e) + m_offset e).

Definition read_unit (offset mem_mask : Z) (rw : Z * W) (si : subunit_info read_handler) : Z * W :=
  let e := m_entry si in
  let '(result, w) := rw in
  if test mem_mask (m_amask e) then
    let '(v, w) := m_handler si (unit_address e offset)
                     (handler_entry_size_t (m_width si) (Z.shiftr mem_mask (m_dshift e))) w in
    (Z.lor result (handler_entry_size_t Width (Z.shiftl (handler_entry_size_t (m_width si) v) (m_dshift e))), w)
  else (result, w).

Definition units_read (infos : list (subunit_info read_handler)) (offset mem_mask : Z) (w : W) : Z * W :=
  fold_left (read_unit offset mem_mask) infos (m_unmap Width unmap infos, w).

Definition write_unit (offset data mem_mask : Z) (w : W) (si : subunit_info write_handler) : W :=
  let e := m_entry si in
  if test mem_mask (m_amask e) then
    m_handler si (unit_address e offset)
      (handler_entry_size_t (m_width si) (Z.shiftr data (m_dshift e)))
      (handler_entry_size_t (m_width si) (Z.shiftr mem_mask (m_dshift e))) w
  else w.

Definition units_write (infos : list (subunit_info write_handler)) (offset data mem_mask : Z) (w : W) : W :=
  fold_left (write_unit offset data mem_mask) infos w.

(** ** Installing a handler narrower than the bus

    [umask] is the unit mask of the address map, 0 for none. *)

Section Installed.
Context (Endian : endianness_t) (AccessWidth : Z) (addrstart addrend umask : Z).

Definition nmask : Z := changing_bits addrstart addrend.
Definition nunitmask : Z :=
  let all := Z.ones (width_bits Width) in if umask =? 0 then all else Z.land all umask.
Definition ncswidth : Z := Z.shiftl 8 AccessWidth.

#[local] Abbreviation described f := (f Width Endian AccessWidth addrstart addrend nunitmask ncswidth) (only parsing).

Definition own_offset (offset : Z) : Z :=
  delegate_offset (m_handler_start Width AccessWidth addrstart nunitmask)
    (m_handler_mask Width AccessWidth nmask nunitmask) offset.

Definition install_read (f : read_handler) (address mem_mask : Z) (w : W) : Z * W :=
  units_read (handler_entry_units (fun offset => f (own_offset offset)) AccessWidth (described word_entries address))
    address mem_mask w.

Definition install_write (f : write_handler) (address data mem_mask : Z) (w : W) : W :=
  units_write (handler_entry_units (fun offset => f (own_offset offset)) AccessWidth (described word_entries address))
    address data mem_mask w.
End Installed.
End Access.

(** The units of the word at [address] when the entries of a map, of the same
    handler width and without unit mask, are installed one after the other. *)
Definition populated {H} (Width : Z) (Endian : endianness_t) (AccessWidth : Z) (map : list (Z * Z * H)) (address : Z) :
    option (list (subunit_info H)) :=
  fold_left (fun target '(addrstart, addrend, handler) =>
    if (native_address Width 0 addrstart <=? address) && (address <=? native_address Width 0 addrend) then
      Some (mismatched_patch handler AccessWidth
              (word_entries Width Endian AccessWidth addrstart addrend (nunitmask Width 0) (ncswidth AccessWidth) address) target)
    else target) map None.

(** [umask16]: the 16-bit mask on every 16-bit part of the bus. *)
Definition umask16 (m : Z) : Z := Z.lor (Z.lor (Z.shiftl m 48) (Z.shiftl m 32)) (Z.lor (Z.shiftl m 16) m).

(** ** Ranges of whole words *)

Section Aligned.
Context (Width : Z) (en : endianness_t) (access_width addrstart addrend unitmask cswidth : Z).
Context (HW : 0 <= Width <= 3) (Hs : addrstart mod width_bytes Width = 0) (He : (addrend + 1) mod width_bytes Width = 0)
  (Hu : 0 <= unitmask < 2 ^ width_bits Width).

#[local] Abbreviation bits := (width_bits Width).

Lemma uX_positive : 8 <= bits /\ bits = 8 * width_bytes Width.
Proof. destruct (width_cases Width HW) as (b & Eb & En & Hb). lia. Qed.

Lemma make_bitmask_0 : make_bitmask bits 0 = 0.
Proof. pose proof uX_positive. unfold make_bitmask. by destruct (Z.ltb_spec 0 bits); [|lia]. Qed.
Lemma make_bitmask_all : make_bitmask bits bits = Z.ones bits.
Proof. unfold make_bitmask. by rewrite Z.ltb_irrefl. Qed.

Lemma smask_whole : smask Width en addrstart = Z.ones bits.
Proof.
  unfold smask, m_addrstart. rewrite native_address_0, Hs, Z.sub_0_r, Z.sub_diag by lia. change (Z.shiftl 0 3) with 0.
  rewrite make_bitmask_0, Z.lxor_0_r, Z.sub_0_r, make_bitmask_all. by destruct (little en).
Qed.

Lemma emask_whole : emask Width en addrend = Z.ones bits.
Proof.
  pose proof uX_positive as [Hb Eb]. unfold emask, m_addrend. rewrite native_address_0 by lia.
  assert (addrend mod width_bytes Width = width_bytes Width - 1) as ->.
  { destruct (width_cases Width HW) as (b & E & _ & Hbs). rewrite E in *.
    destruct Hbs as [-> | [-> | [-> | ->]]]; Z.to_euclidean_division_equations; lia. }
  replace (addrend - (addrend - (width_bytes Width - 1)) + 1) with (width_bytes Width) by lia.
  rewrite Z.shiftl_mul_pow2 by lia. replace (width_bytes Width * 2 ^ 3) with bits by lia.
  rewrite Z.sub_diag, make_bitmask_all, make_bitmask_0, Z.lxor_0_r. by destruct (little en).
Qed.

Lemma umasks_whole rkey : umasks Width en addrstart addrend unitmask rkey = unitmask.
Proof.
  pose proof uX_positive as [Hb _]. unfold umasks. rewrite smask_whole, emask_whole.
  assert (Z.land unitmask (Z.ones bits) = unitmask) as E by (rewrite Z.land_ones, Z.mod_small by lia; done).
  by destruct (test rkey START), (test rkey END); rewrite ?E, ?E.
Qed.

(** Every word of the range has the lanes of the unit mask. *)
Lemma word_entries_whole address :
  word_entries Width en access_width addrstart addrend unitmask cswidth address =
    generate Width en access_width unitmask cswidth unitmask.
Proof.
  unfold word_entries, get_entries_for_key, m_keymap. rewrite umasks_whole. cbn [filter list_filter].
  rewrite umasks_whole, decide_True by done. by rewrite umasks_whole.
Qed.
End Aligned.

(** ** A handler on all lanes *)

Section FullUnits.
Context (Width AccessWidth : Z) (en : endianness_t) (HW : 0 <= AccessWidth < Width) (HW3 : Width <= 3).

#[local] Abbreviation native := (handler_entry_size_t AccessWidth).
#[local] Abbreviation target := (handler_entry_size_t Width).
#[local] Abbreviation N := (width_bits AccessWidth).
#[local] Abbreviation NB := (width_bytes AccessWidth).

Definition lane_count : nat := Z.to_nat (2 ^ (Width - AccessWidth)).

(** The place in the word of the [k]-th lane in the order of addresses. *)
Definition lane_bit (k : nat) : Z := N * (if little en then Z.of_nat k else Z.of_nat lane_count - 1 - Z.of_nat k).

Definition lane_entry (k : nat) : entry :=
  let m := Z.shiftl (Z.ones N) (lane_bit k) in mk_entry m m AccessWidth (lane_bit k) (Z.of_nat k).

Lemma width_pairs : (AccessWidth, Width) ∈ [(0, 1); (0, 2); (0, 3); (1, 2); (1, 3); (2, 3)].
Proof.
  assert (Width = 1 \/ Width = 2 \/ Width = 3) as [-> | [-> | ->]] by lia.
  - assert (AccessWidth = 0) as -> by lia. by repeat constructor.
  - assert (AccessWidth = 0 \/ AccessWidth = 1) as [-> | ->] by lia; by repeat constructor.
  - assert (AccessWidth = 0 \/ AccessWidth = 1 \/ AccessWidth = 2) as [-> | [-> | ->]] by lia; by repeat constructor.
Qed.
End FullUnits.

Ltac width_cases_of Width AccessWidth HW HW3 :=
  let P := fresh in
  pose proof (width_pairs Width AccessWidth HW HW3) as P; repeat (apply elem_of_cons in P as [P|P]); [..|by apply elem_of_nil in P];
  injection P as -> ->.

Section FullLanes.
Context (Width AccessWidth : Z) (en : endianness_t) (HW : 0 <= AccessWidth < Width) (HW3 : Width <= 3).

#[local] Abbreviation native := (handler_entry_size_t AccessWidth).
#[local] Abbreviation target := (handler_entry_size_t Width).
#[local] Abbreviation N := (width_bits AccessWidth).
#[local] Abbreviation NB := (width_bytes AccessWidth).
#[local] Abbreviation full := (Z.ones (width_bits Width)).
#[local] Abbreviation count := (lane_count Width AccessWidth).
#[local] Abbreviation lane_bit := (lane_bit Width AccessWidth en).

(** The units in the order of their addresses. *)
Lemma full_units {H} (handler : H) :
  handler_entry_units handler AccessWidth (generate Width en AccessWidth full (Z.shiftl 8 AccessWidth) full) =
    map (fun k => mk_subunit_info handler (lane_entry Width AccessWidth en k) AccessWidth) (seq 0 count).
Proof. width_cases_of Width AccessWidth HW HW3; destruct en; vm_compute; reflexivity. Qed.

Lemma full_unmap {H} (handler : H) :
  m_unmap Width unmap (map (fun k => mk_subunit_info handler (lane_entry Width AccessWidth en k) AccessWidth) (seq 0 count)) = 0.
Proof. width_cases_of Width AccessWidth HW HW3; destruct en; vm_compute; reflexivity. Qed.

Lemma full_shift : shift Width AccessWidth full = AccessWidth /\
  Z.shiftl 1 (active_count_log Width AccessWidth full) - 1 = Z.ones (Width - AccessWidth).
Proof. clear en. width_cases_of Width AccessWidth HW HW3; vm_compute; done. Qed.

(** ** The accesses of a wide word on a bus of the handler's width *)

Lemma lane_bit_range k : (k < count)%nat -> 0 <= lane_bit k /\ lane_bit k + N <= width_bits Width.
Proof.
  intros Hk. unfold Units.lane_bit. destruct (Nat.leb_spec (S k) count); [|lia].
  width_cases_of Width AccessWidth HW HW3; vm_compute (Units.lane_count _ _) in *; vm_compute (width_bits _); destruct (little en); lia.
Qed.

Lemma lane_test mask k : (k < count)%nat -> 0 <= mask ->
  test mask (m_amask (lane_entry Width AccessWidth en k)) = negb (native (Z.shiftr mask (lane_bit k)) =? 0).
Proof.
  intros Hk Hm. destruct (lane_bit_range k Hk) as [Hb _]. unfold test, handler_entry_size_t, lane_entry. cbn [m_amask].
  f_equal. assert (0 <= N) by (destruct (width_cases AccessWidth ltac:(lia)) as (b & _ & -> & ?); lia).
  assert (Z.land mask (Z.shiftl (Z.ones N) (lane_bit k)) = Z.shiftl (Z.land (Z.shiftr mask (lane_bit k)) (Z.ones N)) (lane_bit k)) as ->.
  { apply Z.bits_inj'. intros i Hi. rewrite Z.land_spec, !Z.shiftl_spec by lia.
    destruct (Z.lt_ge_cases i (lane_bit k)); [rewrite !(Z.testbit_neg_r _ (i - _)) by lia; by rewrite andb_false_r|].
    rewrite Z.land_spec, Z.shiftr_spec by lia. do 2 f_equal. lia. }
  set (x := Z.land _ _). rewrite Z.shiftl_mul_pow2 by lia. pose proof (Z.pow_pos_nonneg 2 (lane_bit k) ltac:(lia) Hb).
  destruct (Z.eqb_spec (x * 2 ^ lane_bit k) 0), (Z.eqb_spec x 0); nia.
Qed.

(** The lanes of a word, in the order of their addresses, read one by one. *)
Section Bus.
Context {W : Type} `{NativeBus W} (a mask : Z).

Definition read_lane (rw : Z * W) (k : nat) : Z * W :=
  read_step (a + Z.of_nat k * NB) (native (Z.shiftr mask (lane_bit k))) (fun v => target (Z.shiftl v (lane_bit k))) rw.
Definition write_lane (data : Z) (w : W) (k : nat) : W :=
  write_step (a + Z.of_nat k * NB) (native (Z.shiftr data (lane_bit k))) (native (Z.shiftr mask (lane_bit k))) w.

Context (Ha : a mod width_bytes Width = 0) (Ha0 : 0 <= a) (Hend : a + width_bytes Width <= 4294967296).

Lemma width_ratio : width_bytes Width = Z.of_nat count * NB /\ (1 < count)%nat /\ width_bits Width = Z.of_nat count * N /\
  MAX_SPLITS_MINUS_ONE AccessWidth Width = (count - 1)%nat /\ 0 < NB /\ AccessWidth <> Width /\ NB < width_bytes Width.
Proof.
  clear a Ha Ha0 Hend. width_cases_of Width AccessWidth HW HW3; vm_compute; repeat split; try reflexivity; try lia; congruence.
Qed.

Lemma word_aligned : a mod NB = 0.
Proof.
  destruct width_ratio as (E & Hc & _ & _ & Hb & _). rewrite E in Ha.
  apply Z.mod_divide in Ha as [q Hq]; [|lia]. apply Z.mod_divide; [lia|]. exists (q * Z.of_nat count). lia.
Qed.

Lemma next_lane j : (S j < count)%nat -> u32 (a + Z.of_nat j * NB + NATIVE_STEP AccessWidth 0) = a + Z.of_nat (S j) * NB.
Proof.
  intros Hj. destruct width_ratio as (E & _ & _ & _ & Hb & _). rewrite native_step_0, u32_id by nia. lia.
Qed.

Lemma next_lane_bit j : (S j < count)%nat ->
  lane_bit (S j) = if little en then lane_bit j + N else lane_bit j - N.
Proof. intros Hj. unfold Units.lane_bit. destruct (little en); lia. Qed.

(** The loops over the middle words. *)
Lemma read_middle_lanes_le k : little en = true -> forall j o rw, (j + k < count)%nat -> (k <> 0%nat -> o = lane_bit (S j)) ->
  (read_middle_le AccessWidth 0 Width k mask (a + Z.of_nat j * NB) o rw).2 = fold_left read_lane (seq (S j) k) rw.
Proof.
  intros El. induction k as [|k IH]; intros j o rw Hj Ho; [done|]. cbn [read_middle_le seq fold_left].
  rewrite next_lane, Ho by lia. apply (IH (S j)); [lia|]. intros Hk. by rewrite (next_lane_bit (S j)), El by lia.
Qed.

Lemma read_middle_lanes_be k : little en = false -> forall j rw, (j + k < count)%nat ->
  (read_middle_be AccessWidth 0 Width k mask (a + Z.of_nat j * NB) (lane_bit j) rw).2 = fold_left read_lane (seq (S j) k) rw.
Proof.
  intros El. induction k as [|k IH]; intros j rw Hj; [done|]. cbn [read_middle_be seq fold_left].
  assert (lane_bit j - N = lane_bit (S j)) as E by (by rewrite next_lane_bit, El by lia).
  rewrite E, next_lane by lia. apply (IH (S j)). lia.
Qed.

Lemma write_middle_lanes_le data k : little en = true -> forall j o w, (j + k < count)%nat -> (k <> 0%nat -> o = lane_bit (S j)) ->
  (write_middle_le AccessWidth 0 k data mask (a + Z.of_nat j * NB) o w).2 = fold_left (write_lane data) (seq (S j) k) w.
Proof.
  intros El. induction k as [|k IH]; intros j o w Hj Ho; [done|]. cbn [write_middle_le seq fold_left].
  rewrite next_lane, Ho by lia. apply (IH (S j)); [lia|]. intros Hk. by rewrite (next_lane_bit (S j)), El by lia.
Qed.

Lemma write_middle_lanes_be data k : little en = false -> forall j w, (j + k < count)%nat ->
  (write_middle_be AccessWidth 0 k data mask (a + Z.of_nat j * NB) (lane_bit j) w).2 = fold_left (write_lane data) (seq (S j) k) w.
Proof.
  intros El. induction k as [|k IH]; intros j w Hj; [done|]. cbn [write_middle_be seq fold_left].
  assert (lane_bit j - N = lane_bit (S j)) as E by (by rewrite next_lane_bit, El by lia).
  rewrite E, next_lane by lia. apply (IH (S j)). lia.
Qed.

(** A wide access on a narrow bus is its lanes one by one. *)
Lemma wide_access_shape : pass_through AccessWidth 0 Width true a = false /\ single_access AccessWidth 0 en Width true a = None /\
  native_offsbits AccessWidth 0 a = 0 /\ native_address AccessWidth 0 a = a /\ (width_bytes Width <=? NB) = false.
Proof.
  destruct width_ratio as (E & _ & _ & _ & Hb & Hne & Hlt).
  split; [|split; [|split; [|split]]].
  - unfold pass_through. by destruct (Z.eqb_spec NB (width_bytes Width)); [lia|].
  - unfold single_access. by destruct (Z.ltb_spec (width_bytes Width) NB); [lia|].
  - rewrite native_offsbits_0, word_aligned by lia. done.
  - rewrite native_address_0, word_aligned by lia. lia.
  - destruct (Z.leb_spec (width_bytes Width) NB); [lia|done].
Qed.

Lemma wide_read_lanes w : memory_read_generic AccessWidth 0 en Width true a mask w = fold_left read_lane (seq 0 count) (0, w).
Proof.
  destruct wide_access_shape as (E1 & E2 & E3 & E4 & E5). destruct width_ratio as (_ & Hc & Eb & Em & _).
  unfold memory_read_generic. rewrite E1, E2, E3, E4, E5, Em. cbv zeta. destruct count as [|n] eqn:En; [lia|].
  cbn [seq fold_left Nat.sub]. rewrite Nat.sub_0_r. destruct (little en) eqn:El.
  - pose proof (read_middle_lanes_le n El 0 (N - 0)) as M. rewrite Z.add_0_r in M.
    assert (read_lane (0, w) 0 = read_step a (native (Z.shiftl mask 0)) (fun v => target (Z.shiftr v 0)) (0, w)) as E0.
    { unfold read_lane, Units.lane_bit. rewrite El. change (Z.of_nat 0) with 0. by rewrite Z.mul_0_r, Z.add_0_r. }
    rewrite E0, <- M by (first [lia | intros _; unfold Units.lane_bit; rewrite El; lia]).
    by destruct (read_middle_le _ _ _ _ _ _ _ _) as [[? ?] ?].
  - pose proof (read_middle_lanes_be n El 0) as M. rewrite Z.add_0_r in M.
    assert (lane_bit 0 = width_bits Width - (N - 0)) as Eb0 by (unfold Units.lane_bit; rewrite El, Eb, En; lia).
    assert (read_lane (0, w) 0 = read_step a (native (Z.shiftr mask (width_bits Width - (N - 0)))) (fun v => target (Z.shiftl v (width_bits Width - (N - 0)))) (0, w)) as E0.
    { unfold read_lane. by rewrite Eb0, Z.add_0_r. }
    rewrite E0, <- M, Eb0 by lia.
    by destruct (read_middle_be _ _ _ _ _ _ _ _) as [[? ?] ?].
Qed.

Lemma wide_write_lanes data w :
  memory_write_generic AccessWidth 0 en Width true a data mask w = fold_left (write_lane data) (seq 0 count) w.
Proof.
  destruct wide_access_shape as (E1 & E2 & E3 & E4 & E5). destruct width_ratio as (_ & Hc & Eb & Em & _).
  unfold memory_write_generic. rewrite E1, E2, E3, E4, E5, Em. cbv zeta. destruct count as [|n] eqn:En; [lia|].
  cbn [seq fold_left Nat.sub]. rewrite Nat.sub_0_r. destruct (little en) eqn:El.
  - pose proof (write_middle_lanes_le data n El 0 (N - 0)) as M. rewrite Z.add_0_r in M.
    assert (write_lane data w 0 = write_step a (native (Z.shiftl data 0)) (native (Z.shiftl mask 0)) w) as E0.
    { unfold write_lane, Units.lane_bit. rewrite El. change (Z.of_nat 0) with 0. by rewrite Z.mul_0_r, Z.add_0_r. }
    rewrite E0, <- M by (first [lia | intros _; unfold Units.lane_bit; rewrite El; lia]).
    by destruct (write_middle_le _ _ _ _ _ _ _ _) as [[? ?] ?].
  - pose proof (write_middle_lanes_be data n El 0) as M. rewrite Z.add_0_r in M.
    assert (lane_bit 0 = width_bits Width - (N - 0)) as Eb0 by (unfold Units.lane_bit; rewrite El, Eb, En; lia).
    assert (write_lane data w 0 = write_step a (native (Z.shiftr data (width_bits Width - (N - 0)))) (native (Z.shiftr mask (width_bits Width - (N - 0)))) w) as E0.
    { unfold write_lane. by rewrite Eb0, Z.add_0_r. }
    rewrite E0, <- M, Eb0 by lia.
    by destruct (write_middle_be _ _ _ _ _ _ _ _) as [[? ?] ?].
Qed.
End Bus.
End FullLanes.

(** ** The handler's offsets *)

Lemma fold_left_map_seq {A B} (f : A -> B -> A) (g : nat -> B) (h : A -> nat -> A) n (x : A) :
  (forall y k, (k < n)%nat -> f y (g k) = h y k) -> fold_left f (map g (seq 0 n)) x = fold_left h (seq 0 n) x.
Proof.
  intros E. assert (forall k, In k (seq 0 n) -> (k < n)%nat) as Hin by (intros k Hk; apply in_seq in Hk; lia).
  revert x Hin. generalize (seq 0 n). induction l as [|k l IH]; intros x Hin; [done|]. cbn [map fold_left].
  rewrite E by (apply Hin; by left). apply IH. intros k' Hk'. apply Hin. by right.
Qed.

Lemma changing_bit_low lo hi i : 0 <= i -> Z.testbit (Z.lxor lo hi) i = true -> Z.testbit (changing_bits lo hi) i = true.
Proof. intros Hi E. unfold changing_bits. rewrite !Z.lor_spec, E. reflexivity. Qed.

Lemma low_bits_change n lo hi : 0 <= n -> lo mod 2 ^ n = 0 -> (hi + 1) mod 2 ^ n = 0 ->
  forall i, 0 <= i < n -> Z.testbit (changing_bits lo hi) i = true.
Proof.
  intros Hn Hl Hh i Hi. apply changing_bit_low; [lia|]. rewrite Z.lxor_spec.
  assert (0 < 2 ^ n) as Hp by (apply Z.pow_pos_nonneg; lia).
  assert (Z.testbit lo i = false) as ->.
  { rewrite <- (Z.mod_pow2_bits_low lo n i), Hl by lia. apply Z.bits_0. }
  rewrite <- (Z.mod_pow2_bits_low hi n i) by lia.
  assert (hi mod 2 ^ n = 2 ^ n - 1) as ->.
  { apply Z.mod_divide in Hh as [q Hq]; [|lia]. replace hi with (2 ^ n - 1 + (q - 1) * 2 ^ n) by lia.
    rewrite Z.mod_add by lia. apply Z.mod_small. lia. }
  change (2 ^ n - 1) with (Z.pred (2 ^ n)). rewrite <- Z.ones_equiv. by apply Z.ones_spec_low.
Qed.

Section SameOffsets.
Context (Width AccessWidth addrstart addrend : Z) (HW : 0 <= AccessWidth < Width) (HW3 : Width <= 3).
Context (Hs : addrstart mod width_bytes Width = 0) (He : (addrend + 1) mod width_bytes Width = 0)
  (H0 : 0 <= addrstart) (H1 : addrend < 4294967296).

#[local] Abbreviation full := (Z.ones (width_bits Width)).
#[local] Abbreviation count := (lane_count Width AccessWidth).
#[local] Abbreviation NB := (width_bytes AccessWidth).

Lemma nb_pow w : 0 <= w -> width_bytes w = 2 ^ w.
Proof. intros Hw. unfold width_bytes. rewrite Z.shiftl_mul_pow2 by lia. lia. Qed.

Lemma own_offset_lane a k : a mod width_bytes Width = 0 -> addrstart <= a -> a + width_bytes Width <= addrend + 1 -> (k < count)%nat ->
  own_offset Width AccessWidth addrstart addrend 0 (u32 (Z.shiftr a AccessWidth + Z.of_nat k)) =
    handler_offset AccessWidth addrstart addrend (a + Z.of_nat k * NB).
Proof.
  intros Ha Hlo Hhi Hk. unfold own_offset, delegate_offset, m_handler_start, m_handler_mask, nunitmask, nmask, handler_offset, element.
  cbn [Z.eqb]. destruct (full_shift Width AccessWidth HW HW3) as [-> ->]. rewrite Z.add_0_r, !Z.shiftr_div_pow2 by lia.
  rewrite !nb_pow in * by lia. unfold Units.lane_count in Hk. set (p := 2 ^ AccessWidth) in *.
  assert (0 < p) as Hp by (apply Z.pow_pos_nonneg; lia).
  assert (2 ^ Width = 2 ^ (Width - AccessWidth) * p) as EW by (unfold p; rewrite <- Z.pow_add_r by lia; f_equal; lia).
  assert (0 < 2 ^ (Width - AccessWidth)) as Hc by (apply Z.pow_pos_nonneg; lia). set (c := 2 ^ (Width - AccessWidth)) in *.
  assert (exists q, a - addrstart = q * p * c /\ 0 <= q) as (q & Eq & Hq).
  { rewrite EW in *. apply Z.mod_divide in Ha as [x Hx]; [|nia]. apply Z.mod_divide in Hs as [y Hy]; [|nia].
    exists (x - y). split; [nia|]. assert (0 <= (x - y) * (c * p)) by nia. destruct (Z.lt_ge_cases (x - y) 0); [nia|done]. }
  assert (exists s, addrstart = s * p) as (s & Es).
  { rewrite EW in Hs. apply Z.mod_divide in Hs as [y Hy]; [|nia]. exists (y * c). nia. }
  assert (a / p = s + q * c) as -> by (replace a with ((s + q * c) * p) by lia; apply Z.div_mul; lia).
  assert (addrstart / p = s) as -> by (rewrite Es; apply Z.div_mul; lia).
  assert (0 <= s) by nia. assert (Z.of_nat k + 1 <= c) as Hk' by lia.
  assert ((q * c + Z.of_nat k) * p < 4294967296) as Hb by nia.
  rewrite (u32_id (s + _ + _)) by nia. replace (s + q * c + Z.of_nat k - s) with (q * c + Z.of_nat k) by lia.
  replace (a + Z.of_nat k * p - addrstart) with ((q * c + Z.of_nat k) * p) by lia.
  rewrite !u32_id by nia. set (x := q * c + Z.of_nat k). assert (0 <= x) by nia.
  unfold p. rewrite <- !Z.shiftr_div_pow2, <- Z.shiftl_mul_pow2 by lia.
  apply Z.bits_inj'. intros i Hi. rewrite Z.shiftr_spec, !Z.land_spec, Z.lor_spec, Z.shiftl_spec, Z.shiftr_spec by lia.
  replace (i + AccessWidth - AccessWidth) with i by lia.
  destruct (Z.lt_ge_cases i (Width - AccessWidth)) as [Hi'|Hi'].
  - rewrite (low_bits_change Width addrstart addrend) by (rewrite ?EW in *; lia || done). by destruct (Z.testbit x i).
  - rewrite (Z.ones_spec_high (Width - AccessWidth)) by lia. by rewrite orb_false_r.
Qed.
End SameOffsets.

(** ** The same device on a bus of its own width *)

Section NarrowBus.
Context {W : Type} (AccessWidth addrstart addrend : Z) (f : @read_handler W) (g : @write_handler W).

Definition narrow_bus : NativeBus W := {|
  rop a m w := let '(v, w) := f (handler_offset AccessWidth addrstart addrend a) m w in (handler_entry_size_t AccessWidth v, w);
  wop a d m w := g (handler_offset AccessWidth addrstart addrend a) d m w
|}.
End NarrowBus.

Lemma unit_of_lane {W} (f : read_handler (W := W)) g Width AccessWidth en addrstart addrend a mask rw k :
  0 <= AccessWidth < Width -> Width <= 3 -> addrstart mod width_bytes Width = 0 -> (addrend + 1) mod width_bytes Width = 0 ->
  0 <= addrstart -> addrend < 4294967296 -> a mod width_bytes Width = 0 -> addrstart <= a ->
  a + width_bytes Width <= addrend + 1 -> 0 <= mask -> (k < lane_count Width AccessWidth)%nat ->
  read_unit Width a mask rw
    (mk_subunit_info (fun o => f (own_offset Width AccessWidth addrstart addrend 0 o)) (lane_entry Width AccessWidth en k) AccessWidth) =
    @read_lane Width AccessWidth en W (narrow_bus AccessWidth addrstart addrend f g) a mask rw k.
Proof.
  intros HW HW3 Hs He H0 H1 Ha Hlo Hhi Hm Hk. unfold read_unit, read_lane, read_step. cbn [m_entry m_handler m_width]. cbv zeta.
  rewrite lane_test by done. destruct rw as [r w]. destruct (_ =? 0); cbn [negb]; [done|].
  unfold unit_address. cbn [lane_entry m_ashift m_offset m_dshift rop narrow_bus]. rewrite own_offset_lane by done.
  by destruct (f _ _ w).
Qed.

Lemma unit_of_lane_write {W} f (g : write_handler (W := W)) Width AccessWidth en addrstart addrend a data mask w k :
  0 <= AccessWidth < Width -> Width <= 3 -> addrstart mod width_bytes Width = 0 -> (addrend + 1) mod width_bytes Width = 0 ->
  0 <= addrstart -> addrend < 4294967296 -> a mod width_bytes Width = 0 -> addrstart <= a ->
  a + width_bytes Width <= addrend + 1 -> 0 <= mask -> (k < lane_count Width AccessWidth)%nat ->
  write_unit a data mask w
    (mk_subunit_info (fun o => g (own_offset Width AccessWidth addrstart addrend 0 o)) (lane_entry Width AccessWidth en k) AccessWidth) =
    @write_lane Width AccessWidth en W (narrow_bus AccessWidth addrstart addrend f g) a mask data w k.
Proof.
  intros HW HW3 Hs He H0 H1 Ha Hlo Hhi Hm Hk. unfold write_unit, write_lane, write_step. cbn [m_entry m_handler m_width]. cbv zeta.
  rewrite lane_test by done. destruct (_ =? 0); cbn [negb]; [done|].
  unfold unit_address. cbn [lane_entry m_ashift m_offset m_dshift wop narrow_bus]. by rewrite own_offset_lane by done.
Qed.

Lemma full_range Width : 0 <= Width -> 0 <= Z.ones (width_bits Width) < 2 ^ width_bits Width.
Proof.
  intros HW. rewrite Z.ones_equiv. assert (0 < 2 ^ width_bits Width); [|lia]. apply Z.pow_pos_nonneg; [lia|].
  unfold width_bits, width_bytes. rewrite Z.shiftl_mul_pow2 by lia. pose proof (Z.pow_nonneg 2 Width). lia.
Qed.

Section Lanes.
Context {W : Type} (f : read_handler (W := W)) (g : write_handler (W := W)).
Context (Width AccessWidth : Z) (en : endianness_t) (addrstart addrend a mask : Z).
Context (HW : 0 <= AccessWidth < Width) (HW3 : Width <= 3).
Context (Hs : addrstart mod width_bytes Width = 0) (He : (addrend + 1) mod width_bytes Width = 0).
Context (H0 : 0 <= addrstart) (H1 : addrend < 4294967296).
Context (Ha : a mod width_bytes Width = 0) (Hlo : addrstart <= a) (Hhi : a + width_bytes Width <= addrend + 1) (Hm : 0 <= mask).

Lemma install_read_lanes w : install_read Width en AccessWidth addrstart addrend 0 f a mask w =
  fold_left (@read_lane Width AccessWidth en W (narrow_bus AccessWidth addrstart addrend f g) a mask)
    (seq 0 (lane_count Width AccessWidth)) (0, w).
Proof.
  unfold install_read, units_read, nunitmask, ncswidth. cbn [Z.eqb].
  rewrite word_entries_whole by (done || lia || by apply full_range; lia). rewrite !full_units, full_unmap by done.
  apply fold_left_map_seq. intros. by apply unit_of_lane.
Qed.

Lemma install_write_lanes data w : install_write Width en AccessWidth addrstart addrend 0 g a data mask w =
  fold_left (@write_lane Width AccessWidth en W (narrow_bus AccessWidth addrstart addrend f g) a mask data)
    (seq 0 (lane_count Width AccessWidth)) w.
Proof.
  unfold install_write, units_write, nunitmask, ncswidth. cbn [Z.eqb].
  rewrite word_entries_whole by (done || lia || by apply full_range; lia). rewrite !full_units by done.
  apply fold_left_map_seq. intros. by apply unit_of_lane_write.
Qed.
End Lanes.

(** C14: A handler narrower than the bus, installed on all its lanes over a range
    of whole words, sees exactly the accesses it would see on a bus of its
    own width: a native access of the wide bus is carried out, sub-unit by
    sub-unit, as the same access on the narrow bus would be, in the same order,
    with the same offsets, masks and result, for every pair of widths and both
    byte orders. *)
Theorem units_are_narrow_accesses {W} (f : read_handler (W := W)) (g : write_handler (W := W))
    Width AccessWidth en addrstart addrend a data mask w :
  0 <= AccessWidth < Width -> Width <= 3 ->
  addrstart mod width_bytes Width = 0 -> (addrend + 1) mod width_bytes Width = 0 -> 0 <= addrstart -> addrend < 4294967296 ->
  a mod width_bytes Width = 0 -> addrstart <= a -> a + width_bytes Width <= addrend + 1 -> 0 <= mask ->
  install_read Width en AccessWidth addrstart addrend 0 f a mask w =
    @memory_read_generic W (narrow_bus AccessWidth addrstart addrend f g) AccessWidth 0 en Width true a mask w /\
  install_write Width en AccessWidth addrstart addrend 0 g a data mask w =
    @memory_write_generic W (narrow_bus AccessWidth addrstart addrend f g) AccessWidth 0 en Width true a data mask w.
Proof.
  intros. split; [rewrite (install_read_lanes f g) by done; by rewrite wide_read_lanes by (done || lia)
                 |rewrite (install_write_lanes f g) by done; by rewrite wide_write_lanes by (done || lia)].
Qed.

(** ** An 8-bit handler on the low byte of every 16-bit word *)

Lemma size_of_size w w' x : 0 <= w' <= w -> handler_entry_size_t w (handler_entry_size_t w' x) = handler_entry_size_t w' x.
Proof.
  intros Hw. apply Z.bits_inj'. intros i Hi. rewrite !testbit_size by lia.
  assert (width_bits w' <= width_bits w) as Hb.
  { unfold width_bits. rewrite !nb_pow by lia. pose proof (Z.pow_le_mono_r 2 w' w). lia. }
  destruct (Z.ltb_spec i (width_bits w')), (Z.ltb_spec i (width_bits w)); lia || done.
Qed.

Lemma size_below w x : 0 <= w -> 0 <= x < 2 ^ width_bits w -> handler_entry_size_t w x = x.
Proof.
  intros Hw Hx. unfold handler_entry_size_t. rewrite Z.land_ones; [by apply Z.mod_small|].
  unfold width_bits. rewrite nb_pow by lia. pose proof (Z.pow_nonneg 2 w). lia.
Qed.

(** A lane of the mask, under a narrower mask. *)
Lemma lane_byte_test mask s m w : 0 <= s -> 0 <= w -> 0 <= m < 2 ^ width_bits w ->
  test mask (Z.shiftl m s) = test (handler_entry_size_t w (Z.shiftr mask s)) m.
Proof.
  intros Hs Hw Hm. unfold test. f_equal. rewrite <- (size_below w m) at 1 by done. unfold handler_entry_size_t.
  assert (Z.land mask (Z.shiftl (Z.land m (Z.ones (width_bits w))) s) =
          Z.shiftl (Z.land (Z.land (Z.shiftr mask s) (Z.ones (width_bits w))) m) s) as ->.
  { apply Z.bits_inj'. intros i Hi. rewrite Z.land_spec, !Z.shiftl_spec by lia.
    destruct (Z.lt_ge_cases i s); [rewrite !(Z.testbit_neg_r _ (i - s)) by lia; by rewrite andb_false_r|].
    rewrite !Z.land_spec, Z.shiftr_spec by lia. replace (i - s + s) with i by lia.
    by destruct (Z.testbit mask i), (Z.testbit m (i - s)), (Z.testbit (Z.ones _) (i - s)). }
  set (x := Z.land (Z.land _ _) _). rewrite Z.shiftl_mul_pow2 by lia. pose proof (Z.pow_pos_nonneg 2 s ltac:(lia) Hs).
  destruct (Z.eqb_spec (x * 2 ^ s) 0), (Z.eqb_spec x 0); nia.
Qed.

Section LowByte.
Context {W : Type} (f : read_handler (W := W)) (g : write_handler (W := W)) (addrstart addrend : Z).

Definition low_byte_read : read_handler := fun offset mem_mask w =>
  if test mem_mask 0x00ff then
    let '(v, w) := f offset (handler_entry_size_t 0 mem_mask) w in (handler_entry_size_t 0 v, w)
  else (unmap, w).
Definition low_byte_write : write_handler := fun offset data mem_mask w =>
  if test mem_mask 0x00ff then g offset (handler_entry_size_t 0 data) (handler_entry_size_t 0 mem_mask) w else w.

Lemma low_byte_offset_1 a : addrstart mod 2 = 0 -> (addrend + 1) mod 2 = 0 -> a mod 2 = 0 -> 0 <= addrstart <= a -> a <= addrend < 4294967296 ->
  own_offset 1 0 addrstart addrend (umask16 0x00ff) (u32 (Z.shiftr a 1 + 0)) = handler_offset 1 addrstart addrend a.
Proof.
  intros Hs He Ha Hlo Hhi. unfold own_offset, delegate_offset, m_handler_start, m_handler_mask, nmask, handler_offset, element.
  change (shift 1 0 (nunitmask 1 (umask16 0x00ff))) with 1. change (active_count_log 1 0 (nunitmask 1 (umask16 0x00ff))) with 0.
  change (Z.shiftl 1 0 - 1) with 0. rewrite Z.lor_0_r, !Z.add_0_r, Z.shiftr_land. f_equal.
  rewrite !Z.shiftr_div_pow2 by lia. change (2 ^ 1) with 2. rewrite (u32_id (a / 2)) by (Z.to_euclidean_division_equations; lia).
  rewrite !u32_id by (Z.to_euclidean_division_equations; lia). Z.to_euclidean_division_equations; lia.
Qed.

Lemma low_byte_16 a mask data w : addrstart mod 2 = 0 -> (addrend + 1) mod 2 = 0 -> a mod 2 = 0 -> 0 <= addrstart <= a -> a <= addrend < 4294967296 ->
  install_read 1 ENDIANNESS_BIG 0 addrstart addrend (umask16 0x00ff) f a mask w =
    low_byte_read (handler_offset 1 addrstart addrend a) mask w /\
  install_write 1 ENDIANNESS_BIG 0 addrstart addrend (umask16 0x00ff) g a data mask w =
    low_byte_write (handler_offset 1 addrstart addrend a) data mask w.
Proof.
  intros Hs He Ha Hlo Hhi. rewrite <- low_byte_offset_1 by done.
  unfold install_read, install_write. rewrite word_entries_whole by (done || lia || by vm_compute).
  set (e := generate _ _ _ _ _ _). assert (e = [mk_entry 0xff 0xff 1 0 0]) as -> by (vm_compute; reflexivity).
  split; [|reflexivity]. unfold low_byte_read, units_read, read_unit. cbn. change (m_unmap _ _ _) with 0. unfold unit_address. cbn.
  destruct (test mask 255); [|done]. destruct (f _ _ _) as [v w']. rewrite Z.shiftl_0_r, (size_of_size 1 0) by lia. reflexivity.
Qed.

(** A lane of such a handler, and the same lane of the 16-bit one. *)
Lemma low_byte_unit own own' a mask rw s k : (forall o, own o = own' o) -> 0 <= s ->
  read_unit 2 a mask rw (mk_subunit_info (fun o => f (own o)) (mk_entry (Z.shiftl 0xff s) (Z.shiftl 0xff s) 1 s k) 0) =
  read_unit 2 a mask rw (mk_subunit_info (fun o => low_byte_read (own' o)) (mk_entry (Z.shiftl 0xffff s) (Z.shiftl 0xffff s) 1 s k) 1).
Proof.
  intros Eo Hs. destruct rw as [r w]. unfold read_unit, unit_address, low_byte_read. cbn [m_entry m_handler m_width m_amask m_dshift m_ashift m_offset].
  rewrite (lane_byte_test mask s 0xff 1), (lane_byte_test mask s 0xffff 1) by (lia || by vm_compute). rewrite Eo.
  set (m := handler_entry_size_t 1 (Z.shiftr mask s)).
  assert (handler_entry_size_t 0 (Z.shiftr mask s) = handler_entry_size_t 0 m) as ->.
  { unfold m, handler_entry_size_t. rewrite <- Z.land_assoc. reflexivity. }
  assert (m = Z.land m 0xffff) as Em by (unfold m; symmetry; unfold handler_entry_size_t; rewrite <- Z.land_assoc; reflexivity).
  destruct (test m 0xff) eqn:E.
  - assert (test m 0xffff = true) as ->.
    { unfold test in *. rewrite <- Em. destruct (Z.eqb_spec m 0) as [E0|]; [|done]. by rewrite E0 in E. }
    destruct (f _ _ w) as [v w']. cbv beta iota. by rewrite (size_of_size 1 0) by lia.
  - destruct (test m 0xffff); [|done]. by rewrite Z.shiftl_0_l, Z.lor_0_r.
Qed.

Lemma low_byte_unit_write own own' a data mask w s k : (forall o, own o = own' o) -> 0 <= s ->
  write_unit a data mask w (mk_subunit_info (fun o => g (own o)) (mk_entry (Z.shiftl 0xff s) (Z.shiftl 0xff s) 1 s k) 0) =
  write_unit a data mask w (mk_subunit_info (fun o => low_byte_write (own' o)) (mk_entry (Z.shiftl 0xffff s) (Z.shiftl 0xffff s) 1 s k) 1).
Proof.
  intros Eo Hs. unfold write_unit, unit_address, low_byte_write. cbn [m_entry m_handler m_width m_amask m_dshift m_ashift m_offset].
  rewrite (lane_byte_test mask s 0xff 1), (lane_byte_test mask s 0xffff 1) by (lia || by vm_compute). rewrite Eo.
  set (m := handler_entry_size_t 1 (Z.shiftr mask s)).
  assert (forall x, handler_entry_size_t 0 (handler_entry_size_t 1 x) = handler_entry_size_t 0 x) as E0.
  { intros x. unfold handler_entry_size_t. rewrite <- Z.land_assoc. reflexivity. }
  assert (m = Z.land m 0xffff) as Em by (unfold m; symmetry; unfold handler_entry_size_t; rewrite <- Z.land_assoc; reflexivity).
  destruct (test m 0xff) eqn:E.
  - assert (test m 0xffff = true) as ->; [|unfold m; by rewrite !E0].
    unfold test in *. rewrite <- Em. destruct (Z.eqb_spec m 0) as [E1|]; [|done]. by rewrite E1 in E.
  - by destruct (test m 0xffff).
Qed.

(** On a 32-bit bus such a handler is the 16-bit one on all lanes. *)
Lemma low_byte_32 a mask data w : addrstart mod 4 = 0 -> (addrend + 1) mod 4 = 0 -> 0 <= mask ->
  install_read 2 ENDIANNESS_BIG 0 addrstart addrend (umask16 0x00ff) f a mask w =
    install_read 2 ENDIANNESS_BIG 1 addrstart addrend 0 low_byte_read a mask w /\
  install_write 2 ENDIANNESS_BIG 0 addrstart addrend (umask16 0x00ff) g a data mask w =
    install_write 2 ENDIANNESS_BIG 1 addrstart addrend 0 low_byte_write a data mask w.
Proof.
  intros Hs He Hm. unfold install_read, install_write.
  rewrite !word_entries_whole by (done || lia || by vm_compute).
  set (e := generate 2 ENDIANNESS_BIG 0 _ _ _). set (e' := generate 2 ENDIANNESS_BIG 1 _ _ _).
  assert (e = [mk_entry 0xff 0xff 1 0 1; mk_entry 0xff0000 0xff0000 1 16 0]) as -> by (vm_compute; reflexivity).
  assert (e' = [mk_entry 0xffff 0xffff 1 0 1; mk_entry 0xffff0000 0xffff0000 1 16 0]) as -> by (vm_compute; reflexivity).
  unfold units_read, units_write, handler_entry_units. cbn [fill map sort_units insert_unit unit_offset m_entry m_offset Z.ltb Z.compare].
  split; cbn [fold_left].
  - rewrite (low_byte_unit _ (own_offset 2 1 addrstart addrend 0) a mask _ 16 0), (low_byte_unit _ (own_offset 2 1 addrstart addrend 0) a mask _ 0 1)
      by (done || lia). reflexivity.
  - rewrite (low_byte_unit_write _ (own_offset 2 1 addrstart addrend 0) a data mask _ 16 0),
      (low_byte_unit_write _ (own_offset 2 1 addrstart addrend 0) a data mask _ 0 1) by (done || lia). reflexivity.
Qed.
End LowByte.

Lemma units_are_narrow_accesses_witness :
  let f := fun o m (w : Z) => (o, w + m) in
  let g := fun o d m (w : Z) => w + o + d + m in
  install_read 2 ENDIANNESS_BIG 1 0x100000 0xdfffff 0 f 0x100010 0xffffff00 0 = (0x00080009, 0xffff + 0xff00) /\
  install_read 2 ENDIANNESS_BIG 1 0x100000 0xdfffff 0 f 0x100010 0xffffff00 0 =
    @memory_read_generic Z (narrow_bus 1 0x100000 0xdfffff f g) 1 0 ENDIANNESS_BIG 2 true 0x100010 0xffffff00 0.
Proof.
  intros f g. split; [vm_compute; reflexivity|].
  apply (units_are_narrow_accesses f g 2 1 ENDIANNESS_BIG 0x100000 0xdfffff 0x100010 0 0xffffff00 0);
    vm_compute; intuition congruence.
Defined.
