(* ===== verification/Board.v ===== *)
(** * Board: what the rosco boards connect (src/src/rosco/drivers/rosco_6502.cpp
    and rosco_m68k.cpp, the machine configurations)

    Both boards hang the same things on their DUART: two serial lines with RTS
    and CTS, two LEDs and the SD card, whose clock, data-in and select lines
    are output-port pins and whose data-out line is input pin 2.  The card
    answers from inside the output-port write, and the DUART may write its
    output port from inside that answer when an output pin follows the
    interrupt status, so the callbacks recurse; [outport] takes fuel for it.
    At the end, what an input change does to the DUART, on these boards and
    on any other that satisfies the conditions of the theorem. *)

From stdpp Require Import base tactics numbers option list.
From Stdlib Require Import ZArith Lia Bool.
From S2P Require Import Prelude Attotime Scheduler Serial Duart DuartInv DuartFacts Crc16 Harddisk SdCard SdCsd SdSpi SdSession SdTransfer.

(** ** The rest of the board, as the DUART sees it *)

(** The card, and the levels or bits last seen by the CPU and the two RS-232
    ports.  [w_fault]: the card dereferenced a null image. *)
Record world (I : Type) := mk_world {
  w_card : sdcard I;
  w_fault : bool;
  w_irq : Z;
  w_rts_terminal : Z; w_rts_host : Z;
  w_txd_terminal : list Z; w_txd_host : list Z;
  w_now : attotime;
  w_side_effects_disabled : bool
}.
Arguments mk_world {I}. Arguments w_card {I}. Arguments w_fault {I}. Arguments w_irq {I}.
Arguments w_rts_terminal {I}. Arguments w_rts_host {I}. Arguments w_txd_terminal {I}.
Arguments w_txd_host {I}. Arguments w_now {I}. Arguments w_side_effects_disabled {I}.

#[export] Instance world_eta I : Eta (world I) := fun w =>
  mk_world (w_card w) (w_fault w) (w_irq w) (w_rts_terminal w) (w_rts_host w) (w_txd_terminal w)
    (w_txd_host w) (w_now w) (w_side_effects_disabled w).

Section Wiring.
Context {I : Type} `{BlockImage I}.

#[local] Abbreviation St := (duart * world I)%type.

(** An assignment to the world. *)
Definition world_do (f : world I -> world I) (s : St) : St := (s.1, f s.2).
Definition on_card (f : sdcard I -> sdcard I) : St -> St := world_do (fun w => w <| w_card ::= f |>).

(** [a_tx_cb], [b_tx_cb]: the transmitted bits. *)
Definition board_tx (c : chan) (bit : Z) (s : St) : St :=
  match c with
  | ChA => world_do (fun w => w <| w_txd_terminal ::= fun l => l ++ [bit] |>) s
  | ChB => world_do (fun w => w <| w_txd_host ::= fun l => l ++ [bit] |>) s
  | _ => s
  end.

(** [irq_cb]: the CPU's interrupt line. *)
Definition board_irq (level : Z) : St -> St := world_do (fun w => w <| w_irq := level |>).

(** The callbacks, around a given output-port handler. *)
Definition board_env (outport : Z -> St -> St) : DuartEnv (world I) := {|
  now w := w_now w;
  write_irq := board_irq;
  write_tx := board_tx;
  write_outport := outport;
  read_inport := None;
  side_effects_disabled w := w_side_effects_disabled w
|}.

(** [spi_miso_callback] bound to [ip2_w]: the card the callback is called from
    is put back first, and taken out again after it. *)
Definition miso (outport : Z -> St -> St) (level : Z) (cs : sdcard I * St) : option (sdcard I * St) :=
  let '(c, (d, w)) := cs in
  let '(d, w) := @ip2_w (world I) (board_env outport) level (d, w <| w_card := c |>) in
  Some (w_card w, (d, w)).

(** [spi_clock_w] of the board's card. *)
Definition card_clock (outport : Z -> St -> St) (level : Z) (s : St) : St :=
  match spi_clock_w (miso outport) level (w_card s.2, s) with
  | Some (c, (d, w)) => (d, w <| w_card := c |>)
  | None => world_do (fun w => w <| w_fault := true |>) s
  end.

Definition write_red_led (state : Z) (s : St) : St := s.
Definition write_green_led (state : Z) (s : St) : St := s.

(** [outport_cb], in the order the handlers are appended. *)
Definition outport_handlers (outport : Z -> St -> St) (v : Z) (s : St) : St :=
  let s := world_do (fun w => w <| w_rts_terminal := BIT v 0 |>) s in
  let s := world_do (fun w => w <| w_rts_host := BIT v 1 |>) s in
  let s := write_red_led (BIT v 3) s in
  let s := write_green_led (BIT v 5) s in
  let s := on_card (spi_ss_w (Z.lxor (BIT v 2) 1)) s in
  let s := card_clock outport (BIT v 4) s in
  on_card (spi_mosi_w (BIT v 6)) s.

(** A write of the output port that may recur [fuel] times. *)
Fixpoint outport (fuel : nat) (v : Z) (s : St) : St :=
  match fuel with
  | O => s
  | S fuel => outport_handlers (outport fuel) v s
  end.

(** Twice is enough ([recursion_is_bounded]). *)
Definition board_outport : Z -> St -> St := outport 2.
#[local] Instance board : DuartEnv (world I) := board_env board_outport.

(** [machine_reset]: the clock of the card is cleared, whatever the pin. *)
Definition board_machine_reset (s : St) : St := card_clock board_outport CLEAR_LINE s.

(** CTS of the two ports. *)
Definition terminal_cts (level : Z) (s : St) : St := ip0_w level s.
Definition host_cts (level : Z) (s : St) : St := ip1_w level s.

(** ** The interface the DUART asks for *)

Lemma board_env_laws (op : Z -> St -> St) : (forall v s, calm s.1 (op v s).1) ->
  @DuartEnvLaws (world I) (board_env op).
Proof.
  intros Hop. split; cbn.
  - by intros v s.
  - by intros [| | |] b s.
  - exact Hop.
  - by intros f s.
  - by intros f s.
Qed.

(** The other half of a state across a clock edge. *)
Lemma spi_clock_w_rest {W} (P : W -> W -> Prop) (m : Z -> sdcard I * W -> option (sdcard I * W)) level cw cw' :
  (forall w, P w w) -> (forall l cw cw', m l cw = Some cw' -> P cw.2 cw'.2) ->
  spi_clock_w m level cw = Some cw' -> P cw.2 cw'.2.
Proof.
  intros Hr Hm. unfold spi_clock_w. destruct cw as [c w].
  destruct (negb (m_ss c =? 0) && negb (level =? m_clk_state c)); [|by intros [= <-]; apply Hr].
  destruct (negb (level =? 0)).
  - destruct (latch_in c); [|done]. intros [= <-]. apply Hr.
  - destruct (shift_out m (c, w)) as [[c1 w1]|] eqn:E; [|done]. intros [= <-].
    exact (Hm _ _ _ E).
Qed.

Lemma card_clock_calm (op : Z -> St -> St) level (s : St) : (forall v s, calm s.1 (op v s).1) ->
  calm s.1 (card_clock op level s).1.
Proof.
  intros Hop. unfold card_clock.
  destruct (spi_clock_w (miso op) level (w_card s.2, s)) as [[c [d w]]|] eqn:E; [|done].
  apply (spi_clock_w_rest (fun s s' : St => calm s.1 s'.1)) in E; [exact E|done|].
  intros l [c1 [d1 w1]] cw'. unfold miso.
  pose proof (@ip_w_calm (world I) (board_env op) (board_env_laws op Hop) 2 l (d1, w1 <| w_card := c1 |>)) as C.
  cbn [ip_w] in C. destruct (ip2_w l _) as [d2 w2]. intros [= <-]. exact C.
Qed.

Lemma outport_calm fuel : forall v (s : St), calm s.1 (outport fuel v s).1.
Proof.
  induction fuel as [|fuel IH]; intros v s; [done|]. cbn [outport]. unfold outport_handlers. cbv zeta.
  exact (card_clock_calm (outport fuel) (BIT v 4)
    (on_card (spi_ss_w (Z.lxor (BIT v 2) 1)) (write_green_led (BIT v 5) (write_red_led (BIT v 3)
      (world_do (fun w => w <| w_rts_host := BIT v 1 |>) (world_do (fun w => w <| w_rts_terminal := BIT v 0 |>) s))))) IH).
Qed.

(** What the board connects keeps to what the chip asks of it, so that every
    theorem about the chip holds on the board. *)
#[export] Instance board_laws : DuartEnvLaws (world I) := board_env_laws board_outport (outport_calm 2).

(** ** The recursion ends *)

(** With the input-change bit of ISR set, an input change does not come back to
    the output port. *)
Lemma set_ISR_no_recursion {W} (e : DuartEnv W) mask (s : duart * W) :
  test (ISR s.1) mask = true -> @set_ISR_bits W e mask s = s.
Proof. intros Hi. unfold set_ISR_bits. by rewrite Hi. Qed.

(** [ip_change_w] then only records the change. *)
Definition ip_recorded (mask delta level : Z) (d : duart) : duart :=
  let newIP := new_IP mask level d in
  let d := if negb (newIP =? IP_last_state d)
           then d <| IPCR ::= clear_bits 0x0f |> <| IPCR ::= set_bits (Z.land newIP 0x0f) |>
                  <| IPCR ::= set_bits delta |>
           else d in
  d <| IP_last_state := newIP |>.

Lemma ip_change_no_recursion {W} (e : DuartEnv W) mask delta level (s : duart * W) :
  test (ISR s.1) INT_INPUT_PORT_CHANGE = true ->
  @ip_change_w W e mask delta level s = (ip_recorded mask delta level s.1, s.2).
Proof.
  intros Hi. destruct s as [d w]. cbn [fst snd] in *. unfold ip_change_w, ip_recorded. cbv zeta.
  cbn [fst]. destruct (negb (new_IP mask level d =? IP_last_state d)); [|reflexivity].
  set (d1 := d <| IPCR ::= _ |> <| IPCR ::= _ |> <| IPCR ::= _ |>).
  assert (ISR d1 = ISR d) as E1 by reflexivity. 
  change (dev _ (d, w)) with (d1, w). clearbody d1.
  assert (set_ISR_bits INT_INPUT_PORT_CHANGE (d1, w) = (d1, w)) as -> by (apply set_ISR_no_recursion; cbn [fst]; by rewrite E1).
  by destruct (test (ACR (d1, w).1) mask).
Qed.

Lemma ip2_no_recursion (op op' : Z -> St -> St) level (s : St) :
  test (ISR s.1) INT_INPUT_PORT_CHANGE = true ->
  @ip2_w (world I) (board_env op) level s = @ip2_w (world I) (board_env op') level s.
Proof.
  intros Hi. unfold ip2_w, unless_coldfire.
  pose proof (ip_change_no_recursion (board_env op) 0x04 0x40 level s Hi) as E.
  pose proof (ip_change_no_recursion (board_env op') 0x04 0x40 level s Hi) as E'.
  rewrite E, E'. reflexivity.
Qed.
(** The status bit, in a state. *)
Definition change_reported (s : St) : Prop := test (ISR s.1) INT_INPUT_PORT_CHANGE = true.

Lemma miso_eq op level (c : sdcard I) (s : St) : miso op level (c, s) =
  let '(d, w) := @ip2_w (world I) (board_env op) level (s.1, s.2 <| w_card := c |>) in Some (w_card w, (d, w)).
Proof. by destruct s. Qed.

Lemma miso_no_recursion op op' level (c : sdcard I) (s : St) : change_reported s ->
  miso op level (c, s) = miso op' level (c, s).
Proof.
  intros Hi. rewrite !miso_eq. by rewrite (ip2_no_recursion op op' level (s.1, s.2 <| w_card := c |>) Hi).
Qed.

Lemma card_clock_no_recursion op op' level (s : St) : change_reported s ->
  card_clock op level s = card_clock op' level s.
Proof.
  intros Hi. unfold card_clock.
  assert (spi_clock_w (miso op) level (w_card s.2, s) = spi_clock_w (miso op') level (w_card s.2, s)) as ->; [|done].
  unfold spi_clock_w, shift_out. by rewrite (miso_no_recursion op op' _ _ s Hi).
Qed.

Lemma handlers_no_recursion op op' v (s : St) : change_reported s ->
  outport_handlers op v s = outport_handlers op' v s.
Proof. intros Hi. unfold outport_handlers. cbv zeta. by rewrite (card_clock_no_recursion op op'). Qed.

(** Two handlers that agree once the change is reported. *)
Section Agreement.
Context (op op' : Z -> St -> St) (Hop : forall v s, change_reported s -> op v s = op' v s).

Lemma update_interrupts_agree (s : St) : change_reported s ->
  @update_interrupts (world I) (board_env op) s = @update_interrupts (world I) (board_env op') s.
Proof.
  intros Hi. unfold update_interrupts.
  assert (@base_update_interrupts (world I) (board_env op) s = @base_update_interrupts (world I) (board_env op') s)
    as ->; [|reflexivity].
  unfold base_update_interrupts. cbv zeta.
  change (@write_irq (world I) (board_env op)) with board_irq. change (@write_irq (world I) (board_env op')) with board_irq.
  change (@write_outport (world I) (board_env op)) with op. change (@write_outport (world I) (board_env op')) with op'.
  match goal with |- (if test (OPCR ?x.1) _ then _ else _) = _ => set (s1 := x) end.
  assert (change_reported s1) as H1.
  { subst s1. destruct s as [d w]. cbn [fst]. destruct (irq_pending d), (m_irq_state d); exact Hi. }
  clearbody s1. destruct (test (OPCR s1.1) 0xf0); [|reflexivity]. apply Hop.
  destruct s1 as [d w]. unfold change_reported, dev in *. cbn [fst] in *.
  unfold follow. repeat match goal with |- context [bit_set ?a ?b] => destruct (bit_set a b) end; exact H1.
Qed.

Lemma set_ISR_agree (s : St) :
  @set_ISR_bits (world I) (board_env op) INT_INPUT_PORT_CHANGE s =
  @set_ISR_bits (world I) (board_env op') INT_INPUT_PORT_CHANGE s.
Proof.
  unfold set_ISR_bits. destruct (negb (test (ISR s.1) INT_INPUT_PORT_CHANGE)); [|reflexivity].
  apply update_interrupts_agree. destruct s as [d w]. unfold change_reported, dev. cbn [fst].
  change (test (set_bits 0x80 (ISR d)) 0x80 = true). rewrite test_80, testbit_set_bits by lia.
  change (Z.testbit 0x80 7) with true. apply orb_true_r.
Qed.

Lemma ip2_agree level (s : St) :
  @ip2_w (world I) (board_env op) level s = @ip2_w (world I) (board_env op') level s.
Proof.
  unfold ip2_w, unless_coldfire.
  assert (@ip_change_w (world I) (board_env op) 4 64 level s = @ip_change_w (world I) (board_env op') 4 64 level s)
    as ->; [|reflexivity].
  unfold ip_change_w. cbv zeta. by rewrite set_ISR_agree.
Qed.

Lemma card_clock_agree level (s : St) : card_clock op level s = card_clock op' level s.
Proof.
  unfold card_clock.
  assert (spi_clock_w (miso op) level (w_card s.2, s) = spi_clock_w (miso op') level (w_card s.2, s)) as E;
    [|by rewrite E].
  unfold spi_clock_w, shift_out. by rewrite !miso_eq, ip2_agree.
Qed.

Lemma handlers_agree v (s : St) : outport_handlers op v s = outport_handlers op' v s.
Proof. unfold outport_handlers. cbv zeta. rewrite card_clock_agree. reflexivity. Qed.
End Agreement.

(** C20: The callbacks between the output port, the card and the input port end:
    an output-port write comes back to itself at most once, since the input
    change it is due to is then already reported.  Any deeper fuel gives
    the state [board_outport] gives. *)
Theorem recursion_is_bounded fuel v (s : St) : outport (2 + fuel) v s = board_outport v s.
Proof.
  unfold board_outport. cbn [Nat.add outport]. apply handlers_agree. clear v s. intros v s Hi.
  destruct fuel as [|fuel]; cbn [outport]; [done|].
  by apply handlers_no_recursion.
Qed.
End Wiring.

(** ** Input changes, on the boards and elsewhere *)

(** C37: An edge on one of the inputs IP0 to IP3 (IP0 alone on the MCF5206E,
    which ignores the others) is reported once: the port shows the new level
    and keeps the others, the change bit of IPCR goes up next to the current
    levels, and the input-port-change interrupt is raised if ACR enables it
    for the pin.  Reading IPCR returns this and leaves only the levels, with
    the interrupt down, so that the next read reports nothing.  What the
    board must not do is move an input of the chip from inside the interrupt
    line, or from inside the output port while OPCR makes an output pin
    follow the interrupt status; the card of the rosco boards answers on IP2
    from inside the output port, so there OPCR must leave OP4 to OP7 plain
    outputs, as after a reset. *)
Theorem input_change_reported_once {W : Type} `{DuartEnvLaws W} n v (s : duart * W) :
  (forall v (s : duart * W), inputs (write_irq v s).1 = inputs s.1) ->
  test (OPCR s.1) 0xf0 = false \/ (forall v (s : duart * W), inputs (write_outport v s).1 = inputs s.1) ->
  (n < 4)%nat -> (n = 0%nat \/ kind s.1 <> MCF5206E_UART) -> v = CLEAR_LINE \/ v = ASSERT_LINE ->
  is_u8 (IP_last_state s.1) -> Z.testbit (IP_last_state s.1) (Z.of_nat n) <> (v =? ASSERT_LINE) ->
  let s1 := ip_w n v s in
  (forall k, 0 <= k < 8 -> Z.testbit (IP_last_state s1.1) k =
     if k =? Z.of_nat n then v =? ASSERT_LINE else Z.testbit (IP_last_state s.1) k) /\
  Z.testbit (IPCR s1.1) (Z.of_nat n + 4) = true /\
  Z.land (IPCR s1.1) 0x0f = Z.land (IP_last_state s1.1) 0x0f /\
  Z.testbit (ISR s1.1) 7 = Z.testbit (ISR s.1) 7 || Z.testbit (ACR s.1) (Z.of_nat n) /\
  let '(r, s2) := base_read 4 s1 in
  r = IPCR s1.1 /\ Z.testbit (ISR s2.1) 7 = false /\
  (base_read 4 s2).1 = Z.land (IP_last_state s1.1) 0x0f.
Proof.
  intros Hirq Hf Hn Hk Hv Ht Hne s1. subst s1. rewrite ip_w_latched by done.
  set (ip := new_IP (2 ^ Z.of_nat n) v s.1).
  assert (forall k, 0 <= k < 8 -> Z.testbit ip k =
     if k =? Z.of_nat n then v =? ASSERT_LINE else Z.testbit (IP_last_state s.1) k) as Hip
    by (intros k Hb; apply new_IP_bits; lia || done).
  assert (ip <> IP_last_state s.1) as Hch.
  { intros E. apply Hne. rewrite <- E, Hip by lia. by rewrite Z.eqb_refl. }
  destruct (ip_change_inputs Hirq n v s Hf Hn Hch) as [Hf1 E]. fold ip in E.
  set (s1 := ip_change_w _ _ v s) in *. clearbody s1.
  assert (IPCR s1.1 = set_bits (2 ^ (Z.of_nat n + 4)) (set_bits (Z.land ip 0x0f) (clear_bits 0x0f (IPCR s.1)))
          /\ IP_last_state s1.1 = ip
          /\ Z.testbit (ISR s1.1) 7 = Z.testbit (ISR s.1) 7 || Z.testbit (ACR s.1) (Z.of_nat n)) as (E1 & E2 & E3)
    by exact (conj (f_equal (fun x => x.1.1) E) (conj (f_equal (fun x => x.1.2) E) (f_equal snd E))).
  rewrite E2. split; [exact Hip|].
  assert (Z.land (IPCR s1.1) 0x0f = Z.land ip 0x0f) as El.
  { rewrite E1. apply u8_ext; [by apply u8_land_r|by apply u8_land_r|]. intros k Hb.
    rewrite !Z.land_spec, !testbit_set_bits, testbit_clear_bits, Z.land_spec, Z.pow2_bits_eqb by lia.
    destruct (Z.testbit 0x0f k) eqn:Ek; [|by rewrite !andb_false_r]. rewrite !andb_true_r, andb_false_r.
    destruct (Z.eqb_spec (Z.of_nat n + 4) k) as [<-|]; [|by rewrite orb_false_r].
    exfalso. change 0x0f with (Z.ones 4) in Ek. rewrite Z.ones_spec_high in Ek by lia. done. }
  split; [rewrite E1, testbit_set_bits, Z.pow2_bits_true by lia; by rewrite orb_true_r|].
  split; [exact El|]. split; [exact E3|].
  change (base_read 4 s1) with (IPCR s1.1, clear_ISR_bits INT_INPUT_PORT_CHANGE (dev (fun d => d <| IPCR ::= fun i => Z.land i 0x0f |>) s1)).
  cbv iota beta. set (s2 := clear_ISR_bits _ _). split; [done|].
  assert (no_feedback (dev (fun d => d <| IPCR ::= fun i => Z.land i 0x0f |>) s1)) as Hf2 by (by destruct s1).
  pose proof (clear_ISR7_inputs Hirq _ Hf2) as E4.
  fold s2 in E4. split; [exact (f_equal snd E4)|].
  change (base_read 4 s2).1 with (IPCR s2.1). rewrite <- El. clearbody s2.
  injection E4 as -> _ _. by destruct s1.
Qed.

(** The card-data pin of a rosco board, with its interrupt enabled: the card
    is wired to the output port, the interrupt to the processor. *)
Definition plain_board : duart * world (option memdisk) :=
  (new_duart XR68C681 blank_duart <| ACR := 0x04 |> <| IMR := 0x80 |>,
   mk_world (spi_ss_w 1 (new_sdcard None)) false 0 0 0 [] [] zero false).

Lemma input_change_reported_once_witness :
  let s1 := @ip_w _ (board (I := option memdisk)) 2 1 plain_board in
  Z.testbit (IPCR s1.1) 6 = true /\ Z.testbit (ISR s1.1) 7 = true /\ w_irq s1.2 = 1.
Proof.
  destruct (@input_change_reported_once (world (option memdisk)) board board_laws 2 1 plain_board)
    as (_ & E1 & _ & E2 & _); [by intros v s|by left|lia|by right|by right|by split|done|].
  split; [exact E1|]. split; [exact E2|]. vm_compute. reflexivity.
Defined.
