(* ===== verification/BoardSpi.v ===== *)
(** * BoardSpi: bit-banged SPI on the rosco boards

    The host drives the card through the DUART's output port and reads it on
    the input port: three register writes and a read per bit.  Eight bits are
    one exchange of SdSpi, so whole sessions with the card can be run from
    the DUART's registers. *)

From stdpp Require Import base tactics numbers option list.
From Stdlib Require Import ZArith Lia Bool.
From S2P Require Import Prelude Attotime Scheduler Serial Duart DuartInv DuartFacts Crc16 Harddisk SdCard SdCsd SdSpi SdSession SdTransfer Board.

(** ** The driver *)

Section Driver.
Context {W : Type} `{DuartEnv W}.

(** The output pins are the complement of OPR. *)
Definition pins_high (mask : Z) (s : duart * W) : duart * W := Duart.write 0x0f mask s.
Definition pins_low (mask : Z) (s : duart * W) : duart * W := Duart.write 0x0e mask s.

Definition SPI_SCK : Z := 0x10.
Definition SPI_COPI : Z := 0x40.

(** One bit: the level of the data-out line while the clock is high. *)
Definition bang_bit (b : Z) (s : duart * W) : Z * (duart * W) :=
  let s := if b =? 0 then pins_low SPI_COPI s else pins_high SPI_COPI s in
  let s := pins_high SPI_SCK s in
  let '(ip, s) := Duart.read 0x0d s in
  (BIT ip 2, pins_low SPI_SCK s).

(** One byte, most significant bit first. *)
Fixpoint bang_bits (k : nat) (byte : Z) (s : duart * W) : list Z * (duart * W) :=
  match k with
  | O => ([], s)
  | S k => let '(x, s) := bang_bit (BIT byte (Z.of_nat k)) s in
           let '(xs, s) := bang_bits k byte s in (x :: xs, s)
  end.

Definition from_bits (l : list Z) : Z := fold_left (fun x b => 2 * x + b) l 0.
Definition bang_byte (byte : Z) (s : duart * W) : Z * (duart * W) :=
  let '(xs, s) := bang_bits 8 byte s in (from_bits xs, s).

Fixpoint bang_session (bs : list Z) (s : duart * W) : list Z * (duart * W) :=
  match bs with
  | [] => ([], s)
  | b :: bs => let '(x, s) := bang_byte b s in
               let '(xs, s) := bang_session bs s in (x :: xs, s)
  end.
End Driver.

Section Bang.
Context {I : Type} `{BlockImage I}.
#[local] Abbreviation St := (duart * world I)%type.
#[local] Existing Instance board.

(** ** The chip around an input change *)

(** OP4 to OP7 are plain outputs (the reset value of OPCR), the card is
    selected and its clock is low. *)
Record spi_idle (s : St) : Prop := mk_spi_idle {
  idle_kind : kind s.1 = XR68C681;
  idle_opcr : test (OPCR s.1) 0xf0 = false;
  idle_select : Z.testbit (OPR s.1) 2 = true;
  idle_clock : Z.testbit (OPR s.1) 4 = true;
  idle_ss : m_ss (w_card s.2) = 1;
  idle_clk : m_clk_state (w_card s.2) = 0
}.

(** The level of input pin 2, and whether it is the bit the card sends next:
    the card drives the line when its clock falls only, not when it is
    selected, so that before the first bit the pin has its old level. *)
Definition spi_line (s : St) : bool := Z.testbit (IP_last_state s.1) 2.
Definition spi_sync (s : St) : Prop := spi_line s = Z.testbit (m_out_latch (w_card s.2)) 7.

(** What an input change leaves alone, the last input state apart. *)
Definition settled_part (s : St) := (kind s.1, OPCR s.1, OPR s.1, w_card s.2, w_fault s.2).

Lemma base_update_plain (e : DuartEnv (world I)) (s : St) :
  (forall v s, @write_irq _ e v s = board_irq v s) -> test (OPCR s.1) 0xf0 = false ->
  let s' := @base_update_interrupts _ e s in
  settled_part s' = settled_part s /\ IP_last_state s'.1 = IP_last_state s.1.
Proof.
  intros He Ho s'. subst s'. unfold base_update_interrupts. cbv zeta. rewrite !He.
  destruct s as [d w]. cbn [fst snd] in *.
  destruct (irq_pending d), (m_irq_state d); cbn [negb];
    match goal with |- context [if test (OPCR ?x) 0xf0 then _ else _] => change (OPCR x) with (OPCR d) end;
    rewrite Ho; done.
Qed.

Lemma update_interrupts_plain (e : DuartEnv (world I)) (s : St) :
  (forall v s, @write_irq _ e v s = board_irq v s) -> test (OPCR s.1) 0xf0 = false ->
  settled_part (@update_interrupts _ e s) = settled_part s.
Proof.
  intros He Ho. destruct (base_update_plain e s He Ho) as [E _]. unfold update_interrupts.
  destruct (base_update_interrupts s) as [d w]. destruct (has_read_vector _ && _); exact E.
Qed.

Lemma ip2_plain (op : Z -> St -> St) level (s : St) :
  kind s.1 = XR68C681 -> test (OPCR s.1) 0xf0 = false ->
  let s' := @ip2_w _ (board_env op) level s in
  settled_part s' = settled_part s /\ IP_last_state s'.1 = new_IP 4 level s.1.
Proof.
  intros Hk Ho s'. subst s'. unfold ip2_w, unless_coldfire. rewrite Hk. unfold ip_change_w. cbv zeta.
  match goal with |- context [dev (fun d => d <| IP_last_state := _ |>) ?x] => set (y := x) end.
  assert (settled_part y = settled_part s) as E; [|split; [exact E|reflexivity]].
  subst y. destruct (negb _); [|reflexivity].
  match goal with |- context [set_ISR_bits _ ?x] => set (z := x) end.
  assert (settled_part z = settled_part s) as E by reflexivity.
  assert (test (OPCR z.1) 0xf0 = false) as Hz by exact Ho. clearbody z.
  destruct (test (ACR z.1) 4); [|exact E]. unfold set_ISR_bits.
  destruct (negb _); [|exact E].
  set (z' := dev _ z). assert (settled_part z' = settled_part s) as E' by exact E.
  assert (test (OPCR z'.1) 0xf0 = false) as Hz' by exact Hz. clearbody z'. rewrite <- E'.
  by apply (update_interrupts_plain (board_env op)).
Qed.

(** ** One write of the output port *)

Lemma card_clock_same op level (s : St) : level = m_clk_state (w_card s.2) -> u8 level = level ->
  exists w, card_clock op level s = (s.1, w) /\ w_card w = w_card s.2 /\ w_fault w = w_fault s.2.
Proof.
  intros E Eu. destruct s as [d w]. cbn [fst snd] in *. unfold card_clock, spi_clock_w. cbn [snd].
  rewrite <- E, Z.eqb_refl. cbn [negb]. rewrite andb_false_r. eexists. split; [reflexivity|].
  split; [|reflexivity]. change (w_card w <| m_clk_state := u8 level |> = w_card w).
  rewrite Eu, E. by destruct (w_card w).
Qed.

Lemma card_clock_rise op (s : St) c1 : m_ss (w_card s.2) = 1 -> m_clk_state (w_card s.2) = 0 ->
  latch_in (w_card s.2) = Some c1 ->
  exists w, card_clock op 1 s = (s.1, w) /\ w_card w = c1 <| m_clk_state := 1 |> /\ w_fault w = w_fault s.2.
Proof.
  intros Es Ec El. destruct s as [d w]. cbn [fst snd] in *. unfold card_clock, spi_clock_w. cbn [snd].
  rewrite Es, Ec, El. eexists. split; [reflexivity|]. by split.
Qed.

Lemma card_clock_fall op (s : St) : kind s.1 = XR68C681 -> test (OPCR s.1) 0xf0 = false ->
  m_ss (w_card s.2) = 1 -> m_clk_state (w_card s.2) = 1 ->
  exists d w, card_clock op 0 s = (d, w) /\ w_card w = shift (w_card s.2) <| m_clk_state := 0 |> /\
    w_fault w = w_fault s.2 /\ (kind d, OPCR d, OPR d) = (kind s.1, OPCR s.1, OPR s.1) /\
    IP_last_state d = new_IP 4 (BIT (m_out_latch (shift (w_card s.2))) 7) s.1.
Proof.
  intros Hk Ho Es Ec. unfold card_clock, spi_clock_w, shift_out. rewrite Es, Ec. cbn [Z.eqb negb andb].
  rewrite miso_eq. generalize (shift (w_card s.2)). intros c.
  pose proof (ip2_plain op (BIT (m_out_latch c) 7) (s.1, s.2 <| w_card := c |>) Hk Ho) as P. cbv zeta in P.
  destruct (ip2_w _ _) as [d w]. destruct P as [P1 P2]. unfold settled_part in P1. cbn [fst snd] in P1, P2.
  injection P1 as E1 E2 E3 E4 E5. exists d, (w <| w_card := w_card w <| m_clk_state := 0 |> |>).
  split; [reflexivity|]. split; [exact (f_equal (fun c => c <| m_clk_state := 0 |>) E4)|].
  split; [exact E5|]. split; [by rewrite E1, E2, E3|exact P2].
Qed.

(** The write up to the clock. *)
Lemma handlers_split op v (s : St) : m_ss (w_card s.2) = 1 -> Z.testbit v 2 = false ->
  exists s1, outport_handlers op v s = on_card (spi_mosi_w (BIT v 6)) (card_clock op (BIT v 4) s1) /\
    s1.1 = s.1 /\ w_card s1.2 = w_card s.2 /\ w_fault s1.2 = w_fault s.2.
Proof.
  intros Es Ev. unfold outport_handlers. cbv zeta. eexists. split; [reflexivity|].
  rewrite (BIT_testbit v 2), Ev by lia. split; [reflexivity|]. split; [|reflexivity].
  destruct s as [d w]. cbn [snd] in Es. change (spi_ss_w 1 (w_card w) = w_card w).
  generalize dependent (w_card w). intros c Es. unfold spi_ss_w. rewrite Es. cbn [Z.eqb andb].
  destruct c. cbn in *. by subst.
Qed.

Lemma on_card_card f (s : St) : w_card (on_card f s).2 = f (w_card s.2) /\ w_fault (on_card f s).2 = w_fault s.2 /\
  (on_card f s).1 = s.1.
Proof. by split. Qed.

(** The three ways the clock can go. *)
Lemma outport_same op v (s : St) : m_ss (w_card s.2) = 1 -> Z.testbit v 2 = false -> m_clk_state (w_card s.2) = BIT v 4 ->
  let s' := outport_handlers op v s in
  s'.1 = s.1 /\ w_card s'.2 = spi_mosi_w (BIT v 6) (w_card s.2) /\ w_fault s'.2 = w_fault s.2.
Proof.
  intros Es Ev Ec. destruct (handlers_split op v s Es Ev) as (s1 & E & E1 & E2 & E3). cbv zeta. rewrite E.
  destruct (on_card_card (spi_mosi_w (BIT v 6)) (card_clock op (BIT v 4) s1)) as (-> & -> & ->).
  destruct (card_clock_same op (BIT v 4) s1) as (w & -> & F1 & F2); [congruence|
    rewrite BIT_testbit by lia; by destruct (Z.testbit v 4)|]. cbn [fst snd]. by rewrite F1, F2, E1, E2, E3.
Qed.

Lemma outport_rise op v (s : St) c1 : m_ss (w_card s.2) = 1 -> Z.testbit v 2 = false -> BIT v 4 = 1 ->
  m_clk_state (w_card s.2) = 0 -> latch_in (w_card s.2) = Some c1 ->
  let s' := outport_handlers op v s in
  s'.1 = s.1 /\ w_card s'.2 = spi_mosi_w (BIT v 6) (c1 <| m_clk_state := 1 |>) /\ w_fault s'.2 = w_fault s.2.
Proof.
  intros Es Ev E4 Ec El. destruct (handlers_split op v s Es Ev) as (s1 & E & E1 & E2 & E3). cbv zeta. rewrite E, E4.
  destruct (on_card_card (spi_mosi_w (BIT v 6)) (card_clock op 1 s1)) as (-> & -> & ->).
  destruct (card_clock_rise op s1 c1) as (w & -> & F1 & F2); [congruence..|]. cbn [fst snd]. by rewrite F1, F2, E1, E3.
Qed.

Lemma outport_fall op v (s : St) : kind s.1 = XR68C681 -> test (OPCR s.1) 0xf0 = false ->
  m_ss (w_card s.2) = 1 -> Z.testbit v 2 = false -> BIT v 4 = 0 -> m_clk_state (w_card s.2) = 1 ->
  let s' := outport_handlers op v s in
  (kind s'.1, OPCR s'.1, OPR s'.1) = (kind s.1, OPCR s.1, OPR s.1) /\
  IP_last_state s'.1 = new_IP 4 (BIT (m_out_latch (shift (w_card s.2))) 7) s.1 /\
  w_card s'.2 = spi_mosi_w (BIT v 6) (shift (w_card s.2) <| m_clk_state := 0 |>) /\ w_fault s'.2 = w_fault s.2.
Proof.
  intros Hk Ho Es Ev E4 Ec. destruct (handlers_split op v s Es Ev) as (s1 & E & E1 & E2 & E3). cbv zeta. rewrite E, E4.
  destruct (on_card_card (spi_mosi_w (BIT v 6)) (card_clock op 0 s1)) as (-> & -> & ->).
  destruct (card_clock_fall op s1) as (d & w & -> & F1 & F2 & F3 & F4); [congruence..|].
  cbn [fst snd]. rewrite F1, F2, F3, F4, E1, E2, E3. done.
Qed.

(** ** The registers *)

Lemma pins_low_eq mask (s : St) : kind s.1 = XR68C681 ->
  pins_low mask s = board_outport (Z.lxor (set_bits mask (OPR s.1)) 0xff) (dev (fun d => d <| OPR ::= set_bits mask |>) s).
Proof. intros Hk. unfold pins_low, Duart.write. rewrite Hk. reflexivity. Qed.
Lemma pins_high_eq mask (s : St) : kind s.1 = XR68C681 ->
  pins_high mask s = board_outport (Z.lxor (clear_bits mask (OPR s.1)) 0xff) (dev (fun d => d <| OPR ::= clear_bits mask |>) s).
Proof. intros Hk. unfold pins_high, Duart.write. rewrite Hk. reflexivity. Qed.

Lemma read_input_port (s : St) : kind s.1 = XR68C681 ->
  exists ip, Duart.read 0x0d s = (ip, s) /\ Z.testbit ip 2 = Z.testbit (IP_last_state s.1) 2.
Proof.
  intros Hk. unfold Duart.read. rewrite Hk.
  assert (xr68c681_read 0x0d s = (if m_read_vector s.1 then clear_bits 0x40 (Z.lor (IP_last_state s.1) 0x80)
            else set_bits 0x40 (Z.lor (IP_last_state s.1) 0x80), s)) as -> by reflexivity.
  eexists. split; [reflexivity|].
  destruct (m_read_vector s.1); rewrite ?testbit_clear_bits, ?testbit_set_bits, Z.lor_spec by lia;
    change (Z.testbit 0x80 2) with false; change (Z.testbit 0x40 2) with false;
    by rewrite ?andb_true_r, !orb_false_r.
Qed.

Lemma pin_value x n : 0 <= n < 8 -> BIT (Z.lxor x 0xff) n = b2z (negb (Z.testbit x n)).
Proof.
  intros Hn. rewrite BIT_testbit, Z.lxor_spec by lia. f_equal.
  change 0xff with (Z.ones 8). rewrite Z.ones_spec_low by lia. by destruct (Z.testbit x n).
Qed.
Lemma pin_testbit x n : 0 <= n < 8 -> Z.testbit (Z.lxor x 0xff) n = negb (Z.testbit x n).
Proof.
  intros Hn. rewrite Z.lxor_spec. change 0xff with (Z.ones 8). rewrite Z.ones_spec_low by lia. by destruct (Z.testbit x n).
Qed.

(** ** One bit *)

(** The card a bit takes to another one. *)
Definition card_bit (b : Z) (c c' : sdcard I) : Prop :=
  exists c1, latch_in (spi_mosi_w b c) = Some c1 /\ c' = shift c1 <| m_clk_state := 0 |>.

Lemma bit_cycle_card b (c c' : sdcard I) w w' : m_ss c <> 0 -> m_clk_state c = 0 ->
  bit_cycle b (c, w) = Some (c', w') -> card_bit b c c' /\ w' = w ++ [BIT (m_out_latch c') 7].
Proof.
  intros Hs Hc. unfold bit_cycle. cbn [fst snd]. rewrite clock_rise by done.
  destruct (latch_in (spi_mosi_w b c)) as [c1|] eqn:El; [|done].
  assert (m_ss c1 = m_ss c) as Es.
  { rewrite latch_in_regs in El. destruct (_ =? 8).
    - apply receive_byte_fixed in El. exact (f_equal (fun f => f.1.1.1.1) El).
    - injection El as <-. done. }
  rewrite clock_fall; [|change (m_ss c1 <> 0); by rewrite Es|done].
  rewrite shift_clk. intros E.
  assert (card_bit b c (shift c1 <| m_clk_state := 0 |>)) as B by (by exists c1).
  revert E B. generalize (shift c1). intros c2. rewrite clk_twice. intros [= <- <-] B. by split.
Qed.

Lemma latch_in_fixed b (c c1 : sdcard I) : latch_in (spi_mosi_w b c) = Some c1 ->
  m_ss c1 = m_ss c /\ m_clk_state c1 = m_clk_state c /\ m_in_bit c1 = u8 b.
Proof.
  rewrite latch_in_regs. destruct (_ =? 8).
  - intros E. apply receive_byte_fixed in E.
    split; [exact (f_equal (fun f => f.1.1.1.1) E)|]. split; [exact (f_equal (fun f => f.1.2) E)|].
    exact (f_equal (fun f => f.2.2) E).
  - by intros [= <-].
Qed.

(** Writing the data line again. *)
Lemma mosi_again b (c : sdcard I) : m_in_bit c = u8 b -> spi_mosi_w b c = c.
Proof. intros E. unfold spi_mosi_w. rewrite <- E. by destruct c. Qed.

Lemma shift_in_bit (c : sdcard I) : m_in_bit (shift c) = m_in_bit c /\ m_ss (shift c) = m_ss c.
Proof. rewrite shift_load. unfold load. by repeat case_match. Qed.
Lemma clk_after_clk (c : sdcard I) v v' : c <| m_clk_state := v |> <| m_clk_state := v' |> = c <| m_clk_state := v' |>.
Proof. reflexivity. Qed.

Lemma new_IP_bit2 level d : level = 0 \/ level = 1 -> Z.testbit (new_IP 4 level d) 2 = (level =? 1).
Proof.
  intros Hl. unfold new_IP. rewrite testbit_u8, Z.lor_spec, Z.land_spec, Z.lnot_spec by lia.
  change (Z.testbit 4 2) with true. rewrite andb_false_r. by destruct Hl as [-> | ->].
Qed.

(** The data line: the pin shows [b], the card has it. *)
Lemma bang_data b (s : St) : spi_idle s -> b = 0 \/ b = 1 ->
  let s1 := if b =? 0 then pins_low SPI_COPI s else pins_high SPI_COPI s in
  spi_idle s1 /\ w_card s1.2 = spi_mosi_w b (w_card s.2) /\ w_fault s1.2 = w_fault s.2 /\
  Z.testbit (OPR s1.1) 6 = (b =? 0) /\ spi_line s1 = spi_line s.
Proof.
  intros [Hk Ho H2 H4 Hs Hc] Hb s1.
  assert (exists o, s1 = board_outport (Z.lxor o 0xff) (dev (fun d => d <| OPR := o |>) s) /\
    Z.testbit o 2 = true /\ Z.testbit o 4 = true /\ Z.testbit o 6 = (b =? 0)) as (o & E & O2 & O4 & O6).
  { subst s1. destruct Hb as [-> | ->]; cbn [Z.eqb].
    - exists (set_bits SPI_COPI (OPR s.1)). rewrite pins_low_eq by done. split; [reflexivity|].
      unfold SPI_COPI. rewrite !testbit_set_bits, H2, H4 by lia.
      change (Z.testbit 0x40 6) with true. by rewrite orb_true_r.
    - exists (clear_bits SPI_COPI (OPR s.1)). rewrite pins_high_eq by done. split; [reflexivity|].
      unfold SPI_COPI. rewrite !testbit_clear_bits, H2, H4 by lia.
      change (Z.testbit 0x40 6) with true. by rewrite andb_false_r. }
  rewrite E. set (t := dev (fun d => d <| OPR := o |>) s).
  pose proof (outport_same (outport 1) (Z.lxor o 0xff) t) as P.
  rewrite !pin_value, pin_testbit, O2, O4, O6 in P by lia.
  destruct P as (P1 & P2 & P3); [done..|].
  assert (b2z (negb (b =? 0)) = b) as Eb by (by destruct Hb as [-> | ->]). rewrite Eb in P2.
  change (outport_handlers (outport 1) (Z.lxor o 0xff) t) with (board_outport (Z.lxor o 0xff) t) in *.
  generalize dependent (board_outport (Z.lxor o 0xff) t). intros s2 P1 P2 P3. 
  split; [|split; [exact P2|split; [exact P3|split; [by rewrite P1|by unfold spi_line; rewrite P1]]]].
  split; rewrite ?P1, ?P2; done.
Qed.

(** The clock goes up: the bit is latched. *)
Lemma bang_up b (s : St) c1 : spi_idle s -> latch_in (w_card s.2) = Some c1 -> m_in_bit (w_card s.2) = u8 b ->
  Z.testbit (OPR s.1) 6 = (b =? 0) -> b = 0 \/ b = 1 ->
  let s1 := pins_high SPI_SCK s in
  w_card s1.2 = c1 <| m_clk_state := 1 |> /\ w_fault s1.2 = w_fault s.2 /\
  s1.1 = s.1 <| OPR := clear_bits SPI_SCK (OPR s.1) |>.
Proof.
  intros [Hk Ho H2 H4 Hs Hc] El Ein E6 Hb s1. subst s1. rewrite pins_high_eq by done.
  set (t := dev _ s). set (o := clear_bits SPI_SCK (OPR s.1)).
  assert (Z.testbit o 2 = true /\ Z.testbit o 4 = false /\ Z.testbit o 6 = (b =? 0)) as (O2 & O4 & O6).
  { subst o. unfold SPI_SCK. rewrite !testbit_clear_bits, H2, E6 by lia.
    change (Z.testbit 0x10 6) with false. change (Z.testbit 0x10 2) with false. change (Z.testbit 0x10 4) with true.
    by rewrite andb_false_r, !andb_true_r. }
  pose proof (outport_rise (outport 1) (Z.lxor o 0xff) t c1) as P.
  rewrite !pin_value, pin_testbit, O2, O4, O6 in P by lia.
  destruct P as (P1 & P2 & P3); [done..|].
  assert (b2z (negb (b =? 0)) = b) as Eb by (by destruct Hb as [-> | ->]). rewrite Eb in P2.
  change (outport_handlers (outport 1) (Z.lxor o 0xff) t) with (board_outport (Z.lxor o 0xff) t) in *.
  split; [|split; [exact P3|exact P1]]. rewrite P2. apply mosi_again.
  change (m_in_bit c1 = u8 b). rewrite <- Ein.
  pose proof (latch_in_fixed b (w_card s.2) c1) as L. rewrite (mosi_again b (w_card s.2) Ein) in L.
  rewrite (proj2 (proj2 (L El))). done.
Qed.

(** The clock goes down: the card shifts and answers. *)
Lemma bang_down b (s : St) : kind s.1 = XR68C681 -> test (OPCR s.1) 0xf0 = false ->
  Z.testbit (OPR s.1) 2 = true -> Z.testbit (OPR s.1) 6 = (b =? 0) -> b = 0 \/ b = 1 ->
  m_ss (w_card s.2) = 1 -> m_clk_state (w_card s.2) = 1 -> m_in_bit (w_card s.2) = u8 b ->
  let s1 := pins_low SPI_SCK s in
  w_card s1.2 = shift (w_card s.2) <| m_clk_state := 0 |> /\ w_fault s1.2 = w_fault s.2 /\ spi_idle s1 /\ spi_sync s1.
Proof.
  intros Hk Ho H2 E6 Hb Hs Hc Ein s1. subst s1. rewrite pins_low_eq by done.
  set (t := dev _ s). set (o := set_bits SPI_SCK (OPR s.1)).
  assert (Z.testbit o 2 = true /\ Z.testbit o 4 = true /\ Z.testbit o 6 = (b =? 0)) as (O2 & O4 & O6).
  { subst o. unfold SPI_SCK. rewrite !testbit_set_bits, H2, E6 by lia.
    change (Z.testbit 0x10 6) with false. change (Z.testbit 0x10 4) with true. by rewrite orb_true_r, !orb_false_r. }
  pose proof (outport_fall (outport 1) (Z.lxor o 0xff) t) as P.
  rewrite !pin_value, pin_testbit, O2, O4, O6 in P by lia.
  destruct P as (P1 & P2 & P3 & P4); [done..|].
  assert (b2z (negb (b =? 0)) = b) as Eb by (by destruct Hb as [-> | ->]). rewrite Eb in P3.
  change (outport_handlers (outport 1) (Z.lxor o 0xff) t) with (board_outport (Z.lxor o 0xff) t) in *.
  change (w_card t.2) with (w_card s.2) in P2, P3. change (w_fault t.2) with (w_fault s.2) in P4.
  destruct (shift_in_bit (w_card s.2)) as [F1 F2]. revert P2 P3 F1 F2. generalize (shift (w_card s.2)).
  intros y P2 P3 F1 F2.
  rewrite (mosi_again b) in P3 by (etrans; [exact F1|exact Ein]).
  change (kind t.1, OPCR t.1, OPR t.1) with (kind s.1, OPCR s.1, o) in P1.
  set (x := board_outport (Z.lxor o 0xff) t) in *. clearbody x. clearbody t.
  apply (f_equal (fun f => f.1.1)) in P1 as K1. apply (f_equal (fun f => f.1.2)) in P1 as K2.
  apply (f_equal (fun f => f.2)) in P1 as K3. cbn [fst snd] in K1, K2, K3.
  split; [exact P3|]. split; [exact P4|]. split; [split; [congruence|congruence|congruence|congruence| |]|].
  - rewrite P3. etrans; [exact F2|exact Hs].
  - by rewrite P3.
  - unfold spi_sync, spi_line. rewrite P2, P3, new_IP_bit2 by (apply BIT_01; lia). apply BIT_is_1. lia.
Qed.

(** One bit of the driver is one bit of the card. *)
Lemma bang_bit_ok b (s : St) c' : spi_idle s -> b = 0 \/ b = 1 -> card_bit b (w_card s.2) c' ->
  exists s', bang_bit b s = (b2z (spi_line s), s') /\ (spi_idle s' /\ spi_sync s') /\
    w_card s'.2 = c' /\ w_fault s'.2 = w_fault s.2.
Proof.
  intros A Hb (c1 & El & ->). destruct (bang_data b s A Hb) as (A1 & C1 & F1 & E6 & Hline).
  unfold bang_bit. set (s1 := if b =? 0 then _ else _) in *. clearbody s1. cbv zeta.
  rewrite <- C1 in El.
  assert (m_in_bit (w_card s1.2) = u8 b) as Ein by (by rewrite C1).
  destruct (bang_up b s1 c1 A1 El Ein E6 Hb) as (C2 & F2 & D2).
  set (s2 := pins_high SPI_SCK s1) in *. clearbody s2.
  pose proof (latch_in_fixed b (w_card s1.2) c1) as L. rewrite (mosi_again b (w_card s1.2) Ein) in L.
  destruct (L El) as (L1 & L2 & L3). destruct A1 as [Hk Ho H2 H4 Hs Hc].
  destruct (read_input_port s2) as (ip & Er & Eip); [by rewrite D2|]. rewrite Er.
  destruct (bang_down b s2) as (C3 & F3 & A3); [by rewrite D2|by rewrite D2|..|done|
    by rewrite C2; etrans; [exact L1|exact Hs]|by rewrite C2|by rewrite C2|].
  - rewrite D2. change (Z.testbit (clear_bits 0x10 (OPR s1.1)) 2 = true).
    rewrite testbit_clear_bits, H2 by lia. done.
  - rewrite D2. change (Z.testbit (clear_bits 0x10 (OPR s1.1)) 6 = (b =? 0)).
    rewrite testbit_clear_bits, E6 by lia. change (Z.testbit 0x10 6) with false. by rewrite andb_true_r.
  - exists (pins_low SPI_SCK s2). split.
    + f_equal. rewrite BIT_testbit, Eip, D2 by lia. by rewrite <- Hline.
    + split; [done|]. split; [|congruence]. by rewrite C3, C2, shift_clk, clk_after_clk.
Qed.

(** ** Bytes and sessions *)

Lemma bang_bits_ok k byte : forall (s : St) c' w w', spi_idle s -> spi_sync s ->
  bit_cycles k byte (w_card s.2, w) = Some (c', w') ->
  exists xs lvs s', w' = w ++ lvs /\ bang_bits k byte s = (xs, s') /\ (spi_idle s' /\ spi_sync s') /\
    w_card s'.2 = c' /\ w_fault s'.2 = w_fault s.2 /\
    BIT (m_out_latch (w_card s.2)) 7 :: lvs = xs ++ [BIT (m_out_latch c') 7].
Proof.
  induction k as [|k IH]; intros s c' w w' A Y E; cbn [bit_cycles bang_bits] in *.
  - injection E as <- <-. exists [], [], s. by rewrite app_nil_r.
  - destruct (bit_cycle (BIT byte (Z.of_nat k)) (w_card s.2, w)) as [[c1 w1]|] eqn:E1; [|done].
    destruct (bit_cycle_card _ _ _ _ _ ltac:(by rewrite (idle_ss s A)) (idle_clk s A) E1) as [B ->].
    destruct (bang_bit_ok (BIT byte (Z.of_nat k)) s c1 A) as (s1 & Eb & [A1 Y1] & C1 & F1); [apply BIT_01; lia|done|].
    rewrite <- C1 in E. destruct (IH s1 c' _ w' A1 Y1 E) as (xs & lvs & s2 & -> & E2 & A2 & C2 & F2 & L).
    exists (BIT (m_out_latch (w_card s.2)) 7 :: xs), (BIT (m_out_latch c1) 7 :: lvs), s2.
    rewrite Eb, E2. split; [rewrite C1, <- app_assoc; reflexivity|].
    split; [by rewrite Y, <- BIT_testbit by lia|]. split; [done|]. split; [done|].
    split; [congruence|]. rewrite C1 in L. cbn [app]. by rewrite L.
Qed.

(** What the host reads of a byte whose first bit is the old level. *)
Definition stale_first (line : bool) (x : Z) : Z := 128 * b2z line + x mod 128.
Lemma from_bits_stale line x : is_u8 x -> from_bits (b2z line :: tl (byte_levels x)) = stale_first line x.
Proof.
  intros Hx. apply Z.eqb_eq. revert x Hx.
  apply (forall_u8 (fun x => from_bits (b2z line :: tl (byte_levels x)) =? stale_first line x)).
  destruct line; vm_compute; reflexivity.
Qed.
Lemma stale_first_sync x : is_u8 x -> stale_first (Z.testbit x 7) x = x.
Proof.
  intros Hx. apply Z.eqb_eq. revert x Hx. apply (forall_u8 (fun x => stale_first (Z.testbit x 7) x =? x)).
  vm_compute. reflexivity.
Qed.

Lemma exchange_out byte (c c' : sdcard I) out : exchange byte c = Some (out, c') -> out = m_out_latch c.
Proof.
  unfold exchange. cbv zeta. destruct (receive_byte _) as [c1|]; [|done].
  generalize (shift c1 <| m_clk_state := 0 |>). generalize (m_out_latch c). intros x y E.
  apply (f_equal (fun o => match o with Some p => p.1 | None => 0 end)) in E. exact (eq_sym E).
Qed.

Lemma bang_bits_step k byte (s s1 s2 : St) x xs : bang_bit (BIT byte (Z.of_nat k)) s = (x, s1) ->
  bang_bits k byte s1 = (xs, s2) -> bang_bits (S k) byte s = (x :: xs, s2).
Proof. intros E1 E2. cbn [bang_bits]. by rewrite E1, E2. Qed.

Lemma bang_byte_ok byte (s : St) out c' : spi_idle s -> aligned (w_card s.2) -> is_u8 byte ->
  exchange byte (w_card s.2) = Some (out, c') ->
  exists s', bang_byte byte s = (stale_first (spi_line s) out, s') /\ (spi_idle s' /\ spi_sync s') /\
    w_card s'.2 = c' /\ w_fault s'.2 = w_fault s.2.
Proof.
  intros A Al Hb E. pose proof (bit_cycles_exchange byte (w_card s.2) [] Hb Al) as Eb. rewrite E in Eb.
  cbn [bit_cycles] in Eb. change (Z.of_nat 7) with 7 in Eb.
  destruct (bit_cycle (BIT byte 7) (w_card s.2, [])) as [[c1 w1]|] eqn:E1; [|done].
  destruct (bit_cycle_card _ _ _ _ _ ltac:(by rewrite (idle_ss s A)) (idle_clk s A) E1) as [B ->].
  destruct (bang_bit_ok (BIT byte 7) s c1 A) as (s1 & Eb1 & [A1 Y1] & C1 & F1); [apply BIT_01; lia|done|].
  rewrite <- C1 in Eb.
  destruct (bang_bits_ok 7 byte s1 c' _ _ A1 Y1 Eb) as (xs & lvs & s' & El & Ex & A' & C' & F' & L).
  exists s'. unfold bang_byte. rewrite (bang_bits_step 7 byte s s1 s' _ xs Eb1 Ex).
  assert (xs ++ [BIT (m_out_latch c') 7] = levels 7 out ++ [BIT (m_out_latch c') 7]) as Ea by (rewrite <- L; exact (eq_sym El)).
  apply app_inj_tail in Ea as [-> _]. rewrite (exchange_out _ _ _ _ E).
  change (levels 7 (m_out_latch (w_card s.2))) with (tl (byte_levels (m_out_latch (w_card s.2)))).
  rewrite from_bits_stale by apply (al_out _ Al). split; [done|]. split; [done|]. split; [done|]. congruence.
Qed.

Lemma session_step b bs (c c' : sdcard I) xs : session (b :: bs) c = Some (xs, c') ->
  exists x c1 ys, exchange b c = Some (x, c1) /\ session bs c1 = Some (ys, c') /\ xs = x :: ys.
Proof.
  cbn [session]. destruct (exchange b c) as [[x c1]|]; [|done].
  destruct (session bs c1) as [[ys c2]|] eqn:E; [|done]. intros [= <- <-]. by exists x, c1, ys.
Qed.

Lemma bang_step b bs (s s1 s2 : St) x ys : bang_byte b s = (x, s1) -> bang_session bs s1 = (ys, s2) ->
  bang_session (b :: bs) s = (x :: ys, s2).
Proof. intros E1 E2. cbn [bang_session]. by rewrite E1, E2. Qed.

(** Only the first byte of a session can start with an old level. *)
Definition stale_session (line : bool) (xs : list Z) : list Z :=
  match xs with [] => [] | x :: xs => stale_first line x :: xs end.

Lemma synced_session bs : forall (s : St) xs c',
  spi_idle s -> aligned (w_card s.2) -> Forall is_u8 bs ->
  session bs (w_card s.2) = Some (xs, c') -> Forall is_u8 (xs ++ [m_out_latch c']) ->
  exists s', bang_session bs s = (stale_session (spi_line s) xs, s') /\ spi_idle s' /\
    (bs <> [] \/ spi_sync s -> spi_sync s') /\ w_card s'.2 = c' /\ w_fault s'.2 = w_fault s.2.
Proof.
  induction bs as [|b bs IH]; intros s xs c' A Al Hb E Hx.
  - injection E as <- <-. exists s. split; [done|]. split; [done|]. split; [by intros [|]|done].
  - apply Forall_cons in Hb as [Hb Hbs]. destruct (session_step b bs _ c' xs E) as (x & c1 & ys & E1 & E2 & ->).
    cbn [app] in Hx. apply Forall_cons in Hx as [Hx Hys].
    destruct (bang_byte_ok b s x c1 A Al Hb E1) as (s1 & Eb & [A1 Y1] & C1 & F1).
    destruct (exchange_aligned b (w_card s.2) c1 x Al E1 (session_latch bs c1 _ _ E2 Hys)) as [Al1 _].
    subst c1. destruct (IH s1 ys c' A1 Al1 Hbs E2 Hys) as (s2 & Es & A2 & Y2 & C2 & F2).
    assert (stale_session (spi_line s1) ys = ys) as E3.
    { destruct ys as [|y ys]; [done|]. cbn [stale_session]. f_equal.
      destruct bs as [|b2 bs]; [done|]. destruct (session_step b2 bs _ c' _ E2) as (y' & c2 & zs & Ey & _ & [= <- <-]).
      rewrite Y1, <- (exchange_out _ _ _ _ Ey). apply stale_first_sync. by apply Forall_cons in Hys as [? _]. }
    rewrite E3 in Es. exists s2. split; [exact (bang_step _ _ _ _ _ _ _ Eb Es)|]. split; [exact A2|].
    split; [intros _; apply Y2; by right|]. split; [exact C2|congruence].
Qed.

(** Selecting the card, its pin going low, makes the board ready for a session
    and leaves the line at its old level. *)
Definition SPI_CS : Z := 0x04.

Lemma card_selected (s : St) : kind s.1 = XR68C681 -> test (OPCR s.1) 0xf0 = false ->
  Z.testbit (OPR s.1) 4 = true -> m_clk_state (w_card s.2) = 0 ->
  let s' := pins_low SPI_CS s in
  spi_idle s' /\ spi_line s' = spi_line s /\ w_fault s'.2 = w_fault s.2 /\
  w_card s'.2 = spi_mosi_w (b2z (negb (Z.testbit (OPR s.1) 6))) (spi_ss_w 1 (w_card s.2)).
Proof.
  intros Hk Ho H4 Hc s'. subst s'. rewrite pins_low_eq by done.
  set (t := dev _ s). set (o := set_bits SPI_CS (OPR s.1)).
  assert (Z.testbit o 2 = true /\ Z.testbit o 4 = true /\ Z.testbit o 6 = Z.testbit (OPR s.1) 6) as (O2 & O4 & O6).
  { subst o. unfold SPI_CS. rewrite !testbit_set_bits, H4 by lia.
    change (Z.testbit 0x04 6) with false. change (Z.testbit 0x04 2) with true. rewrite orb_true_r, !orb_false_r. done. }
  remember (board_outport (Z.lxor o 0xff) t) as s' eqn:Es'.
  unfold board_outport in Es'. cbn [outport] in Es'. unfold outport_handlers at 1 in Es'. cbv zeta in Es'.
  rewrite !pin_value, O2, O4, O6 in Es' by lia. cbn [negb b2z] in Es'. change (Z.lxor 0 1) with 1 in Es'.
  match type of Es' with context [card_clock ?f 0 ?x] => set (t1 := x) in *; set (op := f) in * end.
  assert (t1.1 = t.1 /\ w_card t1.2 = spi_ss_w 1 (w_card s.2) /\ w_fault t1.2 = w_fault s.2) as (E1 & E2 & E3) by done.
  assert (m_clk_state (w_card t1.2) = 0 /\ m_ss (w_card t1.2) = 1) as [Ec Es].
  { rewrite E2. unfold spi_ss_w. by destruct ((m_ss (w_card s.2) =? 0) && negb (1 =? 0)). }
  destruct (card_clock_same op 0 t1) as (w & Ew & F1 & F2); [done|done|]. rewrite Ew in Es'.
  destruct (on_card_card (spi_mosi_w (b2z (negb (Z.testbit (OPR s.1) 6)))) (t1.1, w)) as (G1 & G2 & G3).
  rewrite <- Es' in G1, G2, G3. clear Es'. cbn [fst snd] in G1, G2, G3. rewrite E1 in G3.
  rewrite F1, E2 in G1. split; [|split; [by unfold spi_line; rewrite G3|split; [congruence|exact G1]]].
  rewrite E2 in Ec, Es. revert G1 Ec Es. generalize (spi_ss_w 1 (w_card s.2)). intros c1 G1 Ec Es.
  split; rewrite ?G3, ?G1; done.
Qed.

(** C2: On the board the card's byte protocol is the DUART's: setting and
    clearing the output pins COPI and SCK and reading input pin 2, as the
    firmware does, carries out any session of byte exchanges with the
    selected card, provided OPCR leaves OP4 to OP7 plain outputs (as after a
    reset) and the clock pin is low: the bytes read are the bytes the card
    sends, and the card ends in the state the session leaves it in.  One
    bit is excepted, the first of all: the card drives its line on falling
    clock edges only, so before the first bit the pin still has the level
    from before, and the top bit of the first byte is that level.  After any
    byte the line is in step with the card, and from then on every bit read
    is the card's. *)
Theorem bit_banged_sessions bs (s : St) xs c' :
  spi_idle s -> aligned (w_card s.2) -> Forall is_u8 bs ->
  session bs (w_card s.2) = Some (xs, c') -> Forall is_u8 (xs ++ [m_out_latch c']) ->
  exists s', bang_session bs s = (stale_session (spi_line s) xs, s') /\ spi_idle s' /\
    w_card s'.2 = c' /\ w_fault s'.2 = w_fault s.2 /\
    (bs <> [] \/ spi_sync s -> spi_sync s') /\
    (spi_sync s -> stale_session (spi_line s) xs = xs).
Proof.
  intros A Al Hb E Hx. destruct (synced_session bs s xs c' A Al Hb E Hx) as (s' & E1 & A1 & Y1 & C1 & F1).
  exists s'. split; [done|]. split; [done|]. split; [done|]. split; [done|]. split; [done|]. intros Y.
  destruct bs as [|b bs]; [by injection E as <- <-|]. destruct (session_step b bs _ c' _ E) as (x & c1 & ys & Ex & _ & ->).
  cbn [stale_session]. f_equal. rewrite Y, <- (exchange_out _ _ _ _ Ex). apply stale_first_sync.
  cbn [app] in Hx. by apply Forall_cons in Hx as [? _].
Qed.
End Bang.

(** ** Witness *)

(** A board after a reset, the clock pin low, whose card is then selected: the
    input pin is still low. *)
Definition reset_board : duart * world (option memdisk) :=
  (new_duart XR68C681 blank_duart <| OPCR := 0 |> <| OPR := 0x10 |> <| IP_last_state := 0 |>,
   mk_world (new_sdcard None) false 0 0 0 [] [] zero false).
Definition selected_board : duart * world (option memdisk) :=
  @pins_low _ (board (I := option memdisk)) SPI_CS reset_board.

Lemma bit_banged_sessions_witness :
  match session [0xff; 0x40; 0x00] (w_card selected_board.2) with
  | Some (xs, c') => xs = [0xff; 0xff; 0xff] /\
      exists s', @bang_session _ (board (I := option memdisk)) [0xff; 0x40; 0x00] selected_board = ([0x7f; 0xff; 0xff], s') /\
      spi_idle s' /\ spi_sync s' /\ w_card s'.2 = c' /\ w_fault s'.2 = false
  | None => False
  end.
Proof.
  assert (option_map fst (session [0xff; 0x40; 0x00] (w_card selected_board.2)) = Some [0xff; 0xff; 0xff] /\
          option_map (fun r => m_out_latch r.2) (session [0xff; 0x40; 0x00] (w_card selected_board.2)) = Some 0xff) as [A1 A2]
    by (split; vm_compute; reflexivity).
  destruct (session [0xff; 0x40; 0x00] (w_card selected_board.2)) as [[xs c']|] eqn:E; [|done].
  cbn in A1, A2. injection A1 as ->. injection A2 as A2. split; [reflexivity|].
  destruct (bit_banged_sessions [0xff; 0x40; 0x00] selected_board [0xff; 0xff; 0xff] c')
    as (s' & H1 & H2 & H3 & H4 & H5 & _).
  - unfold selected_board. refine (proj1 (card_selected reset_board _ _ _ _)); vm_compute; reflexivity.
  - split; [vm_compute; congruence|vm_compute; reflexivity|vm_compute; reflexivity|vm_compute; split; congruence|vm_compute; split; congruence].
  - u8_list.
  - exact E.
  - cbn [app]. rewrite A2. u8_list.
  - exists s'. split; [exact H1|]. split; [exact H2|]. split; [apply H5; left; discriminate|]. split; [exact H3|exact H4].
Defined.
