(* ===== verification/Rosco6502.v ===== *)
(** * Rosco6502: the rosco_6502 machine (src/src/rosco/drivers/rosco_6502.cpp)

    The address map with its banked RAM and ROM and the bank register over
    low RAM, machine start and reset, and the quickload.  The DUART and what
    hangs on it are [Board]; the processor is [M6502]. *)

From stdpp Require Import base tactics numbers option list.
From Stdlib Require Import ZArith Lia Bool.
From S2P Require Import Prelude Attotime Scheduler Serial Duart DuartInv DuartFacts Crc16 Harddisk SdCard SdCsd SdSpi SdSession SdTransfer M6502 Memory Board.

(** ** The machine *)

Definition RAM_BANKS : Z := 16.
Definition ROM_BANKS : Z := 4.
Definition RAM_BANK_SIZE : Z := 0x8000.
Definition ROM_BANK_SIZE : Z := 0x2000.

(** [m_lowram] and [m_bankram] are arrays of bytes, [rom] the "rom" region. *)
Record rosco_6502 (I : Type) := mk_rosco_6502 {
  m_maincpu : m6502;
  m_board : duart * world I;
  m_lowram : Z -> Z;
  m_bankram : Z -> Z;
  rom : Z -> Z;
  m_rambank : memory_bank;
  m_rombank : memory_bank;
  m_bank_set : Z
}.
Arguments mk_rosco_6502 {I}. Arguments m_maincpu {I}. Arguments m_board {I}. Arguments m_lowram {I}.
Arguments m_bankram {I}. Arguments rom {I}. Arguments m_rambank {I}. Arguments m_rombank {I}. Arguments m_bank_set {I}.

#[export] Instance rosco_6502_eta I : Eta (rosco_6502 I) := fun s =>
  mk_rosco_6502 (m_maincpu s) (m_board s) (m_lowram s) (m_bankram s) (rom s) (m_rambank s) (m_rombank s) (m_bank_set s).

Definition store (i v : Z) (m : Z -> Z) : Z -> Z := fun j => if j =? i then v else m j.

Section Machine.
Context {I : Type} `{BlockImage I}.

#[local] Abbreviation St := (rosco_6502 I).
#[local] Existing Instance board.

(** ** Banking *)

Definition bank_r (offset : Z) (s : St) : Z := m_lowram s offset.

Definition update_banks (s : St) : option St :=
  match set_entry (Z.land (m_bank_set s) 0x0f) (m_rambank s) with
  | None => None
  | Some b =>
      let s := s <| m_rambank := b |> in
      match set_entry (Z.land (Z.shiftr (m_bank_set s) 4) 0x03) (m_rombank s) with
      | None => None
      | Some b => Some (s <| m_rombank := b |>)
      end
  end.

Definition bank_w (offset data : Z) (s : St) : option St :=
  let s := s <| m_lowram ::= store offset data |> in
  update_banks (s <| m_bank_set := data |>).

(** ** The address map

    The bus is eight bits wide; a later entry of the map lies over an
    earlier one, and what no entry covers reads as [unmap]. *)

Definition program_read (address : Z) (s : St) : option (Z * St) :=
  let a := Z.land address 0xffff in
  if inside 0x0000 0x0001 a then Some (bank_r (handler_offset 0 0x0000 0x0001 a) s, s)
  else if inside 0x0000 0x3fff a then Some (m_lowram s (handler_offset 0 0x0000 0x3fff a), s)
  else if inside 0x4000 0xbfff a then
    match bank_base (m_rambank s) with
    | Some base => Some (m_bankram s (base + handler_offset 0 0x4000 0xbfff a), s)
    | None => None
    end
  else if inside 0xc000 0xc00f a then
    let '(v, b) := Duart.read (handler_offset 0 0xc000 0xc00f a) (m_board s) in Some (v, s <| m_board := b |>)
  else if inside 0xe000 0xffff a then
    match bank_base (m_rombank s) with
    | Some base => Some (rom s (base + handler_offset 0 0xe000 0xffff a), s)
    | None => None
    end
  else Some (unmap, s).

Definition program_write (address data : Z) (s : St) : option St :=
  let a := Z.land address 0xffff in
  if inside 0x0000 0x0001 a then bank_w (handler_offset 0 0x0000 0x0001 a) data s
  else if inside 0x0000 0x3fff a then Some (s <| m_lowram ::= store (handler_offset 0 0x0000 0x3fff a) data |>)
  else if inside 0x4000 0xbfff a then
    match bank_base (m_rambank s) with
    | Some base => Some (s <| m_bankram ::= store (base + handler_offset 0 0x4000 0xbfff a) data |>)
    | None => None
    end
  else if inside 0xc000 0xc00f a then
    Some (s <| m_board ::= Duart.write (handler_offset 0 0xc000 0xc00f a) data |>)
  else Some s.

(** ** Start, reset and quickload *)

Definition machine_start (s : St) : St :=
  let s := s <| m_bankram := fun _ => 0 |> in
  let s := s <| m_rambank ::= configure_entries 0 RAM_BANKS 0 RAM_BANK_SIZE |> in
  s <| m_rombank ::= configure_entries 0 ROM_BANKS 0 ROM_BANK_SIZE |>.

Definition machine_reset (s : St) : option St :=
  let s := s <| m_board ::= board_machine_reset |> in
  update_banks (s <| m_bank_set := 0 |>).

Inductive image_error := INVALIDLENGTH | UNSPECIFIED.

(** The opcode fetch of [state_import_PC], on the machine; a null bank stops it. *)
Definition fetch (address : Z) (s : option St) : Z * option St :=
  match s with
  | None => (0, None)
  | Some s => match program_read address s with Some (v, s) => (v, Some s) | None => (0, None) end
  end.

(** [set_state_int(M6502_PC, pc)]: the entry is [m_NPC], and is imported. *)
Definition set_pc (pc : Z) (s : St) : option St :=
  let '(c, s') := state_import_PC fetch (m_maincpu s <| m_NPC := pc |>, Some s) in
  match s' with Some s' => Some (s' <| m_maincpu := c |>) | None => None end.

Fixpoint load_bytes (address : Z) (buffer : list Z) (s : St) : option St :=
  match buffer with
  | [] => Some s
  | b :: buffer => match program_write address b s with
                   | Some s => load_bytes (address + 1) buffer s
                   | None => None
                   end
  end.

Definition LOAD_ADDRESS : Z := 0x0800.
Definition LOW_RAM_END : Z := 0x4000.

(** [fread n] is what the file gives of [n] bytes asked for. *)
Definition quickload_cb (length : Z) (fread : Z -> list Z) (s : St) : option (option image_error * St) :=
  if (length =? 0) || (LOW_RAM_END - LOAD_ADDRESS <? length) then Some (Some INVALIDLENGTH, s)
  else let buffer := fread length in
  if negb (Z.of_nat (List.length buffer) =? length) then Some (Some UNSPECIFIED, s)
  else match load_bytes LOAD_ADDRESS buffer s with
       | None => None
       | Some s => match set_pc LOAD_ADDRESS s with Some s => Some (None, s) | None => None end
       end.

(** ** Specification: memory by cells

    What an address means under a value of the bank register. *)

Inductive cell := Low (a : Z) | Ram (bank a : Z) | Rom (bank a : Z) | Chip (a : Z) | Nowhere.

#[local] Instance cell_eq_dec : EqDecision cell.
Proof. solve_decision. Defined.

Definition ram_bank (reg : Z) : Z := reg mod 16.
Definition rom_bank (reg : Z) : Z := reg / 16 mod 4.

Definition locate (reg a : Z) : cell :=
  if a <? 0x4000 then Low a
  else if a <? 0xc000 then Ram (ram_bank reg) (a - 0x4000)
  else if a <? 0xc010 then Chip (a - 0xc000)
  else if a <? 0xe000 then Nowhere
  else Rom (rom_bank reg) (a - 0xe000).

Definition cell_ok (c : cell) : Prop :=
  match c with
  | Low a => 0 <= a < 0x4000
  | Ram b a => 0 <= b < 16 /\ 0 <= a < 0x8000
  | Rom b a => 0 <= b < 4 /\ 0 <= a < 0x2000
  | _ => False
  end.
Definition writable (c : cell) : bool := match c with Low _ | Ram _ _ => true | _ => false end.

Definition contents (s : St) (c : cell) : Z :=
  match c with
  | Low a => m_lowram s a
  | Ram b a => m_bankram s (b * RAM_BANK_SIZE + a)
  | Rom b a => rom s (b * ROM_BANK_SIZE + a)
  | _ => 0
  end.

(** Bus accesses, on the machine and on the specification: the bank register
    and the contents of the cells. *)
Inductive bus_op := BusRead (a : Z) | BusWrite (a d : Z).

Definition op_ok (o : bus_op) : Prop :=
  match o with BusRead a => is_u16 a | BusWrite a d => is_u16 a /\ is_u8 d end.

Definition bus_step (o : bus_op) (s : St) : option St :=
  match o with BusRead a => snd <$> program_read a s | BusWrite a d => program_write a d s end.
Fixpoint bus_run (ops : list bus_op) (s : St) : option St :=
  match ops with [] => Some s | o :: ops => match bus_step o s with Some s => bus_run ops s | None => None end end.

Definition spec_step (o : bus_op) (m : Z * (cell -> Z)) : Z * (cell -> Z) :=
  match o with
  | BusRead _ => m
  | BusWrite a d =>
      (if a <? 2 then d else m.1,
       fun c => if decide (c = locate m.1 a /\ writable c = true) then d else m.2 c)
  end.
Definition spec_run (ops : list bus_op) (m : Z * (cell -> Z)) : Z * (cell -> Z) := fold_left (fun m o => spec_step o m) ops m.

(** ** Lemmas *)

Definition ram_entries : list (option Z) := m_entries (configure_entries 0 RAM_BANKS 0 RAM_BANK_SIZE new_memory_bank).
Definition rom_entries : list (option Z) := m_entries (configure_entries 0 ROM_BANKS 0 ROM_BANK_SIZE new_memory_bank).

Record banks_ok (s : St) : Prop := mk_banks_ok {
  ok_ram : m_rambank s = mk_memory_bank ram_entries (ram_bank (m_bank_set s));
  ok_rom : m_rombank s = mk_memory_bank rom_entries (rom_bank (m_bank_set s));
  ok_reg : is_u8 (m_bank_set s)
}.

Lemma bank_masks reg : Z.land reg 0x0f = ram_bank reg /\ Z.land (Z.shiftr reg 4) 0x03 = rom_bank reg.
Proof.
  change 0x0f with (Z.ones 4). change 0x03 with (Z.ones 2). rewrite !Z.land_ones, Z.shiftr_div_pow2 by lia. done.
Qed.

Lemma below_4 (P : Z -> Prop) : P 0 -> P 1 -> P 2 -> P 3 -> forall k, 0 <= k < 4 -> P k.
Proof. intros ? ? ? ? k Hk. assert (k = 0 \/ k = 1 \/ k = 2 \/ k = 3) as [-> | [-> | [-> | ->]]] by lia; done. Qed.

Lemma ram_set_entry k c : 0 <= k < 16 ->
  set_entry k (mk_memory_bank ram_entries c) = Some (mk_memory_bank ram_entries k) /\
  bank_base (mk_memory_bank ram_entries k) = Some (k * RAM_BANK_SIZE).
Proof.
  intros Hk. assert (k = 0 \/ k = 1 \/ k = 2 \/ k = 3 \/ k = 4 \/ k = 5 \/ k = 6 \/ k = 7 \/ k = 8 \/ k = 9 \/ k = 10 \/ k = 11 \/ k = 12 \/ k = 13 \/ k = 14 \/ k = 15) as Hc by lia.
  repeat match goal with Hc : _ \/ _ |- _ => destruct Hc as [Hc|Hc] end; subst k; split; reflexivity.
Qed.

Lemma rom_set_entry k c : 0 <= k < 4 ->
  set_entry k (mk_memory_bank rom_entries c) = Some (mk_memory_bank rom_entries k) /\
  bank_base (mk_memory_bank rom_entries k) = Some (k * ROM_BANK_SIZE).
Proof. revert k. apply below_4; split; reflexivity. Qed.

Lemma bank_bounds reg : 0 <= ram_bank reg < 16 /\ 0 <= rom_bank reg < 4.
Proof. split; apply Z.mod_pos_bound; lia. Qed.

(** The banks follow the register. *)
Lemma update_banks_ok (s : St) c1 c2 : is_u8 (m_bank_set s) ->
  m_rambank s = mk_memory_bank ram_entries c1 -> m_rombank s = mk_memory_bank rom_entries c2 ->
  exists s', update_banks s = Some s' /\ banks_ok s' /\ m_bank_set s' = m_bank_set s /\ contents s' = contents s /\
    m_board s' = m_board s /\ m_maincpu s' = m_maincpu s.
Proof.
  intros Hr E1 E2. destruct s as [cpu bd low bk rm rab rob reg]. cbn [m_rambank m_rombank m_bank_set] in *. subst rab rob.
  destruct (bank_masks reg) as [M1 M2]. destruct (bank_bounds reg) as [B1 B2].
  unfold update_banks. cbn [m_rambank m_bank_set]. rewrite M1. destruct (ram_set_entry (ram_bank reg) c1 B1) as [-> _].
  change (m_bank_set (mk_rosco_6502 cpu bd low bk rm _ _ reg <| m_rambank := _ |>)) with reg. rewrite M2.
  change (m_rombank (mk_rosco_6502 cpu bd low bk rm _ ?x reg <| m_rambank := _ |>)) with x.
  destruct (rom_set_entry (rom_bank reg) c2 B2) as [E _]. cbn [upd m_rombank]. rewrite E.
  eexists. split; [reflexivity|]. split; [split; [reflexivity..|exact Hr]|]. split; [reflexivity|]. split; [reflexivity|].
  split; reflexivity.
Qed.

Lemma offset_in lo hi k a : changing_bits lo hi = Z.ones k -> 0 <= k -> 0 <= lo -> hi < 65536 -> lo <= a <= hi -> hi - lo < 2 ^ k ->
  handler_offset 0 lo hi a = a - lo.
Proof.
  intros E Hk Hlo Hhi Ha Hs. unfold handler_offset, element. rewrite E, u32_id by lia.
  rewrite Z.shiftr_0_r, Z.land_ones by lia. apply Z.mod_small. lia.
Qed.


Lemma address_16 a : is_u16 a -> Z.land a 0xffff = a.
Proof. intros Ha. change 0xffff with (Z.ones 16). rewrite Z.land_ones by lia. by apply Z.mod_small. Qed.

Lemma read_memory (s : St) a : is_u16 a -> banks_ok s -> cell_ok (locate (m_bank_set s) a) ->
  program_read a s = Some (contents s (locate (m_bank_set s) a), s).
Proof.
  intros Ha [Er Eo Hr] Hc. destruct (bank_bounds (m_bank_set s)) as [B1 B2]. unfold is_u16 in Ha. revert Hc.
  unfold program_read, locate. rewrite address_16 by done.
  destruct (Z.ltb_spec a 0x4000); [|destruct (Z.ltb_spec a 0xc000); [|destruct (Z.ltb_spec a 0xc010); [done|destruct (Z.ltb_spec a 0xe000); [done|]]]]; intros _.
  - destruct (Z.lt_ge_cases a 2).
    + rewrite inside_true by lia. rewrite (offset_in 0 1 1) by (done || lia). unfold bank_r. cbn [contents]. do 3 f_equal. lia.
    + rewrite inside_false, inside_true by lia. rewrite (offset_in 0 0x3fff 14) by (done || lia). cbn [contents]. do 3 f_equal. lia.
  - rewrite !inside_false, inside_true by lia. rewrite Er. destruct (ram_set_entry _ 0 B1) as [_ ->].
    rewrite (offset_in 0x4000 0xbfff 16) by (done || lia). done.
  - rewrite !inside_false, inside_true by lia. rewrite Eo. destruct (rom_set_entry _ 0 B2) as [_ ->].
    rewrite (offset_in 0xe000 0xffff 13) by (done || lia). done.
Qed.

Lemma contents_low (s : St) i v c : contents (s <| m_lowram ::= store i v |>) c = if decide (c = Low i) then v else contents s c.
Proof.
  destruct c as [a|b a|b a|a|]; try reflexivity. cbn [contents].
  change (store i v (m_lowram s) a = if decide (Low a = Low i) then v else m_lowram s a). unfold store.
  destruct (Z.eqb_spec a i) as [->|]; destruct (decide (_ = _)); congruence.
Qed.

Lemma contents_ram (s : St) b i v c : cell_ok c -> 0 <= i < 0x8000 ->
  contents (s <| m_bankram ::= store (b * RAM_BANK_SIZE + i) v |>) c = if decide (c = Ram b i) then v else contents s c.
Proof.
  intros Hc Hi. destruct c as [a|b' a|b' a|a|]; try reflexivity. cbn [contents].
  change (store (b * RAM_BANK_SIZE + i) v (m_bankram s) (b' * RAM_BANK_SIZE + a) =
    if decide (Ram b' a = Ram b i) then v else m_bankram s (b' * RAM_BANK_SIZE + a)). unfold store, RAM_BANK_SIZE in *.
  destruct Hc as [Hb Ha]. destruct (Z.eqb_spec (b' * 0x8000 + a) (b * 0x8000 + i)); destruct (decide (_ = _)) as [E|E]; try done.
  - exfalso. apply E. f_equal; lia.
  - injection E as <- <-. lia.
Qed.

(** What a bus write does to the cells. *)
Definition cell_written (reg a d : Z) (s s' : St) : Prop :=
  forall c, cell_ok c -> contents s' c = if decide (c = locate reg a /\ writable c = true) then d else contents s c.

Lemma written_here (reg a d : Z) (s s' : St) : writable (locate reg a) = true ->
  (forall c, cell_ok c -> contents s' c = if decide (c = locate reg a) then d else contents s c) -> cell_written reg a d s s'.
Proof.
  intros Hw E c Hc. rewrite E by done. destruct (decide (c = locate reg a)) as [->|], (decide (_ /\ _)) as [[]|Hn]; try done.
  by destruct Hn.
Qed.

Lemma written_nowhere (reg a d : Z) (s s' : St) : writable (locate reg a) = false ->
  (forall c, contents s' c = contents s c) -> cell_written reg a d s s'.
Proof. intros Hw E c Hc. rewrite E. destruct (decide (_ /\ _)) as [[-> E2]|]; [congruence|done]. Qed.

Lemma bank_write_ok (s : St) a d : 0 <= a < 2 -> is_u8 d -> banks_ok s ->
  exists s', bank_w a d s = Some s' /\ banks_ok s' /\ m_bank_set s' = d /\ cell_written (m_bank_set s) a d s s' /\
    m_maincpu s' = m_maincpu s /\ m_board s' = m_board s.
Proof.
  intros Ha Hd [Er Eo Hr]. unfold bank_w. cbv zeta.
  set (s1 := s <| m_lowram ::= store a d |> <| m_bank_set := d |>).
  destruct (update_banks_ok s1 (ram_bank (m_bank_set s)) (rom_bank (m_bank_set s)) Hd Er Eo) as (s' & -> & Hb & Es & Ec & Ebd & Ecpu).
  exists s'. split; [done|]. split; [done|]. split; [exact Es|]. split; [|by split].
  assert (locate (m_bank_set s) a = Low a) as El by (unfold locate; destruct (Z.ltb_spec a 0x4000); [done|lia]).
  apply written_here; rewrite El; [done|]. intros c _. rewrite Ec. apply (contents_low s).
Qed.

Lemma write_memory (s : St) a d : is_u16 a -> is_u8 d -> banks_ok s ->
  exists s', program_write a d s = Some s' /\ banks_ok s' /\ m_bank_set s' = (if a <? 2 then d else m_bank_set s) /\
    cell_written (m_bank_set s) a d s s' /\ m_maincpu s' = m_maincpu s /\ (a < 0xc000 -> m_board s' = m_board s).
Proof.
  intros Ha Hd Hok. destruct (Z.ltb_spec a 2) as [Hlt|Hge].
  { unfold is_u16 in Ha. destruct (bank_write_ok s a d ltac:(lia) Hd Hok) as (s' & E & ? & ? & ? & ? & ?).
    exists s'. split; [|by repeat (split; [done|])]. unfold program_write. rewrite address_16 by done.
    rewrite inside_true, (offset_in 0 1 1) by (done || lia). by rewrite Z.sub_0_r. }
  destruct Hok as [Er Eo Hr]. destruct (bank_bounds (m_bank_set s)) as [B1 _]. unfold is_u16 in Ha.
  unfold program_write. rewrite address_16 by done. rewrite (inside_false 0 1) by lia.
  destruct (Z.ltb_spec a 0x4000) as [H1|H1]; [|destruct (Z.ltb_spec a 0xc000) as [H2|H2];
    [|destruct (Z.ltb_spec a 0xc010) as [H3|H3]]].
  - assert (locate (m_bank_set s) a = Low a) as El by (unfold locate; destruct (Z.ltb_spec a 0x4000); [done|lia]).
    rewrite inside_true by lia. eexists. split; [reflexivity|]. split; [by split|]. split; [done|].
    split; [|by split]. apply written_here; rewrite El; [done|]. intros c _.
    rewrite (offset_in 0 0x3fff 14), Z.sub_0_r by (done || lia). apply contents_low.
  - assert (locate (m_bank_set s) a = Ram (ram_bank (m_bank_set s)) (a - 0x4000)) as El.
    { unfold locate. destruct (Z.ltb_spec a 0x4000), (Z.ltb_spec a 0xc000); try lia. done. }
    rewrite inside_false, inside_true by lia. rewrite Er. destruct (ram_set_entry _ 0 B1) as [_ ->].
    eexists. split; [reflexivity|]. split; [by split|]. split; [done|]. split; [|by split].
    apply written_here; rewrite El; [done|]. intros c Hc.
    rewrite (offset_in 0x4000 0xbfff 16) by (done || lia). apply contents_ram; [done|lia].
  - assert (locate (m_bank_set s) a = Chip (a - 0xc000)) as El.
    { unfold locate. destruct (Z.ltb_spec a 0x4000), (Z.ltb_spec a 0xc000), (Z.ltb_spec a 0xc010); try lia. done. }
    rewrite !inside_false, inside_true by lia. eexists. split; [reflexivity|]. split; [by split|]. split; [done|].
    split; [|split; [done|lia]]. apply written_nowhere; [by rewrite El|]. intros c. by destruct c.
  - rewrite !inside_false by lia. exists s. split; [done|]. split; [by split|]. split; [done|]. split; [|by split].
    apply written_nowhere; [|done]. unfold locate.
    destruct (Z.ltb_spec a 0x4000), (Z.ltb_spec a 0xc000), (Z.ltb_spec a 0xc010), (Z.ltb_spec a 0xe000); try lia; done.
Qed.

Lemma read_keeps (s : St) a : is_u16 a -> banks_ok s ->
  exists v s', program_read a s = Some (v, s') /\ banks_ok s' /\ m_bank_set s' = m_bank_set s /\
    (forall c, contents s' c = contents s c).
Proof.
  intros Ha Hok. destruct (decide (0xc000 <= a <= 0xc00f)) as [Hc|Hc].
  - unfold program_read. rewrite address_16 by done. rewrite !inside_false, inside_true by lia.
    destruct (Duart.read _ (m_board s)) as [v b]. exists v. eexists. split; [reflexivity|]. destruct Hok as [Er Eo Hr].
    split; [by split|]. split; [done|]. intros c. by destruct c.
  - destruct (decide (0xc010 <= a <= 0xdfff)) as [Hd|Hd].
    + unfold program_read. rewrite address_16 by done. rewrite !inside_false by lia. by exists unmap, s.
    + assert (cell_ok (locate (m_bank_set s) a)) as Hl.
      { destruct (bank_bounds (m_bank_set s)). unfold is_u16 in Ha. unfold locate.
        destruct (Z.ltb_spec a 0x4000), (Z.ltb_spec a 0xc000), (Z.ltb_spec a 0xc010), (Z.ltb_spec a 0xe000); cbn [cell_ok]; lia. }
      rewrite read_memory by done. by exists (contents s (locate (m_bank_set s) a)), s.
Qed.

(** ** The machine is its specification *)

(** The machine holds what the specification holds. *)
Definition agrees (s : St) (m : Z * (cell -> Z)) : Prop :=
  banks_ok s /\ m_bank_set s = m.1 /\ forall c, cell_ok c -> contents s c = m.2 c.

Lemma bus_step_agrees o (s : St) m : op_ok o -> agrees s m ->
  exists s', bus_step o s = Some s' /\ agrees s' (spec_step o m).
Proof.
  intros Ho (Hok & Er & Ec). destruct o as [a|a d]; cbn [bus_step op_ok] in *.
  - destruct (read_keeps s a Ho Hok) as (v & s' & -> & Hok' & Er' & Ec'). exists s'. split; [done|].
    split; [done|]. split; [by rewrite Er'|]. intros c Hc. rewrite Ec'. by apply Ec.
  - destruct Ho as [Ha Hd]. destruct (write_memory s a d Ha Hd Hok) as (s' & -> & Hok' & Er' & Ec' & _).
    exists s'. split; [done|]. split; [done|]. cbn [spec_step fst snd]. rewrite <- Er. split; [exact Er'|].
    intros c Hc. rewrite Ec' by done. by rewrite Ec.
Qed.

Lemma bus_run_agrees ops : forall (s : St) m, Forall op_ok ops -> agrees s m ->
  exists s', bus_run ops s = Some s' /\ agrees s' (spec_run ops m).
Proof.
  induction ops as [|o ops IH]; intros s m Ho Ha; [by exists s|].
  apply Forall_cons in Ho as [Ho Hos]. destruct (bus_step_agrees o s m Ho Ha) as (s1 & E & A1).
  destruct (IH s1 _ Hos A1) as (s' & E' & A'). exists s'. cbn [bus_run]. rewrite E. done.
Qed.

Lemma machine_up (s : St) : m_rambank s = new_memory_bank -> m_rombank s = new_memory_bank ->
  exists s', machine_reset (machine_start s) = Some s' /\ banks_ok s' /\ m_bank_set s' = 0 /\
    contents s' = contents (machine_start s).
Proof.
  intros E1 E2. unfold machine_reset. cbv zeta.
  set (s1 := machine_start s <| m_board ::= board_machine_reset |> <| m_bank_set := 0 |>).
  assert (m_rambank s1 = mk_memory_bank ram_entries 0) as R1.
  { change (m_rambank s1) with (configure_entries 0 RAM_BANKS 0 RAM_BANK_SIZE (m_rambank s)). by rewrite E1. }
  assert (m_rombank s1 = mk_memory_bank rom_entries 0) as R2.
  { change (m_rombank s1) with (configure_entries 0 ROM_BANKS 0 ROM_BANK_SIZE (m_rombank s)). by rewrite E2. }
  destruct (update_banks_ok s1 0 0 ltac:(by vm_compute) R1 R2) as (s' & -> & Hok & Er & Ec & _).
  exists s'. split; [done|]. split; [done|]. split; [exact Er|exact Ec].
Qed.

(** C12: After start and reset, whatever bus accesses the program makes, banks
    switched between them at will, no access fails and every address reads
    what was last written to the cell it leads to: the low RAM, one of the 16
    RAM banks or, never written, one of the 4 ROM banks, as the bank register
    says.  Writes go anywhere; the reads are of cells of RAM and ROM, not of
    the DUART. *)
Theorem banked_memory (s0 : St) ops : m_rambank s0 = new_memory_bank -> m_rombank s0 = new_memory_bank ->
  Forall op_ok ops ->
  exists s s', machine_reset (machine_start s0) = Some s /\ bus_run ops s = Some s' /\
    let '(reg, mem) := spec_run ops (0, contents (machine_start s0)) in
    m_bank_set s' = reg /\
    forall a, is_u16 a -> cell_ok (locate reg a) -> program_read a s' = Some (mem (locate reg a), s').
Proof.
  intros E1 E2 Ho. destruct (machine_up s0 E1 E2) as (s & -> & Hok & Er & Ec).
  destruct (bus_run_agrees ops s (0, contents (machine_start s0)) Ho) as (s' & E & (Hok' & Er' & Ec')).
  { split; [done|]. split; [exact Er|]. intros c _. by rewrite Ec. }
  exists s, s'. split; [done|]. split; [done|].
  destruct (spec_run ops _) as [reg mem]. cbn [fst snd] in *. split; [done|].
  intros a Ha Hc. rewrite <- Er' in Hc |- *. rewrite read_memory by done. by rewrite Ec'.
Qed.

(** ** Quickload *)

(** The bytes from [first] on are [buffer]'s. *)
Definition loaded (first : Z) (buffer : list Z) (s : St) (c : cell) : Z :=
  match c with
  | Low a => if (first <=? a) && (a <? first + Z.of_nat (length buffer))
             then nth (Z.to_nat (a - first)) buffer 0 else contents s c
  | _ => contents s c
  end.

Lemma load_bytes_ok buffer : forall first (s : St), 2 <= first -> first + Z.of_nat (length buffer) <= 0x4000 ->
  Forall is_u8 buffer -> banks_ok s ->
  exists s', load_bytes first buffer s = Some s' /\ banks_ok s' /\ m_bank_set s' = m_bank_set s /\
    m_maincpu s' = m_maincpu s /\ m_board s' = m_board s /\
    forall c, cell_ok c -> contents s' c = loaded first buffer s c.
Proof.
  induction buffer as [|b buffer IH]; intros first s H1 H2 Hb Hok.
  - exists s. split; [done|]. do 4 (split; [done|]). intros c Hc. destruct c as [a| | | |]; try done.
    unfold loaded. cbn [length]. rewrite Z.add_0_r. destruct (Z.leb_spec first a), (Z.ltb_spec a first); try lia; done.
  - apply Forall_cons in Hb as [Hb Hbs]. cbn [length] in H2. rewrite Nat2Z.inj_succ in H2.
    destruct (write_memory s first b ltac:(unfold is_u16; lia) Hb Hok) as (s1 & E & Hok1 & Er1 & Ec1 & Ecpu1 & Ebd1).
    destruct (IH (first + 1) s1 ltac:(lia) ltac:(lia) Hbs Hok1) as (s' & E' & Hok' & Er' & Ecpu' & Ebd' & Ec').
    exists s'. cbn [load_bytes]. rewrite E. split; [done|]. split; [done|].
    assert (locate (m_bank_set s) first = Low first) as El by (unfold locate; destruct (Z.ltb_spec first 0x4000); [done|lia]).
    split; [rewrite Er', Er1; by destruct (Z.ltb_spec first 2); [lia|]|]. split; [congruence|].
    split; [rewrite Ebd'; apply Ebd1; lia|]. intros c Hc. rewrite Ec' by done.
    destruct c as [a|? a|? a|a|]; cbn [loaded]; try (rewrite Ec1 by done; rewrite El; by destruct (decide (_ /\ _)) as [[]|]).
    rewrite Ec1, El by done. cbn [length]. rewrite Nat2Z.inj_succ.
    destruct (decide (Low a = Low first /\ writable (Low a) = true)) as [[[= ->] _]|Hne].
    + destruct (Z.leb_spec (first + 1) first), (Z.leb_spec first first), (Z.ltb_spec first (first + Z.succ (Z.of_nat (length buffer))));
        try lia. cbn [andb]. by rewrite Z.sub_diag.
    + assert (a <> first) by (intros ->; by apply Hne).
      destruct (Z.leb_spec (first + 1) a), (Z.leb_spec first a), (Z.ltb_spec a (first + 1 + Z.of_nat (length buffer))),
        (Z.ltb_spec a (first + Z.succ (Z.of_nat (length buffer)))); try lia; cbn [andb]; try done.
      replace (Z.to_nat (a - first)) with (S (Z.to_nat (a - (first + 1)))) by lia. done.
Qed.

(** The processor after its program counter has been imported. *)
Definition pc_imported (pc op : Z) (due : bool) (c : m6502) : Prop :=
  m_NPC c = pc /\ m_PPC c = pc /\ m_inst_substate c = 0 /\
  if due then m_irq_taken c = true /\ m_IR c = 0
  else m_irq_taken c = false /\ m_IR c = op /\ m_PC c = pc + 1.

Lemma prefetch_end_imported pc op c : m_PC c = pc -> m_NPC c = pc -> m_irq_taken c = false -> m_IR c = op -> 0 <= pc < 65535 ->
  let c' := prefetch_end c in let c' := c' <| m_PPC := m_NPC c' |> in
  pc_imported pc op (interrupt_due c) (c' <| m_inst_state := Z.lor (m_IR c') (m_inst_state_base c') |> <| m_inst_substate := 0 |>).
Proof.
  intros P1 P2 P3 P4 Hpc. unfold prefetch_end. cbv zeta.
  change (interrupt_due (sync_write 0 (c <| m_sync := false |>))) with (interrupt_due c).
  destruct (interrupt_due c); split; [exact P2| |exact P2|]; (split; [exact P2|]); (split; [reflexivity|]).
  - by split.
  - split; [exact P3|]. split; [exact P4|]. change (u16 (m_PC c + 1) = pc + 1). rewrite P1. apply u16_id. lia.
Qed.

Lemma import_pc {W} (read_sync : Z -> W -> Z * W) c pc op (w w' : W) : read_sync pc w = (op, w') -> 0 <= pc < 65535 ->
  exists c', state_import_PC read_sync (c <| m_NPC := pc |>, w) = (c', w') /\ pc_imported pc op (interrupt_due c) c'.
Proof.
  intros E Hpc. unfold state_import_PC. cbv zeta. set (c1 := prefetch_start _).
  change (m_PC c1) with pc. rewrite E. eexists. split; [reflexivity|].
  exact (prefetch_end_imported pc op (c1 <| m_IR := op |>) eq_refl eq_refl eq_refl eq_refl Hpc).
Qed.

Lemma set_pc_ok (s : St) pc : banks_ok s -> 2 <= pc < 0x4000 ->
  exists s', set_pc pc s = Some s' /\ banks_ok s' /\ m_bank_set s' = m_bank_set s /\ contents s' = contents s /\
    m_board s' = m_board s /\ pc_imported pc (contents s (Low pc)) (interrupt_due (m_maincpu s)) (m_maincpu s').
Proof.
  intros Hok Hpc. unfold set_pc.
  assert (locate (m_bank_set s) pc = Low pc) as El by (unfold locate; destruct (Z.ltb_spec pc 0x4000); [done|lia]).
  assert (fetch pc (Some s) = (contents s (Low pc), Some s)) as Ef.
  { unfold fetch. rewrite (read_memory s pc) by (unfold is_u16; rewrite ?El; cbn [cell_ok]; done || lia). by rewrite El. }
  destruct (import_pc fetch (m_maincpu s) pc _ _ _ Ef ltac:(lia)) as (c' & -> & Hc). exists (s <| m_maincpu := c' |>).
  destruct Hok as [O1 O2 O3]. split; [reflexivity|]. split; [by split|]. do 3 (split; [reflexivity|]). exact Hc.
Qed.

(** C35: Quickload refuses an empty image and one that does not fit below
    0x4000, and reports a short read, leaving the machine alone; otherwise
    the image is in memory from 0x0800 on, no other cell of memory nor the
    bank register has changed, and the processor is at the first byte, with
    its opcode fetched unless an interrupt is due.  The banks are those of a
    started machine ([banks_ok], an invariant of every access). *)
Theorem quickload_loads (s : St) length fread : banks_ok s -> 0 <= length ->
  (length = 0 \/ 0x3800 < length -> quickload_cb length fread s = Some (Some INVALIDLENGTH, s)) /\
  (0 < length <= 0x3800 -> Z.of_nat (List.length (fread length)) <> length ->
     quickload_cb length fread s = Some (Some UNSPECIFIED, s)) /\
  (0 < length <= 0x3800 -> Z.of_nat (List.length (fread length)) = length -> Forall is_u8 (fread length) ->
     exists s', quickload_cb length fread s = Some (None, s') /\ banks_ok s' /\ m_bank_set s' = m_bank_set s /\
       (forall c, cell_ok c -> contents s' c = loaded 0x0800 (fread length) s c) /\ m_board s' = m_board s /\
       pc_imported 0x0800 (nth 0 (fread length) 0) (interrupt_due (m_maincpu s)) (m_maincpu s')).
Proof.
  intros Hok Hlen. unfold quickload_cb. change (LOW_RAM_END - LOAD_ADDRESS) with 0x3800. split; [|split].
  - intros Hl. destruct (Z.eqb_spec length 0), (Z.ltb_spec 0x3800 length); try lia; done.
  - intros Hl Hs. destruct (Z.eqb_spec length 0), (Z.ltb_spec 0x3800 length); try lia. cbn [orb].
    by destruct (Z.eqb_spec (Z.of_nat (List.length (fread length))) length).
  - intros Hl Hs Hb. destruct (Z.eqb_spec length 0), (Z.ltb_spec 0x3800 length); try lia. cbn [orb].
    rewrite Hs, Z.eqb_refl. cbn [negb].
    destruct (load_bytes_ok (fread length) LOAD_ADDRESS s) as (s1 & -> & Hok1 & Er1 & Ecpu1 & Ebd1 & Ec1);
      [unfold LOAD_ADDRESS; lia|unfold LOAD_ADDRESS; lia|done|done|].
    destruct (set_pc_ok s1 LOAD_ADDRESS Hok1) as (s' & -> & Hok' & Er' & Ec' & Ebd' & Ecpu'); [unfold LOAD_ADDRESS; lia|].
    exists s'. split; [done|]. split; [done|]. split; [congruence|].
    split; [intros c Hc; rewrite Ec'; by apply Ec1|]. split; [congruence|].
    rewrite Ecpu1, Ec1 in Ecpu' by (split; unfold LOAD_ADDRESS; lia). cbn [loaded] in Ecpu'.
    unfold LOAD_ADDRESS in Ecpu'.
    destruct (Z.leb_spec 0x800 0x800), (Z.ltb_spec 0x800 (0x800 + Z.of_nat (List.length (fread length)))); try lia.
    exact Ecpu'.
Qed.
End Machine.

(** ** Witnesses *)

Definition powered_board : duart * world (option memdisk) :=
  (new_duart XR68C681 blank_duart, mk_world (new_sdcard None) false 0 0 0 [] [] zero false).

(** The ROM region holds, at each byte, the number of its bank. *)
Definition powered (b1 b2 : memory_bank) : rosco_6502 (option memdisk) :=
  mk_rosco_6502 (M6502.init false) powered_board (fun _ => 0) (fun _ => 0) (fun i => i / ROM_BANK_SIZE) b1 b2 0.

(** Two banks written at the same address. *)
Definition two_banks : list bus_op :=
  [BusWrite 0x0000 0x05; BusWrite 0x4000 0xaa; BusWrite 0x0001 0x16; BusWrite 0x4000 0xbb; BusRead 0xe000; BusWrite 0x0000 0x25].

Lemma banked_memory_witness : exists s s',
  machine_reset (machine_start (powered new_memory_bank new_memory_bank)) = Some s /\ bus_run two_banks s = Some s' /\
  program_read 0x4000 s' = Some (0xaa, s') /\ program_read 0xe000 s' = Some (2, s').
Proof.
  destruct (banked_memory (powered new_memory_bank new_memory_bank) two_banks eq_refl eq_refl) as (s & s' & E & E' & R).
  { repeat (apply Forall_cons_2; [split; by vm_compute|]). apply Forall_nil_2. }
  exists s, s'. split; [exact E|]. split; [exact E'|].
  destruct (spec_run two_banks _) as [reg mem] eqn:Es. destruct R as [_ R].
  assert (reg = 0x25) as -> by (apply (f_equal fst) in Es; exact (eq_sym Es)).
  assert (mem = (spec_run two_banks (0, contents (machine_start (powered new_memory_bank new_memory_bank)))).2) as ->
    by (by rewrite Es).
  split; (rewrite R; [vm_compute; reflexivity|split; by vm_compute|split; split; by vm_compute]).
Defined.

Definition at_reset : rosco_6502 (option memdisk) :=
  powered (mk_memory_bank ram_entries 0) (mk_memory_bank rom_entries 0).

Lemma quickload_loads_witness :
  (exists s', quickload_cb 3 (fun _ => [0xa9; 0x01; 0x60]) at_reset = Some (None, s') /\
     contents s' (Low 0x0801) = 0x01 /\ m_NPC (m_maincpu s') = 0x0800) /\
  quickload_cb 0x3801 (fun _ => []) at_reset = Some (Some INVALIDLENGTH, at_reset).
Proof.
  assert (banks_ok at_reset) as Hok by (split; done).
  destruct (quickload_loads at_reset 3 (fun _ => [0xa9; 0x01; 0x60]) Hok ltac:(lia)) as (_ & _ & Q).
  destruct (quickload_loads at_reset 0x3801 (fun _ => []) Hok ltac:(lia)) as (Q' & _).
  split; [|apply Q'; by right].
  destruct Q as (s' & E & _ & _ & Ec & _ & (En & _)); [lia|done|u8_list|].
  exists s'. split; [exact E|]. split; [rewrite Ec by (split; lia); reflexivity|exact En].
Defined.
