(* ===== verification/RoscoM68k.v ===== *)
(** * RoscoM68k: the rosco_m68k machine (src/src/rosco/drivers/rosco_m68k.cpp)

    The state of all four boards, and the 16-bit bus of the 68000 and 68010
    ones: the address map with the boot-vector overlay, the unmapped areas that assert BERR and the timer
    that lets read-modify-write cycles complete, reset and quickload.  The
    DUART and what hangs on it are [Board], the bus accesses [Memory], the
    timer queue [Scheduler].  The ATA interface is an interface of the model,
    and what the processor does with a bus error is its list of events. *)

From stdpp Require Import base tactics numbers option list gmap.
From Stdlib Require Import ZArith Lia Bool.
From S2P Require Import Prelude Attotime Device Scheduler Serial Duart DuartInv DuartFacts Crc16 Harddisk SdCard SdCsd SdSpi SdSession SdTransfer Memory Units Board.

(** ** What is around the board *)

(** [ata_interface_device]: 16-bit registers under a mask. *)
Class AtaInterface (T : Type) := {
  cs0_r : Z -> Z -> T -> Z * T;
  cs0_w : Z -> Z -> Z -> T -> T;
  cs1_r : Z -> Z -> T -> Z * T;
  cs1_w : Z -> Z -> Z -> T -> T
}.

(** The processor, as far as the board calls it. *)
Inductive cpu_type := M68000 | M68010 | M68020 | M68030.

Inductive cpu_event :=
  | trigger_bus_error
  | set_buserror_details (address : Z) (rw : bool)
  | set_input_line_BUSERROR (level : Z).

(** ** Callbacks of the timers

Timers whose callbacks leave the scheduler alone. *)
Section WorldCallbacks.
Context {W : Type} (f : nat -> Z -> W -> W).
Definition world_call (cb : nat) (param : Z) (sw : sched * W) : sched * W := (sw.1, f cb param sw.2).

Definition called (id : nat) (s : sched) (w : W) : W :=
  let timer := timer_at (heap s) id in
  if m_enabled timer then match m_callback timer with Some cb => f cb (m_param timer) w | None => w end else w.

Lemma execute_timer_world id s w : execute_timer world_call id (s, w) = (fired id s, called id s w).
Proof.
  assert (m_callback_timer_modified (firing id s) = false) as Hm by (unfold firing; by destruct (_ || _)).
  rewrite execute_timer_firing. unfold fired, called. cbv zeta.
  destruct (m_enabled (timer_at (heap s) id)), (m_callback (timer_at (heap s) id)) as [cb|];
    unfold world_call; cbn [fst snd]; rewrite Hm; cbn [negb];
    destruct (m_temporary (timer_at (heap (firing id s)) id)); cbn [negb]; reflexivity.
Qed.

Lemma execute_timers_world fuel s w x : m_timer_list s = Some x ->
  execute_timers world_call fuel (s, w) =
    if leb (m_expire (timer_at (heap s) x)) (m_basetime s)
    then match fuel with O => None | S fuel => execute_timers world_call fuel (fired x s, called x s w) end
    else Some (s <| m_callback_timer := None |>, w).
Proof. intros E. destruct fuel; cbn [execute_timers fst snd]; by rewrite E, ?execute_timer_world. Qed.

(** A timer that is due runs, whatever other timers do, when what its callback
    brings about is kept by all of them. *)
Context (cb : nat) (P Q : W -> Prop).
Context (Hkeep : forall c p w, P w -> P (f c p w)) (Hmade : forall p w, P w -> Q (f cb p w))
  (Hstays : forall c p w, P w -> Q w -> Q (f c p w)).

Definition still_due (id : nat) (s : sched) (A : list nat) : Prop :=
  id ∈ A /\ m_callback (timer_at (heap s) id) = Some cb /\ val (expire_at (heap s) id) <= val (m_basetime s).

(** The timer at the head of the queue. *)
Lemma head_timer s A I d x : inv None s A I d -> head (A ++ [d]) = Some x ->
  x ∈ A ++ [d] /\ forall y, y ∈ A -> val (expire_at (heap s) x) <= val (expire_at (heap s) y).
Proof.
  intros Hinv Hx. destruct A as [|a A]; cbn in Hx; injection Hx as <-.
  - split; [by left|]. intros y Hy. by apply elem_of_nil in Hy.
  - split; [by left|]. intros y Hy. pose proof (inv_sorted _ _ _ _ _ Hinv) as Hs.
    inversion Hs as [|? ? _ Hle]; subst. rewrite Forall_forall in Hle.
    apply elem_of_cons in Hy as [->|Hy]; [lia|]. exact (Hle y Hy).
Qed.

(** One turn takes the timer closer to its run, or runs it. *)
Lemma turn_still_due x id s A I d w : inv None s (x :: A) I d -> val (expire_at (heap s) x) <= val (m_basetime s) ->
  P w -> still_due id s (x :: A) \/ Q w ->
  exists A' I', inv None (fired x s) A' I' d /\ m_basetime (fired x s) = m_basetime s /\
    m_executing_device (fired x s) = m_executing_device s /\
    (work (m_basetime s) (heap (fired x s)) A' < work (m_basetime s) (heap s) (x :: A))%nat /\
    P (called x s w) /\ (still_due id (fired x s) A' \/ Q (called x s w)).
Proof.
  intros Hinv Hdue HP HQ. destruct (fired_work _ _ _ _ _ Hinv Hdue) as (A' & I' & Hinv' & [Eb Ee] & Hw' & _ & Hst).
  exists A', I'. do 4 (split; [done|]).
  assert (P (called x s w)) as HP'.
  { unfold called. destruct (m_enabled _); [|done]. destruct (m_callback _); [by apply Hkeep|done]. }
  split; [done|]. destruct HQ as [(Hid & Hcb & Hd)|HQ].
  - apply elem_of_cons in Hid as [->|Hid].
    + right. unfold called. destruct (inv_active _ _ _ _ _ Hinv x (list_elem_of_here x A)) as [[He|He] _]; [|done].
      unfold enabled_at in He. rewrite He, Hcb. by apply Hmade.
    + left. destruct (Hst id Hid) as [Hid' Ed]. split; [done|]. unfold expire_at in *. rewrite Eb.
      apply data_fields in Ed as Ef. destruct Ef as (-> & _ & _ & _ & _ & _ & -> & _). done.
  - right. unfold called. destruct (m_enabled _); [|done]. destruct (m_callback _); [by apply Hstays|done].
Qed.

Lemma due_timer_runs fuel id : forall s A I d w,
  inv None s A I d -> m_executing_device s = None -> wf (m_basetime s) -> is_never (m_basetime s) = false ->
  (work (m_basetime s) (heap s) A <= fuel)%nat -> P w -> still_due id s A \/ Q w ->
  exists s' w', execute_timers world_call fuel (s, w) = Some (s', w') /\ P w' /\ Q w'.
Proof.
  induction fuel as [|fuel IH]; intros s A I d w Hinv Hex Hb Hn Hw HP HQ;
    pose proof (inv_head _ _ _ _ _ Hinv) as Ehd;
    (destruct (head (A ++ [d])) as [x|] eqn:Ex; [|destruct A; discriminate Ex]);
    rewrite (execute_timers_world _ _ _ x Ehd); destruct (head_timer _ _ _ _ _ Hinv Ex) as [Hx Hfirst];
    rewrite (leb_expire _ _ _ _ _ _ Hinv Hb Hx);
    pose proof (dummy_not_due _ _ _ _ _ Hinv Hb Hn) as Hdd;
    (destruct (Z.leb_spec (val (expire_at (heap s) x)) (val (m_basetime s))) as [Hdue|Hlt];
      [destruct A as [|a A]; cbn in Ex; injection Ex as ->; [lia|]|
       eexists _, w; split; [reflexivity|]; split; [exact HP|];
       destruct HQ as [(Hid & _ & Hd)|HQ]; [specialize (Hfirst id Hid); lia|exact HQ]]).
  - rewrite work_cons in Hw. pose proof (due_pos (m_basetime s) _ Hdue). lia.
  - destruct (turn_still_due x id s A I d w Hinv Hdue HP HQ) as (A' & I' & Hinv' & Eb & Ee & Hw' & HP' & HQ').
    apply (IH (fired x s) A' I' d); [exact Hinv'|congruence|congruence|congruence|rewrite Eb; lia|exact HP'|exact HQ'].
Qed.
End WorldCallbacks.

(** ** The machine *)

Record rosco_m68k (I T : Type) := mk_rosco_m68k {
  m_board : duart * world I;
  m_ata : T;
  m_sysram : Z -> Z;
  monitor : Z -> Z;
  m_bootvect : memory_view;
  m_bus_error : bool;
  m_bus_error_timer : nat;
  events : list cpu_event
}.
Arguments mk_rosco_m68k {I T}. Arguments m_board {I T}. Arguments m_ata {I T}. Arguments m_sysram {I T}.
Arguments monitor {I T}. Arguments m_bootvect {I T}. Arguments m_bus_error {I T}.
Arguments m_bus_error_timer {I T}. Arguments events {I T}.

#[export] Instance rosco_m68k_eta I T : Eta (rosco_m68k I T) := fun s =>
  mk_rosco_m68k (m_board s) (m_ata s) (m_sysram s) (monitor s) (m_bootvect s) (m_bus_error s) (m_bus_error_timer s) (events s).

(** The number the scheduler knows the [bus_error] callback by. *)
Definition BUS_ERROR : nat := 1.

Section Machine.
Context {I T : Type} `{BlockImage I} `{AtaInterface T}.
Context (cpu : cpu_type) (m_clock : Z) (cycles_to_clocks : Z -> Z).

#[local] Abbreviation M := (rosco_m68k I T).
#[local] Abbreviation St := (sched * M)%type.
#[local] Existing Instance board.

Definition on_machine (f : M -> M) (s : St) : St := (s.1, f s.2).

(** ** Bus errors *)

Definition signal_bus_error (address : Z) (rw : bool) (m : M) : M :=
  match cpu with
  | M68000 => m <| events ::= fun l => l ++ [trigger_bus_error] |>
  | _ =>
      let m := m <| events ::= fun l => l ++ [set_buserror_details address rw] |> in
      let m := m <| events ::= fun l => l ++ [set_input_line_BUSERROR 1] |> in
      m <| events ::= fun l => l ++ [set_input_line_BUSERROR 0] |>
  end.

Definition bus_error_delay : attotime := clocks_to_attotime m_clock (cycles_to_clocks 16).

Definition set_bus_error (address : Z) (rw : bool) (mem_mask : Z) (s : St) : St :=
  if m_bus_error s.2 then s
  else if w_side_effects_disabled (m_board s.2).2 then s
  else
    let s := on_machine (fun m => m <| m_bus_error := true |>) s in
    let s := on_machine (signal_bus_error address rw) s in
    (adjust bus_error_delay 0 never (m_bus_error_timer s.2) s.1, s.2).

Definition bus_error (m : M) : M := m <| m_bus_error := false |>.

Definition unmapped_ram_r (offset mem_mask : Z) (s : St) : Z * St := (0xff, set_bus_error (u32 (Z.shiftl offset 1)) false mem_mask s).
Definition unmapped_ram_w (offset data mem_mask : Z) (s : St) : St := set_bus_error (u32 (Z.shiftl offset 1)) true mem_mask s.
Definition unmapped_exp_r (offset mem_mask : Z) (s : St) : Z * St :=
  (0xff, set_bus_error (u32 (Z.shiftl offset 1 + 0xf00000)) false mem_mask s).
Definition unmapped_exp_w (offset data mem_mask : Z) (s : St) : St :=
  set_bus_error (u32 (Z.shiftl offset 1 + 0xf00000)) true mem_mask s.

(** ** The boot vectors *)

Definition COMBINE_DATA (old data mem_mask : Z) : Z := Z.lor (Z.land old (Z.lnot mem_mask)) (Z.land data mem_mask).

Definition bootvect_w (offset data mem_mask : Z) (m : M) : M :=
  let m := m <| m_sysram ::= fun r i => if i =? offset then handler_entry_size_t 1 (COMBINE_DATA (r offset) data mem_mask) else r i |> in
  m <| m_bootvect ::= disable |>.

Definition bootvec_reset (m : M) : option M :=
  match select 0 (m_bootvect m) with Some v => Some (m <| m_bootvect := v |>) | None => None end.

Definition machine_reset (s : St) : option St :=
  let s := on_machine (fun m => m <| m_board ::= board_machine_reset |>) s in
  match bootvec_reset s.2 with Some m => Some (s.1, m) | None => None end.

Definition machine_start (s : St) : St := (timer_alloc (Some BUS_ERROR) (m_bus_error_timer s.2) s.1, s.2).

(** ** The address map: native 16-bit accesses *)

Definition overlaid (m : M) : bool := m_cur_id (m_bootvect m) =? 0.

(** The DUART has 8-bit registers, on the low byte of the bus. *)
Definition duart_read8 (offset mem_mask : Z) (s : St) : Z * St :=
  let '(v, b) := Duart.read offset (m_board s.2) in (v, on_machine (fun m => m <| m_board := b |>) s).
Definition duart_write8 (offset data mem_mask : Z) : St -> St :=
  on_machine (fun m => m <| m_board ::= Duart.write offset data |>).
Definition duart_r : read_handler := low_byte_read duart_read8.
Definition duart_w : write_handler := low_byte_write duart_write8.

Definition ata_cs0_r (offset mem_mask : Z) (s : St) : Z * St :=
  let '(v, t) := cs0_r offset mem_mask (m_ata s.2) in (handler_entry_size_t 1 v, on_machine (fun m => m <| m_ata := t |>) s).
Definition ata_cs0_w (offset data mem_mask : Z) : St -> St := on_machine (fun m => m <| m_ata ::= cs0_w offset data mem_mask |>).
Definition ata_cs1_r (offset mem_mask : Z) (s : St) : Z * St :=
  let '(v, t) := cs1_r offset mem_mask (m_ata s.2) in (handler_entry_size_t 1 v, on_machine (fun m => m <| m_ata := t |>) s).
Definition ata_cs1_w (offset data mem_mask : Z) : St -> St := on_machine (fun m => m <| m_ata ::= cs1_w offset data mem_mask |>).

Definition program_read (address mem_mask : Z) (s : St) : Z * St :=
  let a := Z.land address 0xffffff in
  if inside 0x000000 0x000007 a && overlaid s.2 then
    ((memory_read 1 0 (changing_bits 0 7) a mem_mask (monitor s.2)).1, s)
  else if inside 0x000000 0x0fffff a then ((memory_read 1 0 (changing_bits 0 0x0fffff) a mem_mask (m_sysram s.2)).1, s)
  else if inside 0xe00000 0xefffff a then
    ((memory_read 1 0xe00000 (changing_bits 0xe00000 0xefffff) a mem_mask (monitor s.2)).1, s)
  else if inside 0xf00000 0xf0001f a then
    duart_r (handler_offset 1 0xf00000 0xf0001f a) mem_mask s
  else if inside 0xf80040 0xf8004f a then
    ata_cs0_r (handler_offset 1 0xf80040 0xf8004f a) mem_mask s
  else if inside 0xf80050 0xf8005f a then
    ata_cs1_r (handler_offset 1 0xf80050 0xf8005f a) mem_mask s
  else if inside 0x100000 0xdfffff a then unmapped_ram_r (handler_offset 1 0x100000 0xdfffff a) mem_mask s
  else if inside 0xf00020 0xf8003f a then unmapped_exp_r (handler_offset 1 0xf00020 0xf8003f a) mem_mask s
  else if inside 0xf80060 0xfffdff a then unmapped_exp_r (handler_offset 1 0xf80060 0xfffdff a) mem_mask s
  else (unmap, s).

Definition program_write (address data mem_mask : Z) (s : St) : St :=
  let a := Z.land address 0xffffff in
  if inside 0x000000 0x000007 a && overlaid s.2 then
    on_machine (bootvect_w (handler_offset 1 0x000000 0x000007 a) data mem_mask) s
  else if inside 0x000000 0x0fffff a then
    on_machine (fun m => m <| m_sysram ::= memory_write 1 0 (changing_bits 0 0x0fffff) a data mem_mask |>) s
  else if inside 0xf00000 0xf0001f a then
    duart_w (handler_offset 1 0xf00000 0xf0001f a) data mem_mask s
  else if inside 0xf80040 0xf8004f a then
    ata_cs0_w (handler_offset 1 0xf80040 0xf8004f a) data mem_mask s
  else if inside 0xf80050 0xf8005f a then
    ata_cs1_w (handler_offset 1 0xf80050 0xf8005f a) data mem_mask s
  else if inside 0x100000 0xdfffff a then unmapped_ram_w (handler_offset 1 0x100000 0xdfffff a) data mem_mask s
  else if inside 0xf00020 0xf8003f a then unmapped_exp_w (handler_offset 1 0xf00020 0xf8003f a) data mem_mask s
  else if inside 0xf80060 0xfffdff a then unmapped_exp_w (handler_offset 1 0xf80060 0xfffdff a) data mem_mask s
  else s.

#[local] Instance program_bus : NativeBus St := { rop := program_read; wop := program_write }.

(** ** Quickload *)

Inductive image_error := INVALIDLENGTH | UNSPECIFIED.

Definition LOAD_ADDRESS : Z := 0x40000.
Definition RAM_END : Z := 0x100000.

(** [address_space::write_byte] on the 16-bit bus. *)
Definition write_byte (address data : Z) : St -> St :=
  memory_write_generic 1 0 ENDIANNESS_BIG 0 true address data 0xff.

Fixpoint load_bytes (write_byte : Z -> Z -> St -> St) (address : Z) (buffer : list Z) (s : St) : St :=
  match buffer with
  | [] => s
  | b :: buffer => load_bytes write_byte (address + 1) buffer (write_byte address b s)
  end.

(** The address the processor is sent to, on success. *)
Definition quickload_on (write_byte : Z -> Z -> St -> St) (length : Z) (fread : Z -> list Z) (s : St) : (image_error + Z) * St :=
  if (length =? 0) || (RAM_END - LOAD_ADDRESS <? length) then (inl INVALIDLENGTH, s)
  else let buffer := fread length in
  if negb (Z.of_nat (List.length buffer) =? length) then (inl UNSPECIFIED, s)
  else (inr LOAD_ADDRESS, load_bytes write_byte LOAD_ADDRESS buffer s).

Definition quickload_cb : Z -> (Z -> list Z) -> St -> (image_error + Z) * St := quickload_on write_byte.

(** ** The overlay *)

Inductive native_op := NRead (a m : Z) | NWrite (a d m : Z).
Definition native_ok (o : native_op) : Prop :=
  match o with
  | NRead a m => 0 <= a < 0x1000000 /\ a mod 2 = 0 /\ is_u16 m
  | NWrite a d m => 0 <= a < 0x1000000 /\ a mod 2 = 0 /\ is_u16 d /\ is_u16 m
  end.

Definition native_step (s : St) (o : native_op) : St :=
  match o with NRead a m => (program_read a m s).2 | NWrite a d m => program_write a d m s end.

(** The specification: whether the vectors are still the monitor's, and the RAM. *)
Definition overlay_step (m : bool * (Z -> Z)) (o : native_op) : bool * (Z -> Z) :=
  match o with
  | NRead _ _ => m
  | NWrite a d mask => (m.1 && negb (a <? 8), if a <? 0x100000 then memory_write 1 0 (2 ^ 20 - 1) a d mask m.2 else m.2)
  end.

Definition mem_part (m : M) := (m_sysram m, monitor m, m_bootvect m).

Lemma set_bus_error_mem address rw mask (s : St) : mem_part (set_bus_error address rw mask s).2 = mem_part s.2.
Proof.
  unfold set_bus_error. destruct s as [sc m]. cbn [fst snd]. destruct (m_bus_error m); [done|].
  destruct (w_side_effects_disabled _); [done|]. cbn [fst snd on_machine]. unfold signal_bus_error. by destruct cpu.
Qed.

Lemma duart_r_mem offset mask (s : St) : mem_part (duart_r offset mask s).2.2 = mem_part s.2.
Proof.
  unfold duart_r, low_byte_read, duart_read8. destruct (test mask 0xff); [|done]. by destruct (Duart.read offset (m_board s.2)).
Qed.
Lemma duart_w_mem offset data mask (s : St) : mem_part (duart_w offset data mask s).2 = mem_part s.2.
Proof. unfold duart_w, low_byte_write. by destruct (test mask 0xff). Qed.

Lemma program_read_mem a mask (s : St) : mem_part (program_read a mask s).2.2 = mem_part s.2.
Proof.
  unfold program_read. cbv zeta. destruct s as [sc m]. cbn [fst snd]. generalize (Z.land a 0xffffff). intros x.
  repeat match goal with |- context [if ?b then _ else _] => destruct b end; try done;
    try (by apply set_bus_error_mem).
  - apply duart_r_mem.
  - unfold ata_cs0_r. by destruct (cs0_r _ _ _).
  - unfold ata_cs1_r. by destruct (cs1_r _ _ _).
Qed.

Lemma address_24 a : 0 <= a < 0x1000000 -> Z.land a 0xffffff = a.
Proof. intros Ha. change 0xffffff with (Z.ones 24). rewrite Z.land_ones by lia. by apply Z.mod_small. Qed.

Lemma element_low k a : 0 <= a < 2 ^ k -> k <= 32 -> element 1 0 (Z.ones k) a = a / 2.
Proof.
  intros Ha Hk. assert (0 <= k) by (destruct (Z.lt_ge_cases k 0); [rewrite Z.pow_neg_r in Ha by lia; lia|lia]).
  unfold element. rewrite Z.sub_0_r, u32_id, Z.land_ones, Z.mod_small by
    (try done; pose proof (Z.pow_le_mono_r 2 k 32 ltac:(lia) ltac:(lia)); lia).
  by rewrite Z.shiftr_div_pow2.
Qed.

(** Above the overlay, and below it when it is gone, accesses are the RAM's. *)
Lemma read_ram a mask (s : St) : 0 <= a < 0x100000 -> 8 <= a \/ overlaid s.2 = false ->
  program_read a mask s = ((memory_read 1 0 (2 ^ 20 - 1) a mask (m_sysram s.2)).1, s).
Proof.
  intros Ha Ho. unfold program_read. rewrite address_24 by lia. cbv zeta.
  assert (inside 0 7 a && overlaid s.2 = false) as ->.
  { destruct Ho as [Ho| ->]; [by rewrite inside_false by lia|by rewrite andb_false_r]. }
  by rewrite inside_true by lia.
Qed.

Lemma write_ram a data mask (s : St) : 0 <= a < 0x100000 -> 8 <= a \/ overlaid s.2 = false ->
  program_write a data mask s = on_machine (fun m => m <| m_sysram ::= memory_write 1 0 (2 ^ 20 - 1) a data mask |>) s.
Proof.
  intros Ha Ho. unfold program_write. rewrite address_24 by lia. cbv zeta.
  assert (inside 0 7 a && overlaid s.2 = false) as ->.
  { destruct Ho as [Ho| ->]; [by rewrite inside_false by lia|by rewrite andb_false_r]. }
  by rewrite inside_true by lia.
Qed.

Lemma write_elsewhere a data mask (s : St) : 0x100000 <= a < 0x1000000 ->
  mem_part (program_write a data mask s).2 = mem_part s.2.
Proof.
  intros Ha. unfold program_write. rewrite address_24 by lia. cbv zeta. rewrite !inside_false by lia. cbn [andb].
  repeat match goal with |- context [if ?b then _ else _] => destruct b end; try done;
    try (by apply set_bus_error_mem). apply duart_w_mem.
Qed.

(** The view as the address map makes it: one slot, selected or not. *)
Definition view_ok (v : memory_view) : Prop :=
  v = mk_memory_view [(0, 0)] 0 0 \/ v = mk_memory_view [(0, 0)] (-1) (-1).

Definition tracks (m : M) (rom0 : Z -> Z) (o : bool * (Z -> Z)) : Prop :=
  view_ok (m_bootvect m) /\ overlaid m = o.1 /\ m_sysram m = o.2 /\ monitor m = rom0.

Lemma tracks_mem m m' rom0 o : mem_part m' = mem_part m -> tracks m rom0 o -> tracks m' rom0 o.
Proof. unfold mem_part, tracks, overlaid. intros [= -> -> ->]. done. Qed.

Lemma bootvect_write a data mask (s : St) : 0 <= a < 8 -> overlaid s.2 = true ->
  program_write a data mask s =
    on_machine (fun m => m <| m_sysram ::= memory_write 1 0 (2 ^ 20 - 1) a data mask |> <| m_bootvect ::= disable |>) s.
Proof.
  intros Ha Ho. unfold program_write. rewrite address_24 by lia. cbv zeta. rewrite inside_true, Ho by lia. cbn [andb].
  unfold bootvect_w, memory_write, handler_offset. cbv zeta. change (changing_bits 0 7) with (Z.ones 3).
  change (2 ^ 20 - 1) with (Z.ones 20). rewrite !element_low by (change (2 ^ 20) with 0x100000; change (2 ^ 3) with 8; lia). reflexivity.
Qed.

Lemma native_step_tracks rom0 o ov (s : St) : native_ok o -> tracks s.2 rom0 ov ->
  tracks (native_step s o).2 rom0 (overlay_step ov o).
Proof.
  destruct o as [a m|a d m]; cbn [native_ok native_step overlay_step].
  - intros _. apply tracks_mem, program_read_mem.
  - intros (Ha & _) Ht. destruct (Z.ltb_spec a 0x100000) as [Hr|Hr].
    + destruct Ht as (Hv & Ho & Es & Em). destruct s as [sc w]. cbn [fst snd] in *.
      destruct (Z.ltb_spec a 8) as [H8|H8]; cbn [negb]; [destruct (overlaid w) eqn:Eo|].
      * rewrite bootvect_write by (done || lia). unfold tracks, overlaid in *. cbn [on_machine fst snd].
        rewrite <- Ho, <- Es. destruct w as [? ? ? ? v ? ? ?]. cbn in Hv, Eo |- *.
        destruct Hv as [-> | ->]; [|by cbn in Eo]. split; [by right|]. by repeat split.
      * rewrite write_ram by (lia || by right). rewrite <- Ho, <- Es. destruct w as [? ? ? ? v ? ? ?].
        split; [exact Hv|]. by split.
      * rewrite write_ram by (lia || by left). rewrite <- Ho, <- Es, andb_true_r. destruct w as [? ? ? ? v ? ? ?].
        split; [exact Hv|]. by split.
    + destruct (Z.ltb_spec a 8); [lia|]. cbn [negb]. rewrite andb_true_r.
      apply (tracks_mem s.2); [by apply write_elsewhere; lia|by destruct ov].
Qed.

Lemma machine_reset_tracks (s : St) : view_ok (m_bootvect s.2) ->
  exists s0, machine_reset s = Some s0 /\ tracks s0.2 (monitor s.2) (true, m_sysram s.2).
Proof.
  destruct s as [sc [bd at' ram rom v be bt ev]]. cbn. intros Hv. unfold machine_reset, bootvec_reset. cbn.
  destruct Hv as [-> | ->]; cbn; eexists; (split; [reflexivity|]); split; [by left|done|by left|done].
Qed.


Lemma native_run_tracks rom0 ops : forall ov (s : St), Forall native_ok ops -> tracks s.2 rom0 ov ->
  tracks (fold_left native_step ops s).2 rom0 (fold_left overlay_step ops ov).
Proof.
  induction ops as [|o ops IH]; intros ov s Ho Ht; [done|]. apply Forall_cons in Ho as [Ho Hos].
  cbn [fold_left]. apply IH; [done|]. by apply native_step_tracks.
Qed.

Lemma read_vector a mask (s : St) : 0 <= a < 8 -> overlaid s.2 = true ->
  (program_read a mask s).1 = handler_entry_size_t 1 (monitor s.2 (a / 2)).
Proof.
  intros Ha Ho. unfold program_read. rewrite address_24 by lia. cbv zeta. rewrite inside_true, Ho by lia. cbn [andb fst].
  unfold memory_read. change (changing_bits 0 7) with (Z.ones 3). cbn [fst].
  rewrite element_low by (change (2 ^ 3) with 8; lia). done.
Qed.

Lemma read_word a mask (s : St) : 0 <= a < 0x100000 -> 8 <= a \/ overlaid s.2 = false ->
  (program_read a mask s).1 = handler_entry_size_t 1 (m_sysram s.2 (a / 2)).
Proof.
  intros Ha Ho. rewrite read_ram by done. cbn [fst]. unfold memory_read. cbn [fst].
  change (2 ^ 20 - 1) with (Z.ones 20). by rewrite element_low by (change (2 ^ 20) with 0x100000; lia).
Qed.

(** C17: After a reset the eight bytes of the boot vectors read as the first of
    the monitor ROM until something is written to any of them, and as the
    RAM, with that write already in it, from then on; whatever else the
    program accesses meanwhile, bus errors and devices included, neither
    brings the overlay back nor disturbs the RAM. *)
Theorem boot_vectors (s : St) ops : view_ok (m_bootvect s.2) -> Forall native_ok ops ->
  exists s0, machine_reset s = Some s0 /\
    let s' := fold_left native_step ops s0 in
    let '(ov, ram) := fold_left overlay_step ops (true, m_sysram s.2) in
    (forall a mask, 0 <= a < 8 -> (program_read a mask s').1 =
       handler_entry_size_t 1 (if ov : bool then monitor s.2 (a / 2) else ram (a / 2))) /\
    (forall a mask, 8 <= a < 0x100000 -> (program_read a mask s').1 = handler_entry_size_t 1 (ram (a / 2))).
Proof.
  intros Hv Ho. destruct (machine_reset_tracks s Hv) as (s0 & E & Ht). exists s0. split; [done|]. cbv zeta.
  pose proof (native_run_tracks _ ops _ _ Ho Ht) as (_ & Eo & Es & Em). destruct (fold_left overlay_step ops _) as [ov ram].
  cbn [fst snd] in *. split; intros a mask Ha.
  - destruct ov; [rewrite read_vector by done; by rewrite Em|rewrite read_word by (lia || by right); by rewrite Es].
  - rewrite read_word by (lia || by left). by rewrite Es.
Qed.

(** ** RAM for accesses of any width *)

#[local] Instance sysram_memory : BusMemory St 1 ENDIANNESS_BIG 8 0x100000.
Proof.
  apply (ram_window 1 ENDIANNESS_BIG 0 20 ltac:(lia) ltac:(lia) ltac:(lia) eq_refl ltac:(by vm_compute) program_bus
    (fun s : St => m_sysram s.2)); [lia|by vm_compute|done|done| |].
  - intros a m w _ H1 H2. change (width_bytes 1) with 2 in H2. cbn [rop program_bus].
    rewrite read_ram by (lia || by left). done.
  - intros a d m w _ H1 H2. change (width_bytes 1) with 2 in H2. cbn [wop program_bus].
    rewrite write_ram by (lia || by left). by destruct w as [sc []].
Defined.

(** The byte at an address of the RAM. *)
Definition ram_byte (s : St) (a : Z) : Z :=
  handler_entry_size_t 0 (Z.shiftr (m_sysram s.2 (a / 2)) (if a mod 2 =? 0 then 8 else 0)).

Lemma ram_byte_bit s a i : 8 <= a < 0x100000 -> 0 <= i < 8 ->
  Z.testbit (ram_byte s a) i = memory_bit s (bit_position ENDIANNESS_BIG 8 a i).
Proof.
  intros Ha Hi. unfold ram_byte. rewrite testbit_size, Z.shiftr_spec by lia.
  assert ((i <? width_bits 0) = true) as -> by (apply Z.ltb_lt; exact (proj2 Hi)). cbn [andb].
  change (memory_bit s ?p) with (ram_bit 1 ENDIANNESS_BIG 0 (m_sysram s.2) p). unfold ram_bit, bit_position. cbn [little].
  change (width_bits 1) with 16. change (8 * 0) with 0. rewrite Z.sub_0_r.
  destruct (Z.eqb_spec (a mod 2) 0) as [E|E]; f_equal; [f_equal| |f_equal|]; Z.to_euclidean_division_equations; lia.
Qed.

Lemma write_byte_bytes a d (s : St) : 8 <= a < 0x100000 -> is_u8 d ->
  forall x, 8 <= x < 0x100000 -> ram_byte (write_byte a d s) x = if x =? a then d else ram_byte s x.
Proof.
  intros Ha Hd x Hx.
  pose proof (write_generic_ok (Width := 1) (en := ENDIANNESS_BIG) (first := 8) (last := 0x100000) 0 true ltac:(lia) ltac:(lia) a 0xff
    ltac:(lia) ltac:(change (width_bytes 0) with 1; lia) ltac:(change (2 ^ width_bits 0) with 256; lia) d
    (whole_bytes_ones 1 ltac:(lia)) ltac:(done) s ltac:(intros _; apply Z.mod_1_r) Hd) as [W1 W2].
  fold (write_byte a d s) in W1, W2. change (width_bits 0) with 8 in W1, W2.
  apply Z.bits_inj'. intros i Hi. destruct (Z.lt_ge_cases i 8) as [H8|H8].
  - rewrite ram_byte_bit by lia. destruct (Z.eqb_spec x a) as [->|Hne].
    + apply W1; [lia|]. change 0xff with (Z.ones 8). by apply Z.ones_spec_low.
    + rewrite W2; [by rewrite ram_byte_bit by lia| |].
      * unfold bit_position. cbn [little]. lia.
      * intros j Hj _. unfold bit_position. cbn [little]. lia.
  - assert (forall y, 0 <= handler_entry_size_t 0 y < 2 ^ 8) as R by (intros y; apply (size_range 0); lia).
    unfold ram_byte. destruct (x =? a); rewrite !(testbit_below 8) by (try apply R; try apply Hd; lia); done.
Qed.

Lemma load_bytes_bytes buffer : forall a (s : St), 8 <= a -> a + Z.of_nat (length buffer) <= 0x100000 -> Forall is_u8 buffer ->
  forall x, 8 <= x < 0x100000 -> ram_byte (load_bytes write_byte a buffer s) x =
    if (a <=? x) && (x <? a + Z.of_nat (length buffer)) then nth (Z.to_nat (x - a)) buffer 0 else ram_byte s x.
Proof.
  induction buffer as [|b buffer IH]; intros a s H1 H2 Hb x Hx; cbn [load_bytes length] in *.
  - destruct (Z.leb_spec a x), (Z.ltb_spec x (a + Z.of_nat 0)); try lia; done.
  - apply Forall_cons in Hb as [Hb Hbs]. rewrite Nat2Z.inj_succ in *. rewrite IH by (done || lia).
    rewrite write_byte_bytes by (done || lia). destruct (Z.eqb_spec x a) as [->|Hne].
    + destruct (Z.leb_spec (a + 1) a), (Z.leb_spec a a), (Z.ltb_spec a (a + Z.succ (Z.of_nat (length buffer)))); try lia.
      cbn [andb]. by rewrite Z.sub_diag.
    + destruct (Z.leb_spec (a + 1) x), (Z.leb_spec a x), (Z.ltb_spec x (a + 1 + Z.of_nat (length buffer))),
        (Z.ltb_spec x (a + Z.succ (Z.of_nat (length buffer)))); try lia; cbn [andb]; try done.
      replace (Z.to_nat (x - a)) with (S (Z.to_nat (x - (a + 1)))) by lia. done.
Qed.

(** C34: Quickload on the 68000 boards writes the image byte by byte over the
    16-bit big-endian bus: on success byte n of the image is the byte of RAM
    at 0x40000 + n and no other byte of RAM above the vectors, from 8 to
    0xfffff, has changed; an empty
    or oversized image and a short read change nothing. *)
Theorem quickload_bytes (s : St) length fread : 0 <= length ->
  match quickload_cb length fread s with
  | (inl INVALIDLENGTH, s') => (length = 0 \/ 0xc0000 < length) /\ s' = s
  | (inl UNSPECIFIED, s') => 0 < length <= 0xc0000 /\ Z.of_nat (List.length (fread length)) <> length /\ s' = s
  | (inr pc, s') => 0 < length <= 0xc0000 /\ pc = 0x40000 /\
      (Forall is_u8 (fread length) -> forall x, 8 <= x < 0x100000 -> ram_byte s' x =
        if (0x40000 <=? x) && (x <? 0x40000 + length) then nth (Z.to_nat (x - 0x40000)) (fread length) 0 else ram_byte s x)
  end.
Proof.
  intros Hl. unfold quickload_cb, quickload_on. change (RAM_END - LOAD_ADDRESS) with 0xc0000.
  destruct (Z.eqb_spec length 0) as [E0|E0]; [split; [by left|done]|].
  destruct (Z.ltb_spec 0xc0000 length) as [E1|E1]; [split; [by right|done]|]. cbn [orb].
  destruct (Z.eqb_spec (Z.of_nat (List.length (fread length))) length) as [E2|E2]; cbn [negb]; [|split; [lia|done]].
  split; [lia|]. split; [done|]. intros Hb x Hx. unfold LOAD_ADDRESS. rewrite load_bytes_bytes by (done || lia). by rewrite E2.
Qed.

(** ** Bus errors *)


(** The areas that assert BERR, and the address the handlers report for one
    of theirs: the offset in the area, not the address on the bus. *)
Definition unmapped (a : Z) : bool :=
  inside 0x100000 0xdfffff a || inside 0xf00020 0xf8003f a || inside 0xf80060 0xfffdff a.

Definition reported_address (a : Z) : Z :=
  if inside 0x100000 0xdfffff a then a - 0x100000
  else if inside 0xf00020 0xf8003f a then 0xf00000 + (a - 0xf00020)
  else 0xf00000 + (a - 0xf80060).

Lemma unmapped_access a m (s : St) : a mod 2 = 0 -> unmapped a = true ->
  program_read a m s = (0xff, set_bus_error (reported_address a) false m s) /\
  forall d, program_write a d m s = set_bus_error (reported_address a) true m s.
Proof.
  intros Ha2 Hu. unfold unmapped in Hu. unfold program_read, program_write, reported_address.
  unfold inside in Hu.
  assert (0x100000 <= a <= 0xdfffff \/ 0xf00020 <= a <= 0xf8003f \/ 0xf80060 <= a <= 0xfffdff) as C.
  { repeat match type of Hu with context [?x <=? ?y] => destruct (Z.leb_spec x y) end; cbn in Hu; try done; lia. }
  clear Hu. rewrite address_24 by lia. cbv zeta.
  destruct C as [C|[C|C]]; rewrite !(inside_false 0 7), !(inside_false 0 0xfffff), !(inside_false 0xe00000 0xefffff),
    !(inside_false 0xf00000 0xf0001f), !(inside_false 0xf80040 0xf8004f), !(inside_false 0xf80050 0xf8005f) by lia; cbn [andb].
  - rewrite !inside_true by lia. unfold unmapped_ram_r, unmapped_ram_w.
    rewrite (offset_16 0x100000 0xdfffff 24), u32_id by (done || lia). done.
  - rewrite !(inside_false 0x100000), !(inside_true 0xf00020) by lia. unfold unmapped_exp_r, unmapped_exp_w.
    rewrite (offset_16 0xf00020 0xf8003f 20), u32_id by (done || lia). by rewrite Z.add_comm.
  - rewrite !(inside_false 0x100000), !(inside_false 0xf00020), !(inside_true 0xf80060) by lia. unfold unmapped_exp_r, unmapped_exp_w.
    rewrite (offset_16 0xf80060 0xfffdff 19), u32_id by (done || lia). by rewrite Z.add_comm.
Qed.

(** An access to such an area. *)
Definition op_address (o : native_op) : Z := match o with NRead a _ => a | NWrite a _ _ => a end.
Definition op_write (o : native_op) : bool := match o with NRead _ _ => false | NWrite _ _ _ => true end.
Definition op_mask (o : native_op) : Z := match o with NRead _ m => m | NWrite _ _ m => m end.
Definition faults (o : native_op) : Prop := op_address o mod 2 = 0 /\ unmapped (op_address o) = true.

Lemma fault_step (s : St) o : faults o -> native_step s o = set_bus_error (reported_address (op_address o)) (op_write o) (op_mask o) s.
Proof.
  intros [Ha Hu]. destruct o as [a m|a d m]; cbn [op_address op_write op_mask native_step] in *;
    destruct (unmapped_access a m s Ha Hu) as [E1 E2]; [by rewrite E1|apply E2].
Qed.

(** What the processor is told. *)
Definition signals (o : native_op) : list cpu_event :=
  match cpu with
  | M68000 => [trigger_bus_error]
  | _ => [set_buserror_details (reported_address (op_address o)) (op_write o);
               set_input_line_BUSERROR 1; set_input_line_BUSERROR 0]
  end.

Lemma fault_open (s : St) o : faults o -> m_bus_error s.2 = false -> w_side_effects_disabled (m_board s.2).2 = false ->
  native_step s o = (adjust bus_error_delay 0 never (m_bus_error_timer s.2) s.1,
                     s.2 <| m_bus_error := true |> <| events ::= fun l => l ++ signals o |>).
Proof.
  intros Hf Hb Hs. rewrite fault_step by done. unfold set_bus_error. rewrite Hb, Hs. destruct s as [sc m].
  unfold signal_bus_error, signals. destruct m, cpu; cbn; [done|..]; unfold upd; cbn; by rewrite <- !app_assoc.
Qed.

Lemma fault_closed (s : St) o : faults o -> m_bus_error s.2 = true -> native_step s o = s.
Proof. intros Hf Hb. rewrite fault_step by done. unfold set_bus_error. by rewrite Hb. Qed.

(** The timeslice is over: timers run from time [b]. *)
Definition end_of_timeslice (b : attotime) (sc : sched) : sched :=
  sc <| m_callback_timer := None |> <| m_executing_device := None |> <| m_basetime := b |>.

(** The callbacks of the other timers leave the guard alone. *)
Record other_timers_ok (f : nat -> Z -> M -> M) : Prop := mk_other_timers_ok {
  runs_bus_error p m : f BUS_ERROR p m = bus_error m;
  keeps_guard c p m : c <> BUS_ERROR -> m_bus_error (f c p m) = m_bus_error m;
  keeps_events c p m : c <> BUS_ERROR -> events (f c p m) = events m
}.

Lemma guard_reopens f sc m A I0 d delay b : other_timers_ok f ->
  inv None sc A I0 d -> m_bus_error_timer m ∈ A ++ I0 ->
  m_callback (timer_at (heap sc) (m_bus_error_timer m)) = Some BUS_ERROR ->
  wf delay -> 0 <= m_seconds delay -> is_never (add (time sc) delay) = false ->
  wf b -> is_never b = false -> val (add (time sc) delay) <= val b ->
  exists fuel s2, execute_timers (world_call f) fuel
      (end_of_timeslice b (adjust delay 0 never (m_bus_error_timer m) sc), m) = Some s2 /\
    events s2.2 = events m /\ m_bus_error s2.2 = false.
Proof.
  intros [Fb Fg Fe] Hinv Hid Hcb Hd Hd0 Hn Hb Hbn Hdue. set (id := m_bus_error_timer m) in *.
  destruct (adjust_spec None delay 0 never id sc A I0 d Hinv Hid Hd) as (A' & I' & Hinv' & Hpl & Hdata & _);
    [by vm_compute|by vm_compute|].
  set (sc1 := adjust delay 0 never id sc) in *. set (sc2 := end_of_timeslice b sc1).
  assert (inv None sc2 A' I' d) as Hinv2 by (eapply (inv_same _ sc1); try done).
  apply data_fields in Hdata as (Ecb & _ & _ & _ & _ & _ & Eex & _). unfold adjusted in Ecb, Eex, Hpl. cbv zeta in *.
  destruct (Z.ltb_spec (m_seconds delay) 0); [lia|].
  unfold placed in Hpl. cbn [m_expire m_enabled upd] in Hpl. cbn [m_callback m_expire upd] in Ecb, Eex.
  rewrite Hn in Hpl. cbn [negb andb] in Hpl. destruct Hpl as (_ & A1 & A2 & _ & EA & _).
  destruct (due_timer_runs f BUS_ERROR (fun w => events w = events m) (fun w => m_bus_error w = false)) with
    (fuel := work (m_basetime sc2) (heap sc2) A') (id := id) (s := sc2) (A := A') (I := I') (d := d) (w := m) as (s' & w' & E & HP & HQ).
  - intros c p w Hw. destruct (decide (c = BUS_ERROR)) as [->|Hc]; [by rewrite Fb|by rewrite Fe].
  - intros p w _. by rewrite Fb.
  - intros c p w _ Hw. destruct (decide (c = BUS_ERROR)) as [->|Hc]; [by rewrite Fb|by rewrite Fg].
  - exact Hinv2.
  - done.
  - exact Hb.
  - exact Hbn.
  - lia.
  - done.
  - left. split; [rewrite EA; apply elem_of_app; right; by left|]. split; [by rewrite <- Hcb; exact Ecb|].
    change (expire_at (heap sc2) id) with (m_expire (timer_at (heap sc1) id)). rewrite Eex. exact Hdue.
  - exists (work (m_basetime sc2) (heap sc2) A'), (s', w'). split; [exact E|]. by split.
Qed.

(** The delay, for a clock of any frequency above sixteen cycles a second. *)
Lemma delay_ok : 0 < m_clock < 4294967296 -> 0 <= cycles_to_clocks 16 < m_clock ->
  wf bus_error_delay /\ m_seconds bus_error_delay = 0 /\
  m_attoseconds bus_error_delay = cycles_to_clocks 16 * (ATTOSECONDS_PER_SECOND / m_clock).
Proof.
  intros Hc Hn. unfold bus_error_delay, clocks_to_attotime, attoseconds_per_clock, HZ_TO_ATTOSECONDS.
  destruct (Z.eqb_spec m_clock 0); [lia|]. destruct (Z.ltb_spec (cycles_to_clocks 16) m_clock); [|lia].
  assert (0 <= ATTOSECONDS_PER_SECOND / m_clock) by (apply Z.div_pos; unfold ATTOSECONDS_PER_SECOND; lia).
  pose proof (Z.mul_div_le ATTOSECONDS_PER_SECOND m_clock ltac:(lia)).
  assert (0 <= cycles_to_clocks 16 * (ATTOSECONDS_PER_SECOND / m_clock) < ATTOSECONDS_PER_SECOND) by (unfold ATTOSECONDS_PER_SECOND in *; nia).
  assert (s64 (u64 (cycles_to_clocks 16 * (ATTOSECONDS_PER_SECOND / m_clock))) = cycles_to_clocks 16 * (ATTOSECONDS_PER_SECOND / m_clock)) as E.
  { rewrite u64_id by (unfold ATTOSECONDS_PER_SECOND in *; lia). apply s64_id. unfold ATTOSECONDS_PER_SECOND in *. lia. }
  rewrite E. split; [|done]. unfold wf. cbn [m_attoseconds]. done.
Qed.

(** C15: An access to an unmapped area asserts BERR once: the processor is
    told, and until the bus-error timer runs no further access to such an
    area does anything; and the timer does run, next to other timers whose
    callbacks leave the guard and the scheduler alone, once the 16 cycles are
    over, after which the next one is signalled again.
    The address reported is the offset inside the area, so a fault at
    0x100000 + n is reported to the 68010 at n. *)
Theorem bus_error_cycle f (s : St) o A I0 d b : other_timers_ok f -> faults o ->
  m_bus_error s.2 = false -> w_side_effects_disabled (m_board s.2).2 = false ->
  inv None s.1 A I0 d -> m_bus_error_timer s.2 ∈ A ++ I0 ->
  m_callback (timer_at (heap s.1) (m_bus_error_timer s.2)) = Some BUS_ERROR ->
  0 < m_clock < 4294967296 -> 0 <= cycles_to_clocks 16 < m_clock ->
  is_never (add (time s.1) bus_error_delay) = false ->
  wf b -> is_never b = false -> val (add (time s.1) bus_error_delay) <= val b ->
  let s1 := native_step s o in
  events s1.2 = events s.2 ++ signals o /\ m_bus_error s1.2 = true /\
  (forall ops, Forall faults ops -> fold_left native_step ops s1 = s1) /\
  exists fuel s2, execute_timers (world_call f) fuel (end_of_timeslice b s1.1, s1.2) = Some s2 /\
    events s2.2 = events s1.2 /\ m_bus_error s2.2 = false.
Proof.
  intros Hf Ho Hbe Hse Hinv Hid Hcb Hc Hcy Hn Hb Hbn Hdue. cbv zeta. destruct (delay_ok Hc Hcy) as (Hd & Hd0 & _).
  rewrite fault_open by done. set (m1 := s.2 <| m_bus_error := true |> <| events ::= fun l => l ++ signals o |>).
  cbn [fst snd]. split; [by destruct s as [sc []]|]. split; [by destruct s as [sc []]|]. split.
  - induction ops as [|o' ops IH]; intros Hops; [done|]. apply Forall_cons in Hops as [Ho' Hops]. cbn [fold_left].
    rewrite fault_closed; [by apply IH|done|]. subst m1. by destruct s as [sc []].
  - assert (m_bus_error_timer m1 = m_bus_error_timer s.2) as Em by (subst m1; by destruct s as [sc []]).
    rewrite <- Em in *. apply (guard_reopens f s.1 m1 A I0 d); try assumption. rewrite Hd0. reflexivity || lia.
Qed.
End Machine.

(** ** Witnesses *)

(** No drive on the ATA interface: its registers read as zero. *)
#[local] Instance no_drive : AtaInterface unit := {
  cs0_r _ _ t := (0, t); cs0_w _ _ _ t := t; cs1_r _ _ t := (0, t); cs1_w _ _ _ t := t
}.

Definition powered_board : duart * world (option memdisk) :=
  (new_duart XR68C681 blank_duart, mk_world (new_sdcard None) false 0 0 0 [] [] zero false).

(** A monitor that starts with its stack pointer and entry point. *)
Definition monitor_words (i : Z) : Z := nth (Z.to_nat i) [0x0010; 0x0000; 0x00e0; 0x0400] 0x4e71.

Definition powered : sched * rosco_m68k (option memdisk) unit :=
  (device_scheduler 0%nat,
   mk_rosco_m68k powered_board tt (fun _ => 0) monitor_words (new_memory_view [(0, 0)]) false 1%nat []).

Lemma boot_vectors_witness :
  let run ops s := fold_left (native_step M68010 10000000 (fun n => n)) ops s in
  exists s0, machine_reset powered = Some s0 /\
    (program_read M68010 10000000 (fun n => n) 4 0xffff (run [NRead 0x200000 0xffff] s0)).1 = 0x00e0 /\
    (program_read M68010 10000000 (fun n => n) 4 0xffff (run [NWrite 0 0x1234 0xff00] s0)).1 = 0.
Proof.
  cbv zeta.
  destruct (boot_vectors M68010 10000000 (fun n => n) powered [NRead 0x200000 0xffff]) as (s0 & E & R);
    [by right|by (constructor; [by vm_compute|constructor])|].
  destruct (boot_vectors M68010 10000000 (fun n => n) powered [NWrite 0 0x1234 0xff00]) as (s0' & E' & R');
    [by right|by (constructor; [by vm_compute|constructor])|].
  assert (s0' = s0) as -> by congruence. exists s0. split; [exact E|]. cbn [fold_left overlay_step fst snd] in R, R'.
  destruct R as [R _], R' as [R' _]. split; [rewrite R by lia; vm_compute; reflexivity|rewrite R' by lia; vm_compute; reflexivity].
Defined.

Lemma quickload_bytes_witness :
  let '(r, s) := quickload_cb M68010 10000000 (fun n => n) 3 (fun _ => [0x60; 0xfe; 0x12]) powered in
  r = inr 0x40000 /\ ram_byte s 0x40001 = 0xfe /\ ram_byte s 0x40003 = 0.
Proof.
  pose proof (quickload_bytes M68010 10000000 (fun n => n) powered 3 (fun _ => [0x60; 0xfe; 0x12]) ltac:(lia)) as Q.
  destruct (quickload_cb _ _ _ _ _ _) as [[[]|pc] s].
  - destruct Q as [Q _]. lia.
  - destruct Q as (_ & Q & _). by destruct Q.
  - destruct Q as (_ & -> & Q). split; [done|]. specialize (Q ltac:(u8_list)).
    split; rewrite Q by lia; vm_compute; reflexivity.
Defined.

(** The processor runs; its timer has been allocated. *)
Definition running : sched * rosco_m68k (option memdisk) unit := machine_start powered.

Lemma running_inv : inv None running.1 [] [1%nat] 0.
Proof.
  destruct (init_spec (Some BUS_ERROR) never 0 false 1%nat (device_scheduler 0%nat) [] [] 0)
    as (A & I & Hi & Hpl & _); [apply device_scheduler_inv|vm_compute; reflexivity|auto with mame|].
  apply placed_off in Hpl as [-> ->]; [exact Hi|vm_compute; reflexivity].
Qed.

Definition only_bus_error (c : nat) (p : Z) (m : rosco_m68k (option memdisk) unit) : rosco_m68k (option memdisk) unit :=
  if bool_decide (c = BUS_ERROR) then bus_error m else m.

Lemma bus_error_cycle_witness :
  let o := NRead 0x200000 0xffff in
  let s1 := native_step M68010 10000000 (fun n => n) running o in
  events s1.2 = [set_buserror_details 0x100000 false; set_input_line_BUSERROR 1; set_input_line_BUSERROR 0] /\
  exists fuel s2, execute_timers (world_call only_bus_error) fuel (end_of_timeslice (usec 2) s1.1, s1.2) = Some s2 /\
    m_bus_error s2.2 = false.
Proof.
  intros o s1.
  destruct (bus_error_cycle M68010 10000000 (fun n => n) only_bus_error running o [] [1%nat] 0%nat (usec 2))
    as (Ee & _ & _ & fuel & s2 & E & _ & Hb).
  - split; [done| |]; intros c p m Hc; unfold only_bus_error; by rewrite bool_decide_false.
  - by split.
  - done.
  - done.
  - exact running_inv.
  - by left.
  - by vm_compute.
  - lia.
  - lia.
  - by vm_compute.
  - by apply usec_wf.
  - by vm_compute.
  - by vm_compute.
  - split; [exact Ee|]. by exists fuel, s2.
Defined.
