(* ===== verification/Rosco32.v ===== *)
(** * Rosco32: the 32-bit rosco_m68k boards (src/src/rosco/drivers/rosco_m68k.cpp)

    The 68020 and 68030 boards hang the devices of [RoscoM68k] on a 32-bit bus
    of 32 address bits: memory and the boot vectors are arrays of 32-bit
    words, the 8 and 16-bit handlers go through the units of [Units].  The
    state is the one of [RoscoM68k], whose [m_sysram] and [monitor] are read
    as 32-bit words here.  The theorems: the wide boards are the 16-bit board
    accessed two words at a time, quickload included. *)

From stdpp Require Import base tactics numbers option list gmap.
From Stdlib Require Import ZArith Lia Bool.
From S2P Require Import Prelude Attotime Device Scheduler Serial Duart DuartInv DuartFacts Crc16 Harddisk SdCard SdCsd SdSpi SdSession SdTransfer Memory Units Board RoscoM68k.

(** The two boards, and where the area of their own that asserts BERR ends. *)
Inductive board32 := rosco_m68k_020 | rosco_m68k_030.

Definition maincpu (b : board32) : cpu_type := match b with rosco_m68k_020 => M68020 | rosco_m68k_030 => M68030 end.
Definition last_unmapped (b : board32) : Z := match b with rosco_m68k_020 => 0xffffffff | rosco_m68k_030 => 0xfffffdff end.

Section Machine.
Context {I T : Type} `{BlockImage I} `{AtaInterface T}.
Context (b : board32) (m_clock : Z) (cycles_to_clocks : Z -> Z).

#[local] Abbreviation M := (rosco_m68k I T).
#[local] Abbreviation St := (sched * M)%type.
#[local] Existing Instance board.

#[local] Abbreviation cpu := (maincpu b).
#[local] Abbreviation program_read := (program_read cpu m_clock cycles_to_clocks).
#[local] Abbreviation program_write := (program_write cpu m_clock cycles_to_clocks).
#[local] Abbreviation unmapped_ram_r := (unmapped_ram_r cpu m_clock cycles_to_clocks).
#[local] Abbreviation unmapped_ram_w := (unmapped_ram_w cpu m_clock cycles_to_clocks).
#[local] Abbreviation unmapped_exp_r := (unmapped_exp_r cpu m_clock cycles_to_clocks).
#[local] Abbreviation unmapped_exp_w := (unmapped_exp_w cpu m_clock cycles_to_clocks).

(** ** The address map: native 32-bit accesses *)

Definition bootvect_w32 (offset data mem_mask : Z) (m : M) : M :=
  let m := m <| m_sysram ::= fun r i => if i =? offset then handler_entry_size_t 2 (COMBINE_DATA (r offset) data mem_mask) else r i |> in
  m <| m_bootvect ::= disable |>.

Definition program_read32 (address mem_mask : Z) (s : St) : Z * St :=
  let a := u32 address in
  if inside 0x000000 0x000007 a && overlaid s.2 then
    ((memory_read 2 0 (changing_bits 0 7) a mem_mask (monitor s.2)).1, s)
  else if inside 0x000000 0x0fffff a then ((memory_read 2 0 (changing_bits 0 0x0fffff) a mem_mask (m_sysram s.2)).1, s)
  else if inside 0xe00000 0xefffff a then
    ((memory_read 2 0xe00000 (changing_bits 0xe00000 0xefffff) a mem_mask (monitor s.2)).1, s)
  else if inside 0xf00000 0xf0001f a then install_read 2 ENDIANNESS_BIG 0 0xf00000 0xf0001f (umask16 0x00ff) duart_read8 a mem_mask s
  else if inside 0xf80040 0xf8004f a then install_read 2 ENDIANNESS_BIG 1 0xf80040 0xf8004f (umask16 0xffff) ata_cs0_r a mem_mask s
  else if inside 0xf80050 0xf8005f a then install_read 2 ENDIANNESS_BIG 1 0xf80050 0xf8005f (umask16 0xffff) ata_cs1_r a mem_mask s
  else if inside 0x100000 0xdfffff a then install_read 2 ENDIANNESS_BIG 1 0x100000 0xdfffff 0 unmapped_ram_r a mem_mask s
  else if inside 0xf00020 0xf8003f a then install_read 2 ENDIANNESS_BIG 1 0xf00020 0xf8003f 0 unmapped_exp_r a mem_mask s
  else if inside 0xf80060 0xfffdff a then install_read 2 ENDIANNESS_BIG 1 0xf80060 0xfffdff 0 unmapped_exp_r a mem_mask s
  else if inside 0x01000000 (last_unmapped b) a then
    install_read 2 ENDIANNESS_BIG 1 0x01000000 (last_unmapped b) 0 unmapped_ram_r a mem_mask s
  else (unmap, s).

Definition program_write32 (address data mem_mask : Z) (s : St) : St :=
  let a := u32 address in
  if inside 0x000000 0x000007 a && overlaid s.2 then
    on_machine (bootvect_w32 (handler_offset 2 0x000000 0x000007 a) data mem_mask) s
  else if inside 0x000000 0x0fffff a then
    on_machine (fun m => m <| m_sysram ::= memory_write 2 0 (changing_bits 0 0x0fffff) a data mem_mask |>) s
  else if inside 0xf00000 0xf0001f a then
    install_write 2 ENDIANNESS_BIG 0 0xf00000 0xf0001f (umask16 0x00ff) duart_write8 a data mem_mask s
  else if inside 0xf80040 0xf8004f a then
    install_write 2 ENDIANNESS_BIG 1 0xf80040 0xf8004f (umask16 0xffff) ata_cs0_w a data mem_mask s
  else if inside 0xf80050 0xf8005f a then
    install_write 2 ENDIANNESS_BIG 1 0xf80050 0xf8005f (umask16 0xffff) ata_cs1_w a data mem_mask s
  else if inside 0x100000 0xdfffff a then
    install_write 2 ENDIANNESS_BIG 1 0x100000 0xdfffff 0 unmapped_ram_w a data mem_mask s
  else if inside 0xf00020 0xf8003f a then
    install_write 2 ENDIANNESS_BIG 1 0xf00020 0xf8003f 0 unmapped_exp_w a data mem_mask s
  else if inside 0xf80060 0xfffdff a then
    install_write 2 ENDIANNESS_BIG 1 0xf80060 0xfffdff 0 unmapped_exp_w a data mem_mask s
  else if inside 0x01000000 (last_unmapped b) a then
    install_write 2 ENDIANNESS_BIG 1 0x01000000 (last_unmapped b) 0 unmapped_ram_w a data mem_mask s
  else s.

#[local] Instance program_bus32 : NativeBus St := { rop := program_read32; wop := program_write32 }.

(** [address_space::write_byte] on the 32-bit bus, and quickload through it. *)
Definition write_byte32 (address data : Z) : St -> St := memory_write_generic 2 0 ENDIANNESS_BIG 0 true address data 0xff.
Definition quickload_cb32 : Z -> (Z -> list Z) -> St -> (image_error + Z) * St := quickload_on write_byte32.

(** ** The same board on the 16-bit bus *)

#[local] Abbreviation bus16 := (program_bus cpu m_clock cycles_to_clocks).

Definition read_dword16 (a mask : Z) (s : St) : Z * St := @memory_read_generic St bus16 1 0 ENDIANNESS_BIG 2 true a mask s.
Definition write_dword16 (a data mask : Z) (s : St) : St := @memory_write_generic St bus16 1 0 ENDIANNESS_BIG 2 true a data mask s.

(** An array of 32-bit words as one of 16-bit words, the high half first. *)
Definition halves (m : Z -> Z) (i : Z) : Z := handler_entry_size_t 1 (Z.shiftr (m (i / 2)) (if i mod 2 =? 0 then 16 else 0)).
Definition same_words (m32 m16 : Z -> Z) : Prop := forall i, 0 <= i -> handler_entry_size_t 1 (m16 i) = halves m32 i.

Definition rest (m : M) := (m_board m, m_ata m, m_bootvect m, (m_bus_error m, m_bus_error_timer m, events m)).

(** The two machines in the same state. *)
Record same_machine (s32 s16 : St) : Prop := mk_same_machine {
  same_sched : s32.1 = s16.1;
  same_rest : rest s32.2 = rest s16.2;
  same_ram : same_words (m_sysram s32.2) (m_sysram s16.2);
  same_rom : same_words (monitor s32.2) (monitor s16.2);
  same_view : view_ok (m_bootvect s32.2)
}.

(** ** A double word on the 16-bit bus: two lanes *)

Lemma two_lanes_read (B : NativeBus St) a mask rw :
  fold_left (@read_lane 2 1 ENDIANNESS_BIG St B a mask) (seq 0 (lane_count 2 1)) rw =
    @read_step St B (a + 2) (handler_entry_size_t 1 mask) (fun v => handler_entry_size_t 2 v)
      (@read_step St B a (handler_entry_size_t 1 (Z.shiftr mask 16)) (fun v => handler_entry_size_t 2 (Z.shiftl v 16)) rw).
Proof.
  change (seq 0 (lane_count 2 1)) with [0%nat; 1%nat]. cbn [fold_left]. unfold read_lane.
  change (a + Z.of_nat 0 * width_bytes 1) with (a + 0). rewrite Z.add_0_r. reflexivity.
Qed.

Lemma two_lanes_write (B : NativeBus St) a data mask w :
  fold_left (@write_lane 2 1 ENDIANNESS_BIG St B a mask data) (seq 0 (lane_count 2 1)) w =
    @write_step St B (a + 2) (handler_entry_size_t 1 data) (handler_entry_size_t 1 mask)
      (@write_step St B a (handler_entry_size_t 1 (Z.shiftr data 16)) (handler_entry_size_t 1 (Z.shiftr mask 16)) w).
Proof.
  change (seq 0 (lane_count 2 1)) with [0%nat; 1%nat]. cbn [fold_left]. unfold write_lane.
  change (a + Z.of_nat 0 * width_bytes 1) with (a + 0). rewrite Z.add_0_r. reflexivity.
Qed.

Section Dword.
Context (a mask : Z) (Ha : a mod 4 = 0) (Ha0 : 0 <= a) (Hend : a + 4 <= 4294967296) (Hm : 0 <= mask).

Lemma read_dword16_lanes s : read_dword16 a mask s =
  @read_step St bus16 (a + 2) (handler_entry_size_t 1 mask) (fun v => handler_entry_size_t 2 v)
    (@read_step St bus16 a (handler_entry_size_t 1 (Z.shiftr mask 16)) (fun v => handler_entry_size_t 2 (Z.shiftl v 16)) (0, s)).
Proof. unfold read_dword16. rewrite wide_read_lanes by (lia || done). apply two_lanes_read. Qed.

Lemma write_dword16_lanes data s : write_dword16 a data mask s =
  @write_step St bus16 (a + 2) (handler_entry_size_t 1 data) (handler_entry_size_t 1 mask)
    (@write_step St bus16 a (handler_entry_size_t 1 (Z.shiftr data 16)) (handler_entry_size_t 1 (Z.shiftr mask 16)) s).
Proof. unfold write_dword16. rewrite wide_write_lanes by (lia || done). apply two_lanes_write. Qed.
End Dword.

(** ** Handlers that leave memory alone act alike on both machines *)

Definition alike_r (f : read_handler (W := St)) : Prop := forall o m s32 s16, same_machine s32 s16 ->
  (f o m s32).1 = (f o m s16).1 /\ same_machine (f o m s32).2 (f o m s16).2.
Definition alike_w (g : write_handler (W := St)) : Prop := forall o d m s32 s16, same_machine s32 s16 ->
  same_machine (g o d m s32) (g o d m s16).

(** The fields that are the same, made so. *)
Ltac same_fields :=
  let s32 := fresh "s32" in let s16 := fresh "s16" in let Hsame := fresh "Hsame" in
  intros s32 s16 Hsame; destruct s32 as [? [? ? ? ? ? ? ? ?]], s16 as [? [? ? ? ? ? ? ? ?]];
  destruct Hsame as [Hs Hr Hram Hrom Hview]; cbn in Hs, Hr, Hram, Hrom, Hview; unfold rest in Hr; cbn in Hr; simplify_eq.

Lemma set_bus_error_alike address rw m : forall s32 s16, same_machine s32 s16 ->
  same_machine (set_bus_error cpu m_clock cycles_to_clocks address rw m s32)
               (set_bus_error cpu m_clock cycles_to_clocks address rw m s16).
Proof.
  same_fields. unfold set_bus_error. cbn [fst snd m_bus_error m_board].
  match goal with |- context [if ?c then _ else _] => destruct c; [by split|] end.
  destruct (w_side_effects_disabled _); [by split|]. unfold signal_bus_error. destruct b; by split.
Qed.

Lemma unmapped_ram_r_alike : alike_r unmapped_ram_r.
Proof. intros o m s32 s16 Hsm. split; [done|]. by apply set_bus_error_alike. Qed.
Lemma unmapped_ram_w_alike : alike_w unmapped_ram_w.
Proof. intros o d m s32 s16 Hsm. by apply set_bus_error_alike. Qed.
Lemma unmapped_exp_r_alike : alike_r unmapped_exp_r.
Proof. intros o m s32 s16 Hsm. split; [done|]. by apply set_bus_error_alike. Qed.
Lemma unmapped_exp_w_alike : alike_w unmapped_exp_w.
Proof. intros o d m s32 s16 Hsm. by apply set_bus_error_alike. Qed.

Lemma duart_r_alike : alike_r duart_r.
Proof.
  intros o m. same_fields. unfold duart_r, low_byte_read, duart_read8. cbn [fst snd m_board].
  destruct (test m 0xff); [|by split]. destruct (Duart.read o _) as [v bd]. by split.
Qed.
Lemma duart_w_alike : alike_w duart_w.
Proof.
  intros o d m. same_fields. unfold duart_w, low_byte_write, duart_write8. destruct (test m 0xff); by split.
Qed.
Lemma ata_cs0_r_alike : alike_r ata_cs0_r.
Proof. intros o m. same_fields. unfold ata_cs0_r. cbn [fst snd m_ata]. destruct (cs0_r o m _) as [v t]. by split. Qed.
Lemma ata_cs0_w_alike : alike_w ata_cs0_w.
Proof. intros o d m. same_fields. by split. Qed.
Lemma ata_cs1_r_alike : alike_r ata_cs1_r.
Proof. intros o m. same_fields. unfold ata_cs1_r. cbn [fst snd m_ata]. destruct (cs1_r o m _) as [v t]. by split. Qed.
Lemma ata_cs1_w_alike : alike_w ata_cs1_w.
Proof. intros o d m. same_fields. by split. Qed.

(** ** A range of such a handler *)

Lemma read_step_alike B1 B2 x m place s32 s16 r : same_machine s32 s16 ->
  (forall s32 s16, same_machine s32 s16 ->
     (@rop St B1 x m s32).1 = (@rop St B2 x m s16).1 /\ same_machine (@rop St B1 x m s32).2 (@rop St B2 x m s16).2) ->
  (@read_step St B1 x m place (r, s32)).1 = (@read_step St B2 x m place (r, s16)).1 /\
  same_machine (@read_step St B1 x m place (r, s32)).2 (@read_step St B2 x m place (r, s16)).2.
Proof.
  intros Hsm Hf. unfold read_step. destruct (m =? 0); cbn [negb]; [done|]. destruct (Hf s32 s16 Hsm) as [E1 E2].
  destruct (@rop St B1 x m s32) as [v1 s1], (@rop St B2 x m s16) as [v2 s2]. cbn [fst snd] in *. by subst.
Qed.

Section Range.
Context (lo hi : Z) (Hlo4 : lo mod 4 = 0) (Hhi4 : (hi + 1) mod 4 = 0) (Hlo : 0 <= lo) (Hhi : hi < 4294967296).
Context (a mask : Z) (Ha4 : a mod 4 = 0) (Ha : lo <= a) (Ha' : a + 4 <= hi + 1) (Hm : 0 <= mask).

Lemma range_alike_r f s32 s16 : alike_r f -> same_machine s32 s16 -> (forall o m s, handler_entry_size_t 1 (f o m s).1 = (f o m s).1) ->
  (forall x m s, x = a \/ x = a + 2 -> program_read x m s = f (handler_offset 1 lo hi x) m s) ->
  let r32 := install_read 2 ENDIANNESS_BIG 1 lo hi 0 f a mask s32 in
  let r16 := read_dword16 a mask s16 in
  r32.1 = r16.1 /\ same_machine r32.2 r16.2.
Proof.
  intros Hf Hsm Hw Hp. cbv zeta. rewrite (install_read_lanes f (fun _ _ _ s => s)) by (done || lia).
  rewrite two_lanes_read, read_dword16_lanes by (done || lia).
  assert (forall x m, x = a \/ x = a + 2 -> forall s32 s16, same_machine s32 s16 ->
    (@rop St (narrow_bus 1 lo hi f (fun _ _ _ s => s)) x m s32).1 = (@rop St bus16 x m s16).1 /\
    same_machine (@rop St (narrow_bus 1 lo hi f (fun _ _ _ s => s)) x m s32).2 (@rop St bus16 x m s16).2) as Hrop.
  { intros x m Hx t32 t16 Ht. cbn [rop narrow_bus program_bus]. rewrite Hp by done.
    destruct (Hf (handler_offset 1 lo hi x) m t32 t16 Ht) as [E1 E2]. pose proof (Hw (handler_offset 1 lo hi x) m t32) as E3.
    destruct (f _ m t32). cbn [fst snd] in *. by rewrite E3. }
  destruct (read_step_alike (narrow_bus 1 lo hi f (fun _ _ _ s => s)) bus16 a (handler_entry_size_t 1 (Z.shiftr mask 16))
    (fun v => handler_entry_size_t 2 (Z.shiftl v 16)) s32 s16 0 Hsm (Hrop a _ ltac:(by left))) as [E1 E2].
  destruct (@read_step St (narrow_bus _ _ _ _ _) a _ _ _) as [v1 t32], (@read_step St bus16 a _ _ _) as [v2 t16].
  cbn [fst snd] in E1, E2. subst v2. by apply read_step_alike; [|apply Hrop; right].
Qed.

Lemma range_alike_w g data s32 s16 : alike_w g -> same_machine s32 s16 ->
  (forall x d m s, x = a \/ x = a + 2 -> program_write x d m s = g (handler_offset 1 lo hi x) d m s) ->
  same_machine (install_write 2 ENDIANNESS_BIG 1 lo hi 0 g a data mask s32) (write_dword16 a data mask s16).
Proof.
  intros Hg Hsm Hp. rewrite (install_write_lanes (fun _ _ s => (0, s)) g) by (done || lia).
  rewrite two_lanes_write, write_dword16_lanes by (done || lia).
  assert (forall x d m t32 t16, x = a \/ x = a + 2 -> same_machine t32 t16 ->
    same_machine (@write_step St (narrow_bus 1 lo hi (fun _ _ s => (0, s)) g) x d m t32) (@write_step St bus16 x d m t16)) as Hwop.
  { intros x d m t32 t16 Hx Ht. unfold write_step. destruct (m =? 0); [done|]. cbn [negb wop narrow_bus program_bus].
    rewrite Hp by done. by apply Hg. }
  apply Hwop; [by right|]. apply Hwop; [by left|done].
Qed.
End Range.

(** ** Memory, word by word *)

Lemma halves_even (m : Z -> Z) a : a mod 4 = 0 -> halves m (a / 2) = handler_entry_size_t 1 (Z.shiftr (m (a / 4)) 16).
Proof.
  intros Ha. unfold halves. assert ((a / 2) mod 2 = 0) as -> by (Z.to_euclidean_division_equations; lia).
  assert (a / 2 / 2 = a / 4) as -> by (Z.to_euclidean_division_equations; lia). reflexivity.
Qed.
Lemma halves_odd (m : Z -> Z) a : a mod 4 = 0 -> halves m ((a + 2) / 2) = handler_entry_size_t 1 (m (a / 4)).
Proof.
  intros Ha. unfold halves. assert (((a + 2) / 2) mod 2 = 1) as -> by (Z.to_euclidean_division_equations; lia).
  assert ((a + 2) / 2 / 2 = a / 4) as -> by (Z.to_euclidean_division_equations; lia). reflexivity.
Qed.

(** The two halves of [X], read under the mask, are [X] under the mask. *)
Lemma read_halves (B : NativeBus St) a mask X s :
  (forall m, @rop St B a m s = (handler_entry_size_t 1 (Z.shiftr X 16), s)) ->
  (forall m, @rop St B (a + 2) m s = (handler_entry_size_t 1 X, s)) ->
  let r := @read_step St B (a + 2) (handler_entry_size_t 1 mask) (fun v => handler_entry_size_t 2 v)
             (@read_step St B a (handler_entry_size_t 1 (Z.shiftr mask 16)) (fun v => handler_entry_size_t 2 (Z.shiftl v 16)) (0, s)) in
  r.2 = s /\ (0 <= mask < 2 ^ 32 -> Z.land r.1 mask = Z.land (handler_entry_size_t 2 X) mask).
Proof.
  intros H1 H2. unfold read_step. cbv zeta.
  set (hm := handler_entry_size_t 1 (Z.shiftr mask 16)). set (lm := handler_entry_size_t 1 mask).
  set (hi := if negb (hm =? 0) then handler_entry_size_t 2 (Z.shiftl (handler_entry_size_t 1 (Z.shiftr X 16)) 16) else 0).
  set (lo := if negb (lm =? 0) then handler_entry_size_t 2 (handler_entry_size_t 1 X) else 0).
  assert (forall r, r = (Z.lor hi lo, s) -> r.2 = s /\ (0 <= mask < 2 ^ 32 -> Z.land r.1 mask = Z.land (handler_entry_size_t 2 X) mask)) as Hr.
  { intros r ->. split; [done|]. intros Hm. cbn [fst]. apply Z.bits_inj'. intros i Hi. rewrite !Z.land_spec, Z.lor_spec.
    destruct (Z.testbit mask i) eqn:Ei; rewrite ?andb_false_r, ?andb_true_r; [|done].
    assert (i < 32) by (destruct (Z.lt_ge_cases i 32); [done|]; rewrite (testbit_below 32) in Ei by lia; done).
    assert (forall x k, 0 <= k -> Z.testbit (if negb (k =? 0) then x else 0) i = negb (k =? 0) && Z.testbit x i) as Hif.
    { intros x k _. destruct (negb (k =? 0)); [done|apply Z.bits_0]. }
    unfold hi, lo. rewrite !Hif by (apply size_range; lia). rewrite !testbit_size, Z.shiftl_spec by lia.
    change (width_bits 2) with 32. destruct (Z.ltb_spec i 32); [|lia]. cbn [andb].
    destruct (Z.lt_ge_cases i 16) as [Hl|Hl].
    - assert (negb (lm =? 0) = true) as ->.
      { apply (nonzero_bit _ i). unfold lm. rewrite testbit_size by lia. change (width_bits 1) with 16. destruct (Z.ltb_spec i 16); [done|lia]. }
      rewrite (Z.testbit_neg_r _ (i - 16)), andb_false_r by lia. cbn [andb orb]. change (width_bits 1) with 16.
      by destruct (Z.ltb_spec i 16); [|lia].
    - assert (negb (hm =? 0) = true) as ->.
      { apply (nonzero_bit _ (i - 16)). unfold hm. rewrite testbit_size, Z.shiftr_spec by lia. change (width_bits 1) with 16.
        destruct (Z.ltb_spec (i - 16) 16); [|lia]. by replace (i - 16 + 16) with i by lia. }
      rewrite testbit_size, Z.shiftr_spec by lia. change (width_bits 1) with 16.
      destruct (Z.ltb_spec (i - 16) 16), (Z.ltb_spec i 16); try lia. cbn [andb]. rewrite andb_false_r, orb_false_r.
      by replace (i - 16 + 16) with i by lia. }
  apply Hr. unfold hi, lo. destruct (negb (hm =? 0)), (negb (lm =? 0)); rewrite ?H1, ?H2, ?Z.lor_0_l, ?Z.lor_0_r; reflexivity.
Qed.

(** A double word written, and its two halves. *)
Definition write_half (a data mask : Z) (m : Z -> Z) : Z -> Z :=
  if negb (mask =? 0) then memory_write 1 0 (2 ^ 20 - 1) a data mask m else m.

Lemma size_lor w x y : handler_entry_size_t w (Z.lor x y) = Z.lor (handler_entry_size_t w x) (handler_entry_size_t w y).
Proof. unfold handler_entry_size_t. apply Z.land_lor_distr_l. Qed.

Lemma combined_half old data mask s k : 0 <= s -> s + 16 <= 32 -> handler_entry_size_t 1 k = handler_entry_size_t 1 (Z.shiftr old s) ->
  handler_entry_size_t 1 (Z.lor (Z.land k (Z.lnot (handler_entry_size_t 1 (Z.shiftr mask s))))
                                (Z.land (handler_entry_size_t 1 (Z.shiftr data s)) (handler_entry_size_t 1 (Z.shiftr mask s)))) =
  handler_entry_size_t 1 (Z.shiftr (handler_entry_size_t 2 (Z.lor (Z.land old (Z.lnot mask)) (Z.land data mask))) s).
Proof.
  intros Hs Hs' Ek. apply Z.bits_inj'. intros i Hi. apply (f_equal (fun x => Z.testbit x i)) in Ek.
  rewrite !testbit_size, Z.shiftr_spec in Ek by lia. change (width_bits 1) with 16 in *.
  rewrite !testbit_size, Z.shiftr_spec, testbit_size, !Z.lor_spec, !Z.land_spec, !Z.lnot_spec, !testbit_size, !Z.shiftr_spec by lia.
  change (width_bits 1) with 16. change (width_bits 2) with 32.
  destruct (Z.ltb_spec i 16), (Z.ltb_spec (i + s) 32); try lia; cbn [andb] in *; by rewrite ?Ek.
Qed.

Lemma same_words_write a data mask m32 m16 : 0 <= a < 0x100000 -> a mod 4 = 0 -> same_words m32 m16 ->
  same_words (memory_write 2 0 (2 ^ 20 - 1) a data mask m32)
    (write_half (a + 2) (handler_entry_size_t 1 data) (handler_entry_size_t 1 mask)
      (write_half a (handler_entry_size_t 1 (Z.shiftr data 16)) (handler_entry_size_t 1 (Z.shiftr mask 16)) m16)).
Proof.
  intros Ha Ha4 Hsm.
  assert (forall x d m r i, 0 <= x < 0x100000 -> write_half x d m r i =
    if (i =? x / 2) && negb (m =? 0) then handler_entry_size_t 1 (Z.lor (Z.land (r i) (Z.lnot m)) (Z.land d m)) else r i) as Ew.
  { intros x d m r i Hx. unfold write_half, memory_write. change (2 ^ 20 - 1) with (Z.ones 20).
    rewrite element_low by (change (2 ^ 20) with 0x100000; lia).
    destruct (Z.eqb_spec m 0), (Z.eqb_spec i (x / 2)) as [->|]; cbn; rewrite ?Z.eqb_refl; try done;
      by destruct (Z.eqb_spec i (x / 2)). }
  assert (forall r m d, m = 0 -> Z.lor (Z.land r (Z.lnot m)) (Z.land d m) = r) as Ez.
  { intros r m d ->. by rewrite Z.lnot_0, Z.land_m1_r, Z.land_0_r, Z.lor_0_r. }
  assert (a + 2 < 0x100000) as Ha2 by (Z.to_euclidean_division_equations; lia).
  assert ((a + 2) / 2 = a / 2 + 1) as Eh by (Z.to_euclidean_division_equations; lia).
  intros i Hi. rewrite Ew, Ew by lia.
  assert (forall X, memory_write 2 0 (2 ^ 20 - 1) a data mask m32 X = if X =? a / 4 then handler_entry_size_t 2 (Z.lor (Z.land (m32 X) (Z.lnot mask)) (Z.land data mask)) else m32 X) as E32.
  { intros X. unfold memory_write. cbv zeta. rewrite element_ok by lia. rewrite Z.sub_0_r. change (width_bytes 2) with 4. cbn [Z.eqb].
    by destruct (Z.eqb_spec X (a / 4)) as [->|]. }
  pose proof (Hsm i Hi) as Ei. unfold halves in *. rewrite E32, Eh.
  destruct (Z.eqb_spec i (a / 2 + 1)) as [->|N1]; [|destruct (Z.eqb_spec i (a / 2)) as [->|N2]].
  - assert ((a / 2 + 1) / 2 = a / 4) as E4 by (Z.to_euclidean_division_equations; lia).
    assert (((a / 2 + 1) mod 2 =? 0) = false) as Em by (apply Z.eqb_neq; Z.to_euclidean_division_equations; lia).
    rewrite E4, Em, Z.eqb_refl in *. destruct (Z.eqb_spec (a / 2 + 1) (a / 2)); [lia|]. cbn [andb].
    rewrite <- (combined_half (m32 (a / 4)) data mask 0 (m16 (a / 2 + 1))) by (lia || done). rewrite !Z.shiftr_0_r.
    destruct (Z.eqb_spec (handler_entry_size_t 1 mask) 0) as [E0|]; cbn [negb]; [by rewrite Ez|by apply size_of_size].
  - assert (a / 2 / 2 = a / 4) as E4 by (Z.to_euclidean_division_equations; lia).
    assert (((a / 2) mod 2 =? 0) = true) as Em by (apply Z.eqb_eq; Z.to_euclidean_division_equations; lia).
    rewrite E4, Em, Z.eqb_refl in *. cbn [andb].
    rewrite <- (combined_half (m32 (a / 4)) data mask 16 (m16 (a / 2))) by (lia || done).
    destruct (Z.eqb_spec (handler_entry_size_t 1 (Z.shiftr mask 16)) 0) as [E0|]; cbn [negb]; [by rewrite Ez|by apply size_of_size].
  - cbn [andb]. destruct (Z.eqb_spec (i / 2) (a / 4)) as [E|]; [|exact Ei]. Z.to_euclidean_division_equations; lia.
Qed.

(** ** Writes below 1 MB: the RAM, and the overlay over its first words *)

Definition low_effect (ram : (Z -> Z) -> Z -> Z) (a : Z) (m : M) : M :=
  m <| m_sysram ::= ram |> <| m_bootvect ::= if a <? 8 then disable else id |>.

Lemma disabled v : view_ok v -> disable v = mk_memory_view [(0, 0)] (-1) (-1).
Proof. by intros [-> | ->]. Qed.

Lemma no_overlay (m : M) : view_ok (m_bootvect m) -> overlaid m = false -> disable (m_bootvect m) = m_bootvect m.
Proof. unfold overlaid. by intros [-> | ->]. Qed.

Lemma low_write16 a data mask (s : St) : 0 <= a < 0x100000 -> view_ok (m_bootvect s.2) ->
  program_write a data mask s = on_machine (low_effect (memory_write 1 0 (2 ^ 20 - 1) a data mask) a) s.
Proof.
  intros Ha Hv. unfold low_effect. destruct (Z.ltb_spec a 8) as [H8|H8].
  - destruct (overlaid s.2) eqn:Eo; [by rewrite bootvect_write by (done || lia)|].
    rewrite write_ram by (lia || by right). pose proof (no_overlay _ Hv Eo) as E. destruct s as [sc []]. cbn in *.
    unfold on_machine. cbn. unfold upd. cbn. by rewrite E.
  - rewrite write_ram by (lia || by left). by destruct s as [sc []].
Qed.

Lemma low_write32 a data mask (s : St) : 0 <= a < 0x100000 -> view_ok (m_bootvect s.2) ->
  program_write32 a data mask s = on_machine (low_effect (memory_write 2 0 (2 ^ 20 - 1) a data mask) a) s.
Proof.
  intros Ha Hv. unfold low_effect, program_write32. rewrite u32_id by lia. cbv zeta. destruct (Z.ltb_spec a 8) as [H8|H8].
  - rewrite inside_true by lia. destruct (overlaid s.2) eqn:Eo; cbn [andb].
    + unfold bootvect_w32, memory_write, handler_offset. cbv zeta. change (changing_bits 0 7) with (2 ^ 3 - 1).
      rewrite !element_ok by lia. reflexivity.
    + rewrite inside_true by lia. pose proof (no_overlay _ Hv Eo) as E. destruct s as [sc []]. cbn in *.
      unfold on_machine. cbn. unfold upd. cbn. by rewrite E.
  - rewrite inside_false by lia. cbn [andb]. rewrite inside_true by lia. by destruct s as [sc []].
Qed.

Lemma mask_has_half mask : 0 < mask < 2 ^ 32 ->
  handler_entry_size_t 1 (Z.shiftr mask 16) = 0 -> handler_entry_size_t 1 mask = 0 -> False.
Proof.
  unfold handler_entry_size_t. change (width_bits 1) with 16. rewrite !Z.land_ones, Z.shiftr_div_pow2 by lia.
  change (2 ^ 16) with 65536. change (2 ^ 32) with 4294967296. Z.to_euclidean_division_equations; lia.
Qed.

Lemma low_dword16 a data mask (s : St) : 0 <= a < 0x100000 -> a mod 4 = 0 -> 0 < mask < 2 ^ 32 -> view_ok (m_bootvect s.2) ->
  write_dword16 a data mask s = on_machine (low_effect (fun r =>
    write_half (a + 2) (handler_entry_size_t 1 data) (handler_entry_size_t 1 mask)
      (write_half a (handler_entry_size_t 1 (Z.shiftr data 16)) (handler_entry_size_t 1 (Z.shiftr mask 16)) r)) a) s.
Proof.
  intros Ha Ha4 Hm Hv. rewrite write_dword16_lanes by lia.
  assert (a + 2 < 0x100000) as Ha2 by (Z.to_euclidean_division_equations; lia).
  assert ((a + 2 <? 8) = (a <? 8)) as E8.
  { destruct (Z.ltb_spec (a + 2) 8), (Z.ltb_spec a 8); try done; Z.to_euclidean_division_equations; lia. }
  unfold write_step, write_half. cbn [wop program_bus].
  destruct (Z.eqb_spec (handler_entry_size_t 1 (Z.shiftr mask 16)) 0) as [Eh|Eh], (Z.eqb_spec (handler_entry_size_t 1 mask) 0) as [El|El];
    cbn [negb]; [by destruct (mask_has_half mask)|..].
  - rewrite low_write16 by (done || lia). unfold low_effect. by rewrite E8.
  - by rewrite low_write16 by (done || lia).
  - rewrite (low_write16 a) by (done || lia). pose proof (disabled _ Hv) as Ed. rewrite (low_write16 (a + 2)) by (lia || (unfold low_effect; destruct (a <? 8); [by right; rewrite <- Ed|done])).
    unfold low_effect. rewrite E8. destruct s as [sc []]. cbn in *. destruct (a <? 8); [|done].
    unfold on_machine. cbn. unfold upd. cbn. by rewrite Ed.
Qed.

(** ** One access *)

Definition dword_ok (o : native_op) : Prop :=
  match o with
  | NRead a m => 0 <= a < 0x1000000 /\ a mod 4 = 0 /\ 0 <= m < 2 ^ 32
  | NWrite a d m => 0 <= a < 0x1000000 /\ a mod 4 = 0 /\ 0 < m < 2 ^ 32
  end.

Definition step32 (s : St) (o : native_op) : St :=
  match o with NRead a m => (program_read32 a m s).2 | NWrite a d m => program_write32 a d m s end.
Definition step16 (s : St) (o : native_op) : St :=
  match o with NRead a m => (read_dword16 a m s).2 | NWrite a d m => write_dword16 a d m s end.

(** The entry of a map that answers for address [x]. *)
Ltac pick_entry x :=
  cbv zeta; repeat first [rewrite (inside_true _ _ x) by lia | rewrite (inside_false _ _ x) by lia]; cbn [andb].

Lemma same_overlaid s32 s16 : same_machine s32 s16 -> overlaid s32.2 = overlaid s16.2.
Proof. intros [_ Hr _ _ _]. unfold overlaid, rest in *. congruence. Qed.

(** Memory, read through an array of words and through its halves. *)
Lemma read_alike_words a m X (s32 s16 : St) : 0 <= a < 0x1000000 -> a mod 4 = 0 -> 0 <= m < 2 ^ 32 -> same_machine s32 s16 ->
  program_read32 a m s32 = (handler_entry_size_t 2 X, s32) ->
  (forall k, program_read a k s16 = (handler_entry_size_t 1 (Z.shiftr X 16), s16)) ->
  (forall k, program_read (a + 2) k s16 = (handler_entry_size_t 1 X, s16)) ->
  Z.land (program_read32 a m s32).1 m = Z.land (read_dword16 a m s16).1 m /\
  same_machine (program_read32 a m s32).2 (read_dword16 a m s16).2.
Proof.
  intros Ha Ha4 Hm Hsm -> H1 H2. rewrite read_dword16_lanes by lia.
  destruct (read_halves bus16 a m X s16 H1 H2) as [-> Hv]. split; [symmetry; by apply Hv|done].
Qed.

(** What the words below 1 MB are read from. *)
Definition low_words (a : Z) (m : M) : Z -> Z := if (a <? 8) && overlaid m then monitor m else m_sysram m.

Lemma low_read16 x k (s : St) : 0 <= x < 0x100000 -> program_read x k s = (handler_entry_size_t 1 (low_words x s.2 (x / 2)), s).
Proof.
  intros Hx. unfold RoscoM68k.program_read, low_words. rewrite address_24 by lia. cbv zeta. unfold inside at 1.
  assert ((0 <=? x) && (x <=? 7) = (x <? 8)) as -> by (destruct (Z.leb_spec 0 x), (Z.leb_spec x 7), (Z.ltb_spec x 8); lia || done).
  destruct (Z.ltb_spec x 8); [destruct (overlaid s.2)|]; cbn [andb]; rewrite ?inside_true by lia; unfold memory_read.
  - change (changing_bits 0 7) with (2 ^ 3 - 1). by rewrite element_ok, Z.sub_0_r by lia.
  - change (changing_bits 0 0xfffff) with (2 ^ 20 - 1). by rewrite element_ok, Z.sub_0_r by lia.
  - change (changing_bits 0 0xfffff) with (2 ^ 20 - 1). by rewrite element_ok, Z.sub_0_r by lia.
Qed.

Lemma low_read32 x k (s : St) : 0 <= x < 0x100000 -> program_read32 x k s = (handler_entry_size_t 2 (low_words x s.2 (x / 4)), s).
Proof.
  intros Hx. unfold program_read32, low_words. rewrite u32_id by lia. cbv zeta. unfold inside at 1.
  assert ((0 <=? x) && (x <=? 7) = (x <? 8)) as -> by (destruct (Z.leb_spec 0 x), (Z.leb_spec x 7), (Z.ltb_spec x 8); lia || done).
  destruct (Z.ltb_spec x 8); [destruct (overlaid s.2)|]; cbn [andb]; rewrite ?inside_true by lia; unfold memory_read.
  - change (changing_bits 0 7) with (2 ^ 3 - 1). by rewrite element_ok, Z.sub_0_r by lia.
  - change (changing_bits 0 0xfffff) with (2 ^ 20 - 1). by rewrite element_ok, Z.sub_0_r by lia.
  - change (changing_bits 0 0xfffff) with (2 ^ 20 - 1). by rewrite element_ok, Z.sub_0_r by lia.
Qed.

Lemma low_words_same a (s32 s16 : St) : same_machine s32 s16 -> same_words (low_words a s32.2) (low_words a s16.2).
Proof.
  intros Hsm. unfold low_words. rewrite (same_overlaid _ _ Hsm). destruct ((a <? 8) && _); apply Hsm.
Qed.

Lemma low_read_alike a m (s32 s16 : St) : 0 <= a < 0x100000 -> a mod 4 = 0 -> 0 <= m < 2 ^ 32 -> same_machine s32 s16 ->
  Z.land (program_read32 a m s32).1 m = Z.land (read_dword16 a m s16).1 m /\
  same_machine (program_read32 a m s32).2 (read_dword16 a m s16).2.
Proof.
  intros Ha Ha4 Hm Hsm. assert (a + 2 < 0x100000) as Ha2 by (Z.to_euclidean_division_equations; lia).
  pose proof (low_words_same a s32 s16 Hsm) as Hw.
  assert (low_words (a + 2) s16.2 = low_words a s16.2) as E2.
  { unfold low_words. destruct (Z.ltb_spec (a + 2) 8), (Z.ltb_spec a 8); try done; Z.to_euclidean_division_equations; lia. }
  apply (read_alike_words a m (low_words a s32.2 (a / 4))); try (done || lia).
  - by apply low_read32.
  - intros k. rewrite low_read16, Hw, halves_even by (done || lia || by apply Z.div_pos; lia). done.
  - intros k. rewrite low_read16, E2, Hw, halves_odd by (done || lia || by apply Z.div_pos; lia). done.
Qed.

(** The monitor, at its own place. *)
Lemma rom_read_alike a m (s32 s16 : St) : 0xe00000 <= a < 0xf00000 -> a mod 4 = 0 -> 0 <= m < 2 ^ 32 -> same_machine s32 s16 ->
  Z.land (program_read32 a m s32).1 m = Z.land (read_dword16 a m s16).1 m /\
  same_machine (program_read32 a m s32).2 (read_dword16 a m s16).2.
Proof.
  intros Ha Ha4 Hm Hsm. assert (a + 2 < 0xf00000) as Ha2 by (Z.to_euclidean_division_equations; lia).
  set (x := a - 0xe00000). assert (x mod 4 = 0) as Hx4 by (unfold x; Z.to_euclidean_division_equations; lia).
  apply (read_alike_words a m (monitor s32.2 (x / 4))); try (done || lia).
  - unfold program_read32. rewrite u32_id by lia. pick_entry a. unfold memory_read.
    change (changing_bits 0xe00000 0xefffff) with (2 ^ 20 - 1). by rewrite element_ok by lia.
  - intros k. unfold RoscoM68k.program_read. rewrite address_24 by lia. pick_entry a. unfold memory_read.
    change (changing_bits 0xe00000 0xefffff) with (2 ^ 20 - 1). rewrite element_ok by lia. cbn [fst]. fold x.
    change (width_bytes 1) with 2. by rewrite (same_rom _ _ Hsm), halves_even by (done || apply Z.div_pos; lia).
  - intros k. unfold RoscoM68k.program_read. rewrite address_24 by lia. pick_entry (a + 2). unfold memory_read.
    change (changing_bits 0xe00000 0xefffff) with (2 ^ 20 - 1). rewrite element_ok by lia. cbn [fst].
    replace (a + 2 - 0xe00000) with (x + 2) by lia. change (width_bytes 1) with 2.
    by rewrite (same_rom _ _ Hsm), halves_odd by (done || apply Z.div_pos; lia).
Qed.

(** ** The devices and the areas that assert BERR *)

Lemma results_16 : (forall o m (s : St), handler_entry_size_t 1 (duart_r o m s).1 = (duart_r o m s).1) /\
  (forall o m (s : St), handler_entry_size_t 1 (ata_cs0_r o m s).1 = (ata_cs0_r o m s).1) /\
  (forall o m (s : St), handler_entry_size_t 1 (ata_cs1_r o m s).1 = (ata_cs1_r o m s).1).
Proof.
  split; [|split]; intros o m s.
  - unfold duart_r, low_byte_read. destruct (test m 0xff); [|done]. destruct (duart_read8 o _ s) as [v w]. cbn [fst].
    apply size_of_size. lia.
  - unfold ata_cs0_r. destruct (cs0_r o m _) as [v t]. cbn [fst]. apply size_of_size. lia.
  - unfold ata_cs1_r. destruct (cs1_r o m _) as [v t]. cbn [fst]. apply size_of_size. lia.
Qed.

Lemma range_bound (a hi : Z) : a mod 4 = 0 -> a <= hi -> (hi + 1) mod 4 = 0 -> a + 4 <= hi + 1.
Proof. intros Ha Hle Hh. Z.to_euclidean_division_equations; lia. Qed.

(** An entry of the map: its range on the wide bus and on the narrow one. *)
Ltac read_entry Hrange lo hi f alike a wide :=
  apply (Hrange lo hi f); try (done || lia); [apply alike| |];
    [unfold program_read32; rewrite u32_id by lia; pick_entry a; wide
    |intros x k s Hx; unfold RoscoM68k.program_read; rewrite address_24 by lia; by pick_entry x].
Ltac write_entry Hrange lo hi g alike a wide :=
  apply (Hrange lo hi g); try (done || lia); [apply alike| |];
    [unfold program_write32; rewrite u32_id by lia; pick_entry a; wide
    |intros x d k s Hx; unfold RoscoM68k.program_write; rewrite address_24 by lia; by pick_entry x].

Lemma device_read_alike a m (s32 s16 : St) : 0x100000 <= a < 0x1000000 -> ~ (0xe00000 <= a < 0xf00000) -> a mod 4 = 0 -> 0 <= m ->
  same_machine s32 s16 ->
  (program_read32 a m s32).1 = (read_dword16 a m s16).1 /\ same_machine (program_read32 a m s32).2 (read_dword16 a m s16).2.
Proof.
  intros Ha Hrom Ha4 Hm Hsm. destruct results_16 as (Rd & R0 & R1).
  assert (forall lo hi f, lo mod 4 = 0 -> (hi + 1) mod 4 = 0 -> 0 <= lo -> hi < 0x1000000 -> lo <= a <= hi ->
    alike_r f -> (forall o m s, handler_entry_size_t 1 (f o m s).1 = (f o m s).1) ->
    program_read32 a m s32 = install_read 2 ENDIANNESS_BIG 1 lo hi 0 f a m s32 ->
    (forall x k s, lo <= x <= hi -> program_read x k s = f (handler_offset 1 lo hi x) k s) ->
    (program_read32 a m s32).1 = (read_dword16 a m s16).1 /\ same_machine (program_read32 a m s32).2 (read_dword16 a m s16).2) as Hrange.
  { intros lo hi f Hl Hh Hl0 Hh1 Hin Hf Hw -> Hp. pose proof (range_bound a hi Ha4 ltac:(lia) Hh).
    apply (range_alike_r lo hi Hl Hh Hl0 ltac:(lia) a m Ha4 ltac:(lia) ltac:(lia) Hm f); [done..|].
    intros x k s Hx. apply Hp. lia. }
  assert (0x100000 <= a <= 0xdfffff \/ 0xf00000 <= a <= 0xf0001f \/ 0xf00020 <= a <= 0xf8003f \/ 0xf80040 <= a <= 0xf8004f \/
    0xf80050 <= a <= 0xf8005f \/ 0xf80060 <= a <= 0xfffdff \/ 0xfffe00 <= a <= 0xffffff) as C by lia.
  destruct C as [C|[C|[C|[C|[C|[C|C]]]]]].
  - read_entry Hrange 0x100000 0xdfffff uconstr:(unmapped_ram_r) unmapped_ram_r_alike a ltac:(done).
  - read_entry Hrange 0xf00000 0xf0001f uconstr:(duart_r) duart_r_alike a ltac:(by apply (low_byte_32 duart_read8 duart_write8 0xf00000 0xf0001f a m 0)).
  - read_entry Hrange 0xf00020 0xf8003f uconstr:(unmapped_exp_r) unmapped_exp_r_alike a ltac:(done).
  - read_entry Hrange 0xf80040 0xf8004f uconstr:(ata_cs0_r) ata_cs0_r_alike a ltac:(done).
  - read_entry Hrange 0xf80050 0xf8005f uconstr:(ata_cs1_r) ata_cs1_r_alike a ltac:(done).
  - read_entry Hrange 0xf80060 0xfffdff uconstr:(unmapped_exp_r) unmapped_exp_r_alike a ltac:(done).
  - assert (program_read32 a m s32 = (unmap, s32)) as ->.
    { unfold program_read32. rewrite u32_id by lia. by pick_entry a. }
    assert (forall x k s, 0xfffe00 <= x <= 0xffffff -> program_read x k s = (unmap, s)) as Hn.
    { intros x k s Hx. unfold RoscoM68k.program_read. rewrite address_24 by lia. by pick_entry x. }
    rewrite read_dword16_lanes by lia. unfold read_step. cbn [rop program_bus].
    assert (a + 2 <= 0xffffff) by (Z.to_euclidean_division_equations; lia).
    destruct (negb _), (negb _); rewrite ?Hn by lia; cbn; by split.
Qed.

Lemma device_write_alike a data m (s32 s16 : St) : 0x100000 <= a < 0x1000000 -> a mod 4 = 0 -> 0 <= m -> same_machine s32 s16 ->
  same_machine (program_write32 a data m s32) (write_dword16 a data m s16).
Proof.
  intros Ha Ha4 Hm Hsm.
  assert (forall lo hi g, lo mod 4 = 0 -> (hi + 1) mod 4 = 0 -> 0 <= lo -> hi < 0x1000000 -> lo <= a <= hi -> alike_w g ->
    program_write32 a data m s32 = install_write 2 ENDIANNESS_BIG 1 lo hi 0 g a data m s32 ->
    (forall x d k s, lo <= x <= hi -> program_write x d k s = g (handler_offset 1 lo hi x) d k s) ->
    same_machine (program_write32 a data m s32) (write_dword16 a data m s16)) as Hrange.
  { intros lo hi g Hl Hh Hl0 Hh1 Hin Hg -> Hp. pose proof (range_bound a hi Ha4 ltac:(lia) Hh).
    apply (range_alike_w lo hi Hl Hh Hl0 ltac:(lia) a m Ha4 ltac:(lia) ltac:(lia) Hm g); [done..|].
    intros x d k s Hx. apply Hp. lia. }
  assert (forall lo hi, (lo = 0xe00000 /\ hi = 0xefffff) \/ (lo = 0xfffe00 /\ hi = 0xffffff) -> lo <= a <= hi ->
    same_machine (program_write32 a data m s32) (write_dword16 a data m s16)) as Hnone.
  { intros lo hi Hr Hin. assert (a + 2 <= hi) by (Z.to_euclidean_division_equations; lia).
    assert (program_write32 a data m s32 = s32) as -> by (unfold program_write32; rewrite u32_id by lia; by pick_entry a).
    assert (forall x d k s, lo <= x <= hi -> program_write x d k s = s) as Hn.
    { intros x d k s Hx. unfold RoscoM68k.program_write. rewrite address_24 by lia. by pick_entry x. }
    rewrite write_dword16_lanes by lia. unfold write_step. cbn [wop program_bus].
    by destruct (negb _), (negb _); rewrite ?Hn by lia. }
  assert (0x100000 <= a <= 0xdfffff \/ 0xe00000 <= a <= 0xefffff \/ 0xf00000 <= a <= 0xf0001f \/ 0xf00020 <= a <= 0xf8003f \/
    0xf80040 <= a <= 0xf8004f \/ 0xf80050 <= a <= 0xf8005f \/ 0xf80060 <= a <= 0xfffdff \/ 0xfffe00 <= a <= 0xffffff) as C by lia.
  destruct C as [C|[C|[C|[C|[C|[C|[C|C]]]]]]].
  - write_entry Hrange 0x100000 0xdfffff uconstr:(unmapped_ram_w) unmapped_ram_w_alike a ltac:(done).
  - apply (Hnone 0xe00000 0xefffff); [by left|lia].
  - write_entry Hrange 0xf00000 0xf0001f uconstr:(duart_w) duart_w_alike a
      ltac:(by apply (low_byte_32 duart_read8 duart_write8 0xf00000 0xf0001f a m data)).
  - write_entry Hrange 0xf00020 0xf8003f uconstr:(unmapped_exp_w) unmapped_exp_w_alike a ltac:(done).
  - write_entry Hrange 0xf80040 0xf8004f uconstr:(ata_cs0_w) ata_cs0_w_alike a ltac:(done).
  - write_entry Hrange 0xf80050 0xf8005f uconstr:(ata_cs1_w) ata_cs1_w_alike a ltac:(done).
  - write_entry Hrange 0xf80060 0xfffdff uconstr:(unmapped_exp_w) unmapped_exp_w_alike a ltac:(done).
  - apply (Hnone 0xfffe00 0xffffff); [by right|lia].
Qed.

Lemma low_write_alike a data m (s32 s16 : St) : 0 <= a < 0x100000 -> a mod 4 = 0 -> 0 < m < 2 ^ 32 -> same_machine s32 s16 ->
  same_machine (program_write32 a data m s32) (write_dword16 a data m s16).
Proof.
  intros Ha Ha4 Hm Hsm. pose proof (same_view _ _ Hsm) as Hv.
  assert (view_ok (m_bootvect s16.2)) as Hv' by (destruct Hsm as [_ Hr _ _ _]; unfold rest in Hr; congruence).
  rewrite low_write32, low_dword16 by done. revert s32 s16 Hsm Hv Hv'. same_fields. intros _ _. unfold low_effect. cbn [on_machine fst snd].
  split; [done| | | |].
  - by destruct (a <? 8).
  - by apply same_words_write.
  - exact Hrom.
  - unfold upd. cbn. destruct (a <? 8); [|exact Hview]. rewrite disabled by done. by right.
Qed.

Lemma write_alike a data m (s32 s16 : St) : dword_ok (NWrite a data m) -> same_machine s32 s16 ->
  same_machine (program_write32 a data m s32) (write_dword16 a data m s16).
Proof.
  intros (Ha & Ha4 & Hm) Hsm. destruct (Z.lt_ge_cases a 0x100000); [apply low_write_alike; (done || lia)|].
  apply device_write_alike; (done || lia).
Qed.

Lemma read_alike a m (s32 s16 : St) : dword_ok (NRead a m) -> same_machine s32 s16 ->
  Z.land (program_read32 a m s32).1 m = Z.land (read_dword16 a m s16).1 m /\
  same_machine (program_read32 a m s32).2 (read_dword16 a m s16).2.
Proof.
  intros (Ha & Ha4 & Hm) Hsm. destruct (Z.lt_ge_cases a 0x100000); [apply low_read_alike; (done || lia)|].
  destruct (decide (0xe00000 <= a < 0xf00000)); [by apply rom_read_alike|].
  destruct (device_read_alike a m s32 s16) as [E1 E2]; try (done || lia). by rewrite E1.
Qed.

Lemma step_alike o (s32 s16 : St) : dword_ok o -> same_machine s32 s16 -> same_machine (step32 s32 o) (step16 s16 o).
Proof. destruct o as [a m|a d m]; intros Ho Hsm; [by apply read_alike|by apply write_alike]. Qed.

Lemma steps_alike ops : forall s32 s16 : St, Forall dword_ok ops -> same_machine s32 s16 ->
  same_machine (fold_left step32 ops s32) (fold_left step16 ops s16).
Proof.
  induction ops as [|o ops IH]; intros s32 s16 Ho Hsm; [done|]. apply Forall_cons in Ho as [Ho Hos].
  cbn [fold_left]. apply IH; [done|]. by apply step_alike.
Qed.

Lemma reset_alike (s32 s16 : St) : same_machine s32 s16 ->
  exists t32 t16, machine_reset s32 = Some t32 /\ machine_reset s16 = Some t16 /\ same_machine t32 t16.
Proof.
  revert s32 s16. same_fields. unfold machine_reset, bootvec_reset. cbn.
  destruct Hview as [-> | ->]; cbn; eexists _, _; (split; [reflexivity|]); (split; [reflexivity|]); (split; try done; by left).
Qed.

(** C13: The 68020 and 68030 boards are the 16-bit board behind a wider bus: from
    corresponding states, a reset followed by any sequence of 32-bit accesses
    below 16 MB, to RAM, boot vectors, ROM, DUART, ATA and the areas that
    assert BERR, leaves the 32-bit board in the state the 16-bit board is in
    after the same accesses made as pairs of words: devices, bus-error guard,
    timer and signals to the processor included; and every read gives the
    same value under its mask. *)
Theorem wide_boards_agree (s32 s16 : St) ops : same_machine s32 s16 -> Forall dword_ok ops ->
  exists r32 r16, machine_reset s32 = Some r32 /\ machine_reset s16 = Some r16 /\
    let t32 := fold_left step32 ops r32 in
    let t16 := fold_left step16 ops r16 in
    same_machine t32 t16 /\
    forall a m, dword_ok (NRead a m) -> Z.land (program_read32 a m t32).1 m = Z.land (read_dword16 a m t16).1 m.
Proof.
  intros Hsm Ho. destruct (reset_alike _ _ Hsm) as (r32 & r16 & E1 & E2 & Hr). exists r32, r16. split; [done|]. split; [done|].
  cbv zeta. pose proof (steps_alike _ _ _ Ho Hr) as Ht. split; [done|]. intros a m Ha. by apply read_alike.
Qed.

(** ** Quickload *)

Lemma byte_shifted d s t : 0 <= s -> 0 <= t -> t <= s -> s + 8 <= 32 -> is_u8 d ->
  handler_entry_size_t 1 (Z.shiftr (handler_entry_size_t 2 (Z.shiftl d s)) t) = handler_entry_size_t 1 (Z.shiftl d (s - t)).
Proof.
  intros Hs Ht Hts H32 Hd. apply Z.bits_inj'. intros i Hi. rewrite !testbit_size, Z.shiftr_spec, testbit_size, !Z.shiftl_spec by lia.
  change (width_bits 1) with 16. change (width_bits 2) with 32. replace (i + t - s) with (i - (s - t)) by lia.
  destruct (Z.ltb_spec i 16), (Z.ltb_spec (i + t) 32); cbn [andb]; try done.
  destruct (Z.lt_ge_cases (i - (s - t)) 0); [by rewrite Z.testbit_neg_r|]. symmetry. apply (testbit_below 8); [lia|exact Hd|lia].
Qed.

Lemma byte_access (a d : Z) : 0 <= a ->
  (forall s, write_byte32 a d s = program_write32 (a - a mod 4) (handler_entry_size_t 2 (Z.shiftl d (24 - 8 * (a mod 4))))
               (handler_entry_size_t 2 (Z.shiftl 0xff (24 - 8 * (a mod 4)))) s) /\
  (forall s, write_byte cpu m_clock cycles_to_clocks a d s =
     program_write (a - a mod 2) (handler_entry_size_t 1 (Z.shiftl d (8 - 8 * (a mod 2))))
       (handler_entry_size_t 1 (Z.shiftl 0xff (8 - 8 * (a mod 2)))) s).
Proof.
  intros Ha. unfold write_byte32, write_byte, memory_write_generic. change (pass_through 2 0 0 true a) with false.
  change (pass_through 1 0 0 true a) with false. cbv beta zeta.
  pose proof (single_access_0 2 ENDIANNESS_BIG 0 true a ltac:(lia) ltac:(lia) ltac:(intros _; apply Z.mod_1_r)) as E2.
  pose proof (single_access_0 1 ENDIANNESS_BIG 0 true a ltac:(lia) ltac:(lia) ltac:(intros _; apply Z.mod_1_r)) as E1.
  cbv zeta in E1, E2. cbn [little Z.ltb Z.compare andb] in E1, E2. change (width_bytes 2) with 4 in *. change (width_bytes 1) with 2 in *.
  change (width_bits 2) with 32 in *. change (width_bits 1) with 16 in *. change (width_bits 0) with 8 in *.
  assert ((8 * (a mod 4) + 8 <=? 32) = true) as C2 by (apply Z.leb_le; Z.to_euclidean_division_equations; lia).
  assert ((8 * (a mod 2) + 8 <=? 16) = true) as C1 by (apply Z.leb_le; Z.to_euclidean_division_equations; lia).
  rewrite C2 in E2. rewrite C1 in E1. rewrite E1, E2, !native_address_0 by lia. split; reflexivity.
Qed.

Lemma byte_write_alike a d (s32 s16 : St) : 0 <= a < 0x1000000 -> is_u8 d -> same_machine s32 s16 ->
  same_machine (write_byte32 a d s32) (write_byte cpu m_clock cycles_to_clocks a d s16).
Proof.
  intros Ha Hd Hsm. destruct (byte_access a d ltac:(lia)) as [E32 E16]. rewrite E32, E16.
  assert ((a mod 4 = 0 /\ a mod 2 = 0) \/ (a mod 4 = 1 /\ a mod 2 = 1) \/ (a mod 4 = 2 /\ a mod 2 = 0) \/ (a mod 4 = 3 /\ a mod 2 = 1))
    as C by (Z.to_euclidean_division_equations; lia).
  assert (forall k, a mod 4 = k -> 0 <= k <= 3 ->
    same_machine (program_write32 (a - k) (handler_entry_size_t 2 (Z.shiftl d (24 - 8 * k))) (handler_entry_size_t 2 (Z.shiftl 0xff (24 - 8 * k))) s32)
      (write_dword16 (a - k) (handler_entry_size_t 2 (Z.shiftl d (24 - 8 * k))) (handler_entry_size_t 2 (Z.shiftl 0xff (24 - 8 * k))) s16)) as Hw.
  { intros k Ek Hk. apply write_alike; [|done]. split; [Z.to_euclidean_division_equations; lia|].
    split; [Z.to_euclidean_division_equations; lia|].
    assert (k = 0 \/ k = 1 \/ k = 2 \/ k = 3) as [-> | [-> | [-> | ->]]] by lia; vm_compute; done. }
  assert (forall k, a mod 4 = k -> 0 <= a - k /\ (a - k) mod 4 = 0) as Hk by (intros k Ek; Z.to_euclidean_division_equations; lia).
  pose proof (fun s => byte_shifted d s 16) as D1. cbv beta in D1.
  assert (forall s, 0 <= s <= 24 -> handler_entry_size_t 1 (handler_entry_size_t 2 (Z.shiftl d s)) = handler_entry_size_t 1 (Z.shiftl d s)) as D0.
  { intros s Hs. pose proof (byte_shifted d s 0) as D. rewrite Z.shiftr_0_r, Z.sub_0_r in D. apply D; lia || done. }
  destruct C as [[E4 E2]|[[E4 E2]|[[E4 E2]|[E4 E2]]]]; rewrite E4, E2; specialize (Hw _ E4 ltac:(lia)); destruct (Hk _ E4) as [Hk0 Hk4];
    rewrite write_dword16_lanes in Hw by lia; unfold write_step in Hw; cbn [wop program_bus] in Hw.
  - rewrite D1 in Hw by (done || lia). exact Hw.
  - rewrite D1 in Hw by (done || lia). exact Hw.
  - rewrite D0 in Hw by lia. replace (a - 2 + 2) with (a - 0) in Hw by lia. exact Hw.
  - rewrite D0 in Hw by lia. replace (a - 3 + 2) with (a - 1) in Hw by lia. exact Hw.
Qed.

Lemma load_bytes_alike buffer : forall a (s32 s16 : St), 0 <= a -> a + Z.of_nat (length buffer) <= 0x1000000 -> Forall is_u8 buffer ->
  same_machine s32 s16 ->
  same_machine (load_bytes write_byte32 a buffer s32) (load_bytes (write_byte cpu m_clock cycles_to_clocks) a buffer s16).
Proof.
  induction buffer as [|d buffer IH]; intros a s32 s16 Ha Hl Hb Hsm; [done|]. apply Forall_cons in Hb as [Hd Hb].
  cbn [load_bytes length] in *. apply IH; try (done || lia). by apply byte_write_alike; [lia|..].
Qed.

(** Quickload does the same on the wide boards as on the 16-bit one: the same
    images are refused and the same bytes of memory hold the accepted ones. *)
Theorem wide_quickload_agrees (s32 s16 : St) length fread : same_machine s32 s16 -> 0 <= length -> Forall is_u8 (fread length) ->
  (quickload_cb32 length fread s32).1 = (quickload_cb cpu m_clock cycles_to_clocks length fread s16).1 /\
  same_machine (quickload_cb32 length fread s32).2 (quickload_cb cpu m_clock cycles_to_clocks length fread s16).2.
Proof.
  intros Hsm Hl Hb. unfold quickload_cb32, quickload_cb, quickload_on. change (RAM_END - LOAD_ADDRESS) with 0xc0000.
  destruct (Z.eqb_spec length 0); [done|]. destruct (Z.ltb_spec 0xc0000 length); [done|]. cbn [orb].
  destruct (Z.eqb_spec (Z.of_nat (List.length (fread length))) length) as [E|]; cbn [negb]; [|done].
  split; [done|]. apply load_bytes_alike; try done. unfold LOAD_ADDRESS. lia.
Qed.

(** ** The addresses only the wide boards have *)

Lemma guard_holds a rw m a' rw' m' (s : St) :
  set_bus_error cpu m_clock cycles_to_clocks a' rw' m' (set_bus_error cpu m_clock cycles_to_clocks a rw m s) =
    set_bus_error cpu m_clock cycles_to_clocks a rw m s.
Proof.
  destruct s as [sc mm]. unfold set_bus_error at 2 3. cbn [fst snd].
  destruct (m_bus_error mm) eqn:Eg; [unfold set_bus_error; cbn [snd]; by rewrite Eg|].
  destruct (w_side_effects_disabled (m_board mm).2) eqn:Es; [unfold set_bus_error; cbn [snd]; by rewrite Eg, Es|].
  unfold set_bus_error, signal_bus_error. destruct b; reflexivity.
Qed.

Lemma high_offset x : 0x1000000 <= x <= last_unmapped b -> x mod 2 = 0 ->
  u32 (Z.shiftl (handler_offset 1 0x1000000 (last_unmapped b) x) 1) = x - 0x1000000.
Proof.
  intros Hx Hx2. assert (last_unmapped b < 0x100000000) by (by destruct b).
  rewrite (offset_16 0x1000000 (last_unmapped b) 32), u32_id; try (lia || done). by destruct b.
Qed.

(** C32: Above 16 MB, up to the top of the address space on the 68020 and to the
    last 512 bytes of it on the 68030, every access asserts BERR, once even
    when both words of it are touched, and reports the address less 16 MB of
    the first word touched. *)
Theorem high_addresses_fault (s : St) a m : 0x1000000 <= a -> a + 3 <= last_unmapped b -> a mod 4 = 0 -> 0 < m < 2 ^ 32 ->
  let reported := a - 0x1000000 + (if handler_entry_size_t 1 (Z.shiftr m 16) =? 0 then 2 else 0) in
  (program_read32 a m s).2 = set_bus_error cpu m_clock cycles_to_clocks reported false m s /\
  forall d, program_write32 a d m s = set_bus_error cpu m_clock cycles_to_clocks reported true m s.
Proof.
  intros Ha Ha' Ha4 Hm reported.
  assert (last_unmapped b < 0x100000000 /\ (last_unmapped b + 1) mod 4 = 0) as [Hl Hl4] by (by destruct b).
  unfold program_read32, program_write32. rewrite u32_id by lia. pick_entry a.
  rewrite (install_read_lanes unmapped_ram_r (fun _ _ _ s => s)) by (done || lia || (change (width_bytes 2) with 4; lia)).
  rewrite two_lanes_read.
  assert (forall o rw k, set_bus_error cpu m_clock cycles_to_clocks o rw k s = set_bus_error cpu m_clock cycles_to_clocks o rw m s) as Em by done.
  assert (a mod 2 = 0 /\ (a + 2) mod 2 = 0) as [E0 E2] by (Z.to_euclidean_division_equations; lia).
  pose proof (high_offset a ltac:(lia) E0) as O0. pose proof (high_offset (a + 2) ltac:(lia) E2) as O2.
  pose proof (mask_has_half m Hm) as Hh.
  split; [|intros d; rewrite (install_write_lanes (fun _ _ s => (0, s)) unmapped_ram_w) by (done || lia || (change (width_bytes 2) with 4; lia));
    rewrite two_lanes_write]; unfold read_step, write_step; cbn [rop wop narrow_bus];
    unfold RoscoM68k.unmapped_ram_r, RoscoM68k.unmapped_ram_w; rewrite O0, O2; subst reported;
    destruct (Z.eqb_spec (handler_entry_size_t 1 (Z.shiftr m 16)) 0), (Z.eqb_spec (handler_entry_size_t 1 m) 0);
    cbn [negb fst snd]; try (by destruct Hh); rewrite ?guard_holds, ?Z.add_0_r; replace (a + 2 - 0x1000000) with (a - 0x1000000 + 2) by lia; done.
Qed.
End Machine.

(** ** Witnesses *)

(** The 32-bit words that a memory of 16-bit words makes. *)
Definition joined (m : Z -> Z) (i : Z) : Z := Z.lor (Z.shiftl (m (2 * i)) 16) (m (2 * i + 1)).

Lemma same_words_joined m : (forall i, is_u16 (m i)) -> same_words (joined m) m.
Proof.
  intros Hm i Hi. unfold halves, joined. apply Z.bits_inj'. intros j Hj.
  rewrite !testbit_size, Z.shiftr_spec, Z.lor_spec, Z.shiftl_spec by (lia || (destruct (i mod 2 =? 0); lia)).
  destruct (Z.ltb_spec j (width_bits 1)) as [Hj'|]; [|done]. change (width_bits 1) with 16 in Hj'. cbn [andb].
  destruct (Z.eqb_spec (i mod 2) 0) as [E|E].
  - assert (2 * (i / 2) = i) as -> by (Z.to_euclidean_division_equations; lia).
    rewrite (testbit_below 16 (m (i + 1)) (j + 16)) by (lia || apply Hm). rewrite orb_false_r. f_equal. lia.
  - assert (2 * (i / 2) + 1 = i) as -> by (Z.to_euclidean_division_equations; lia).
    rewrite Z.add_0_r, (Z.testbit_neg_r _ (j - 16)) by lia. done.
Qed.

Definition powered32 : sched * rosco_m68k (option memdisk) unit :=
  (powered.1, powered.2 <| monitor := joined monitor_words |>).

Lemma powered_same : same_machine powered32 powered.
Proof.
  split; [done|done| | |by right].
  - intros i Hi. unfold halves. by destruct (i mod 2 =? 0).
  - apply same_words_joined. intros i. change (is_u16 (monitor_words i)). unfold monitor_words.
    destruct (Z.to_nat i) as [|[|[|[|[|n]]]]]; cbn [nth]; unfold is_u16; lia.
Qed.

#[local] Instance no_drive : AtaInterface unit := {
  cs0_r _ _ t := (0, t); cs0_w _ _ _ t := t; cs1_r _ _ t := (0, t); cs1_w _ _ _ t := t
}.

(** The 68020 reads its vectors, then hits an empty area with both words. *)
Lemma wide_boards_agree_witness :
  let run := fold_left (step32 rosco_m68k_020 20000000 (fun n => n)) [NWrite 0x1000 0x12345678 0xffffffff; NRead 0x200000 0xffffffff] in
  exists r32, machine_reset powered32 = Some r32 /\
    (program_read32 rosco_m68k_020 20000000 (fun n => n) 4 0xffffffff (run r32)).1 = 0x00e00400 /\
    events (run r32).2 = [set_buserror_details 0x100000 false; set_input_line_BUSERROR 1; set_input_line_BUSERROR 0].
Proof.
  cbv zeta.
  destruct (wide_boards_agree rosco_m68k_020 20000000 (fun n => n) powered32 powered
    [NWrite 0x1000 0x12345678 0xffffffff; NRead 0x200000 0xffffffff] powered_same) as (r32 & r16 & E32 & E16 & Hsm & Hrd).
  { constructor; [by vm_compute|constructor; [by vm_compute|constructor]]. }
  exists r32. split; [exact E32|]. specialize (Hrd 4 0xffffffff ltac:(by vm_compute)).
  vm_compute in E32. injection E32 as <-. split; vm_compute; reflexivity.
Defined.

Lemma wide_quickload_agrees_witness :
  (quickload_cb32 rosco_m68k_030 20000000 (fun n => n) 3 (fun _ => [0x60; 0xfe; 0x12]) powered32).1 = inr 0x40000 /\
  halves (m_sysram (quickload_cb32 rosco_m68k_030 20000000 (fun n => n) 3 (fun _ => [0x60; 0xfe; 0x12]) powered32).2.2) 0x20000 = 0x60fe.
Proof.
  destruct (wide_quickload_agrees rosco_m68k_030 20000000 (fun n => n) powered32 powered 3 (fun _ => [0x60; 0xfe; 0x12])
    powered_same ltac:(lia) ltac:(repeat (constructor; [unfold is_u16, is_u8; lia|]); constructor)) as [-> Hsm].
  split; [vm_compute; reflexivity|]. rewrite <- (same_ram _ _ Hsm) by lia. vm_compute. reflexivity.
Defined.

Lemma high_addresses_fault_witness :
  let s := (program_read32 rosco_m68k_020 20000000 (fun n => n) 0x80000000 0xffff powered32).2 in
  events s.2 = [set_buserror_details 0x7f000002 false; set_input_line_BUSERROR 1; set_input_line_BUSERROR 0].
Proof.
  intros s. subst s. destruct (high_addresses_fault rosco_m68k_020 20000000 (fun n => n) powered32 0x80000000 0xffff) as [-> _];
    [lia|by vm_compute|done|lia|]. vm_compute. reflexivity.
Defined.
