(* ===== verification/CpuSpace.v ===== *)
(** * CpuSpace: the interrupt vectors of the rosco_m68k boards
    (src/src/rosco/drivers/rosco_m68k.cpp,
    src/src/devices/cpu/m68000/m68kcommon.cpp, m68kcpu.cpp)

    The CPU space of the boards maps an 8-bit handler at the odd address of
    each interrupt level, the DUART's over the autovector of level 4.  On the
    32-bit boards two levels share a word, so the DUART takes over one lane of
    a units entry.  The processor reads the vector when it acknowledges. *)

From stdpp Require Import base tactics numbers option list gmap.
From Stdlib Require Import ZArith Lia Bool.
From S2P Require Import Prelude Attotime Device Scheduler Serial Duart DuartInv DuartFacts Crc16 Harddisk SdCard SdCsd SdSpi SdSession SdTransfer Memory Units Board RoscoM68k.

Definition autovector (level : Z) : Z := 0x18 + level.

Section CpuSpace.
Context {I T : Type} `{BlockImage I} `{AtaInterface T}.

#[local] Abbreviation M := (rosco_m68k I T).
#[local] Abbreviation St := (sched * M)%type.
#[local] Existing Instance board.

(** ** The handlers: none of them looks at the offset *)

Definition autovector_r (level : Z) : read_handler (W := St) := fun _ _ s => (autovector level, s).

Definition duart_vector_r : read_handler (W := St) := fun _ _ s =>
  let '(v, bd) := get_irq_vector (m_board s.2) in (v, on_machine (fun m => m <| m_board := bd |>) s).

(** ** The map *)

Definition autovectors_map {A} (f : Z -> A) : list (Z * Z * A) := map (fun level => (2 * level + 1, 2 * level + 1, f level)) [1; 2; 3; 4; 5; 6; 7].

(** A map inside a range of another. *)
Definition submap {A} (base : Z) (l : list (Z * Z * A)) : list (Z * Z * A) := map (fun '(lo, hi, f) => (base + lo, base + hi, f)) l.

Definition cpu_space_map {A} (base : Z) (f : Z -> A) (duart : A) : list (Z * Z * A) :=
  submap base (autovectors_map f) ++ [(base + 9, base + 9, duart)].

(** The last sixteen bytes of 24 or 32 bits of address. *)
Definition vectors_base (Width : Z) : Z := if Width =? 1 then 0xfffff0 else 0xfffffff0.
Definition m_addrmask (Width : Z) : Z := if Width =? 1 then 0xffffff else 0xffffffff.

Definition cpu_space_read (Width address mem_mask : Z) (s : St) : Z * St :=
  let a := Z.land address (m_addrmask Width) in
  match populated Width ENDIANNESS_BIG 0 (cpu_space_map (vectors_base Width) autovector_r duart_vector_r) a with
  | Some units => units_read Width units a mem_mask s
  | None => (unmap, s)
  end.

#[local] Instance cpu_space_16 : NativeBus St := { rop := cpu_space_read 1; wop _ _ _ s := s }.
#[local] Instance cpu_space_32 : NativeBus St := { rop := cpu_space_read 2; wop _ _ _ s := s }.

(** ** Acknowledging an interrupt

    The vector read of [m68ki_exception_interrupt]: a byte on the 68020 and
    68030, a word of which the high byte is dropped on the 68010.  The 68000
    has its own core, whose generated microcode reads the same word; it is
    taken to drop the high byte too. *)
Definition acknowledge (cpu : cpu_type) (int_level : Z) (s : St) : Z * St :=
  match cpu with
  | M68020 | M68030 =>
      @memory_read_generic St cpu_space_32 2 0 ENDIANNESS_BIG 0 true (Z.lor 0xfffffff1 (Z.shiftl int_level 1)) 0xff s
  | _ =>
      let '(v, s) := @rop St cpu_space_16 (native_address 1 0 (Z.lor 0xfffffff0 (Z.shiftl int_level 1))) 0xffff s in
      (Z.land v 0xff, s)
  end.

(** ** Which handler has which lane *)

(** The units of the word of a level, whatever the handlers are. *)
Lemma level_units_16 {A} (f : Z -> A) duart level : 1 <= level <= 7 ->
  populated 1 ENDIANNESS_BIG 0 (cpu_space_map 0xfffff0 f duart) (0xfffff0 + 2 * level) =
    Some [mk_subunit_info (if level =? 4 then duart else f level) (mk_entry 0xff 0xff 0 0 1) 0].
Proof.
  intros Hl. assert (level = 1 \/ level = 2 \/ level = 3 \/ level = 4 \/ level = 5 \/ level = 6 \/ level = 7)
    as [-> | [-> | [-> | [-> | [-> | [-> | ->]]]]]] by lia; vm_compute; reflexivity.
Qed.

(** On the 32-bit bus a word has the even level in its second byte and the odd
    one above it in its last. *)
Lemma level_units_32 {A} (f : Z -> A) duart k : 0 <= k <= 3 ->
  populated 2 ENDIANNESS_BIG 0 (cpu_space_map 0xfffffff0 f duart) (0xfffffff0 + 4 * k) =
    Some ((if k =? 0 then [] else [mk_subunit_info (if k =? 2 then duart else f (2 * k)) (mk_entry 0xff0000 0xff0000 0 16 1) 0]) ++
          [mk_subunit_info (f (2 * k + 1)) (mk_entry 0xff 0xff 0 0 3) 0]).
Proof.
  intros Hk. assert (k = 0 \/ k = 1 \/ k = 2 \/ k = 3) as [-> | [-> | [-> | ->]]] by lia; vm_compute; reflexivity.
Qed.

(** ** The vector of a level *)

Definition vector_read (level : Z) (s : St) : Z * St :=
  let '(v, s) := (if level =? 4 then duart_vector_r else autovector_r level) 0 0 s in (handler_entry_size_t 0 v, s).

Lemma handler_whatever level o m (s : St) :
  (if level =? 4 then duart_vector_r else autovector_r level) o m s = (if level =? 4 then duart_vector_r else autovector_r level) 0 0 s.
Proof. by destruct (level =? 4). Qed.

Lemma ack_address_16 level : 1 <= level <= 7 ->
  Z.land (native_address 1 0 (Z.lor 0xfffffff0 (Z.shiftl level 1))) (m_addrmask 1) = 0xfffff0 + 2 * level.
Proof.
  intros Hl. assert (level = 1 \/ level = 2 \/ level = 3 \/ level = 4 \/ level = 5 \/ level = 6 \/ level = 7)
    as [-> | [-> | [-> | [-> | [-> | [-> | ->]]]]]] by lia; vm_compute; reflexivity.
Qed.

Lemma acknowledge_word level (s : St) : 1 <= level <= 7 ->
  (let '(v, s) := @rop St cpu_space_16 (native_address 1 0 (Z.lor 0xfffffff0 (Z.shiftl level 1))) 0xffff s in (Z.land v 0xff, s)) =
    vector_read level s.
Proof.
  intros Hl. cbn [rop cpu_space_16]. unfold cpu_space_read. rewrite ack_address_16 by done. cbv zeta.
  change (vectors_base 1) with 0xfffff0. rewrite level_units_16 by done. unfold units_read. cbn [fold_left]. unfold read_unit, vector_read.
  cbn [m_entry m_handler m_width m_amask m_dshift]. change (test 0xffff 0xff) with true. cbv beta iota zeta. rewrite handler_whatever.
  destruct ((if level =? 4 then duart_vector_r else autovector_r level) 0 0 s) as [v s']. f_equal.
  change (m_unmap _ _ _) with 0. rewrite Z.lor_0_l, Z.shiftl_0_r, (size_of_size 1 0) by lia.
  unfold handler_entry_size_t. by rewrite <- Z.land_assoc.
Qed.

Lemma ack_address_32 level : 1 <= level <= 7 -> let a := Z.lor 0xfffffff1 (Z.shiftl level 1) in
  single_access 2 0 ENDIANNESS_BIG 0 true a = Some (if level mod 2 =? 0 then 16 else 0) /\
  Z.land (native_address 2 0 a) (m_addrmask 2) = 0xfffffff0 + 4 * (level / 2).
Proof.
  intros Hl. assert (level = 1 \/ level = 2 \/ level = 3 \/ level = 4 \/ level = 5 \/ level = 6 \/ level = 7)
    as [-> | [-> | [-> | [-> | [-> | [-> | ->]]]]]] by lia; vm_compute; done.
Qed.

(** The unit of a lane, when it is the one read and when it is not. *)
Lemma vector_unit a s level shift offset r : shift = 0 \/ shift = 16 ->
  read_unit 2 a (handler_entry_size_t 2 (Z.shiftl 0xff shift)) (r, s)
    (mk_subunit_info (if level =? 4 then duart_vector_r else autovector_r level)
       (mk_entry (Z.shiftl 0xff shift) (Z.shiftl 0xff shift) 0 shift offset) 0) =
  let '(v, s) := vector_read level s in (Z.lor r (Z.shiftl v shift), s).
Proof.
  intros Hs. unfold read_unit, vector_read. cbn [m_entry m_handler m_width m_amask m_dshift].
  assert (test (handler_entry_size_t 2 (Z.shiftl 0xff shift)) (Z.shiftl 0xff shift) = true) as -> by (by destruct Hs as [-> | ->]).
  rewrite handler_whatever. destruct ((if level =? 4 then duart_vector_r else autovector_r level) 0 0 s) as [v s']. f_equal. f_equal.
  apply Z.bits_inj'. intros i Hi. rewrite testbit_size, !Z.shiftl_spec by lia. change (width_bits 2) with 32.
  destruct (Z.ltb_spec i 32); [done|]. cbn [andb]. symmetry. apply (testbit_below 8); [lia|apply (size_range 0); lia|lia].
Qed.

Lemma acknowledge_byte level (s : St) : 1 <= level <= 7 ->
  @memory_read_generic St cpu_space_32 2 0 ENDIANNESS_BIG 0 true (Z.lor 0xfffffff1 (Z.shiftl level 1)) 0xff s = vector_read level s.
Proof.
  intros Hl. destruct (ack_address_32 level Hl) as [E1 E2]. cbv zeta in E1, E2. unfold memory_read_generic.
  change (pass_through 2 0 0 true ?a) with false. rewrite E1. cbv beta iota zeta. cbn [rop cpu_space_32].
  unfold cpu_space_read. rewrite E2. cbv zeta. change (vectors_base 2) with 0xfffffff0.
  rewrite level_units_32 by (Z.to_euclidean_division_equations; lia). unfold units_read.
  assert (forall (r : Z * St) shift, (shift = 0 \/ shift = 16) -> r = (let '(v, s) := vector_read level s in (Z.lor 0 (Z.shiftl v shift), s)) ->
    (let '(v, w) := r in (handler_entry_size_t 0 (Z.shiftr v shift), w)) = vector_read level s) as Hout.
  { intros r shift Hs ->. unfold vector_read. destruct ((if level =? 4 then duart_vector_r else autovector_r level) 0 0 s) as [v s'].
    rewrite Z.lor_0_l, Z.shiftr_shiftl_l, Z.sub_diag, Z.shiftl_0_r by lia. by rewrite (size_of_size 0 0) by lia. }
  destruct (Z.eqb_spec (level mod 2) 0) as [Ev|Od].
  - apply Hout; [by right|]. assert (level = 2 * (level / 2)) as El by (Z.to_euclidean_division_equations; lia).
    set (k := level / 2) in *. destruct (Z.eqb_spec k 0); [lia|]. cbn [app fold_left].
    assert ((k =? 2) = (level =? 4)) as -> by (destruct (Z.eqb_spec k 2), (Z.eqb_spec level 4); lia || done).
    replace (2 * k) with level by lia. change (m_unmap _ _ _) with 0.
    change (mk_entry 0xff0000 0xff0000 0 16 1) with (mk_entry (Z.shiftl 0xff 16) (Z.shiftl 0xff 16) 0 16 1).
    rewrite vector_unit by (by right). by destruct (vector_read level s).
  - apply Hout; [by left|]. assert (level = 2 * (level / 2) + 1) as El by (Z.to_euclidean_division_equations; lia).
    set (k := level / 2) in *.
    assert (autovector_r (2 * k + 1) = (if level =? 4 then duart_vector_r else autovector_r level)) as ->.
    { rewrite <- El. by destruct (Z.eqb_spec level 4); [lia|]. }
    assert (forall r : Z * St, read_unit 2 (0xfffffff0 + 4 * k) (handler_entry_size_t 2 (Z.shiftl 0xff 0)) r
      (mk_subunit_info (if k =? 2 then duart_vector_r else autovector_r (2 * k)) (mk_entry 0xff0000 0xff0000 0 16 1) 0) = r) as Hskip
      by (by intros []).
    change (mk_entry 0xff 0xff 0 0 3) with (mk_entry (Z.shiftl 0xff 0) (Z.shiftl 0xff 0) 0 0 3).
    destruct (Z.eqb_spec k 0); cbn [app fold_left]; rewrite ?Hskip; change (m_unmap _ _ _) with 0; by rewrite vector_unit by (by left).
Qed.

(** C16: Every interrupt level has its vector on all the boards: acknowledging
    level 4 reads the vector the DUART has been programmed with, and tells
    it that the vector has been read unless side effects are off; the other
    levels give their autovectors and touch no device, also where, on the
    32-bit boards, the DUART and level 5 answer on lanes of the same word. *)
Theorem interrupt_vectors cpu level (s : St) : 1 <= level <= 7 ->
  acknowledge cpu level s =
    if level =? 4 then
      (handler_entry_size_t 0 (IVR (m_board s.2).1),
       if w_side_effects_disabled (m_board s.2).2 then s
       else on_machine (fun m => m <| m_board ::= fun bd => (bd.1 <| m_read_vector := true |>, bd.2) |>) s)
    else (0x18 + level, s).
Proof.
  intros Hl. assert (acknowledge cpu level s = vector_read level s) as ->.
  { unfold acknowledge. destruct cpu; by apply acknowledge_word || by apply acknowledge_byte. }
  unfold vector_read. destruct (Z.eqb_spec level 4) as [->|Hne].
  - unfold duart_vector_r, get_irq_vector. destruct s as [sc [[d w] ? ? ? ? ? ? ?]]. cbn.
    destruct (w_side_effects_disabled w); reflexivity.
  - unfold autovector_r, autovector. rewrite size_below; [done|lia|change (2 ^ width_bits 0) with 256; lia].
Qed.
End CpuSpace.

(** ** Witness: the DUART programmed with vector 0x45 *)

#[local] Instance no_drive : AtaInterface unit := {
  cs0_r _ _ t := (0, t); cs0_w _ _ _ t := t; cs1_r _ _ t := (0, t); cs1_w _ _ _ t := t
}.

Definition programmed : sched * rosco_m68k (option memdisk) unit :=
  (powered.1, powered.2 <| m_board ::= fun bd => (bd.1 <| IVR := 0x45 |>, bd.2) |>).

Lemma interrupt_vectors_witness :
  (acknowledge M68020 4 programmed).1 = 0x45 /\ (acknowledge M68010 4 programmed).1 = 0x45 /\
  acknowledge M68030 5 programmed = (0x1d, programmed).
Proof.
  split; [|split].
  - rewrite (interrupt_vectors M68020 4 programmed) by lia. vm_compute. reflexivity.
  - rewrite (interrupt_vectors M68010 4 programmed) by lia. vm_compute. reflexivity.
  - rewrite (interrupt_vectors M68030 5 programmed) by lia. reflexivity.
Defined.
